(* ===== verification/_CoqProject ===== *)
-Q . S2P
Prelude.v
PyDict.v
PyVal.v
Directory.v
DirectoryFacts.v
DirectoryWitness.v
Mirror.v
Agent.v
Peers.v
PeersFacts.v
Threads.v
Registry.v
RegistryFacts.v
Base64.v
Attachments.v
AttachmentsFacts.v
Metrics.v
Trace.v
Rpc.v
RpcFacts.v
TestServices.v
Workers.v
WorkersFacts.v
DirProcess.v
Launcher.v
DirSvc.v
EventApi.v
EventLock.v
Connect.v
Discovery.v
Notify.v
Advertise.v
Results.v
Utils.v
Exceptions.v
Session.v
SessionFacts.v
Logging.v
Config.v
ConfigFacts.v
Docs.v
Glob.v
Suites.v
SuitesFacts.v
TestRunner.v
Process.v
AppUtil.v
AppUtilFacts.v
Hosts.v
Cursor.v
Stubs.v
Swig.v
SwigFacts.v
Telnet.v
Cmd.v
TelnetShell.v
TelnetFacts.v
TelnetShellFacts.v
Sessions.v
