(* ===== verification/Prelude.v ===== *)
(** * DEFw: verification of the Python runtime layer

    DEFw runs distributed experiments.  Every process hosts a native transport
    (C, under [src/]) and the Python runtime of [python/infra]; processes
    connect to each other, offer services, find them through a directory, and
    call them remotely.  This library models the Python runtime and its two
    core services as Rocq functions and proves what they promise.

    ** The parts and how they interact

    The native transport hands events to the worker ([defw_workers.py]).  A
    peer event updates the peer table ([defw_peers.py]), fails the requests
    that were waiting for a lost peer and, in the directory process, drives the
    directory ([defw_directory.py], served to others by [svc_dirsvc.py]).  A
    request is dispatched in a thread of its own against the object registry
    ([defw_common_def.py]) and answered; a response wakes the caller that waits
    for it.  Callers reach services through endpoints and proxies
    ([defw_agent.py], [defw_remote.py], [connect_to_services] of [defw.py]);
    large arguments travel beside the message ([defw_attachments.py]).  Around
    this core, [defw.py] configures the process, finds and runs experiment
    suites, loads service packages and reports results;
    [defw_app_util.py] starts and stops services; [svc_launcher.py] starts
    arbitrary processes; [defw_util.py] expands host lists.  A telnet console
    ([defw_telnetservlib.py], [defw_telnet_sr.py]) gives a user a shell in a
    running process; the test services and the experiments of
    [suite_framework] exercise the whole, and a runner
    ([python/tests/defw_test_runner.py]) starts them; a build script
    ([defw_external_swig.py]) wraps C libraries for use by services.

    ** Files

    Shared:
    - [Prelude]: results of fallible code ([res], the exception classes), the
      state-and-exception monad [M], its notations, tactics, hint databases and
      the generic lemmas.
    - [PyDict]: insertion-ordered dicts, refined to [gmap].
    - [PyVal]: the dynamically typed values of messages, truthiness, equality,
      [int()], [repr], texts and paths.
    - [Threads]: programs cut at their lock sections, run alone or interleaved.
    - [Base64], [Glob]: the parts of Python's library the code relies on for
      payloads and for selecting names ([fnmatch], [sorted]).

    Components, with the source each translates:
    - [Directory], [DirectoryFacts], [DirectoryWitness]:
      [python/infra/defw_directory.py].  State [dir] is the record table with
      listeners and subscriptions; one definition per method.  [Mirror]: what
      a subscriber knows from the events it is sent.
    - [DirSvc]: [python/services/svc_dirsvc/svc_dirsvc.py] and
      [defw_agent_baseapi.py].  Over it, the parts that span processes:
      [Discovery] (a service registers, a client resolves it and connects),
      [Notify] (a process subscribes an event queue of its own, through the
      proxies of [api_events.py]) and [Advertise] (the [query] methods of the
      services of this repository).
    - [Agent], [Peers], [PeersFacts]: [defw_agent.py], [defw_peers.py]; the
      table [peer_table] holds connections by handle and pending targets.
    - [Registry], [RegistryFacts]: [defw_common_def.py] 115-234; three dicts
      of handles and singletons, every lock section one step.
    - [Metrics], [Trace], [Rpc], [RpcFacts]: the statistics and message records
      of [defw_common_def.py], [defw_trace.py], [handle_rpc_req] of
      [defw_workers.py], [Agent.send_req].
    - [Workers], [WorkersFacts]: the event loop, the request database and the
      waiting calls of [defw_workers.py].
    - [DirProcess]: the worker and the directory of the directory process,
      with the temporary threads that hand peer events from one to the other.
    - [Attachments], [AttachmentsFacts]: [defw_attachments.py].
    - [Connect]: [defw.py] 1457-1571 and [defw_remote.py].
    - [EventApi]: [defw_event_baseapi.py]; [EventLock]: its conditional lock,
      and the calls of several threads cut into their steps.
    - [Launcher]: [python/services/svc_launcher/svc_launcher.py].
    - [AppUtil], [AppUtilFacts]: [defw_app_util.py].
    - [Results]: [defw.py] 78-320.
    - [Utils]: the rest of [defw_util.py], and small parts of [defw.py]
      (26-47, 147-151, 1161-1183), [defw_attachments.py] (159-175) and
      [defw_common_def.py] (130-138).
    - [TestRunner]: [python/tests/defw_test_runner.py], whole; the program the
      script writes is a text that is read back and run.
    - [Config], [ConfigFacts]: [defw.py] 34-42 and 1185-1428.
    - [Docs]: [defw.py] 322-371 and [Script.create_docs].
    - [Suites], [SuitesFacts]: [defw.py] 44-56, 372-395 and 480-970.
    - [Logging]: [defw_common_def.py] 269-548.
    - [Exceptions]: [defw_exception.py] and the text of [DEFwResult].
    - [Process]: [Myself] and the start-up code of [defw.py] (970-1160,
      1573-1613), which composes [Config], [Logging] and [Suites].
    - [Hosts]: [split_on_commas] and [expand_host_list] of [defw_util.py].
    - [TestServices]: the packages [svc_test_counter] and [svc_test_echo] as
      classes of the registry, and [BaseAgentAPI.query].
    - [Session], [SessionFacts]: the experiments of
      [python/experiments/suite_framework]: a client's host and a service
      process, joined by [remote_call].
    - [Cursor]: the collections of [defw.py] as iterators that share their
      place, and the updater thread.
    - [Stubs]: the signatures of [python/service-apis] beside those of the
      services.
    - [Swig], [SwigFacts]: [cmake/scripts/defw_external_swig.py]; the state
      [build] is what the script made, wrote, ran and printed.
    - [Cmd]: [defw_cmd.py], [defw_venv.py] and the rounding of [defw_util.py].
    - [Telnet], [TelnetFacts]: the state of a console session, its output, its
      option engine and its input cooker; [TelnetShell], [TelnetShellFacts]:
      its line editor, commands, handlers and interactive mode.  The two
      threads of a session are steps over one state; a step may also wait.
      [Sessions]: the sessions of one process, which share [sys.stdout].

    A stateful component is a record with one transition per method or per
    lock section; what a Python call changed before it raised stays changed.
    Clock readings, fresh identifiers, and whatever the network, the operating
    system, the file system, YAML, NumPy or service code answers are arguments
    of the definitions.  Where an answer may depend on the past, the argument
    is a function of the log of calls made so far ([AppUtil], [Suites]).

    ** What the theorems show

    - Directory: a well-formedness invariant over every sequence of calls
      ([directory_invariant]); a refinement of the table to one small state
      machine per service ([directory_refines_service_machine]); the exact
      effect of registration, deregistration, peer events, resolution and
      purging; generations never decrease and identify one runtime.
    - Discovery: registering a process that offers any service of the
      repository succeeds ([builtin_services_register]); a registered service
      is told to every client exactly as it was registered, and to none once
      its connection is lost ([registered_service_discovered]); the proxy a
      client gets talks to the runtime that registered
      ([proxy_reaches_registrant]).
    - Events: applying the events in order gives exactly the services that are
      up ([events_mirror_directory]), also in the queue another process
      subscribed ([subscriber_follows_directory]); threads that share a queue
      finish in every interleaving and lose nothing ([threads_share_queue]).
    - Peers: the table invariant; a lookup returns only a callable connection
      of the right runtime, finds one if there is one, and never a lost one.
    - Calls: a request is completed at most once and every pending one can be
      woken; waiting ends by its deadline; the loss of a peer fails exactly its
      requests; shutdown wakes every caller; what the caller gets is the
      outcome of the dispatch on the server ([rpc_end_to_end]).
    - Registry: consistency under every sequence of requests, and, under every
      interleaving without eviction, one object per singleton key.
    - Attachments: encoding and decoding are inverse for any mix of inline and
      remote-memory payloads; an unsent message releases what it registered.
    - Launcher, event queues, results: their invariants under any order of
      operations; reports are aligned and bounded.
    - Spawned services: each is listed or stopped and ports never collide,
      whatever the operating system answers; SIGKILL follows only a process
      that outlived every look.
    - Suites: a run executes exactly what is selected, records every outcome
      and stops only where it is told to; service packages are loaded by the
      rules of the configuration; the pattern matcher accepts exactly what its
      pattern denotes.
    - Test runner: the program it writes means what was configured, whatever
      characters the names contain, and its exit status is the verdict on the
      results ([program_status_is_verdict], [runner_starts_configured]).
    - Configuration, logging, documents, host lists: variables are
      substituted, search paths are ordered, defaults fill what is missing;
      exactly the selected log levels are written; the tagged sections of a
      document are found; a host list expands to exactly its hosts.
    - Processes and errors: start-up loads only what the environment allows and
      the directory service in the directory process alone; an error is
      reconstructed unchanged by its receiver.
    - Composition: the self-test experiments pass ([self_tests_pass]), with
      client, RPC layer, registry and services put together; the latest event
      of a peer decides the state of its services in the directory, whatever
      order the threads apply the events in ([latest_peer_event_decides]).
    - Telnet console: a written text is read back whatever the packets; no
      option is negotiated twice; the line editor refines a text with a cursor;
      a session's loop waits only for input; what is typed is what runs;
      sessions in interactive mode give the standard output back
      ([consoles_restore_stdout]), two that overlap without nesting do not.
    - Build script and commands: a well-typed configuration causes no type
      error; an entry is built exactly; a quoted command line runs as its
      arguments; stubs describe their services but for two methods.

    ** Bounds and fuel

    - A blocking wait gets the list of its wake-ups; [wait_terminates] shows
      the code stops by its deadline whatever the list holds.
    - A loop that polls until a timeout gets the number of its looks, or the
      states they see; theorems hold for every number.
    - The two text loops of [Hosts] get fuel one or two above the length of
      the text; [split_on_commas_total] shows that it always suffices.
    - The input cooker and the session's loop get a number of turns; more turns
      than characters or keys change nothing ([written_text_is_read],
      [session_waits_only_for_input]); the editor's own loop is given one turn
      more than there are keys.  The loop over quoted words is given as many
      turns as there are words, which suffices ([join_quotes_words]).
    - A run of threads or sessions is any finite sequence of steps; for event
      queues [threads_share_queue] also bounds its length.  A turn of a telnet
      session is one step of [Sessions].
    - [progress_bounds] of [SuitesFacts] is checked for runs of up to a hundred
      scripts, in binary64 arithmetic; everything else is unbounded.
    - Integers are Python's, hence unbounded; capability masks use bit
      operations on [Z].

    ** Not modelled

    - The native transport and its SWIG bindings (C, generated): arguments.
    - Signal handlers, attribute getters and printing helpers of [defw.py].
    - Terminal colours of [defw_util.py]: output.
    - Within modelled parts: how YAML prints a scalar, module reloading for
      debugging, opening the log file; rounding of the logarithm to a binary64
      number in [round_to_nearest_power_of_two]; the sockets, terminals and the Python
      console behind a telnet session; docstrings are those of Python before
      3.13, which keeps their indentation. *)

From stdpp Require Export base tactics list gmap strings.
From Stdlib Require Export ZArith Lia.

(** ** Results of fallible Python code

    A Python call either returns or raises.  The exception carries its class
    and the message it was raised with: the classes of
    [python/infra/defw_exception.py] and the built-in ones the modelled code
    can raise. *)

Inductive exc_class :=
  | EDEFwError
  | EDEFwNotFound
  | EDEFwInProgress
  | EDEFwCommError
  | EDEFwAgentNotFound
  | EDEFwInternalError
  | EDEFwRemoteError
  | EDEFwReserveError
  | ETypeError
  | EValueError
  | EKeyError
  | EIndexError
  | EAttributeError
  | ERuntimeError
  | EImportError
  | EOSError
  | EProcessLookupError
  | ETimeoutExpired
  | ENameError
  | EZeroDivisionError
  | EStopIteration
  | EEOFError
  | EUnicodeError
  | ESubprocessError.

#[export] Instance exc_class_eq_dec : EqDecision exc_class.
Proof. solve_decision. Defined.

Record pyexc := Exc { exc_type : exc_class; exc_msg : string }.

#[export] Instance pyexc_eq_dec : EqDecision pyexc.
Proof. solve_decision. Defined.

Inductive res (A : Type) :=
  | Ok (a : A)
  | Raise (e : pyexc).
Arguments Ok {A} a.
Arguments Raise {A} e.

Definition is_ok {A} (r : res A) : bool :=
  match r with Ok _ => true | Raise _ => false end.

Definition raises {A} (c : exc_class) (r : res A) : bool :=
  match r with Ok _ => false | Raise e => bool_decide (exc_type e = c) end.

Definition res_map {A B} (f : A → B) (r : res A) : res B :=
  match r with Ok a => Ok (f a) | Raise e => Raise e end.

(** ** The state-and-exception monad

    [M S A] is a computation over a mutable state [S]: whatever it did to the
    state before raising is kept, as in Python. *)

Definition M (S A : Type) : Type := S → S * res A.

Definition ret {S A} (a : A) : M S A := λ s, (s, Ok a).
Definition throw {S A} (c : exc_class) (msg : string) : M S A :=
  λ s, (s, Raise (Exc c msg)).
Definition bind {S A B} (m : M S A) (k : A → M S B) : M S B :=
  λ s, match m s with
       | (s', Ok a) => k a s'
       | (s', Raise e) => (s', Raise e)
       end.
Definition get {S} : M S S := λ s, (s, Ok s).
Definition modify {S} (f : S → S) : M S unit := λ s, (f s, Ok tt).
Definition lift_res {S A} (r : res A) : M S A := λ s, (s, r).
(** [try: m except Exception: h] *)
Definition try_with {S A} (m : M S A) (h : pyexc → M S A) : M S A :=
  λ s, match m s with
       | (s', Ok a) => (s', Ok a)
       | (s', Raise e) => h e s'
       end.
(** [try: m finally: f] *)
Definition finally {S A} (m : M S A) (f : M S unit) : M S A :=
  λ s, match m s with
       | (s1, r) => match f s1 with
                    | (s2, Ok _) => (s2, r)
                    | (s2, Raise e) => (s2, Raise e)
                    end
       end.
(** [raise] of the exception being handled *)
Definition rethrow {S A} (e : pyexc) : M S A := λ s, (s, Raise e).
(** [for x in l: f x] *)
Fixpoint for_each {S A} (f : A → M S unit) (l : list A) : M S unit :=
  match l with
  | [] => ret tt
  | x :: l' => bind (f x) (λ _, for_each f l')
  end.

(** [range(start, start + count)] *)
Fixpoint zrange (start : Z) (count : nat) : list Z :=
  match count with O => [] | S n => start :: zrange (start + 1)%Z n end.

(** Sequencing in the result type alone. *)
Definition rbind {A B} (r : res A) (k : A → res B) : res B :=
  match r with Ok a => k a | Raise e => Raise e end.

Fixpoint rmapM {A B} (f : A → res B) (l : list A) : res (list B) :=
  match l with
  | [] => Ok []
  | x :: l' => rbind (f x) (λ y, rbind (rmapM f l') (λ ys, Ok (y :: ys)))
  end.

Module PyNotations.
Declare Scope py_scope.
Delimit Scope py_scope with py.
Notation "'let!' x := m 'in' k" := (bind m (λ x, k))
  (at level 10, x pattern, m at level 100, k at level 200,
   format "'let!'  x  :=  m  'in' '//' k") : py_scope.
Notation "m ';;;' k" := (bind m (λ _, k))
  (at level 100, k at level 200, right associativity) : py_scope.
Notation "'let?' x := r 'in' k" := (rbind r (λ x, k))
  (at level 10, x pattern, r at level 100, k at level 200,
   format "'let?'  x  :=  r  'in' '//' k") : py_scope.
End PyNotations.

(** ** Automation

    [defw] holds the lemmas that close the common side conditions, [defw_rw]
    the rewrite rules on dicts and results. *)

Create HintDb defw discriminated.
Create Rewrite HintDb defw_rw.

(** Split conjunctions and boolean connectives of the context. *)
Ltac split_hyps :=
  repeat match goal with
         | H : _ ∧ _ |- _ => destruct H
         | H : ∃ _, _ |- _ => destruct H
         | H : _ && _ = true |- _ => apply andb_true_iff in H
         | H : _ || _ = false |- _ => apply orb_false_iff in H
         | H : negb _ = true |- _ => apply negb_true_iff in H
         | H : negb _ = false |- _ => apply negb_false_iff in H
         | H : Ok _ = Ok _ |- _ => injection H; clear H; intros; subst
         | H : Raise _ = Raise _ |- _ => injection H; clear H; intros; subst
         | H : (_, _) = (_, _) |- _ => injection H; clear H; intros; subst
         | H : Ok _ = Raise _ |- _ => discriminate H
         | H : Raise _ = Ok _ |- _ => discriminate H
         end.

(** Case analysis on the next [match]/[if] the goal or a hypothesis is
    stuck on, keeping the equation. *)
Ltac case_next :=
  match goal with
  | |- context [match ?x with _ => _ end] =>
      lazymatch x with
      | context [match _ with _ => _ end] => fail
      | _ => let E := fresh "E" in destruct x eqn:E
      end
  | H : context [match ?x with _ => _ end] |- _ =>
      lazymatch x with
      | context [match _ with _ => _ end] => fail
      | _ => let E := fresh "E" in destruct x eqn:E
      end
  end.

(** Two equations with the same left-hand side. *)
Ltac same_eqs :=
  repeat match goal with
         | H1 : ?x = ?a, H2 : ?x = ?b |- _ =>
             assert_fails (constr_eq a b); rewrite H1 in H2; simplify_eq
         end.

Ltac defw_simp := simpl in *; split_hyps; simplify_eq; try done.

(** ** Generic lemmas *)

Lemma for_each_app {S A} (f : A → M S unit) (l1 l2 : list A) (s : S) :
  for_each f (l1 ++ l2) s = bind (for_each f l1) (λ _, for_each f l2) s.
Proof.
  revert s; induction l1 as [|x l1 IH]; intros s; [done|]; simpl; unfold bind.
  destruct (f x s) as [s' [[]|e]]; [|done]. by rewrite IH.
Qed.

(** A loop whose body never raises folds its state transformer. *)
Lemma for_each_total {S A} (f : A → M S unit) (g : A → S → S) (l : list A) (s : S) :
  (∀ x s, f x s = (g x s, Ok tt)) →
  for_each f l s = (fold_left (λ s x, g x s) l s, Ok tt).
Proof.
  intros Hf; revert s; induction l as [|x l IH]; intros s; [done|].
  simpl; unfold bind. by rewrite Hf.
Qed.

Lemma for_each_inv {S A} (P : S → Prop) (f : A → M S unit) (l : list A) (s : S) :
  (∀ x s, P s → P (f x s).1) → P s → P (for_each f l s).1.
Proof.
  intros Hf; revert s; induction l as [|x l IH]; intros s Hs; [done|].
  simpl; unfold bind. specialize (Hf x s Hs).
  destruct (f x s) as [s' [[]|e]]; simpl in *; auto.
Qed.

Lemma for_each_ext {S A} (f g : A → M S unit) (l : list A) (s : S) :
  (∀ x s, x ∈ l → f x s = g x s) → for_each f l s = for_each g l s.
Proof.
  revert s; induction l as [|x l IH]; intros s Hfg; [done|]; simpl; unfold bind.
  rewrite Hfg by constructor. destruct (g x s) as [s' [[]|e]]; [|done].
  apply IH. intros; apply Hfg. by constructor.
Qed.

Lemma rmapM_length {A B} (f : A → res B) (l : list A) (k : list B) :
  rmapM f l = Ok k → length k = length l.
Proof.
  revert k; induction l as [|x l IH]; intros k; simpl; [by intros [= <-]|].
  destruct (f x); simpl; [|done].
  destruct (rmapM f l); simpl; [|done]. intros [= <-]. simpl. by rewrite IH.
Qed.

Lemma rmapM_ok {A B} (f : A → res B) (g : A → B) (l : list A) :
  (∀ x, x ∈ l → f x = Ok (g x)) → rmapM f l = Ok (map g l).
Proof.
  induction l as [|x l IH]; intros Hf; [done|]; simpl.
  rewrite Hf by constructor. simpl. rewrite IH; [done|].
  intros y Hy. apply Hf. by constructor.
Qed.

Lemma rmapM_In {A B} (f : A → res B) (l : list A) (k : list B) :
  rmapM f l = Ok k → ∀ y, y ∈ k ↔ ∃ x, x ∈ l ∧ f x = Ok y.
Proof.
  revert k; induction l as [|x l IH]; intros k; simpl.
  - intros [= <-] y. rewrite elem_of_nil. split; [done | by intros (? & ?%elem_of_nil & _)].
  - destruct (f x) as [y0|] eqn:E; simpl; [|done].
    destruct (rmapM f l) as [ys|]; simpl; [|done]. intros [= <-] y.
    rewrite elem_of_cons, (IH ys eq_refl). split.
    + intros [->|(x' & ? & ?)]; [exists x | exists x']; split; try done; by constructor.
    + intros (x' & [->|Hin]%elem_of_cons & Hx); [left; congruence | right; eauto].
Qed.

Lemma concat_In {A} (ls : list (list A)) (x : A) :
  x ∈ concat ls ↔ ∃ l, l ∈ ls ∧ x ∈ l.
Proof. rewrite list_elem_of_In, in_concat. by setoid_rewrite list_elem_of_In. Qed.

(** Texts *)
Lemma append_assoc (a b c : string) : (a +:+ (b +:+ c) = (a +:+ b) +:+ c)%string.
Proof. induction a as [|x a IH]; [done|]. exact (f_equal (String x) IH). Qed.
Lemma append_nil_r (a : string) : (a +:+ "" = a)%string.
Proof. induction a as [|x a IH]; [done|]. exact (f_equal (String x) IH). Qed.

Lemma list_map_In {A B} (f : A → B) (l : list A) (y : B) :
  y ∈ map f l ↔ ∃ x, x ∈ l ∧ y = f x.
Proof.
  rewrite list_elem_of_In, in_map_iff. setoid_rewrite list_elem_of_In. naive_solver.
Qed.

Lemma filter_all_true {A} (f : A → bool) (l : list A) :
  (∀ x, x ∈ l → f x = true) → List.filter f l = l.
Proof.
  induction l as [|x l IH]; intros Hf; [done|]; simpl.
  rewrite Hf by constructor. f_equal. apply IH. intros y Hy. apply Hf. by constructor.
Qed.

Lemma list_filter_In {A} (f : A → bool) (l : list A) (x : A) :
  x ∈ List.filter f l ↔ x ∈ l ∧ f x = true.
Proof. rewrite !list_elem_of_In. apply filter_In. Qed.

#[export] Hint Rewrite @list_filter_In : defw_rw.
