(* ===== verification/PyDict.v ===== *)
(** * Python dicts

    A Python dict keeps its keys in insertion order and that order is visible:
    it decides the order in which the directory returns its matches, in which
    a peer lookup scans, and in which listeners run.  A dict is therefore an
    association list, with the operations of the language written out:
    [d[k] = v] overwrites in place or appends, [del d[k]] / [d.pop(k, None)]
    remove the entry, [d.get(k)] looks it up, [d.update(e)] and
    [d.setdefault(k, v)] are folds of these.

    The abstract view of a dict is stdpp's [gmap], which forgets the order;
    [dict_abs] is the abstraction function and the [*_refines] lemmas show
    that each operation implements the map operation. *)

From S2P Require Import Prelude.

Abbreviation odict K V := (list (K * V)).

Section PyDict.
Context {K V : Type} `{EqDecision K}.
Implicit Types (d : odict K V) (k : K) (v : V).

Fixpoint dget d k : option V :=
  match d with
  | [] => None
  | (k', v) :: d' => if decide (k = k') then Some v else dget d' k
  end.

Definition dmem d k : bool :=
  match dget d k with Some _ => true | None => false end.

Fixpoint dset d k v : odict K V :=
  match d with
  | [] => [(k, v)]
  | (k', v') :: d' => if decide (k = k') then (k', v) :: d' else (k', v') :: dset d' k v
  end.

Definition ddel d k : odict K V :=
  List.filter (λ p, bool_decide (p.1 ≠ k)) d.

Definition dkeys d : list K := map fst d.
Definition dvals d : list V := map snd d.

Definition dsetdefault d k v : odict K V :=
  match dget d k with Some _ => d | None => dset d k v end.

Definition dupdate d (e : odict K V) : odict K V :=
  fold_left (λ acc p, dset acc p.1 p.2) e d.

(** [dict.get(k, default)] *)
Definition dget_or d k (dflt : V) : V :=
  match dget d k with Some v => v | None => dflt end.

(** A dict has each key once. *)
Definition dict_ok d : Prop := NoDup (dkeys d).

Lemma dict_ok_nil : dict_ok [].
Proof. constructor. Qed.

Lemma dget_dset_eq d k v : dget (dset d k v) k = Some v.
Proof.
  induction d as [|[k' v'] d IH]; simpl; [by rewrite decide_True|].
  case_decide; simpl; [by rewrite decide_True | by rewrite decide_False].
Qed.

Lemma dget_dset_ne d k k' v : k ≠ k' → dget (dset d k v) k' = dget d k'.
Proof.
  intros Hne; induction d as [|[k1 v1] d IH]; simpl; [by rewrite decide_False by done|].
  case_decide; simpl; subst; case_decide; naive_solver.
Qed.

Lemma dget_dset d k k' v :
  dget (dset d k v) k' = if decide (k = k') then Some v else dget d k'.
Proof.
  case_decide as H; subst; [apply dget_dset_eq | by apply dget_dset_ne].
Qed.

Lemma dget_ddel_eq d k : dget (ddel d k) k = None.
Proof.
  induction d as [|[k' v'] d IH]; simpl; [done|].
  case_bool_decide; simpl; [rewrite decide_False by done|]; done.
Qed.

Lemma dget_ddel_ne d k k' : k ≠ k' → dget (ddel d k) k' = dget d k'.
Proof.
  intros Hne; induction d as [|[k1 v1] d IH]; simpl; [done|].
  case_bool_decide as Hb; simpl; case_decide; subst; try done; exfalso; naive_solver.
Qed.

Lemma dget_ddel d k k' :
  dget (ddel d k) k' = if decide (k = k') then None else dget d k'.
Proof. case_decide as H; subst; [apply dget_ddel_eq | by apply dget_ddel_ne]. Qed.

Lemma dget_Some_In d k v : dget d k = Some v → (k, v) ∈ d.
Proof.
  induction d as [|[k' v'] d IH]; simpl; [done|].
  case_decide; subst; [intros [= ->]; constructor | intros ?; constructor; auto].
Qed.

Lemma In_dkeys d k v : (k, v) ∈ d → k ∈ dkeys d.
Proof. intros H%list_elem_of_In. by apply list_elem_of_In, (in_map fst _ (k, v)). Qed.

Lemma dget_In d k v : dict_ok d → (k, v) ∈ d → dget d k = Some v.
Proof.
  intros Hok Hin; induction d as [|[k' v'] d IH]; simpl; [by apply elem_of_nil in Hin|].
  apply NoDup_cons in Hok as [Hnin Hok]. apply elem_of_cons in Hin as [[= <- <-]|Hin].
  - by rewrite decide_True.
  - rewrite decide_False; [by apply IH|]. intros ->. apply Hnin. by eapply In_dkeys.
Qed.

Lemma dget_None d k : dget d k = None ↔ k ∉ dkeys d.
Proof.
  induction d as [|[k' v'] d IH]; simpl; [split; [intros _; apply not_elem_of_nil|done]|].
  rewrite not_elem_of_cons. case_decide; naive_solver.
Qed.

Lemma dget_is_Some d k : is_Some (dget d k) ↔ k ∈ dkeys d.
Proof.
  rewrite <- not_eq_None_Some. rewrite dget_None.
  destruct (decide (k ∈ dkeys d)); naive_solver.
Qed.

Lemma dkeys_dset d k v :
  dkeys (dset d k v) = if decide (k ∈ dkeys d) then dkeys d else dkeys d ++ [k].
Proof.
  induction d as [|[k' v'] d IH]; simpl; [done|].
  destruct (decide (k = k')) as [->|Hne]; simpl.
  - rewrite decide_True; [done | constructor].
  - rewrite IH. destruct (decide (k ∈ dkeys d)) as [Hin|Hin].
    + rewrite decide_True; [done | by constructor].
    + rewrite decide_False; [done|]. by rewrite not_elem_of_cons.
Qed.

Lemma dict_ok_dset d k v : dict_ok d → dict_ok (dset d k v).
Proof.
  unfold dict_ok. rewrite dkeys_dset. case_decide as Hin; [done|].
  intros Hok. apply NoDup_app. split_and!; [done | | apply NoDup_singleton].
  intros x Hx ->%list_elem_of_singleton. done.
Qed.

Lemma In_ddel d k k' v : (k', v) ∈ ddel d k ↔ (k', v) ∈ d ∧ k' ≠ k.
Proof. unfold ddel. rewrite list_filter_In. simpl. by rewrite bool_decide_eq_true. Qed.

Lemma dict_ok_filter d (f : K * V → bool) : dict_ok d → dict_ok (List.filter f d).
Proof.
  unfold dict_ok. induction d as [|p d IH]; simpl; [done|].
  intros [Hnin Hok]%NoDup_cons. destruct (f p); simpl; [|auto].
  apply NoDup_cons; split; [|auto]. intros Hin. apply Hnin.
  apply list_elem_of_In, in_map_iff in Hin as (q & Hq & Hin).
  apply filter_In in Hin as [Hin _]. apply list_elem_of_In. rewrite <- Hq. by apply in_map.
Qed.

(** A dict whose values know their own key. *)
Lemma filter_own_key d (f : V → K) (k : K) (v : V) :
  dict_ok d → (∀ k v, dget d k = Some v → f v = k) → dget d k = Some v →
  List.filter (λ v, bool_decide (f v = k)) (dvals d) = [v].
Proof.
  unfold dict_ok, dvals. revert v. induction d as [|[k' v'] d IH]; intros v; simpl; [done|].
  intros [Hn Hd]%NoDup_cons Hf Hg.
  assert (f v' = k') as Hv' by (apply Hf; by destruct (decide (k' = k'))).
  assert (∀ k v, dget d k = Some v → f v = k) as Hf'.
  { intros k0 v0 Hk0. apply Hf. destruct (decide (k0 = k')) as [Hc|Hc]; [|exact Hk0]. exfalso. apply Hn. rewrite <- Hc.
    apply dget_Some_In in Hk0. by eapply In_dkeys. }
  case_decide as Hk; simplify_eq.
  - rewrite bool_decide_true by done. f_equal.
    destruct (List.filter _ _) as [|w l] eqn:E; [done|]. exfalso.
    assert (w ∈ List.filter (λ v0, bool_decide (f v0 = f v)) (map snd d)) as Hin
      by (rewrite E; by left).
    apply list_filter_In in Hin as [([k0 w'] & Hin & ->)%list_map_In Hw].
    apply bool_decide_eq_true in Hw. simpl in *. apply Hn.
    rewrite <- Hw, (Hf' k0 w'); [by eapply In_dkeys | by apply dget_In].
  - rewrite bool_decide_false by congruence. by apply IH.
Qed.

Lemma dict_ok_ddel d k : dict_ok d → dict_ok (ddel d k).
Proof. apply dict_ok_filter. Qed.

Lemma dget_filter d (f : K * V → bool) k :
  dict_ok d →
  dget (List.filter f d) k =
    match dget d k with Some v => if f (k, v) then Some v else None | None => None end.
Proof.
  unfold dict_ok. induction d as [|[k' v'] d IH]; simpl; [done|].
  intros [Hnin Hok]%NoDup_cons. specialize (IH Hok).
  destruct (f (k', v')) eqn:Hf; simpl; case_decide; subst; rewrite ?Hf; try done.
  rewrite IH. apply dget_None in Hnin. by rewrite Hnin.
Qed.

(** [for k in ks: d.pop(k, None)] *)
Definition ddrop (ks : list K) d : odict K V :=
  List.filter (λ p, negb (bool_decide (p.1 ∈ ks))) d.

Lemma ddel_ddrop k ks d : ddrop ks (ddel d k) = ddrop (k :: ks) d.
Proof.
  unfold ddrop, ddel. induction d as [|[k' v] d IH]; [done|]; simpl.
  destruct (decide (k' = k)) as [->|Hne].
  - rewrite bool_decide_false by auto. rewrite bool_decide_true by (by left). done.
  - rewrite bool_decide_true by done. simpl. rewrite IH.
    by rewrite (bool_decide_ext (k' ∈ k :: ks) (k' ∈ ks)) by set_solver.
Qed.

Lemma ddrop_nil d : ddrop [] d = d.
Proof. by apply filter_all_true. Qed.

Lemma dget_ddrop ks d k :
  dict_ok d → dget (ddrop ks d) k = if decide (k ∈ ks) then None else dget d k.
Proof.
  intros Hd. unfold ddrop. rewrite dget_filter by done.
  destruct (dget d k) as [v|]; simpl; [|by case_decide].
  case_decide; [by rewrite bool_decide_true | by rewrite bool_decide_false].
Qed.

Lemma ddrop_keys d : ddrop (dkeys d) d = [].
Proof.
  destruct (ddrop (dkeys d) d) as [|[k v] l] eqn:E; [done|].
  assert ((k, v) ∈ ddrop (dkeys d) d) as [Hin Hk]%list_filter_In by (rewrite E; by left).
  rewrite bool_decide_true in Hk; [done|]. by eapply In_dkeys.
Qed.

Lemma ddel_not_in d k : k ∉ dkeys d → ddel d k = d.
Proof.
  intros Hnin. apply filter_all_true. intros [k' v'] Hin. simpl.
  apply bool_decide_eq_true. intros ->. apply Hnin. by eapply In_dkeys.
Qed.

Lemma dset_In_other d k k' v v' : k' ≠ k → (k', v') ∈ dset d k v ↔ (k', v') ∈ d.
Proof.
  intros Hne; induction d as [|[k1 v1] d IH]; simpl.
  - rewrite elem_of_cons, elem_of_nil. naive_solver.
  - case_decide; subst; rewrite !elem_of_cons; [naive_solver|]. rewrite IH. done.
Qed.

Lemma dset_dset d k v w : dset (dset d k v) k w = dset d k w.
Proof.
  induction d as [|[k' v'] d IH]; simpl; [by rewrite decide_True|].
  case_decide; simpl; [by rewrite decide_True | rewrite decide_False by done; by rewrite IH].
Qed.

Lemma ddel_dset_fresh d k v : dget d k = None → ddel (dset d k v) k = d.
Proof.
  induction d as [|[k' v'] d IH]; simpl; intros Hn; [by case_bool_decide|].
  case_decide; [done|]. simpl. rewrite bool_decide_eq_true_2 by done. f_equal. auto.
Qed.

Lemma dget_dupdate d (e : odict K V) k :
  dict_ok e →
  dget (dupdate d e) k = match dget e k with Some v => Some v | None => dget d k end.
Proof.
  unfold dupdate. revert d; induction e as [|[k' v'] e IH]; intros d; simpl; [done|].
  intros [Hnin Hok]%NoDup_cons. rewrite IH by done. rewrite dget_dset.
  case_decide as Hk; subst.
  - simpl in *. apply dget_None in Hnin. rewrite Hnin. by rewrite decide_True.
  - by rewrite decide_False by naive_solver.
Qed.

Lemma dict_ok_dupdate d (e : odict K V) : dict_ok d → dict_ok (dupdate d e).
Proof.
  unfold dupdate. revert d; induction e as [|[k' v'] e IH]; intros d Hok; simpl; [done|].
  apply IH. by apply dict_ok_dset.
Qed.

(** Assignments in sequence: the last one to a key counts. *)
Lemma dget_fold_dset {A} (f : A → K) (g : A → V) (l : list A) d k :
  dget (fold_left (λ d x, dset d (f x) (g x)) l d) k =
  match last (List.filter (λ x, bool_decide (f x = k)) l) with
  | Some x => Some (g x)
  | None => dget d k
  end.
Proof.
  induction l as [|x l IH] using rev_ind; [done|].
  rewrite fold_left_app, List.filter_app. simpl. rewrite dget_dset.
  destruct (decide (f x = k)) as [Hk|Hk].
  - rewrite bool_decide_true by done. by rewrite last_snoc.
  - rewrite bool_decide_false by done. by rewrite app_nil_r.
Qed.

Lemma dict_ok_fold_dset {A} (f : A → K) (g : A → V) (l : list A) d :
  dict_ok d → dict_ok (fold_left (λ d x, dset d (f x) (g x)) l d).
Proof. revert d. induction l as [|x l IH]; intros d Hd; simpl; [done|]. by apply IH, dict_ok_dset. Qed.

Lemma dget_dsetdefault d k v k' :
  dget (dsetdefault d k v) k' =
    if decide (k = k') then Some (default v (dget d k)) else dget d k'.
Proof.
  unfold dsetdefault. destruct (dget d k) eqn:E; [|by rewrite dget_dset].
  case_decide; subst; by rewrite ?E.
Qed.

Lemma dict_ok_dsetdefault d k v : dict_ok d → dict_ok (dsetdefault d k v).
Proof. unfold dsetdefault. destruct (dget d k); [done | apply dict_ok_dset]. Qed.

Lemma dmem_true d k : dmem d k = true ↔ k ∈ dkeys d.
Proof. unfold dmem. rewrite <- dget_is_Some. destruct (dget d k); naive_solver eauto. Qed.

Lemma dmem_false d k : dmem d k = false ↔ dget d k = None.
Proof. unfold dmem. destruct (dget d k); naive_solver. Qed.
End PyDict.

(** Updating every value in place, as a loop over [d.values()] that mutates
    the records it visits does. *)
Section PyDictMap.
Context {K V W : Type} `{EqDecision K}.

Definition dmap (f : V → W) (d : odict K V) : odict K W := map (λ p, (p.1, f p.2)) d.

Lemma dkeys_dmap (f : V → W) (d : odict K V) : dkeys (dmap f d) = dkeys d.
Proof. unfold dkeys, dmap. rewrite map_map. by apply map_ext. Qed.

Lemma dict_ok_dmap (f : V → W) (d : odict K V) : dict_ok d → dict_ok (dmap f d).
Proof. unfold dict_ok. by rewrite dkeys_dmap. Qed.

Lemma dget_dmap (f : V → W) (d : odict K V) (k : K) : dget (dmap f d) k = f <$> dget d k.
Proof. induction d as [|[k' v'] d IH]; simpl; [done|]. by case_decide. Qed.
End PyDictMap.

(** ** Refinement: dicts implement finite maps *)
Section PyDictRefinement.
Context {K V : Type} `{Countable K}.
Implicit Types (d : odict K V) (k : K) (v : V).

Definition dict_abs d : gmap K V := list_to_map d.

Lemma dict_abs_lookup d k : dict_abs d !! k = dget d k.
Proof.
  unfold dict_abs. induction d as [|[k' v'] d IH]; simpl; [apply lookup_empty|].
  rewrite lookup_insert. case_decide; case_decide; naive_solver.
Qed.

Lemma dset_refines d k v : dict_abs (dset d k v) = <[k := v]> (dict_abs d).
Proof.
  apply map_eq; intros k'. rewrite lookup_insert, !dict_abs_lookup. apply dget_dset.
Qed.

Lemma ddel_refines d k : dict_abs (ddel d k) = delete k (dict_abs d).
Proof.
  apply map_eq; intros k'. rewrite lookup_delete, !dict_abs_lookup. apply dget_ddel.
Qed.

Lemma dupdate_refines d (e : odict K V) :
  dict_ok e → dict_abs (dupdate d e) = dict_abs e ∪ dict_abs d.
Proof.
  intros Hok. apply map_eq; intros k'.
  rewrite lookup_union, !dict_abs_lookup, dget_dupdate by done.
  destruct (dget e k'), (dget d k'); done.
Qed.

(** Two dicts are equal as mappings when they agree on every key; the order
    of the entries does not matter. *)
Definition dict_equiv d (e : odict K V) : Prop := ∀ k, dget d k = dget e k.

#[export] Instance dict_equiv_equivalence : Equivalence dict_equiv.
Proof. split; unfold dict_equiv; [done | naive_solver | intros ??? H1 H2 k; by rewrite H1]. Qed.

#[export] Instance dset_proper : Proper (dict_equiv ==> eq ==> eq ==> dict_equiv) dset.
Proof. intros d e Hde k ? <- v ? <- k'. by rewrite !dget_dset, Hde. Qed.

#[export] Instance ddel_proper : Proper (dict_equiv ==> eq ==> dict_equiv) ddel.
Proof. intros d e Hde k ? <- k'. by rewrite !dget_ddel, Hde. Qed.

#[export] Instance dict_abs_proper : Proper (dict_equiv ==> eq) dict_abs.
Proof. intros d e Hde. apply map_eq; intros k. by rewrite !dict_abs_lookup. Qed.
End PyDictRefinement.

#[export] Hint Resolve dict_ok_nil dict_ok_dset dict_ok_ddel dict_ok_dupdate
  dict_ok_dsetdefault dict_ok_dmap dict_ok_filter : defw.
#[export] Hint Rewrite @dget_dset_eq @dget_ddel_eq @dget_dmap : defw_rw.
