(* ===== verification/PyVal.v ===== *)
(** * Python values

    The values that the modelled code receives from other processes (service
    metadata, peer events, resolution filters) are the ones a YAML message
    carries: [None], booleans, integers, strings, lists and string-keyed
    dicts, plus opaque objects compared by identity ([VObj]).  The code is
    dynamically typed and relies on Python's truthiness, [==] across
    [bool]/[int], [int()], [dict()] and [or]; they are written out here.
    Floating point numbers only occur as clock readings, which the components
    keep as [Z] ticks. *)

From S2P Require Import Prelude PyDict.
From stdpp Require Import pretty.
From Stdlib Require Import Ascii.

Local Open Scope string_scope.
Local Open Scope Z_scope.

Unset Elimination Schemes.
Inductive val :=
  | VNone
  | VBool (b : bool)
  | VInt (n : Z)
  | VStr (s : string)
  | VList (l : list val)
  | VDict (d : odict string val)
  | VObj (i : nat).
Set Elimination Schemes.

Abbreviation pydict := (odict string val).

(** Induction that reaches the elements of lists and dicts. *)
Section val_ind.
Variable P : val → Prop.
Hypothesis HNone : P VNone.
Hypothesis HBool : ∀ b, P (VBool b).
Hypothesis HInt : ∀ n, P (VInt n).
Hypothesis HStr : ∀ s, P (VStr s).
Hypothesis HList : ∀ l, Forall P l → P (VList l).
Hypothesis HDict : ∀ d, Forall (λ p, P p.2) d → P (VDict d).
Hypothesis HObj : ∀ i, P (VObj i).

Fixpoint val_ind (v : val) : P v :=
  match v with
  | VNone => HNone
  | VBool b => HBool b
  | VInt n => HInt n
  | VStr s => HStr s
  | VList l =>
      HList l ((fix go l : Forall P l :=
                  match l with
                  | [] => Forall_nil_2 _
                  | x :: l' => Forall_cons_2 _ _ _ (val_ind x) (go l')
                  end) l)
  | VDict d =>
      HDict d ((fix go d : Forall (λ p, P p.2) d :=
                  match d with
                  | [] => Forall_nil_2 _
                  | p :: d' => Forall_cons_2 _ _ _ (val_ind p.2) (go d')
                  end) d)
  | VObj i => HObj i
  end.
End val_ind.

(** ** Truthiness and [or] *)

Definition truthy (v : val) : bool :=
  match v with
  | VNone => false
  | VBool b => b
  | VInt n => negb (n =? 0)
  | VStr s => negb (String.eqb s "")
  | VList l => match l with [] => false | _ => true end
  | VDict d => match d with [] => false | _ => true end
  | VObj _ => true
  end.

Definition py_or (a b : val) : val := if truthy a then a else b.

(** ** Equality *)

Definition b2z (b : bool) : Z := if b then 1 else 0.

Fixpoint py_eqb (a b : val) {struct a} : bool :=
  match a, b with
  | VNone, VNone => true
  | VBool x, VBool y => Bool.eqb x y
  | VBool x, VInt n => b2z x =? n
  | VInt n, VBool x => n =? b2z x
  | VInt n, VInt m => n =? m
  | VStr s, VStr t => String.eqb s t
  | VList l, VList m =>
      (fix go l m :=
         match l, m with
         | [], [] => true
         | x :: l', y :: m' => py_eqb x y && go l' m'
         | _, _ => false
         end) l m
  | VDict d, VDict e =>
      Nat.eqb (length d) (length e) &&
      forallb (λ p, match dget e p.1 with Some w => py_eqb p.2 w | None => false end) d
  | VObj i, VObj j => Nat.eqb i j
  | _, _ => false
  end.

(** [x in l] on a list *)
Definition py_in_list (x : val) (l : list val) : bool := existsb (py_eqb x) l.

(** [x in (-1, None)] *)
Definition is_unset (v : val) : bool := py_eqb v (VInt (-1)) || py_eqb v VNone.

(** ** Dict access *)

Definition vget (d : pydict) (k : string) : val := default VNone (dget d k).
Definition vget_or (d : pydict) (k : string) (dflt : val) : val := default dflt (dget d k).

(** [d[k]] *)
Definition vindex (d : pydict) (k : string) : res val :=
  match dget d k with Some v => Ok v | None => Raise (Exc EKeyError k) end.

(** [dict(v)]: a dict is copied, a sequence of pairs is collected, anything
    else raises. *)
Definition pair_of (v : val) : res (string * val) :=
  match v with
  | VList [VStr k; w] => Ok (k, w)
  | _ => Raise (Exc ETypeError "cannot convert dictionary update sequence element")
  end.

Definition py_dict (v : val) : res pydict :=
  match v with
  | VDict d => Ok d
  | VList l => res_map (dupdate []) (rmapM pair_of l)
  | VStr s => if String.eqb s "" then Ok [] else Raise (Exc EValueError "dictionary update sequence element #0 has length 1; 2 is required")
  | _ => Raise (Exc ETypeError "object is not iterable")
  end.

(** [dict(v or {})] *)
Definition py_dict_or_empty (v : val) : res pydict := py_dict (py_or v (VDict [])).

(** The dict itself when [v] is one: [v.get(...)] on anything else raises. *)
Definition as_dict (v : val) : res pydict :=
  match v with
  | VDict d => Ok d
  | _ => Raise (Exc EAttributeError "object has no attribute 'get'")
  end.

(** ** Paths and splitting *)

(** [os.path.join(a, b)] *)
Definition path_join (a b : string) : string :=
  match b with
  | String "/" _ => b
  | _ =>
      match rev (String.list_ascii_of_string a) with
      | [] => b
      | c :: _ => if Ascii.eqb c "/" then (a ++ b)%string else (a ++ "/" ++ b)%string
      end
  end.

(** [s.split(sep)] for a one-character separator, [cur] the part read so far *)
Fixpoint split_on (sep : ascii) (cur s : string) : list string :=
  match s with
  | EmptyString => [cur]
  | String c s' =>
      if Ascii.eqb c sep then cur :: split_on sep "" s'
      else split_on sep (cur ++ String c EmptyString)%string s'
  end.

(** ** [int()] *)

Definition is_space (c : ascii) : bool :=
  let n := nat_of_ascii c in
  (Nat.eqb n 32 || (Nat.leb 9 n && Nat.leb n 13) || (Nat.leb 28 n && Nat.leb n 31))%bool.

Fixpoint lstrip_l (l : list ascii) : list ascii :=
  match l with
  | c :: l' => if is_space c then lstrip_l l' else l
  | [] => []
  end.

Definition strip_l (l : list ascii) : list ascii := rev (lstrip_l (rev (lstrip_l l))).

(** [s.upper()] and [s.lower()] *)
Definition upper_char (c : ascii) : ascii :=
  let n := nat_of_ascii c in
  if (Nat.leb 97 n && Nat.leb n 122)%bool then ascii_of_nat (n - 32) else c.

Fixpoint upper (s : string) : string :=
  match s with EmptyString => "" | String c s' => String (upper_char c) (upper s') end.

Definition lower_char (c : ascii) : ascii :=
  let n := nat_of_ascii c in
  if (Nat.leb 65 n && Nat.leb n 90)%bool then ascii_of_nat (n + 32) else c.

Fixpoint lower (s : string) : string :=
  match s with EmptyString => "" | String c s' => String (lower_char c) (lower s') end.

(** [s.strip()] *)
Definition strip (s : string) : string :=
  String.string_of_list_ascii (strip_l (String.list_ascii_of_string s)).

Definition digit_of (c : ascii) : option Z :=
  let n := nat_of_ascii c in
  if (Nat.leb 48 n && Nat.leb n 57)%bool then Some (Z.of_nat n - 48) else None.

(** Digits with single underscores between them, as [int()] accepts. *)
Fixpoint digits_val (acc : Z) (after_digit : bool) (l : list ascii) : option Z :=
  match l with
  | [] => if after_digit then Some acc else None
  | c :: l' =>
      if Ascii.eqb c "_" then if after_digit then digits_val acc false l' else None
      else match digit_of c with
           | Some d => digits_val (10 * acc + d) true l'
           | None => None
           end
  end.

Definition int_of_string (s : string) : option Z :=
  match strip_l (String.list_ascii_of_string s) with
  | "-"%char :: l => Z.opp <$> digits_val 0 false l
  | "+"%char :: l => digits_val 0 false l
  | l => digits_val 0 false l
  end.

Definition py_int (v : val) : res Z :=
  match v with
  | VInt n => Ok n
  | VBool b => Ok (b2z b)
  | VStr s => match int_of_string s with
              | Some n => Ok n
              | None => Raise (Exc EValueError "invalid literal for int() with base 10")
              end
  | _ => Raise (Exc ETypeError "int() argument must be a string, a bytes-like object or a real number")
  end.

(** [a < b]: numbers and strings are ordered, other pairs raise. *)
Definition as_number (v : val) : option Z :=
  match v with VInt n => Some n | VBool b => Some (b2z b) | _ => None end.

Definition py_lt (a b : val) : res bool :=
  match as_number a, as_number b with
  | Some n, Some m => Ok (n <? m)
  | _, _ =>
      match a, b with
      | VStr s, VStr t => Ok (String.ltb s t)
      | _, _ => Raise (Exc ETypeError "'<' not supported between instances")
      end
  end.

(** [repr] of a text: quoted with ['] unless it holds one and no double quote. *)
Definition dquote : ascii := ascii_of_nat 34.

Definition hex_digit (n : nat) : ascii := ascii_of_nat (if Nat.ltb n 10 then 48 + n else 87 + n).

Definition repr_char (q c : ascii) : list ascii :=
  let n := nat_of_ascii c in
  if (Ascii.eqb c q || Ascii.eqb c "\")%bool then ["\"%char; c]
  else if Nat.eqb n 9 then ["\"; "t"]%char
  else if Nat.eqb n 10 then ["\"; "n"]%char
  else if Nat.eqb n 13 then ["\"; "r"]%char
  else if (Nat.ltb n 32 || Nat.eqb n 127)%bool
       then ["\"%char; "x"%char; hex_digit (n / 16); hex_digit (n mod 16)]
  else [c].

Definition repr_str (s : string) : string :=
  let l := String.list_ascii_of_string s in
  let q := if (existsb (Ascii.eqb "'") l && negb (existsb (Ascii.eqb dquote) l))%bool
           then dquote else "'"%char in
  String.string_of_list_ascii (q :: List.flat_map (repr_char q) l ++ [q]).

(** [repr(v)]; an opaque object prints as such. *)
Fixpoint py_repr (v : val) : string :=
  match v with
  | VNone => "None"
  | VBool true => "True"
  | VBool false => "False"
  | VInt n => pretty n
  | VStr s => repr_str s
  | VList l => "[" ++ String.concat ", " (map py_repr l) ++ "]"
  | VDict d => "{" ++ String.concat ", " (map (λ p, repr_str p.1 ++ ": " ++ py_repr p.2) d) ++ "}"
  | VObj _ => "<object>"
  end%string.

(** [str(v)], also as an f-string formats it: a text is itself. *)
Definition py_fmt (v : val) : string :=
  match v with VStr s => s | _ => py_repr v end.

Example py_repr_nested :
  py_fmt (VDict [("a", VList [VInt 1; VStr "it's"; VNone]); ("b", VBool true)]) =
  ("{'a': [1, " ++ String dquote ("it's" ++ String dquote ", None], 'b': True}"))%string.
Proof. reflexivity. Qed.

(** ** Hashable keys

    A value used as a dict key is identified up to Python's [==]: [True] and
    [1] are the same key, lists and dicts are not hashable. *)

Inductive hkey :=
  | KNone
  | KInt (n : Z)
  | KStr (s : string)
  | KObj (i : nat).

#[export] Instance hkey_eq_dec : EqDecision hkey.
Proof. solve_decision. Defined.

#[export] Instance hkey_countable : Countable hkey.
Proof.
  refine (inj_countable'
    (λ k, match k with
          | KNone => inl (inl tt)
          | KInt n => inl (inr n)
          | KStr s => inr (inl s)
          | KObj i => inr (inr i)
          end)
    (λ x, match x with
          | inl (inl _) => KNone
          | inl (inr n) => KInt n
          | inr (inl s) => KStr s
          | inr (inr i) => KObj i
          end) _).
  by intros [].
Defined.

Definition hash_key (v : val) : res hkey :=
  match v with
  | VNone => Ok KNone
  | VBool b => Ok (KInt (b2z b))
  | VInt n => Ok (KInt n)
  | VStr s => Ok (KStr s)
  | VObj i => Ok (KObj i)
  | VList _ => Raise (Exc ETypeError "unhashable type: 'list'")
  | VDict _ => Raise (Exc ETypeError "unhashable type: 'dict'")
  end.

(** ** Iteration and membership *)

Fixpoint chars_of (s : string) : list val :=
  match s with
  | EmptyString => []
  | String c s' => VStr (String c EmptyString) :: chars_of s'
  end.

(** [for x in v] *)
Definition py_iter (v : val) : res (list val) :=
  match v with
  | VList l => Ok l
  | VDict d => Ok (map VStr (dkeys d))
  | VStr s => Ok (chars_of s)
  | _ => Raise (Exc ETypeError "object is not iterable")
  end.

Definition str_contains (t s : string) : bool :=
  match String.index 0 t s with Some _ => true | None => false end.

(** [x in v] *)
Definition py_contains (x v : val) : res bool :=
  match v, x with
  | VList l, _ => Ok (py_in_list x l)
  | VDict d, VStr k => Ok (dmem d k)
  | VDict _, (VList _ | VDict _) => Raise (Exc ETypeError "unhashable type")
  | VDict _, _ => Ok false
  | VStr s, VStr t => Ok (str_contains t s)
  | VStr _, _ => Raise (Exc ETypeError "'in <string>' requires string as left operand")
  | _, _ => Raise (Exc ETypeError "argument is not iterable")
  end.

(** ** Lemmas *)

Lemma pretty_go_nonempty x s : s ≠ ""%string → pretty_N_go x s ≠ ""%string.
Proof.
  revert s. induction x as [x IH] using (well_founded_induction N.lt_wf_0); intros s Hs.
  destruct (decide (0 < x)%N) as [Hx|Hx].
  - rewrite pretty_N_go_step by done. apply IH; [by apply N.div_lt | done].
  - replace x with 0%N by lia. by rewrite pretty_N_go_0.
Qed.

(** A value that counts as true never prints as the empty text. *)
Lemma py_fmt_nonempty v : truthy v = true → py_fmt v ≠ ""%string.
Proof.
  destruct v as [|[]|[|p|p]|s| | |]; try done; intros Ht.
  - change (pretty_N_go (Npos p) "" ≠ "")%string. rewrite pretty_N_go_step by done. by apply pretty_go_nonempty.
  - cbn [py_fmt]. by intros ->.
Qed.

Lemma py_or_truthy a b : truthy a = true → py_or a b = a.
Proof. unfold py_or. by intros ->. Qed.

Lemma py_or_falsy a b : truthy a = false → py_or a b = b.
Proof. unfold py_or. by intros ->. Qed.

Lemma py_eqb_str s t : py_eqb (VStr s) (VStr t) = true ↔ s = t.
Proof. apply String.eqb_eq. Qed.

(** Equality of hashable values is equality of their keys. *)
Lemma hash_key_eqb a b ka kb :
  hash_key a = Ok ka → hash_key b = Ok kb → py_eqb a b = true ↔ ka = kb.
Proof.
  destruct a, b; simpl; intros [= <-] [= <-]; try (split; [done | intros [=]; done]);
    rewrite ?Z.eqb_eq, ?String.eqb_eq, ?Nat.eqb_eq; try naive_solver;
    try (split; [intros; congruence | intros [=]; congruence]).
  destruct b, b0; simpl; naive_solver.
Qed.

Lemma val_eqb_list_refl (l : list val) :
  Forall (λ v, py_eqb v v = true) l → py_eqb (VList l) (VList l) = true.
Proof. induction 1 as [|x l Hx _ IH]; [done|]. simpl in *. by rewrite Hx, IH. Qed.

(** Well-formed values: every dict inside has each key once. *)
Inductive val_ok : val → Prop :=
  | ok_none : val_ok VNone
  | ok_bool b : val_ok (VBool b)
  | ok_int n : val_ok (VInt n)
  | ok_str s : val_ok (VStr s)
  | ok_list l : Forall val_ok l → val_ok (VList l)
  | ok_dict d : dict_ok d → Forall (λ p, val_ok p.2) d → val_ok (VDict d)
  | ok_obj i : val_ok (VObj i).

Lemma py_eqb_refl v : val_ok v → py_eqb v v = true.
Proof.
  induction v as [|b|n|s|l IH|d IH|i] using val_ind; intros Hok; simpl;
    rewrite ?Z.eqb_refl, ?String.eqb_refl, ?Nat.eqb_refl; try done; [by destruct b| |].
  - apply val_eqb_list_refl. inversion Hok as [| | | |? Hl| |]; subst.
    rewrite Forall_forall in *. auto.
  - inversion Hok as [| | | | |? Hd Hl|]; subst. simpl.
    apply forallb_forall. intros [k v] Hin%list_elem_of_In. simpl.
    rewrite (dget_In d k v) by done. rewrite Forall_forall in IH, Hl.
    by apply (IH (k, v)), (Hl (k, v)).
Qed.

#[export] Hint Resolve py_eqb_refl : defw.

(** Scalars are compared symmetrically. *)
Lemma py_eqb_scalar_sym a b ka kb :
  hash_key a = Ok ka → hash_key b = Ok kb → py_eqb a b = py_eqb b a.
Proof.
  intros Ha Hb. apply eq_bool_prop_intro.
  rewrite !Is_true_true, (hash_key_eqb a b ka kb), (hash_key_eqb b a kb ka) by done.
  naive_solver.
Qed.

(** Equal values have the same truth value. *)
Lemma py_eqb_truthy a b : py_eqb a b = true → truthy a = truthy b.
Proof.
  destruct a as [|x|n|s|[|x l]|d|i], b as [|y|m|t|[|y k]|e|j]; simpl; try done;
    rewrite ?andb_true_iff, ?Z.eqb_eq, ?String.eqb_eq, ?Bool.eqb_true_iff; intros H;
    try (by destruct H); subst; try done; try (by destruct x); try (by destruct y).
  destruct H as [H _]. apply Nat.eqb_eq in H. by destruct d, e.
Qed.
