(* ===== verification/Directory.v ===== *)
(** * The service directory ([python/infra/defw_directory.py])

    The directory is the table of services of a deployment: which runtime
    serves a [service_id], over which peer connection, with which API
    bindings, and in which state.  Its state is the record [dir]: the record
    table, the lifecycle listeners and the event subscriptions; [dlog] is the
    sequence of calls it made to listeners and subscriber callbacks, whose
    exceptions the code swallows.  Clock readings ([time.time()]) and fresh
    identifiers ([uuid.uuid4()]) are arguments. *)

From S2P Require Import Prelude PyDict PyVal.

Local Open Scope string_scope.
Local Open Scope Z_scope.
Local Open Scope list_scope.
Import PyNotations.
Local Open Scope py_scope.

Inductive svc_state := STATE_UP | STATE_DOWN | STATE_TIMED_OUT | STATE_DEREGISTERED.

#[export] Instance svc_state_eq_dec : EqDecision svc_state.
Proof. solve_decision. Defined.

Definition state_str (s : svc_state) : string :=
  match s with
  | STATE_UP => "UP"
  | STATE_DOWN => "DOWN"
  | STATE_TIMED_OUT => "TIMED_OUT"
  | STATE_DEREGISTERED => "DEREGISTERED"
  end.

Definition DEFAULT_RETENTION_SECONDS : Z := 300.
Definition SERVICE_CONNECTED : string := "SERVICE_CONNECTED".
Definition SERVICE_DISCONNECTED : string := "SERVICE_DISCONNECTED".
Definition SERVICE_EVENT_TYPES : list string := [SERVICE_CONNECTED; SERVICE_DISCONNECTED].
Definition SERVICE_EVENT_FILTERS : list string := ["service_id"; "service_type"].

(** A stored service record: the dict [registered] that [register_service]
    builds. *)
Record svc_record := SvcRecord {
  service_id : val;
  service_name : val;
  service_type : val;
  runtime_id : val;
  peer_handle : val;
  generation : Z;
  endpoint : pydict;
  api_bindings : list pydict;
  selector : pydict;
  properties : pydict;
  capability : pydict;
  qpm_type : val;
  qpm_capabilities : val;
  state : svc_state;
  last_seen : Z;
  state_changed_at : Z;
  down_reason : val;
  retention_deadline : option Z
}.

(** The same record as the dict it is, for the code that reads a field by
    name. *)
Definition record_dict (r : svc_record) : pydict :=
  [("service_id", service_id r); ("service_name", service_name r);
   ("service_type", service_type r); ("runtime_id", runtime_id r);
   ("peer_handle", peer_handle r); ("generation", VInt (generation r));
   ("endpoint", VDict (endpoint r));
   ("api_bindings", VList (map VDict (api_bindings r)));
   ("selector", VDict (selector r)); ("properties", VDict (properties r));
   ("capability", VDict (capability r)); ("qpm_type", qpm_type r);
   ("qpm_capabilities", qpm_capabilities r); ("state", VStr (state_str (state r)));
   ("last_seen", VInt (last_seen r)); ("state_changed_at", VInt (state_changed_at r));
   ("down_reason", down_reason r);
   ("retention_deadline", match retention_deadline r with Some t => VInt t | None => VNone end)].

(** [record['state'] = ...; record['endpoint'] = {}; ...] of a deregistration *)
Definition mark_deregistered (now retention : Z) (r : svc_record) : svc_record :=
  SvcRecord (service_id r) (service_name r) (service_type r) (runtime_id r) (peer_handle r)
    (generation r) [] (api_bindings r) (selector r) (properties r) (capability r)
    (qpm_type r) (qpm_capabilities r) STATE_DEREGISTERED (last_seen r) now (down_reason r)
    (Some (now + retention)).

(** The assignments of a lost peer. *)
Definition mark_lost (now retention : Z) (reason : val) (r : svc_record) : svc_record :=
  SvcRecord (service_id r) (service_name r) (service_type r) (runtime_id r) (peer_handle r)
    (generation r) (endpoint r) (api_bindings r) (selector r) (properties r) (capability r)
    (qpm_type r) (qpm_capabilities r)
    (if py_eqb reason (VStr "heartbeat-timeout") then STATE_TIMED_OUT else STATE_DOWN)
    now now reason (Some (now + retention)).

(** The assignments of a peer that is ready again. *)
Definition mark_ready (now : Z) (r : svc_record) : svc_record :=
  SvcRecord (service_id r) (service_name r) (service_type r) (runtime_id r) (peer_handle r)
    (generation r) (endpoint r) (api_bindings r) (selector r) (properties r) (capability r)
    (qpm_type r) (qpm_capabilities r) STATE_UP now now (VStr "") None.

(** [record['last_seen'] = now] *)
Definition touch (now : Z) (r : svc_record) : svc_record :=
  SvcRecord (service_id r) (service_name r) (service_type r) (runtime_id r) (peer_handle r)
    (generation r) (endpoint r) (api_bindings r) (selector r) (properties r) (capability r)
    (qpm_type r) (qpm_capabilities r) (state r) now (state_changed_at r) (down_reason r)
    (retention_deadline r).

Record registration := Registration {
  registration_id : string;
  reg_event_type : string;
  subscriber_runtime_id : string;
  callback : nat;
  reg_filters : pydict
}.

(** The event dict a subscriber's [put] receives. *)
Record service_event := ServiceEvent {
  ev_event : string;
  ev_directory_runtime_id : string;
  ev_service_id : val;
  ev_service_type : val;
  ev_runtime_id : val;
  ev_peer_handle : val;
  ev_service_record : option svc_record;
  ev_reason : option val
}.

Inductive dir_call :=
  | CallListener (listener : nat) (event_type : string) (service_record : svc_record)
      (peer_event : pydict) (reason : val) (details : pydict)
  | CallPut (callback : nat) (event : service_event).

Record dir := Dir {
  records : odict hkey svc_record;
  retention_seconds : Z;
  lifecycle_listeners : list nat;
  event_registrations : odict string (odict string registration);
  runtime_id_provider : string;
  dlog : list dir_call
}.

Definition init_dir (retention : Z) (provider : string) : dir :=
  Dir [] retention [] [] provider [].

Definition set_records (rs : odict hkey svc_record) (d : dir) : dir :=
  Dir rs (retention_seconds d) (lifecycle_listeners d) (event_registrations d)
    (runtime_id_provider d) (dlog d).
Definition set_listeners (ls : list nat) (d : dir) : dir :=
  Dir (records d) (retention_seconds d) ls (event_registrations d)
    (runtime_id_provider d) (dlog d).
Definition set_registrations (er : odict string (odict string registration)) (d : dir) : dir :=
  Dir (records d) (retention_seconds d) (lifecycle_listeners d) er
    (runtime_id_provider d) (dlog d).
Definition log_calls (cs : list dir_call) (d : dir) : dir :=
  Dir (records d) (retention_seconds d) (lifecycle_listeners d) (event_registrations d)
    (runtime_id_provider d) (dlog d ++ cs).

(** ** Module-level helpers *)

(** [_copy_record]: the copy a caller or a listener gets; every container
    field is rebuilt. *)
Definition copy_record (r : svc_record) : svc_record :=
  SvcRecord (service_id r) (service_name r) (service_type r) (runtime_id r) (peer_handle r)
    (generation r) (dupdate [] (endpoint r)) (map (dupdate []) (api_bindings r))
    (dupdate [] (selector r)) (dupdate [] (properties r)) (dupdate [] (capability r))
    (qpm_type r) (qpm_capabilities r) (state r) (last_seen r) (state_changed_at r)
    (down_reason r) (retention_deadline r).

(** [_normalize_bindings] *)
Definition normalize_bindings (record : pydict) : res (list pydict) :=
  let bindings := py_or (vget record "api_bindings") (VList []) in
  if truthy bindings then
    let? l := py_iter bindings in
    rmapM py_dict l
  else Raise (Exc EDEFwError "Directory registration missing api_bindings").

(** [_record_value] *)
Fixpoint first_set (d : pydict) (names : list string) : option val :=
  match names with
  | [] => None
  | n :: names' => if is_unset (vget d n) then first_set d names' else Some (vget d n)
  end.

Definition record_value (record : pydict) (names : list string) : res val :=
  match first_set record names with
  | Some v => Ok v
  | None =>
      let? properties := as_dict (py_or (vget record "properties") (VDict [])) in
      match first_set properties names with
      | Some v => Ok v
      | None => Ok (VInt (-1))
      end
  end.

(** [_bits_match] *)
Definition bits_match (record_bits requested_bits : val) : bool :=
  if is_unset requested_bits then true
  else if is_unset record_bits then false
  else match py_int record_bits, py_int requested_bits with
       | Ok rec, Ok req =>
           if req =? 0 then true
           else if rec =? 0 then false
           else Z.land req rec =? req
       | _, _ => false
       end.

(** ** Listeners and subscriptions *)

(** [add_lifecycle_listener]: a listener is its identity; [is_callable] is
    [callable(listener)]. *)
Definition add_lifecycle_listener (listener : nat) (is_callable : bool) : M dir nat :=
  if is_callable then
    modify (λ d, if bool_decide (listener ∈ lifecycle_listeners d) then d
                 else set_listeners (lifecycle_listeners d ++ [listener]) d) ;;;
    ret listener
  else throw EDEFwError "Directory lifecycle listener is not callable".

(** [list.remove(x)]: the first occurrence goes. *)
Fixpoint remove_first (x : nat) (l : list nat) : list nat :=
  match l with
  | [] => []
  | y :: l' => if decide (x = y) then l' else y :: remove_first x l'
  end.

Definition remove_lifecycle_listener (listener : nat) : M dir unit :=
  modify (λ d, if bool_decide (listener ∈ lifecycle_listeners d)
               then set_listeners (remove_first listener (lifecycle_listeners d)) d else d).

(** [register_event_notification]: [callback] is [None] or an object with its
    identity and whether it has a callable [put]; [new_id] is the fresh
    [uuid4]. *)
Definition register_event_notification (callback : option (nat * bool)) (event_type : string)
    (subscriber_runtime_id filters : val) (new_id : string) : M dir string :=
  if negb (bool_decide (event_type ∈ SERVICE_EVENT_TYPES)) then
    throw EDEFwError "Unsupported directory event type"
  else if negb (truthy subscriber_runtime_id) then
    throw EDEFwError "Directory event registration missing subscriber runtime ID"
  else
    match callback with
    | Some (cb, true) =>
        let! filters := lift_res (py_dict_or_empty filters) in
        if existsb (λ k, negb (bool_decide (k ∈ SERVICE_EVENT_FILTERS))) (dkeys filters) then
          throw EDEFwError "Unsupported directory event filters"
        else
          let reg := Registration new_id event_type (py_fmt subscriber_runtime_id) cb filters in
          modify (λ d, let er := dsetdefault (event_registrations d) event_type [] in
                       set_registrations
                         (dset er event_type (dset (dget_or er event_type []) new_id reg)) d) ;;;
          ret new_id
    | _ => throw EDEFwError "Directory event callback must expose put(event)"
    end.

(** [unregister_event_notification]: the loop over the per-type tables stops
    at the first one that had the registration. *)
Fixpoint pop_registration (id : string) (er : odict string (odict string registration))
    : odict string (odict string registration) * bool :=
  match er with
  | [] => ([], false)
  | (t, regs) :: er' =>
      if dmem regs id then ((t, ddel regs id) :: er', true)
      else let '(er'', b) := pop_registration id er' in ((t, regs) :: er'', b)
  end.

Definition unregister_event_notification (id : string) : M dir bool :=
  λ d, let '(er, b) := pop_registration id (event_registrations d) in
       (set_registrations er d, Ok b).

(** [__notify_lifecycle] *)
Definition notify_lifecycle (event_type : string) (service_record : svc_record)
    (peer_event : pydict) (reason : val) (details : pydict) : M dir unit :=
  modify (λ d, log_calls
                 (map (λ l, CallListener l event_type service_record peer_event reason details)
                      (lifecycle_listeners d)) d).

(** [__event_matches] *)
Definition event_matches (filters : pydict) (record : svc_record) : bool :=
  forallb (λ p, negb (truthy p.2) || py_eqb (vget (record_dict record) p.1) p.2) filters.

(** The event [__publish_service_event] builds. *)
Definition make_event (provider : string) (event_type : string) (record : svc_record)
    (reason : val) : service_event :=
  ServiceEvent event_type provider (service_id record) (service_type record)
    (runtime_id record) (peer_handle record)
    (if String.eqb event_type SERVICE_CONNECTED then Some (copy_record record) else None)
    (if String.eqb event_type SERVICE_CONNECTED then None
     else Some (py_or reason (down_reason record))).

(** [__publish_service_event] *)
Definition publish_service_event (event_type : string) (record : svc_record) (reason : val)
    : M dir unit :=
  modify (λ d,
    let regs := List.filter (λ g, event_matches (reg_filters g) record)
                  (dvals (dget_or (event_registrations d) event_type [])) in
    log_calls (map (λ g, CallPut (callback g)
                           (make_event (runtime_id_provider d) event_type record reason))
                   regs) d).

(** [__remove_subscriber] *)
Definition remove_subscriber (rid : val) : M dir unit :=
  modify (λ d,
    set_registrations
      (List.filter (λ p, negb (Nat.eqb (length p.2) 0))
        (dmap (List.filter
                 (λ p, negb (py_eqb (VStr (subscriber_runtime_id p.2)) rid)))
              (event_registrations d))) d).

(** ** Registration *)

(** The [registered] dict, field by field in source order. *)
Definition build_record (record peer : pydict) (service_id runtime_id peer_handle : val)
    (generation now : Z) : res svc_record :=
  let? props := py_dict_or_empty (vget record "properties") in
  let? qpm_type := record_value record ["qpm_type"] in
  let? qpm_capabilities := record_value record ["qpm_capabilities"] in
  let props := if py_eqb qpm_type (VInt (-1)) then props
               else dsetdefault props "qpm_type" qpm_type in
  let props := if py_eqb qpm_capabilities (VInt (-1)) then props
               else dsetdefault props "qpm_capabilities" qpm_capabilities in
  let? endpoint := py_dict (py_or (py_or (vget record "endpoint") (vget peer "endpoint"))
                                  (VDict [])) in
  let? api_bindings := normalize_bindings record in
  let? selector := py_dict_or_empty (vget record "selector") in
  let? capability := py_dict_or_empty (vget record "capability") in
  Ok (SvcRecord service_id (py_or (vget record "service_name") service_id)
        (vget_or record "service_type" (VStr "defw.service"))
        runtime_id peer_handle generation endpoint api_bindings selector props capability
        qpm_type qpm_capabilities STATE_UP now now (VStr "") None).

(** The generation a registration gets, or the refusal of a second live
    runtime: [(generation, previous_generation, became_active)]. *)
Definition next_generation (current : option svc_record) (runtime : val)
    : res (Z * option Z * bool) :=
  match current with
  | Some cur =>
      if decide (state cur = STATE_UP) then
        if py_eqb (runtime_id cur) runtime then Ok (generation cur, None, false)
        else Raise (Exc EDEFwError "service_id already has a live runtime")
      else Ok (generation cur + 1, Some (generation cur), true)
  | None => Ok (1, None, true)
  end.

(** [register_service(record, peer)] *)
Definition register_service (clock : Z) (record : pydict) (peer : pydict) : M dir svc_record :=
  let now := clock in
  let service_id := py_or (vget record "service_id") (vget record "name") in
  if negb (truthy service_id) then
    throw EDEFwError "Directory registration missing service_id"
  else
  let runtime_id := py_or (vget record "runtime_id") (vget peer "runtime_id") in
  let peer_handle := py_or (vget record "peer_handle") (vget peer "peer_handle") in
  if negb (truthy runtime_id) || negb (truthy peer_handle) then
    throw EDEFwError "Directory registration missing peer binding"
  else
  let! key := lift_res (hash_key service_id) in
  let! d := get in
  let! (generation, previous_generation, became_active) :=
    lift_res (next_generation (dget (records d) key) runtime_id) in
  let! registered :=
    lift_res (build_record record peer service_id runtime_id peer_handle generation now) in
  modify (set_records (dset (records d) key registered)) ;;;
  let registered := copy_record registered in
  let details := match previous_generation with
                 | Some g => [("previous_generation", VInt g)]
                 | None => []
                 end in
  notify_lifecycle "registration" registered [] VNone details ;;;
  (if became_active then publish_service_event SERVICE_CONNECTED registered (VStr "")
   else ret tt) ;;;
  ret registered.

(** [deregister_service(service_id, runtime_id, generation)] *)
Definition deregister_service (clock : Z) (service : val) (runtime : val) (gen : val)
    : M dir svc_record :=
  let now := clock in
  let! key := lift_res (hash_key service) in
  let! d := get in
  match dget (records d) key with
  | None => throw EDEFwNotFound "service_id not registered"
  | Some record =>
      if negb (py_eqb (runtime_id record) runtime) ||
         negb (py_eqb (VInt (generation record)) gen) then
        throw EDEFwError "stale deregistration request"
      else
        let record := mark_deregistered now (retention_seconds d) record in
        modify (set_records (dset (records d) key record)) ;;;
        let record := copy_record record in
        notify_lifecycle "deregistration" record [] VNone [] ;;;
        publish_service_event SERVICE_DISCONNECTED record (VStr "deregistered") ;;;
        ret record
  end.

(** ** Peer events *)

Definition is_loss (event_type : val) : bool :=
  py_eqb event_type (VStr "PEER_LOST") || py_eqb event_type (VStr "PEER_REMOVED").

Definition event_runtime (event : pydict) : val :=
  py_or (vget event "remote_runtime_id") (vget event "runtime_id").

(** A clock value a [<] comparison accepts. *)
Definition as_time (v : val) : res Z :=
  match v with
  | VInt n => Ok n
  | VBool b => Ok (b2z b)
  | _ => Raise (Exc ETypeError "'<' not supported between instances")
  end.

(** The loop body of [apply_peer_event] for one record: the record after the
    event, and the notification it causes. *)
Definition peer_event_step (event : pydict) (now : val) (retention : Z) (record : svc_record)
    : res (svc_record * option (string * svc_record * val)) :=
  if negb (py_eqb (peer_handle record) (vget event "peer_handle")) then Ok (record, None)
  else if truthy (event_runtime event) &&
          negb (py_eqb (runtime_id record) (event_runtime event)) then Ok (record, None)
  else
    let? now := as_time now in
    if now <? last_seen record then Ok (record, None)
    else
      let record := touch now record in
      if is_loss (vget event "event_type") then
        let reason := py_or (vget_or event "reason" (VStr "")) (VStr "peer-removed") in
        let record := mark_lost now retention reason record in
        Ok (record, Some ("peer-lost", copy_record record, reason))
      else if py_eqb (vget event "event_type") (VStr "PEER_READY") &&
              bool_decide (state record ∈ [STATE_DOWN; STATE_TIMED_OUT]) then
        let record := mark_ready now record in
        Ok (record, Some ("peer-ready", copy_record record,
                          vget_or event "reason" (VStr "")))
      else Ok (record, None).

(** The loop over [self.__records.values()]: records are updated in place,
    an exception leaves the remaining ones as they were. *)
Fixpoint peer_event_loop (f : svc_record → res (svc_record * option (string * svc_record * val)))
    (rs : odict hkey svc_record)
    : odict hkey svc_record * list (string * svc_record * val) * res unit :=
  match rs with
  | [] => ([], [], Ok tt)
  | (k, r) :: rs' =>
      match f r with
      | Raise e => ((k, r) :: rs', [], Raise e)
      | Ok (r', n) =>
          let '(rs'', ns, out) := peer_event_loop f rs' in
          ((k, r') :: rs'', option_list n ++ ns, out)
      end
  end.

(** Delivery of one notification collected by the loop. *)
Definition deliver (event : pydict) (n : string * svc_record * val) : M dir unit :=
  let '(lifecycle_event, record, reason) := n in
  notify_lifecycle lifecycle_event record event reason [] ;;;
  publish_service_event
    (if String.eqb lifecycle_event "peer-ready" then SERVICE_CONNECTED
     else SERVICE_DISCONNECTED) record reason.

(** [apply_peer_event(event)] *)
Definition apply_peer_event (clock : Z) (event : pydict) : M dir unit :=
  let now := vget_or event "timestamp" (VInt clock) in
  (if is_loss (vget event "event_type") && truthy (event_runtime event)
   then remove_subscriber (event_runtime event) else ret tt) ;;;
  let! d := get in
  let '(rs, notifications, out) :=
    peer_event_loop (peer_event_step event now (retention_seconds d)) (records d) in
  modify (set_records rs) ;;;
  lift_res out ;;;
  for_each (deliver event) notifications.

(** ** Queries *)

(** [record['retention_deadline'] and record['retention_deadline'] <= now] *)
Definition expired (now : Z) (r : svc_record) : bool :=
  match retention_deadline r with
  | Some t => negb (t =? 0) && (t <=? now)
  | None => false
  end.

(** [purge_expired(now)] *)
Definition purge_expired (clock : Z) (now : option Z) : M dir unit :=
  let now := match now with Some n => if n =? 0 then clock else n | None => clock end in
  let! d := get in
  let purged := List.filter (λ p, expired now p.2) (records d) in
  modify (set_records (List.filter (λ p, negb (expired now p.2)) (records d))) ;;;
  for_each (λ p, notify_lifecycle "retention-purge" (copy_record p.2) [] VNone
                   [("purged_at", VInt now)]) purged.

(** [value and record.get(field) != value] holds for no listed field *)
Definition fields_match (record filters : pydict) (fields : list string) : bool :=
  forallb (λ field, let value := vget filters field in
                    negb (truthy value) || py_eqb (vget record field) value) fields.

(** [__record_matches] *)
Definition record_matches (record : svc_record) (filters : pydict) : res bool :=
  if negb (fields_match (record_dict record) filters
             ["service_id"; "service_name"; "service_type"]) then Ok false
  else
  let? qt := record_value (record_dict record) ["qpm_type"] in
  if negb (bits_match qt (vget_or filters "qpm_type" (VInt (-1)))) then Ok false
  else
  let? qc := record_value (record_dict record) ["qpm_capabilities"] in
  if negb (bits_match qc (vget_or filters "qpm_capabilities" (VInt (-1)))) then Ok false
  else
  let? props := as_dict (py_or (vget filters "properties") (VDict [])) in
  if negb (forallb (λ p, py_eqb (vget (properties record) p.1) p.2) props) then Ok false
  else
  let name := vget filters "selector_name" in
  if truthy name && negb (py_eqb (vget (selector record) "name") name) then Ok false
  else
  let alias := vget filters "selector_alias" in
  let? alias_ok := if truthy alias
                   then py_contains alias (vget_or (selector record) "aliases" (VList []))
                   else Ok true in
  if negb alias_ok then Ok false
  else
  let resource := vget filters "selector_resource" in
  if truthy resource
  then py_contains resource (vget_or (selector record) "resources" (VList []))
  else Ok true.

(** [__binding_matches] *)
Definition binding_matches (binding filters : pydict) : bool :=
  fields_match binding filters ["binding_name"; "client_class"; "service_class"].

Record resolved := Resolved {
  service_record : svc_record;
  selected_binding : pydict;
  latest_generation : Z
}.

(** The matches one record contributes. *)
Definition resolve_record (filters : pydict) (record : svc_record) : res (list resolved) :=
  if decide (state record = STATE_UP) then
    let? ok := record_matches record filters in
    if ok then
      Ok (map (λ b, Resolved (copy_record record) (dupdate [] b) (generation record))
              (List.filter (λ b, binding_matches b filters) (api_bindings record)))
    else Ok []
  else Ok [].

(** [resolve_services] *)
Definition resolve_services (clock : Z) (filters : pydict) : M dir (list resolved) :=
  purge_expired clock None ;;;
  let! d := get in
  lift_res (res_map (@concat _) (rmapM (resolve_record filters) (dvals (records d)))).

(** [query(include_inactive)] *)
Definition query (clock : Z) (include_inactive : bool) : M dir (list svc_record) :=
  purge_expired clock None ;;;
  let! d := get in
  ret (map copy_record
         (List.filter (λ r, include_inactive || bool_decide (state r = STATE_UP))
            (dvals (records d)))).

(** [get_service_generation(service_id)] *)
Definition get_service_generation (clock : Z) (service : val) : M dir (option Z) :=
  purge_expired clock None ;;;
  let! key := lift_res (hash_key service) in
  let! d := get in
  ret (generation <$> dget (records d) key).
