(* ===== verification/DirectoryFacts.v ===== *)
(** * Correctness of the service directory

    The well-formedness invariant of the directory and its preservation by
    every operation, the refinement of the record table to one small state
    machine per service, and the functional behaviour of registration,
    deregistration, peer events, resolution, purge and subscriptions. *)

From S2P Require Import Prelude PyDict PyVal Directory.

Local Open Scope string_scope.
Local Open Scope Z_scope.
Local Open Scope list_scope.

(** ** Operations as data, and reachable states *)

Inductive dir_op :=
  | OpAddListener (listener : nat) (is_callable : bool)
  | OpRemoveListener (listener : nat)
  | OpSubscribe (cb : option (nat * bool)) (event_type : string) (subscriber filters : val)
      (new_id : string)
  | OpUnsubscribe (id : string)
  | OpRegister (clock : Z) (record peer : pydict)
  | OpDeregister (clock : Z) (service runtime gen : val)
  | OpPeerEvent (clock : Z) (event : pydict)
  | OpResolve (clock : Z) (filters : pydict)
  | OpQuery (clock : Z) (include_inactive : bool)
  | OpPurge (clock : Z) (now : option Z)
  | OpGeneration (clock : Z) (service : val).

(** The state an operation leaves, whether it returned or raised. *)
Definition exec_op (op : dir_op) (d : dir) : dir :=
  match op with
  | OpAddListener l c => (add_lifecycle_listener l c d).1
  | OpRemoveListener l => (remove_lifecycle_listener l d).1
  | OpSubscribe cb t s f i => (register_event_notification cb t s f i d).1
  | OpUnsubscribe i => (unregister_event_notification i d).1
  | OpRegister c r p => (register_service c r p d).1
  | OpDeregister c s r g => (deregister_service c s r g d).1
  | OpPeerEvent c e => (apply_peer_event c e d).1
  | OpResolve c f => (resolve_services c f d).1
  | OpQuery c b => (query c b d).1
  | OpPurge c n => (purge_expired c n d).1
  | OpGeneration c s => (get_service_generation c s d).1
  end.

Inductive dir_step : dir → dir → Prop :=
  | dir_step_op op d : dir_step d (exec_op op d).

Definition dir_reachable (d : dir) : Prop :=
  ∃ retention provider, rtc dir_step (init_dir retention provider) d.

(** ** The invariant *)

Record rec_ok (k : hkey) (r : svc_record) : Prop := {
  ok_key : hash_key (service_id r) = Ok k;
  ok_id : truthy (service_id r) = true;
  ok_gen : 1 ≤ generation r;
  ok_runtime : truthy (runtime_id r) = true;
  ok_peer : truthy (peer_handle r) = true;
  ok_bindings : api_bindings r ≠ [];
  ok_deadline : retention_deadline r = None ↔ state r = STATE_UP
}.

Definition records_ok (rs : odict hkey svc_record) : Prop :=
  dict_ok rs ∧ ∀ k r, (k, r) ∈ rs → rec_ok k r.

Record reg_ok (t id : string) (g : registration) : Prop := {
  ok_reg_id : registration_id g = id;
  ok_reg_type : reg_event_type g = t;
  ok_reg_known : t ∈ SERVICE_EVENT_TYPES;
  ok_reg_subscriber : subscriber_runtime_id g ≠ "";
  ok_reg_filters : ∀ f, f ∈ dkeys (reg_filters g) → f ∈ SERVICE_EVENT_FILTERS
}.

Definition registrations_ok (er : odict string (odict string registration)) : Prop :=
  dict_ok er ∧
  ∀ t regs, (t, regs) ∈ er →
    dict_ok regs ∧ ∀ id g, (id, g) ∈ regs → reg_ok t id g.

Record dir_ok (d : dir) : Prop := {
  ok_records : records_ok (records d);
  ok_registrations : registrations_ok (event_registrations d)
}.

(** ** What the auxiliary calls leave alone *)

Lemma notify_lifecycle_run ev r pe reason det d :
  notify_lifecycle ev r pe reason det d =
    (log_calls (map (λ l, CallListener l ev r pe reason det) (lifecycle_listeners d)) d, Ok tt).
Proof. done. Qed.

(** The callbacks one published event goes to. *)
Definition matching_callbacks (d : dir) (event_type : string) (r : svc_record) : list nat :=
  map callback (List.filter (λ g, event_matches (reg_filters g) r)
                  (dvals (dget_or (event_registrations d) event_type []))).

Lemma publish_run ev r reason d :
  publish_service_event ev r reason d =
    (log_calls (map (λ cb, CallPut cb (make_event (runtime_id_provider d) ev r reason))
                  (matching_callbacks d ev r)) d, Ok tt).
Proof. unfold publish_service_event, matching_callbacks, modify. by rewrite map_map. Qed.

(** [quiet d d'] : only the call log may differ. *)
Definition quiet (d d' : dir) : Prop :=
  records d' = records d ∧ event_registrations d' = event_registrations d ∧
  lifecycle_listeners d' = lifecycle_listeners d ∧
  retention_seconds d' = retention_seconds d ∧
  runtime_id_provider d' = runtime_id_provider d.

#[export] Instance quiet_preorder : PreOrder quiet.
Proof. split; [done|]. unfold quiet. intros ? ? ? (?&?&?&?&?) (?&?&?&?&?). split_and!; congruence. Qed.

Lemma quiet_log cs d : quiet d (log_calls cs d).
Proof. done. Qed.

Lemma quiet_notifications {A} (f : A → M dir unit) (l : list A) d :
  (∀ x d, quiet d (f x d).1 ∧ (f x d).2 = Ok tt) →
  quiet d (for_each f l d).1 ∧ (for_each f l d).2 = Ok tt.
Proof.
  intros Hf; revert d; induction l as [|x l IH]; intros d; [done|].
  simpl; unfold bind. destruct (Hf x d) as [Hq Ho].
  destruct (f x d) as [d1 [[]|e]]; simpl in *; [|done].
  destruct (IH d1) as [Hq1 Ho1]. split; [by etrans | done].
Qed.

Lemma quiet_deliver ev n d :
  quiet d (deliver ev n d).1 ∧ (deliver ev n d).2 = Ok tt.
Proof. destruct n as [[??]?]. done. Qed.

#[export] Hint Resolve quiet_log quiet_deliver : defw.

Lemma dir_ok_quiet d d' : quiet d d' → dir_ok d → dir_ok d'.
Proof. intros (Hr & He & _) [H1 H2]. split; congruence. Qed.

(** ** Copies *)

Lemma dupdate_nil_id (d : pydict) : dict_ok d → dupdate [] d = d.
Proof.
  intros Hok. assert (∀ acc : pydict, dict_ok (acc ++ d) → dupdate acc d = acc ++ d) as Happ.
  { clear Hok. unfold dupdate. induction d as [|[k v] d IH]; intros acc Hok; simpl.
    - by rewrite app_nil_r.
    - assert (dset acc k v = acc ++ [(k, v)]) as ->.
      { assert (dget acc k = None) as Hn.
        { apply dget_None. unfold dict_ok, dkeys in Hok. rewrite map_app in Hok.
          apply NoDup_app in Hok as (_ & Hd & _). intros Hin. apply (Hd k Hin). simpl. constructor. }
        clear -Hn. induction acc as [|[k' v'] acc IH]; simpl in *; [done|].
        case_decide; [done|]. simpl. f_equal. auto. }
      rewrite IH, <- app_assoc; [done|]. by rewrite <- app_assoc. }
  by rewrite Happ.
Qed.

(** ** Purge *)

Lemma purge_run clock now d :
  let t := match now with Some n => if n =? 0 then clock else n | None => clock end in
  ∃ d', purge_expired clock now d = (d', Ok tt) ∧
        quiet (set_records (List.filter (λ p, negb (expired t p.2)) (records d)) d) d'.
Proof.
  intros t. unfold purge_expired, bind, get, modify. fold t.
  edestruct (quiet_notifications
    (λ p : hkey * svc_record, notify_lifecycle "retention-purge" (copy_record p.2) [] VNone
            [("purged_at", VInt t)])) as [Hq Ho]; [done|].
  match goal with |- context [for_each ?f ?l ?s] =>
    destruct (for_each f l s) as [d' r] eqn:E end.
  exists d'. revert Hq Ho. erewrite E. simpl. by intros Hq ->.
Qed.

Lemma records_ok_filter rs f : records_ok rs → records_ok (List.filter f rs).
Proof.
  intros [Hd Hr]. split; [by apply dict_ok_filter|].
  intros k r [Hin _]%list_filter_In. auto.
Qed.

Lemma dir_ok_purge clock now d : dir_ok d → dir_ok (purge_expired clock now d).1.
Proof.
  intros [Hr He]. destruct (purge_run clock now d) as (d' & -> & Hq).
  eapply dir_ok_quiet; [exact Hq|]. split; [by apply records_ok_filter | done].
Qed.

(** A query operation purges, then reads. *)
Lemma resolve_state clock fs d : (resolve_services clock fs d).1 = (purge_expired clock None d).1.
Proof.
  unfold resolve_services, bind. destruct (purge_run clock None d) as (d' & -> & _). done.
Qed.

Lemma query_state clock b d : (query clock b d).1 = (purge_expired clock None d).1.
Proof. unfold query, bind. destruct (purge_run clock None d) as (d' & -> & _). done. Qed.

Lemma generation_state clock s d :
  (get_service_generation clock s d).1 = (purge_expired clock None d).1.
Proof.
  unfold get_service_generation, bind. destruct (purge_run clock None d) as (d' & -> & _).
  unfold lift_res. by destruct (hash_key s).
Qed.

(** ** Registration *)

Definition req_service_id (record : pydict) : val :=
  py_or (vget record "service_id") (vget record "name").
Definition req_runtime_id (record peer : pydict) : val :=
  py_or (vget record "runtime_id") (vget peer "runtime_id").
Definition req_peer_handle (record peer : pydict) : val :=
  py_or (vget record "peer_handle") (vget peer "peer_handle").

(** The calls a successful registration makes, in order. *)
Definition registration_calls (d : dir) (r : svc_record) (prev : option Z) (act : bool)
    : list dir_call :=
  map (λ l, CallListener l "registration" r [] VNone
              match prev with Some g => [("previous_generation", VInt g)] | None => [] end)
      (lifecycle_listeners d) ++
  (if act
   then map (λ cb, CallPut cb (make_event (runtime_id_provider d) SERVICE_CONNECTED r (VStr "")))
          (matching_callbacks d SERVICE_CONNECTED r)
   else []).

Lemma register_run clock record peer d d' r :
  register_service clock record peer d = (d', Ok r) →
  ∃ key gen prev act reg,
    truthy (req_service_id record) = true ∧
    truthy (req_runtime_id record peer) = true ∧
    truthy (req_peer_handle record peer) = true ∧
    hash_key (req_service_id record) = Ok key ∧
    next_generation (dget (records d) key) (req_runtime_id record peer) = Ok (gen, prev, act) ∧
    build_record record peer (req_service_id record) (req_runtime_id record peer)
      (req_peer_handle record peer) gen clock = Ok reg ∧
    r = copy_record reg ∧
    d' = log_calls (registration_calls d r prev act) (set_records (dset (records d) key reg) d).
Proof.
  unfold register_service. fold (req_service_id record) (req_runtime_id record peer)
    (req_peer_handle record peer).
  destruct (truthy (req_service_id record)) eqn:Hs; [|done]. simpl.
  destruct (truthy (req_runtime_id record peer)) eqn:Hr; [|done].
  destruct (truthy (req_peer_handle record peer)) eqn:Hp; [|done]. simpl.
  unfold bind, lift_res, get, modify.
  destruct (hash_key (req_service_id record)) as [key|e] eqn:Hk; [|done].
  destruct (next_generation _ _) as [[[gen prev] act]|e] eqn:Hg; [|done].
  destruct (build_record _ _ _ _ _ _ _) as [reg|e] eqn:Hb; [|done].
  intros H. exists key, gen, prev, act, reg. split_and!; try done.
  - destruct act; simpl in H; by inversion H.
  - destruct act; [rewrite notify_lifecycle_run, publish_run in H|rewrite notify_lifecycle_run in H];
      simpl in H; inversion H; subst; unfold registration_calls, log_calls; simpl;
      by rewrite ?app_assoc, ?app_nil_r.
Qed.

(** A refused registration leaves the directory exactly as it was. *)
Lemma register_raise clock record peer d d' e :
  register_service clock record peer d = (d', Raise e) → d' = d.
Proof.
  unfold register_service, bind, lift_res, get, modify, throw.
  intros H. repeat (case_match; try by inversion H).
Qed.

Lemma build_record_fields record peer sid rt ph gen now reg :
  build_record record peer sid rt ph gen now = Ok reg →
  service_id reg = sid ∧ runtime_id reg = rt ∧ peer_handle reg = ph ∧ generation reg = gen ∧
  state reg = STATE_UP ∧ retention_deadline reg = None ∧ last_seen reg = now ∧
  normalize_bindings record = Ok (api_bindings reg).
Proof.
  unfold build_record. intros H.
  destruct (py_dict_or_empty (vget record "properties")); [simpl in H | done].
  destruct (record_value record ["qpm_type"]); [simpl in H | done].
  destruct (record_value record ["qpm_capabilities"]); [simpl in H | done].
  destruct (py_dict _); [simpl in H | done].
  destruct (normalize_bindings record); [simpl in H | done].
  destruct (py_dict_or_empty (vget record "selector")); [simpl in H | done].
  destruct (py_dict_or_empty (vget record "capability")); [simpl in H | done].
  by inversion H; subst.
Qed.

Lemma py_iter_nonempty v l : truthy v = true → py_iter v = Ok l → l ≠ [].
Proof.
  destruct v as [|b|n|s|[|x l']|[|p d]|i]; simpl; intros Ht Hl; simplify_eq; try done.
  by destruct s.
Qed.

Lemma normalize_nonempty record bs : normalize_bindings record = Ok bs → bs ≠ [].
Proof.
  unfold normalize_bindings. set (b := py_or _ _). destruct (truthy b) eqn:Ht; [|done].
  destruct (py_iter b) as [l|] eqn:Hi; simpl; [|done].
  intros Hm%rmapM_length ->. destruct l; [|done]. by eapply py_iter_nonempty in Hi.
Qed.

Lemma next_generation_pos cur rt gen prev act :
  (∀ r, cur = Some r → 1 ≤ generation r) →
  next_generation cur rt = Ok (gen, prev, act) → 1 ≤ gen.
Proof.
  unfold next_generation. intros Hc. destruct cur as [r|]; [|intros [= <- _ _]; lia].
  specialize (Hc r eq_refl). repeat (case_match; try done); intros [= <- _ _]; lia.
Qed.

Lemma records_ok_dset rs k r : records_ok rs → rec_ok k r → records_ok (dset rs k r).
Proof.
  intros [Hd Hr] Hk. split; [by apply dict_ok_dset|].
  intros k' r' Hin. destruct (decide (k' = k)) as [->|Hne].
  - apply dget_In in Hin; [|by apply dict_ok_dset]. rewrite dget_dset_eq in Hin. by simplify_eq.
  - apply dset_In_other in Hin; auto.
Qed.

Lemma records_ok_dget rs k r : records_ok rs → dget rs k = Some r → rec_ok k r.
Proof. intros [_ Hr] H%dget_Some_In. auto. Qed.

Lemma dir_ok_register clock record peer d :
  dir_ok d → dir_ok (register_service clock record peer d).1.
Proof.
  intros Hok. destruct (register_service clock record peer d) as [d' [r|e]] eqn:E; simpl.
  - apply register_run in E as (key & gen & prev & act & reg & Hs & Hr & Hp & Hk & Hg & Hb & -> & ->).
    apply build_record_fields in Hb as (E1 & E2 & E3 & E4 & Hst & Hdl & _ & Hn).
    apply normalize_nonempty in Hn.
    split; [|by apply Hok]. simpl. apply records_ok_dset; [by apply Hok|].
    split; rewrite ?E1, ?E2, ?E3, ?E4, ?Hst, ?Hdl; try done.
    eapply next_generation_pos; [|done].
    intros r0 H0. by apply (records_ok_dget _ _ _ (ok_records _ Hok)) in H0 as [].
  - by apply register_raise in E as ->.
Qed.

(** ** Deregistration *)

Definition deregistration_calls (d : dir) (r : svc_record) : list dir_call :=
  map (λ l, CallListener l "deregistration" r [] VNone []) (lifecycle_listeners d) ++
  map (λ cb, CallPut cb (make_event (runtime_id_provider d) SERVICE_DISCONNECTED r
                           (VStr "deregistered")))
      (matching_callbacks d SERVICE_DISCONNECTED r).

Lemma deregister_run clock s rt gen d d' r :
  deregister_service clock s rt gen d = (d', Ok r) →
  ∃ key cur,
    hash_key s = Ok key ∧ dget (records d) key = Some cur ∧
    py_eqb (runtime_id cur) rt = true ∧ py_eqb (VInt (generation cur)) gen = true ∧
    r = copy_record (mark_deregistered clock (retention_seconds d) cur) ∧
    d' = log_calls (deregistration_calls d r)
           (set_records (dset (records d) key
              (mark_deregistered clock (retention_seconds d) cur)) d).
Proof.
  unfold deregister_service, bind, lift_res, get, modify.
  destruct (hash_key s) as [key|e] eqn:Hk; [|done].
  destruct (dget (records d) key) as [cur|] eqn:Hc; [|done].
  destruct (py_eqb (runtime_id cur) rt) eqn:Hr; [|done].
  destruct (py_eqb (VInt (generation cur)) gen) eqn:Hg; [|done]. cbn.
  intros H; inversion H; subst. exists key, cur. split_and!; try done.
  unfold deregistration_calls, matching_callbacks, log_calls. simpl.
  by rewrite map_map, app_assoc.
Qed.

Lemma deregister_raise clock s rt gen d d' e :
  deregister_service clock s rt gen d = (d', Raise e) → d' = d.
Proof.
  unfold deregister_service, bind, lift_res, get, modify, throw.
  intros H. repeat (case_match; try by inversion H).
Qed.

Lemma rec_ok_deregistered k now ret r : rec_ok k r → rec_ok k (mark_deregistered now ret r).
Proof. intros []. by split. Qed.

Lemma dir_ok_deregister clock s rt gen d :
  dir_ok d → dir_ok (deregister_service clock s rt gen d).1.
Proof.
  intros Hok. destruct (deregister_service clock s rt gen d) as [d' [r|e]] eqn:E; simpl.
  - apply deregister_run in E as (key & cur & Hk & Hc & _ & _ & -> & ->).
    split; [|by apply Hok]. simpl. apply records_ok_dset; [by apply Hok|].
    apply rec_ok_deregistered. eapply records_ok_dget; [by apply Hok | done].
  - by apply deregister_raise in E as ->.
Qed.

(** ** Peer events *)

(** The effect of an event on one record, when its timestamp is a number. *)
Definition after_event (event : pydict) (now retention : Z) (r : svc_record) : svc_record :=
  match peer_event_step event (VInt now) retention r with Ok (r', _) => r' | Raise _ => r end.

Definition event_note (event : pydict) (now retention : Z) (r : svc_record)
    : option (string * svc_record * val) :=
  match peer_event_step event (VInt now) retention r with Ok (_, n) => n | Raise _ => None end.

Lemma peer_event_step_total event now retention r :
  peer_event_step event (VInt now) retention r =
    Ok (after_event event now retention r, event_note event now retention r).
Proof.
  unfold after_event, event_note, peer_event_step. simpl.
  repeat case_match; naive_solver.
Qed.

Lemma peer_event_loop_total event now retention rs :
  peer_event_loop (peer_event_step event (VInt now) retention) rs =
    (dmap (after_event event now retention) rs,
     omap (event_note event now retention) (dvals rs), Ok tt).
Proof.
  induction rs as [|[k r] rs IH]; [done|]. simpl peer_event_loop.
  rewrite peer_event_step_total, IH. simpl. by destruct (event_note _ _ _ r).
Qed.

(** Which records an event applies to. *)
Definition event_targets (event : pydict) (now : Z) (r : svc_record) : bool :=
  py_eqb (peer_handle r) (vget event "peer_handle") &&
  (negb (truthy (event_runtime event)) || py_eqb (runtime_id r) (event_runtime event)) &&
  (last_seen r <=? now).

Definition loss_reason (event : pydict) : val :=
  py_or (vget_or event "reason" (VStr "")) (VStr "peer-removed").

(** The reference behaviour of an event on a record. *)
Lemma after_event_spec event now retention r :
  after_event event now retention r =
    if event_targets event now r then
      if is_loss (vget event "event_type") then
        mark_lost now retention (loss_reason event) r
      else if py_eqb (vget event "event_type") (VStr "PEER_READY") &&
              bool_decide (state r = STATE_DOWN ∨ state r = STATE_TIMED_OUT)
      then mark_ready now r
      else touch now r
    else r.
Proof.
  unfold after_event, peer_event_step, event_targets, loss_reason. simpl as_time.
  destruct (py_eqb (peer_handle r) _); [|done]. simpl.
  destruct (truthy (event_runtime event)); simpl;
    [destruct (py_eqb (runtime_id r) (event_runtime event)); [|done]|]; simpl;
    (destruct (last_seen r <=? now) eqn:Hl;
     [rewrite (proj2 (Z.ltb_ge _ _)) by lia | rewrite (proj2 (Z.ltb_lt _ _)) by lia; done]);
    (destruct (is_loss _); [done|]);
    destruct (py_eqb (vget event "event_type") _); simpl; try done;
    by destruct (state r).
Qed.

Lemma rec_ok_lost k now ret reason r : rec_ok k r → rec_ok k (mark_lost now ret reason r).
Proof. intros []. split; simpl; try done. by destruct (py_eqb reason _). Qed.

Lemma rec_ok_ready k now r : rec_ok k r → rec_ok k (mark_ready now r).
Proof. intros []. by split. Qed.

Lemma rec_ok_touch k now r : rec_ok k r → rec_ok k (touch now r).
Proof. intros []. by split. Qed.

#[export] Hint Resolve rec_ok_lost rec_ok_ready rec_ok_touch rec_ok_deregistered : defw.

Lemma rec_ok_event k event now ret r : rec_ok k r → rec_ok k (after_event event now ret r).
Proof. intros H. rewrite after_event_spec. repeat case_match; eauto with defw. Qed.

Lemma records_ok_dmap f rs :
  (∀ k r, rec_ok k r → rec_ok k (f r)) → records_ok rs → records_ok (dmap f rs).
Proof.
  intros Hf [Hd Hr]. split; [by apply dict_ok_dmap|].
  intros k r Hin. unfold dmap in Hin.
  apply list_elem_of_In, in_map_iff in Hin as ([k' r'] & [= <- <-] & Hin%list_elem_of_In). auto.
Qed.

(** A time value that [<] rejects makes the loop stop at the first record it
    applies to, before anything changed. *)
Lemma peer_event_loop_bad_time event now retention rs e :
  as_time now = Raise e →
  ∃ out, peer_event_loop (peer_event_step event now retention) rs = (rs, [], out).
Proof.
  intros Ht.
  assert (∀ r x, peer_event_step event now retention r = Ok x → x = (r, None)) as Hstep.
  { intros r x. unfold peer_event_step. rewrite Ht. simpl.
    repeat case_match; naive_solver. }
  induction rs as [|[k r] rs [out IH]]; [by exists (Ok tt)|]. simpl.
  destruct (peer_event_step event now retention r) as [x|e'] eqn:E; [|by exists (Raise e')].
  apply Hstep in E as ->. exists out. by rewrite IH.
Qed.

Lemma as_time_cases v : (∃ n, as_time v = Ok n) ∨ (∃ e, as_time v = Raise e).
Proof. destruct (as_time v); eauto. Qed.

Lemma peer_event_step_time event now n retention r :
  as_time now = Ok n → peer_event_step event now retention r = peer_event_step event (VInt n) retention r.
Proof. intros H. unfold peer_event_step. by rewrite H. Qed.

Lemma peer_event_loop_ext f g rs : (∀ r, f r = g r) → peer_event_loop f rs = peer_event_loop g rs.
Proof. intros H. induction rs as [|[k r] rs IH]; [done|]. simpl. by rewrite H, IH. Qed.

(** The subscriber clean-up that precedes the loop. *)
Definition after_cleanup (event : pydict) (d : dir) : dir :=
  if is_loss (vget event "event_type") && truthy (event_runtime event)
  then (remove_subscriber (event_runtime event) d).1 else d.

Definition event_time (clock : Z) (event : pydict) : val := vget_or event "timestamp" (VInt clock).

(** The whole of [apply_peer_event] for a numeric time stamp. *)
Lemma apply_peer_event_run clock event d now :
  as_time (event_time clock event) = Ok now →
  ∃ d', apply_peer_event clock event d = (d', Ok tt) ∧
    quiet (set_records (dmap (after_event event now (retention_seconds d)) (records d))
             (after_cleanup event d)) d' ∧
    d' = (for_each (deliver event)
            (omap (event_note event now (retention_seconds d)) (dvals (records d)))
            (set_records (dmap (after_event event now (retention_seconds d)) (records d))
               (after_cleanup event d))).1.
Proof.
  intros Ht. unfold apply_peer_event, bind, get, modify, lift_res.
  fold (event_time clock event).
  set (d1 := after_cleanup event d).
  assert ((if is_loss (vget event "event_type") && truthy (event_runtime event)
           then remove_subscriber (event_runtime event) else ret tt) d = (d1, Ok tt)) as ->.
  { unfold d1, after_cleanup. by destruct (_ && _). }
  assert (records d1 = records d ∧ retention_seconds d1 = retention_seconds d) as [Er Es].
  { unfold d1, after_cleanup. by destruct (_ && _). }
  rewrite Er, Es.
  rewrite (peer_event_loop_ext _ (peer_event_step event (VInt now) (retention_seconds d)));
    [|intros r; by apply peer_event_step_time].
  rewrite peer_event_loop_total.
  match goal with |- context [for_each ?f ?l ?s] =>
    destruct (quiet_notifications f l s) as [Hq Ho]; [auto with defw|];
    destruct (for_each f l s) as [d' o] eqn:E end.
  simpl in Ho, Hq. subst o. by exists d'.
Qed.

Lemma apply_peer_event_bad_time clock event d e :
  as_time (event_time clock event) = Raise e →
  (apply_peer_event clock event d).1 = after_cleanup event d.
Proof.
  intros Ht. unfold apply_peer_event, bind, get, modify, lift_res.
  fold (event_time clock event).
  set (d1 := after_cleanup event d).
  assert ((if is_loss (vget event "event_type") && truthy (event_runtime event)
           then remove_subscriber (event_runtime event) else ret tt) d = (d1, Ok tt)) as ->.
  { unfold d1, after_cleanup. by destruct (_ && _). }
  destruct (peer_event_loop_bad_time event _ (retention_seconds d1) (records d1) e Ht) as [out ->].
  destruct d1. by destruct out.
Qed.

Lemma apply_peer_event_state clock event d :
  ∃ f, (f = (λ r, r) ∨ ∃ now, f = after_event event now (retention_seconds d)) ∧
       quiet (set_records (dmap f (records d)) (after_cleanup event d))
             (apply_peer_event clock event d).1.
Proof.
  destruct (as_time_cases (event_time clock event)) as [[now Ht]|[e Ht]].
  - destruct (apply_peer_event_run clock event d now Ht) as (d' & -> & Hq & _).
    exists (after_event event now (retention_seconds d)). eauto.
  - exists (λ r, r). split; [by left|]. rewrite (apply_peer_event_bad_time _ _ _ e Ht).
    assert (dmap (λ r : svc_record, r) (records d) = records d) as ->.
    { unfold dmap. rewrite <- (map_id (records d)) at 2. apply map_ext. by intros []. }
    unfold after_cleanup. by destruct (_ && _).
Qed.

(** ** Subscriptions *)

Lemma registrations_ok_subscribe er t id g :
  registrations_ok er → reg_ok t id g →
  registrations_ok (dset (dsetdefault er t []) t (dset (dget_or (dsetdefault er t []) t []) id g)).
Proof.
  intros [Hd He] Hg. set (er1 := dsetdefault er t []).
  assert (dict_ok er1) as Hd1 by (unfold er1; auto with defw).
  assert (∀ t' regs, (t', regs) ∈ er1 →
            dict_ok regs ∧ ∀ id g, (id, g) ∈ regs → reg_ok t' id g) as He1.
  { intros t' regs Hin%(dget_In _ _ _ Hd1). unfold er1 in Hin. rewrite dget_dsetdefault in Hin.
    case_decide as Ht.
    - subst t'. destruct (dget er t) as [regs'|] eqn:Et; simpl in Hin; simplify_eq.
      + by apply He, dget_Some_In.
      + split; [apply dict_ok_nil | by intros ?? ?%elem_of_nil].
    - by apply He, dget_Some_In. }
  split; [by apply dict_ok_dset|].
  intros t' regs Hin%dget_In; [|by apply dict_ok_dset]. rewrite dget_dset in Hin.
  case_decide as Ht; [|by apply He1, dget_Some_In]. subst t'. simplify_eq.
  set (old := dget_or er1 t []).
  assert (dict_ok old ∧ ∀ id g, (id, g) ∈ old → reg_ok t id g) as [Ho Hog].
  { unfold old, dget_or. destruct (dget er1 t) as [regs|] eqn:E1; [by apply He1, dget_Some_In|].
    split; [apply dict_ok_nil | by intros ?? ?%elem_of_nil]. }
  split; [by apply dict_ok_dset|].
  intros id' g' Hin%dget_In; [|by apply dict_ok_dset]. rewrite dget_dset in Hin.
  case_decide; simplify_eq; [done|]. by apply Hog, dget_Some_In.
Qed.

Lemma subscribe_run cb t s f id d d' x :
  register_event_notification cb t s f id d = (d', Ok x) →
  ∃ c fs, cb = Some (c, true) ∧ py_dict_or_empty f = Ok fs ∧ x = id ∧
    reg_ok t id (Registration id t (py_fmt s) c fs) ∧
    d' = set_registrations
           (dset (dsetdefault (event_registrations d) t []) t
              (dset (dget_or (dsetdefault (event_registrations d) t []) t []) id
                 (Registration id t (py_fmt s) c fs))) d.
Proof.
  unfold register_event_notification.
  destruct (bool_decide (t ∈ SERVICE_EVENT_TYPES)) eqn:Ht; [|done].
  destruct (truthy s) eqn:Hs; [|done].
  destruct cb as [[c []]|]; [|done|done]. cbn -[existsb SERVICE_EVENT_FILTERS].
  unfold bind, lift_res. destruct (py_dict_or_empty f) as [fs|]; [|done].
  destruct (existsb _ _) eqn:He; [done|]. intros H; inversion H; subst.
  exists c, fs. split_and!; try done. apply bool_decide_eq_true in Ht.
  split; simpl; try done.
  - by apply py_fmt_nonempty.
  - intros k Hk. destruct (decide (k ∈ SERVICE_EVENT_FILTERS)); [done|]. exfalso.
    apply not_true_iff_false in He. apply He, existsb_exists. exists k.
    split; [by apply list_elem_of_In|]. by rewrite bool_decide_eq_false_2.
Qed.

Lemma subscribe_raise cb t s f id d d' e :
  register_event_notification cb t s f id d = (d', Raise e) → d' = d.
Proof.
  unfold register_event_notification, bind, lift_res, throw, modify.
  intros H. repeat (case_match; try by inversion H).
Qed.

Lemma pop_registration_In id er er' b t regs :
  pop_registration id er = (er', b) → (t, regs) ∈ er' →
  ∃ regs0, (t, regs0) ∈ er ∧ (regs = regs0 ∨ regs = ddel regs0 id).
Proof.
  revert er' b; induction er as [|[t0 r0] er IH]; intros er' b; simpl.
  - intros [= <- <-] H%elem_of_nil. done.
  - destruct (dmem r0 id).
    + intros [= <- <-] [[= -> ->]|Hin]%elem_of_cons.
      * exists r0. split; [constructor | by right].
      * exists regs. split; [by constructor | by left].
    + destruct (pop_registration id er) as [er'' b''] eqn:E.
      intros [= <- <-] [[= -> ->]|Hin]%elem_of_cons.
      * exists r0. split; [constructor | by left].
      * destruct (IH _ _ eq_refl Hin) as (regs0 & ? & ?). exists regs0. split; [by constructor | done].
Qed.

Lemma pop_registration_keys id er : dkeys (pop_registration id er).1 = dkeys er.
Proof.
  induction er as [|[t0 r0] er IH]; simpl; [done|]. destruct (dmem r0 id); [done|].
  destruct (pop_registration id er). simpl in *. by rewrite IH.
Qed.

Lemma dir_ok_subscribe cb t s f id d :
  dir_ok d → dir_ok (register_event_notification cb t s f id d).1.
Proof.
  intros Hok. destruct (register_event_notification cb t s f id d) as [d' [x|e]] eqn:E; simpl.
  - apply subscribe_run in E as (c & fs & _ & _ & _ & Hg & ->). destruct Hok.
    split; [done|]. by apply registrations_ok_subscribe.
  - by apply subscribe_raise in E as ->.
Qed.

Lemma dir_ok_unsubscribe id d : dir_ok d → dir_ok (unregister_event_notification id d).1.
Proof.
  intros [Hr [Hd He]]. unfold unregister_event_notification.
  destruct (pop_registration id (event_registrations d)) as [er b] eqn:E.
  split; [done|]. split; simpl.
  - unfold dict_ok. pose proof (pop_registration_keys id (event_registrations d)) as Hk.
    rewrite E in Hk. simpl in Hk. by rewrite Hk.
  - intros t regs Hin. destruct (pop_registration_In _ _ _ _ _ _ E Hin) as (regs0 & Hin0 & [->| ->]);
      destruct (He _ _ Hin0) as [Ho Hg]; [done|].
    split; [by apply dict_ok_ddel|]. intros i g [Hi _]%In_ddel. auto.
Qed.

Lemma registrations_ok_cleanup rid er :
  registrations_ok er →
  registrations_ok
    (List.filter (λ p : string * odict string registration, negb (Nat.eqb (length p.2) 0))
       (dmap (List.filter (λ p, negb (py_eqb (VStr (subscriber_runtime_id p.2)) rid))) er)).
Proof.
  intros [Hd He]. split; [by apply dict_ok_filter, dict_ok_dmap|].
  intros t regs [Hin _]%list_filter_In. unfold dmap in Hin.
  apply list_elem_of_In, in_map_iff in Hin as ([t' regs'] & [= <- <-] & Hin%list_elem_of_In).
  destruct (He _ _ Hin) as [Ho Hg]. split; [by apply dict_ok_filter|].
  intros id g [Hi _]%list_filter_In. auto.
Qed.

Lemma dir_ok_cleanup event d : dir_ok d → dir_ok (after_cleanup event d).
Proof.
  intros [Hr He]. unfold after_cleanup. destruct (_ && _); [|by split].
  split; [done|]. by apply registrations_ok_cleanup.
Qed.

Lemma dir_ok_peer_event clock event d : dir_ok d → dir_ok (apply_peer_event clock event d).1.
Proof.
  intros Hok. destruct (apply_peer_event_state clock event d) as (f & Hf & Hq).
  eapply dir_ok_quiet; [exact Hq|]. split; [|by apply dir_ok_cleanup]. simpl.
  apply records_ok_dmap; [|by apply Hok].
  intros k r Hr. destruct Hf as [-> |[now ->]]; [done | by apply rec_ok_event].
Qed.

Lemma dir_ok_init retention provider : dir_ok (init_dir retention provider).
Proof. split; (split; [apply dict_ok_nil | by intros ?? ?%elem_of_nil]). Qed.

Lemma dir_ok_exec op d : dir_ok d → dir_ok (exec_op op d).
Proof.
  intros Hok. destruct op; simpl;
    rewrite ?resolve_state, ?query_state, ?generation_state;
    eauto using dir_ok_subscribe, dir_ok_unsubscribe, dir_ok_register, dir_ok_deregister,
      dir_ok_peer_event, dir_ok_purge.
  - unfold add_lifecycle_listener. destruct is_callable; [|done].
    cbn. case_bool_decide; [done|]. by destruct Hok.
  - unfold remove_lifecycle_listener. cbn. case_bool_decide; [|done]. by destruct Hok.
Qed.

#[export] Hint Resolve dir_ok_init dir_ok_exec : defw.

Lemma dir_ok_steps d d' : rtc dir_step d d' → dir_ok d → dir_ok d'.
Proof. induction 1 as [|d1 d2 d3 [op ?] _ IH]; auto with defw. Qed.

(** C1. Every state the directory can reach, by any sequence of calls with any
    arguments (also ones that raise), is well formed: each service has one
    record, stored under its own service_id, with a positive generation, a
    runtime, a peer and at least one API binding; a record has a retention
    deadline exactly when it is not UP; and every subscription is filed under
    its own id and a known event type, with supported filters only. *)
Theorem directory_invariant (d : dir) : dir_reachable d → dir_ok d.
Proof.
  intros (ret & prov & Hsteps). eapply dir_ok_steps; [done|]. auto with defw.
Qed.

(** ** Refinement: one state machine per service *)

(** What a client of the directory may rely on: who serves a service, in
    which generation, and in which state. *)
Record svc_view := SvcView { view_runtime : val; view_generation : Z; view_state : svc_state }.

Definition view (r : svc_record) : svc_view := SvcView (runtime_id r) (generation r) (state r).

Definition dir_view (d : dir) : gmap hkey svc_view := view <$> dict_abs (records d).

(** The transitions of the abstract machine of a single service. *)
Inductive svc_trans : option svc_view → option svc_view → Prop :=
  | trans_stay v : svc_trans v v
  | trans_first rt : svc_trans None (Some (SvcView rt 1 STATE_UP))
  | trans_renew rt rt' g :
      py_eqb rt rt' = true →
      svc_trans (Some (SvcView rt g STATE_UP)) (Some (SvcView rt' g STATE_UP))
  | trans_replace rt rt' g st :
      st ≠ STATE_UP →
      svc_trans (Some (SvcView rt g st)) (Some (SvcView rt' (g + 1) STATE_UP))
  | trans_deregister rt g st :
      svc_trans (Some (SvcView rt g st)) (Some (SvcView rt g STATE_DEREGISTERED))
  | trans_lost rt g st st' :
      st' = STATE_DOWN ∨ st' = STATE_TIMED_OUT →
      svc_trans (Some (SvcView rt g st)) (Some (SvcView rt g st'))
  | trans_back rt g st :
      st = STATE_DOWN ∨ st = STATE_TIMED_OUT →
      svc_trans (Some (SvcView rt g st)) (Some (SvcView rt g STATE_UP))
  | trans_purge rt g st :
      st ≠ STATE_UP → svc_trans (Some (SvcView rt g st)) None.

Lemma dir_view_lookup d k : dir_view d !! k = view <$> dget (records d) k.
Proof. unfold dir_view. by rewrite lookup_fmap, dict_abs_lookup. Qed.

Lemma dir_view_quiet d d' : quiet d d' → dir_view d' = dir_view d.
Proof. intros (Hr & _). unfold dir_view. by rewrite Hr. Qed.

Lemma svc_trans_event event now ret r :
  svc_trans (Some (view r)) (Some (view (after_event event now ret r))).
Proof.
  rewrite after_event_spec. destruct (event_targets event now r); [|constructor].
  destruct (is_loss _); [apply trans_lost; simpl; destruct (py_eqb _ _); auto|].
  destruct (py_eqb (vget event "event_type") _); simpl; [|constructor].
  case_bool_decide; [by apply trans_back | constructor].
Qed.

Lemma svc_trans_register cur rt gen prev act reg :
  next_generation cur rt = Ok (gen, prev, act) →
  runtime_id reg = rt → generation reg = gen → state reg = STATE_UP →
  svc_trans (view <$> cur) (Some (view reg)).
Proof.
  intros Hg <- <- Hst. unfold view at 2. rewrite Hst. revert Hg. unfold next_generation.
  destruct cur as [r|]; simpl; [|intros [= <- _ _]; constructor]. unfold view.
  destruct (decide (state r = STATE_UP)) as [Hu|Hu].
  - rewrite Hu. destruct (py_eqb _ _) eqn:E; [|done]. intros [= <- _ _]. by constructor.
  - intros [= <- _ _]. by constructor.
Qed.

Lemma view_dset rs (k k' : hkey) r :
  view <$> dget (dset rs k r) k' = if decide (k = k') then Some (view r) else view <$> dget rs k'.
Proof. rewrite dget_dset. by case_decide. Qed.

Lemma svc_trans_purge d k clock now :
  dir_ok d → svc_trans (dir_view d !! k) (dir_view (purge_expired clock now d).1 !! k).
Proof.
  intros [[Hd Hr] _]. destruct (purge_run clock now d) as (d' & -> & Hq). simpl.
  rewrite (dir_view_quiet _ _ Hq), !dir_view_lookup. simpl. rewrite dget_filter by done.
  destruct (dget (records d) k) as [r|] eqn:E; simpl; [|constructor].
  destruct (expired _ r) eqn:Ex; simpl; [|constructor]. apply trans_purge.
  apply dget_Some_In, Hr in E. destruct E. unfold expired in Ex.
  destruct (retention_deadline r); naive_solver.
Qed.

Lemma svc_trans_exec (op : dir_op) (d : dir) (k : hkey) :
  dir_ok d → svc_trans (dir_view d !! k) (dir_view (exec_op op d) !! k).
Proof.
  intros Hok. destruct op; simpl;
    rewrite ?resolve_state, ?query_state, ?generation_state; auto using svc_trans_purge.
  - unfold add_lifecycle_listener. destruct is_callable; [|constructor].
    cbn. case_bool_decide; constructor.
  - unfold remove_lifecycle_listener. cbn. case_bool_decide; constructor.
  - destruct (register_event_notification cb event_type subscriber filters new_id d)
      as [d' [x|e]] eqn:E; simpl.
    + apply subscribe_run in E as (c & fs & _ & _ & _ & _ & ->). constructor.
    + apply subscribe_raise in E as ->. constructor.
  - unfold unregister_event_notification. destruct (pop_registration _ _). constructor.
  - destruct (register_service clock record peer d) as [d' [r|e]] eqn:E; simpl.
    + apply register_run in E as (key & gen & prev & act & reg & _ & _ & _ & _ & Hg & Hb & _ & ->).
      apply build_record_fields in Hb as (_ & Hrt & _ & Hgen & Hst & _).
      rewrite !dir_view_lookup. simpl. rewrite view_dset. case_decide; [subst k|constructor].
      by eapply svc_trans_register.
    + apply register_raise in E as ->. constructor.
  - destruct (deregister_service clock service runtime gen d) as [d' [r|e]] eqn:E; simpl.
    + apply deregister_run in E as (key & cur & _ & Hc & _ & _ & _ & ->).
      rewrite !dir_view_lookup. simpl. rewrite view_dset. case_decide; [subst k|constructor].
      rewrite Hc. constructor.
    + apply deregister_raise in E as ->. constructor.
  - destruct (apply_peer_event_state clock event d) as (f & Hf & Hq).
    rewrite (dir_view_quiet _ _ Hq), !dir_view_lookup. simpl. rewrite dget_dmap.
    destruct (dget (records d) k) as [r|]; simpl; [|constructor].
    destruct Hf as [-> |[now ->]]; [constructor | apply svc_trans_event].
Qed.

(** C2. The directory refines the per-service state machine: whatever call is
    made, on whatever well-formed directory, every service either keeps its
    view or takes one transition of the abstract machine, and services are
    independent.  In particular a live service is only ever renewed by its own
    runtime, and a new runtime takes over only a service that is not UP, in
    the next generation. *)
Theorem directory_refines_service_machine (op : dir_op) (d : dir) (k : hkey) :
  dir_ok d → svc_trans (dir_view d !! k) (dir_view (exec_op op d) !! k).
Proof. apply svc_trans_exec. Qed.

(** ** Generations along a history *)

Definition run_ops (ops : list dir_op) (d : dir) : dir := fold_left (λ d op, exec_op op d) ops d.

(** Service [k] has a record after each of the calls. *)
Fixpoint present_through (k : hkey) (ops : list dir_op) (d : dir) : Prop :=
  match ops with
  | [] => True
  | op :: ops' => is_Some (dget (records (exec_op op d)) k) ∧ present_through k ops' (exec_op op d)
  end.

(** Runtime ids linked by Python equality. *)
Definition same_runtime : val → val → Prop := rtc (λ a b, py_eqb a b = true).

Lemma svc_trans_generation v v' :
  svc_trans (Some v) (Some v') →
  view_generation v < view_generation v' ∨
  (view_generation v = view_generation v' ∧ same_runtime (view_runtime v) (view_runtime v')).
Proof.
  intros H. inversion H; subst; simpl; try (right; split; [done | constructor]).
  - right. split; [done | by apply rtc_once].
  - left. lia.
Qed.

Lemma generations_along ops d k v v' :
  dir_ok d → present_through k ops d →
  dir_view d !! k = Some v → dir_view (run_ops ops d) !! k = Some v' →
  view_generation v < view_generation v' ∨
  (view_generation v = view_generation v' ∧ same_runtime (view_runtime v) (view_runtime v')).
Proof.
  revert d v; induction ops as [|op ops IH]; intros d v Hok Hp Hv Hv'.
  - simpl in Hv'. rewrite Hv in Hv'. simplify_eq. right. split; [done | constructor].
  - destruct Hp as [[r Hr] Hp]. simpl in Hv'.
    assert (dir_view (exec_op op d) !! k = Some (view r)) as Hm
      by (rewrite dir_view_lookup; by rewrite Hr).
    pose proof (svc_trans_exec op d k Hok) as Ht. rewrite Hv, Hm in Ht.
    apply svc_trans_generation in Ht.
    destruct (IH _ _ (dir_ok_exec op d Hok) Hp Hm Hv') as [|[? Hs]], Ht as [|[? Ht]];
      [left; lia | left; lia | left; lia | right; split; [lia | by etrans]].
Qed.


(** ** Registration, branch by branch *)


(** Refusals: a registration without service id, without runtime or peer,
    or for a service that another runtime is serving live raises DEFwError and
    changes nothing at all: no record, no listener call, no event. *)
Theorem register_service_refusals clock record peer d k cur :
  (truthy (req_service_id record) = false ∨
   truthy (req_runtime_id record peer) = false ∨
   truthy (req_peer_handle record peer) = false ∨
   (hash_key (req_service_id record) = Ok k ∧ dget (records d) k = Some cur ∧
    state cur = STATE_UP ∧ py_eqb (runtime_id cur) (req_runtime_id record peer) = false)) →
  ∃ msg, register_service clock record peer d = (d, Raise (Exc EDEFwError msg)).
Proof.
  unfold register_service. fold (req_service_id record) (req_runtime_id record peer)
    (req_peer_handle record peer).
  intros H. destruct (truthy (req_service_id record)) eqn:Hs; [|by eexists]. simpl.
  destruct (truthy (req_runtime_id record peer)) eqn:Hr; [|by eexists].
  destruct (truthy (req_peer_handle record peer)) eqn:Hp; [|by eexists].
  destruct H as [|[|[|(Hk & Hc & Hu & Hne)]]]; [done..|].
  simpl. unfold bind, lift_res, get. rewrite Hk, Hc. unfold next_generation.
  rewrite decide_True, Hne by done. by eexists.
Qed.

(** ** Deregistration *)

(** C19. Deregistration is guarded by identity: it succeeds exactly for the
    runtime and generation on record, and then marks the service DEREGISTERED,
    drops its endpoint and starts its retention period; a request that names
    another runtime or another generation raises DEFwError, one for an unknown
    service raises DEFwNotFound, and neither changes anything. *)
Theorem deregister_service_guarded clock s rt gen d k :
  hash_key s = Ok k →
  match dget (records d) k with
  | None => deregister_service clock s rt gen d
              = (d, Raise (Exc EDEFwNotFound "service_id not registered"))
  | Some cur =>
      if py_eqb (runtime_id cur) rt && py_eqb (VInt (generation cur)) gen then
        ∃ d' r, deregister_service clock s rt gen d = (d', Ok r) ∧
          state r = STATE_DEREGISTERED ∧ endpoint r = [] ∧
          retention_deadline r = Some (clock + retention_seconds d) ∧
          records d' = dset (records d) k (mark_deregistered clock (retention_seconds d) cur) ∧
          dlog d' = dlog d ++ deregistration_calls d r
      else deregister_service clock s rt gen d
             = (d, Raise (Exc EDEFwError "stale deregistration request"))
  end.
Proof.
  intros Hk. destruct (dget (records d) k) as [cur|] eqn:Hc.
  2: { unfold deregister_service, bind, lift_res, get. by rewrite Hk, Hc. }
  destruct (py_eqb (runtime_id cur) rt) eqn:Hr, (py_eqb (VInt (generation cur)) gen) eqn:Hg; simpl;
    try (unfold deregister_service, bind, lift_res, get; by rewrite Hk, Hc, Hr, ?Hg).
  destruct (deregister_service clock s rt gen d) as [d' [r|e]] eqn:E.
  - pose proof E as (k' & cur' & Hk' & Hc' & _ & _ & -> & ->)%deregister_run.
    same_eqs. eexists _, _. by split_and!.
  - exfalso. revert E. unfold deregister_service, bind, lift_res, get. by rewrite Hk, Hc, Hr, Hg.
Qed.

(** ** Peer events *)


Lemma event_note_None event now ret r :
  event_targets event now r = false → event_note event now ret r = None.
Proof.
  unfold event_targets, event_note, peer_event_step. simpl as_time.
  destruct (py_eqb (peer_handle r) _); [|done]. simpl.
  destruct (truthy (event_runtime event)); simpl;
    [destruct (py_eqb (runtime_id r) (event_runtime event)); [|done]|]; simpl; intros H;
    by rewrite (proj2 (Z.ltb_lt _ _)) by lia.
Qed.

(** An event that concerns no record (a delayed loss of a runtime that has
    been replaced, an event older than what is known, an unknown peer) leaves
    every service record as it is and notifies nobody: a late loss cannot take
    down the replacement. *)
Theorem stale_peer_event_ignored clock event d now :
  as_time (event_time clock event) = Ok now →
  (∀ k r, dget (records d) k = Some r → event_targets event now r = false) →
  dict_ok (records d) →
  (apply_peer_event clock event d).2 = Ok tt ∧
  records (apply_peer_event clock event d).1 = records d ∧
  dlog (apply_peer_event clock event d).1 = dlog d.
Proof.
  intros Ht Hstale Hok.
  destruct (apply_peer_event_run clock event d now Ht) as (d' & -> & (Hr & _) & Hd'). simpl.
  assert (∀ k r, (k, r) ∈ records d → event_targets event now r = false) as Hs.
  { intros k r Hin. apply (Hstale k). by apply dget_In. }
  assert (omap (event_note event now (retention_seconds d)) (dvals (records d)) = []) as Hn.
  { clear -Hs. unfold dvals. induction (records d) as [|[k r] rs IH]; simpl; [done|].
    rewrite event_note_None by (eapply Hs; constructor). apply IH.
    intros k' r' Hin. eapply Hs. by constructor. }
  assert (dmap (after_event event now (retention_seconds d)) (records d) = records d) as Hm.
  { clear -Hs. unfold dmap. induction (records d) as [|[k r] rs IH]; simpl; [done|].
    rewrite after_event_spec, (Hs k r) by constructor. f_equal. apply IH.
    intros k' r' Hin. eapply Hs. by constructor. }
  split_and!; [done | by rewrite Hr; simpl; rewrite Hm |].
  rewrite Hn in Hd'. subst d'. simpl. unfold after_cleanup. by destruct (_ && _).
Qed.

(** ** Subscribers *)

(** The registrations of the directory, flattened. *)
Definition all_registrations (d : dir) : list registration :=
  concat (map (λ p, dvals p.2) (event_registrations d)).

Lemma all_registrations_In d g :
  g ∈ all_registrations d ↔ ∃ t regs id, (t, regs) ∈ event_registrations d ∧ (id, g) ∈ regs.
Proof.
  unfold all_registrations, dvals. rewrite list_elem_of_In, in_concat. split.
  - intros (l & ([t regs] & <- & Hin)%in_map_iff & ([id g'] & Hg & Hi)%in_map_iff). simpl in *. subst.
    exists t, regs, id. by rewrite !list_elem_of_In.
  - intros (t & regs & id & Hin%list_elem_of_In & Hi%list_elem_of_In).
    exists (map snd regs). split; [by apply (in_map (λ p, map snd p.2) _ (t, regs)) in Hin|].
    by apply (in_map snd) in Hi.
Qed.

(** When the peer of a runtime is lost or removed, exactly the subscriptions
    of that runtime are dropped: none of its callbacks remains and nobody
    else's is touched. *)
Theorem lost_subscriber_removed clock event d g :
  is_loss (vget event "event_type") = true → truthy (event_runtime event) = true →
  g ∈ all_registrations (apply_peer_event clock event d).1 ↔
  g ∈ all_registrations d ∧
  py_eqb (VStr (subscriber_runtime_id g)) (event_runtime event) = false.
Proof.
  intros Hl Ht. destruct (apply_peer_event_state clock event d) as (f & _ & (_ & Hreg & _)).
  rewrite !all_registrations_In, Hreg. simpl. unfold after_cleanup. rewrite Hl, Ht. simpl. split.
  - intros (t & regs & id & [Hin _]%list_filter_In & Hi). unfold dmap in Hin.
    apply list_elem_of_In, in_map_iff in Hin as ([t' regs'] & [= <- <-] & Hin%list_elem_of_In).
    apply list_filter_In in Hi as [Hi Hne%negb_true_iff]. eauto 7.
  - intros [(t & regs & id & Hin & Hi) Hne].
    set (regs' := List.filter (λ p : string * registration,
        negb (py_eqb (VStr (subscriber_runtime_id p.2)) (event_runtime event))) regs).
    assert ((id, g) ∈ regs') as Hi'.
    { apply list_filter_In. simpl. by rewrite Hne. }
    exists t, regs', id. split; [|done]. apply list_filter_In. split.
    + apply list_elem_of_In, in_map_iff. exists (t, regs). by rewrite <- list_elem_of_In.
    + simpl. destruct regs'; [by apply elem_of_nil in Hi' | done].
Qed.

(** ** Resolution *)

Lemma resolve_result clock filters d :
  dir_ok d →
  ∃ rs, (resolve_services clock filters d).2 =
          res_map (@concat _) (rmapM (resolve_record filters) rs) ∧
        ∀ r, state r = STATE_UP → r ∈ rs ↔ ∃ k, dget (records d) k = Some r.
Proof.
  intros [[Hd Hr] _]. unfold resolve_services, bind.
  destruct (purge_run clock None d) as (d' & -> & (Hq & _)). simpl in Hq.
  exists (dvals (records d')). split; [done|]. intros r Hu. rewrite Hq. unfold dvals.
  rewrite list_map_In. split.
  - intros ([k r'] & [Hin _]%list_filter_In & ->). exists k. by apply dget_In.
  - intros [k Hk]. exists (k, r). split; [|done]. apply list_filter_In.
    pose proof (dget_Some_In _ _ _ Hk) as Hin. split; [done|]. simpl.
    destruct (Hr _ _ Hin). unfold expired. by rewrite (proj2 ok_deadline0 Hu).
Qed.

(** What a resolution returns *)
Lemma resolve_In clock filters d ms m :
  dir_ok d → (resolve_services clock filters d).2 = Ok ms →
  m ∈ ms ↔
  ∃ k r b, dget (records d) k = Some r ∧ state r = STATE_UP ∧
    record_matches r filters = Ok true ∧ b ∈ api_bindings r ∧
    binding_matches b filters = true ∧
    m = Resolved (copy_record r) (dupdate [] b) (generation r).
Proof.
  intros Hok. destruct (resolve_result clock filters d Hok) as (rs & -> & Hrs).
  destruct (rmapM _ rs) as [yss|] eqn:E; simpl; [|done]. intros [= <-].
  rewrite concat_In. setoid_rewrite (rmapM_In _ _ _ E). split.
  - intros (ys & (r & Hin & Hy) & Hm). revert Hy. unfold resolve_record.
    case_decide as Hu; [|intros [= <-]; by apply elem_of_nil in Hm].
    destruct (record_matches r filters) as [[]|] eqn:Hrm; simpl; try done;
      intros [= <-]; [|by apply elem_of_nil in Hm].
    apply list_map_In in Hm as (b & [Hb Hbm]%list_filter_In & ->).
    apply (Hrs r Hu) in Hin as [k Hk]. by exists k, r, b.
  - intros (k & r & b & Hk & Hu & Hrm & Hb & Hbm & ->).
    eexists. split; [exists r; split; [by apply Hrs; eauto|]|].
    + unfold resolve_record. by rewrite decide_True, Hrm by done.
    + apply list_map_In. exists b. by rewrite list_filter_In.
Qed.


Lemma record_value_total r names : is_ok (record_value (record_dict r) names) = true.
Proof.
  unfold record_value. destruct (first_set (record_dict r) names); [done|].
  unfold vget at 1. simpl. unfold py_or. simpl.
  destruct (properties r) eqn:E; simpl; by destruct (first_set _ names).
Qed.

Lemma record_matches_no_filter r : record_matches r [] = Ok true.
Proof.
  unfold record_matches. simpl.
  pose proof (record_value_total r ["qpm_type"]). pose proof (record_value_total r ["qpm_capabilities"]).
  destruct (record_value _ ["qpm_type"]); [|done].
  destruct (record_value _ ["qpm_capabilities"]); [done | done].
Qed.

(** Without filters, resolution never fails and lists every binding of
    every live service. *)
Theorem resolve_all clock d :
  dir_ok d →
  ∃ ms, (resolve_services clock [] d).2 = Ok ms ∧
    ∀ k r b, dget (records d) k = Some r → state r = STATE_UP → b ∈ api_bindings r →
      Resolved (copy_record r) (dupdate [] b) (generation r) ∈ ms.
Proof.
  intros Hok. destruct (resolve_result clock [] d Hok) as (rs & -> & Hrs).
  set (g r := if decide (state r = STATE_UP) then
                map (λ b, Resolved (copy_record r) (dupdate [] b) (generation r))
                  (List.filter (λ b, binding_matches b []) (api_bindings r)) else []).
  rewrite (rmapM_ok (resolve_record []) g).
  2: { intros r _. unfold resolve_record, g. case_decide; [|done].
       by rewrite record_matches_no_filter. }
  eexists. split; [done|]. intros k r b Hk Hu Hb. apply concat_In.
  exists (g r). split.
  - apply list_map_In. exists r. split; [apply Hrs; eauto | done].
  - unfold g. rewrite decide_True by done. apply list_map_In. exists b. by rewrite list_filter_In.
Qed.

(** ** Capability bits *)

Lemma land_subset a b : Z.land a b = a ↔ ∀ i, 0 ≤ i → Z.testbit a i = true → Z.testbit b i = true.
Proof.
  split.
  - intros H i Hi Ha. rewrite <- H, Z.land_spec, andb_true_iff in Ha. by destruct Ha.
  - intros H. apply Z.bits_inj'. intros i Hi. rewrite Z.land_spec.
    destruct (Z.testbit a i) eqn:Ha; simpl; auto.
Qed.


(** ** Retention *)

(** A purge removes exactly the records whose retention deadline has
    passed; a live service is never purged, and a service that went away stays
    visible to queries of inactive records until its deadline. *)
Theorem purge_exact clock now d k :
  dir_ok d →
  let t := match now with Some n => if n =? 0 then clock else n | None => clock end in
  (purge_expired clock now d).2 = Ok tt ∧
  dget (records (purge_expired clock now d).1) k =
    match dget (records d) k with
    | Some r => if decide (state r = STATE_UP) then Some r
                else if expired t r then None else Some r
    | None => None
    end.
Proof.
  intros [[Hd Hr] _] t. destruct (purge_run clock now d) as (d' & -> & (Hq & _)).
  split; [done|]. simpl in Hq. simpl. rewrite Hq, dget_filter by done. fold t.
  destruct (dget (records d) k) as [r|] eqn:E; [|done].
  apply dget_Some_In, Hr in E. simpl. case_decide as Hu; [|by destruct (expired _ r)].
  destruct E. unfold expired. by rewrite (proj2 ok_deadline0 Hu).
Qed.

(** ** Undoing a subscription *)

Lemma pop_registration_absent id er :
  (∀ t regs, (t, regs) ∈ er → dmem regs id = false) → pop_registration id er = (er, false).
Proof.
  induction er as [|[t regs] er IH]; intros H; simpl; [done|].
  rewrite (H t regs) by constructor. rewrite IH; [done|].
  intros t' regs' Hin. apply (H t'). by constructor.
Qed.

Lemma pop_registration_gone id er t regs0 :
  dict_ok er → dget er t = Some regs0 → dmem regs0 id = true →
  (∀ t' regs, t' ≠ t → (t', regs) ∈ er → dmem regs id = false) →
  pop_registration id er = (dset er t (ddel regs0 id), true).
Proof.
  induction er as [|[t1 r1] er IH]; simpl; [done|].
  intros [Hnin Hok]%NoDup_cons Hg Hm Hother. case_decide as Ht.
  - subst. simplify_eq. by rewrite Hm.
  - rewrite (Hother t1 r1) by (done || constructor).
    rewrite IH; [done..|]. intros t' regs Hne Hin. apply (Hother t'); [done | by constructor].
Qed.

(** Unsubscribing is idempotent and undoes the subscription: for a fresh
    registration id, subscribing and then unsubscribing answers [True], puts
    every subscription table back to what it was, and unsubscribing once more
    answers [False] and changes nothing. *)
Theorem unsubscribe_undoes_subscribe cb t s f id d d1 x :
  dir_ok d → (∀ g, g ∈ all_registrations d → registration_id g ≠ id) →
  register_event_notification cb t s f id d = (d1, Ok x) →
  ∃ d2, unregister_event_notification x d1 = (d2, Ok true) ∧
    (∀ t', dget_or (event_registrations d2) t' [] = dget_or (event_registrations d) t' []) ∧
    records d2 = records d ∧
    unregister_event_notification x d2 = (d2, Ok false).
Proof.
  intros [_ [Hd He]] Hfresh (c & fs & _ & _ & -> & Hg & ->)%subscribe_run.
  set (er := event_registrations d) in *. set (er1 := dsetdefault er t []).
  set (old := dget_or er1 t []).
  set (g := Registration id t (py_fmt s) c fs) in *.
  assert (dict_ok er1) as Hd1 by (unfold er1; auto with defw).
  assert (∀ t', dget_or er1 t' [] = dget_or er t' []) as Her1.
  { intros t'. unfold er1, dget_or. rewrite dget_dsetdefault. case_decide; [subst|done].
    by destruct (dget er t'). }
  assert (∀ t' regs, (t', regs) ∈ er1 → dmem regs id = false) as Hno1.
  { intros t' regs Hin%(dget_In _ _ _ Hd1). apply dmem_false, dget_None. intros Hk.
    assert (regs = dget_or er t' []) as Heq by (rewrite <- Her1; unfold dget_or; by rewrite Hin).
    unfold dget_or in Heq. destruct (dget er t') as [regs'|] eqn:E; subst; [|by apply elem_of_nil in Hk].
    apply dget_Some_In in E. apply dget_is_Some in Hk as [g' Hg'%dget_Some_In].
    destruct (He _ _ E) as [_ Hregs]. destruct (Hregs _ _ Hg') as [Hid _ _ _ _].
    apply (Hfresh g'); [|done]. apply all_registrations_In. eauto. }
  assert (dmem old id = false) as Hold.
  { unfold old, dget_or. destruct (dget er1 t) eqn:E; [|done].
    eapply Hno1. by apply dget_Some_In. }
  unfold unregister_event_notification. simpl.
  rewrite (pop_registration_gone id _ t (dset old id g)).
  2: by apply dict_ok_dset.
  2: by rewrite dget_dset_eq.
  2: { unfold dmem. by rewrite dget_dset_eq. }
  2: { intros t' regs Hne Hin%dset_In_other; [|done]. by eapply Hno1. }
  rewrite ddel_dset_fresh, dset_dset by (by apply dmem_false). eexists. split; [done|]. simpl. split_and!; [|done|].
  - intros t'. rewrite <- Her1. unfold dget_or at 1. rewrite dget_dset. case_decide; [by subst | done].
  - rewrite pop_registration_absent; [done|].
    intros t' regs Hin. destruct (decide (t' = t)) as [->|Hne].
    + apply dget_In in Hin; [|by apply dict_ok_dset]. rewrite dget_dset_eq in Hin. by simplify_eq.
    + apply dset_In_other in Hin; [|done]. by eapply Hno1.
Qed.

(** ** A deregistered service and its peer *)

Definition peer_event (event_type peer runtime reason : string) (t : Z) : pydict :=
  [("event_type", VStr event_type); ("peer_handle", VStr peer);
   ("remote_runtime_id", VStr runtime); ("reason", VStr reason); ("timestamp", VInt t)].

Lemma peer_event_targets ty p rt reason t r :
  peer_handle r = VStr p → runtime_id r = VStr rt → rt ≠ "" → last_seen r ≤ t →
  event_targets (peer_event ty p rt reason t) t r = true.
Proof.
  intros Hp Hr Hne Hl. unfold event_targets, event_runtime. rewrite Hp, Hr. simpl.
  rewrite String.eqb_refl. destruct (String.eqb_spec rt ""); [done|]. simpl.
  unfold py_or. simpl. rewrite (proj2 (String.eqb_neq rt "")) by done. simpl.
  rewrite String.eqb_refl, orb_true_r. simpl. by apply Z.leb_le.
Qed.

(** Deregistration is not final: a service that deregistered, whose peer
    connection is then lost and comes back, is listed UP again, in the same
    generation and with the empty endpoint that deregistration left. *)
Theorem deregistered_service_returns d k r p rt clock t1 t2 :
  dget (records d) k = Some r → state r = STATE_DEREGISTERED → endpoint r = [] →
  peer_handle r = VStr p → runtime_id r = VStr rt → rt ≠ "" →
  last_seen r ≤ t1 → t1 ≤ t2 →
  ∃ r', dget (records (run_ops [OpPeerEvent clock (peer_event "PEER_LOST" p rt "socket-close" t1);
                                OpPeerEvent clock (peer_event "PEER_READY" p rt "" t2)] d)) k
          = Some r' ∧
        state r' = STATE_UP ∧ endpoint r' = [] ∧ generation r' = generation r.
Proof.
  intros Hk Hst He Hp Hr Hne Hl1 Hl2. simpl.
  destruct (apply_peer_event_run clock (peer_event "PEER_LOST" p rt "socket-close" t1) d t1)
    as (d1 & -> & (Hq1 & _) & _); [done|]. cbn [fst].
  destruct (apply_peer_event_run clock (peer_event "PEER_READY" p rt "" t2) d1 t2)
    as (d2 & -> & (Hq2 & _) & _); [done|].
  cbn [fst]. rewrite Hq2. cbn [records set_records]. rewrite dget_dmap, Hq1.
  cbn [records set_records]. rewrite dget_dmap, Hk. cbn [fmap option_fmap option_map].
  rewrite (after_event_spec _ t1), peer_event_targets by done. cbn [is_loss vget dget].
  eexists. split; [done|]. rewrite after_event_spec, peer_event_targets; try done.
Qed.
