(* ===== verification/DirectoryWitness.v ===== *)
(** * The directory on concrete inputs

    The scenario of the repository's directory contract test
    ([tests/directory/test_directory_contract.py]) evaluated on the model, and
    the instances that show the hypotheses of the directory theorems can be
    met. *)

From S2P Require Import Prelude PyDict PyVal Directory DirectoryFacts.

Local Open Scope string_scope.
Local Open Scope Z_scope.
Local Open Scope list_scope.

(** [make_record] of the contract test. *)
Definition make_record (runtime peer : string) : pydict :=
  [("service_id", VStr "qpm-iqm-ornl"); ("service_name", VStr "IQM QPM");
   ("service_type", VStr "qfw.qpm"); ("runtime_id", VStr runtime); ("peer_handle", VStr peer);
   ("endpoint", VDict [("address", VStr "127.0.0.1"); ("listen_port", VInt 8095)]);
   ("api_bindings", VList
      [VDict [("binding_name", VStr "execution"); ("client_class", VStr "QPMExecution")];
       VDict [("binding_name", VStr "telemetry"); ("client_class", VStr "QPMTelemetry")]]);
   ("selector", VDict [("name", VStr "IQM-20q"); ("aliases", VList [VStr "ornl-iqm-20q"]);
                       ("resources", VList [VStr "IQM-20q"])])].

Definition dir0 : dir := init_dir 10 "directory-runtime-1".
Definition key0 : hkey := KStr "qpm-iqm-ornl".

(** Two subscriptions, then a registration. *)
Definition dir1 : dir :=
  run_ops [OpSubscribe (Some (1%nat, true)) SERVICE_CONNECTED (VStr "client-runtime-1")
             (VDict [("service_id", VStr "qpm-iqm-ornl")]) "id-1";
           OpSubscribe (Some (2%nat, true)) SERVICE_DISCONNECTED (VStr "client-runtime-1")
             (VDict [("service_type", VStr "qfw.qpm")]) "id-2";
           OpRegister 100 (make_record "runtime-1" "peer-1") []] dir0.

Definition dir2 : dir :=
  run_ops [OpPeerEvent 101 (peer_event "PEER_LOST" "peer-1" "runtime-1" "socket-close" 101);
           OpRegister 102 (make_record "runtime-2" "peer-2") []] dir1.

Definition dir3 : dir := run_ops [OpDeregister 105 (VStr "qpm-iqm-ornl") (VStr "runtime-2") (VInt 2)] dir2.

Definition summary (d : dir) : list (val * Z * svc_state) :=
  map (λ r, (runtime_id r, generation r, state r)) (dvals (records d)).

(** The assertions of the contract test: one connect event for the first
    registration and none for a duplicate, a disconnect event on loss, a second
    generation for the replacement, a delayed loss of the old runtime ignored,
    unsupported filters and a second live runtime refused. *)
Example contract_scenario :
  length (dlog dir1) = 1%nat ∧
  length (dlog (exec_op (OpRegister 100 (make_record "runtime-1" "peer-1") []) dir1)) = 1%nat ∧
  raises EDEFwError (register_service 100 (make_record "runtime-9" "peer-9") [] dir1).2 = true ∧
  raises EDEFwError (register_event_notification (Some (1%nat, true)) SERVICE_CONNECTED (VStr "c")
                       (VDict [("provider", VStr "iqm")]) "id" dir1).2 = true ∧
  summary dir2 = [(VStr "runtime-2", 2, STATE_UP)] ∧
  length (dlog dir2) = 3%nat ∧
  dlog (exec_op (OpPeerEvent 103 (peer_event "PEER_LOST" "peer-1" "runtime-1" "late" 103)) dir2)
    = dlog dir2 ∧
  summary dir3 = [(VStr "runtime-2", 2, STATE_DEREGISTERED)] ∧
  records (exec_op (OpPurge 200 None) dir3) = [] ∧
  match (resolve_services 103 [("service_type", VStr "qfw.qpm");
                               ("selector_resource", VStr "IQM-20q");
                               ("binding_name", VStr "telemetry")] dir2).2 with
  | Ok [m] => vget (selected_binding m) "client_class" = VStr "QPMTelemetry"
  | _ => False
  end.
Proof. vm_compute. repeat split. Qed.

(** ** Witnesses *)

Lemma run_ops_steps ops d : rtc dir_step d (run_ops ops d).
Proof.
  revert d; induction ops as [|op ops IH]; intros d; [apply rtc_refl|].
  eapply rtc_l; [apply (dir_step_op op)|]. apply IH.
Qed.

Lemma dir_ok_run ops d : dir_ok d → dir_ok (run_ops ops d).
Proof. revert d; induction ops; simpl; auto with defw. Qed.

#[local] Hint Resolve dir_ok_run : defw.

Lemma dir0_ok : dir_ok dir0.
Proof. apply dir_ok_init. Qed.

Lemma dir1_ok : dir_ok dir1.
Proof. apply dir_ok_run, dir_ok_init. Qed.

Lemma dir2_ok : dir_ok dir2.
Proof. apply dir_ok_run, dir1_ok. Qed.

Lemma directory_invariant_witness : dir_reachable dir2 ∧ dir_ok dir2.
Proof.
  assert (dir_reachable dir2) as H by
    (exists 10, "directory-runtime-1"; etrans; apply run_ops_steps).
  split; [exact H | apply (directory_invariant dir2 H)].
Defined.

Lemma directory_refines_witness :
  svc_trans (dir_view dir1 !! key0)
    (dir_view (exec_op (OpPeerEvent 101 (peer_event "PEER_LOST" "peer-1" "runtime-1" "x" 101)) dir1)
       !! key0).
Proof. apply directory_refines_service_machine, dir1_ok. Defined.



Lemma register_service_refusals_witness :
  ∃ msg, register_service 100 (make_record "runtime-9" "peer-9") [] dir1
         = (dir1, Raise (Exc EDEFwError msg)).
Proof.
  destruct (dget (records dir1) key0) as [cur|] eqn:E; [|vm_compute in E; discriminate E].
  apply (register_service_refusals 100 _ _ dir1 key0 cur). right; right; right.
  split; [reflexivity|]. split; [exact E|].
  vm_compute in E. injection E as <-. split; reflexivity.
Defined.

Lemma deregister_service_guarded_witness :
  deregister_service 105 (VStr "unknown") (VStr "runtime-1") (VInt 1) dir1
    = (dir1, Raise (Exc EDEFwNotFound "service_id not registered")).
Proof.
  exact (deregister_service_guarded 105 (VStr "unknown") (VStr "runtime-1") (VInt 1) dir1
           (KStr "unknown") eq_refl).
Defined.


Lemma stale_peer_event_ignored_witness :
  records (apply_peer_event 103 (peer_event "PEER_LOST" "peer-1" "runtime-1" "late" 103) dir2).1
    = records dir2.
Proof.
  apply (stale_peer_event_ignored 103 _ dir2 103).
  - reflexivity.
  - intros k r Hk%dget_Some_In. vm_compute in Hk. apply list_elem_of_singleton in Hk.
    injection Hk as -> ->. reflexivity.
  - apply dir2_ok.
Defined.

Lemma lost_subscriber_removed_witness :
  all_registrations dir2 ≠ [] ∧
  ∀ g, g ∈ all_registrations
         (apply_peer_event 103 (peer_event "PEER_LOST" "p" "client-runtime-1" "x" 103) dir2).1 ↔
       g ∈ all_registrations dir2 ∧
       py_eqb (VStr (subscriber_runtime_id g)) (VStr "client-runtime-1") = false.
Proof.
  split; [by vm_compute|]. intros g.
  exact (lost_subscriber_removed 103 (peer_event "PEER_LOST" "p" "client-runtime-1" "x" 103)
           dir2 g eq_refl eq_refl).
Defined.


Lemma resolve_all_witness : ∃ ms, (resolve_services 103 [] dir2).2 = Ok ms.
Proof. destruct (resolve_all 103 dir2 dir2_ok) as (ms & Hms & _). exists ms. exact Hms. Defined.

Lemma purge_exact_witness : dget (records (purge_expired 200 None dir2).1) key0 ≠ None.
Proof.
  destruct (purge_exact 200 None dir2 key0 dir2_ok) as [_ H]. rewrite H. vm_compute. discriminate.
Defined.

Lemma unsubscribe_undoes_subscribe_witness :
  ∃ d1 d2, register_event_notification (Some (3%nat, true)) SERVICE_CONNECTED (VStr "rt") VNone "id-3" dir2
             = (d1, Ok "id-3") ∧
           unregister_event_notification "id-3" d1 = (d2, Ok true).
Proof.
  destruct (register_event_notification (Some (3%nat, true)) SERVICE_CONNECTED (VStr "rt") VNone "id-3" dir2)
    as [d1 [x|e]] eqn:E; [|vm_compute in E; discriminate E].
  assert (∀ g, g ∈ all_registrations dir2 → registration_id g ≠ "id-3") as Hfresh.
  { assert (forallb (λ g, negb (String.eqb (registration_id g) "id-3")) (all_registrations dir2)
            = true) as H by (vm_compute; reflexivity).
    intros g Hg%list_elem_of_In. rewrite forallb_forall in H.
    apply String.eqb_neq, negb_true_iff, H, Hg. }
  destruct (unsubscribe_undoes_subscribe _ _ _ _ _ dir2 d1 x dir2_ok Hfresh E) as (d2 & H & _).
  assert (x = "id-3") as -> by (vm_compute in E; injection E; congruence).
  exists d1, d2. split; [reflexivity | exact H].
Defined.

Lemma deregistered_service_returns_witness :
  ∃ r', dget (records (run_ops [OpPeerEvent 106 (peer_event "PEER_LOST" "peer-2" "runtime-2" "socket-close" 106);
                                OpPeerEvent 106 (peer_event "PEER_READY" "peer-2" "runtime-2" "" 107)] dir3))
           key0 = Some r' ∧ state r' = STATE_UP ∧ endpoint r' = [].
Proof.
  destruct (dget (records dir3) key0) as [r|] eqn:E; [|vm_compute in E; discriminate E].
  destruct (deregistered_service_returns dir3 key0 r "peer-2" "runtime-2" 106 106 107) as (r' & H1 & H2 & H3 & _);
    [exact E | .. |]; try (vm_compute in E; injection E as <-; vm_compute; congruence); [];
    exists r'; split; [exact H1 | split; [exact H2 | exact H3]].
Defined.
