(* ===== verification/Mirror.v ===== *)
(** * What a subscriber knows ([python/infra/defw_directory.py])

    A process subscribes to the directory's events to know which services are
    up.  [mirror] is the least it can do with them: a service that is
    announced is in, a service that is taken back is out.  This file proves
    that the events suffice: as long as the subscription lasts, the mirror is
    the set of services that are up, whatever is called on the directory.  The
    calls that publish hold [__transition_lock] from the change to the last
    event, so that they follow one another. *)

From S2P Require Import Prelude PyDict PyVal Directory DirectoryFacts DirectoryWitness.

Local Open Scope string_scope.
Local Open Scope Z_scope.
Local Open Scope list_scope.

(** ** The subscriber *)

(** The events its callbacks were given, in order; [mine] tells which
    callbacks are the subscriber's. *)
Definition put_event (mine : nat → bool) (c : dir_call) : option service_event :=
  match c with
  | CallPut cb ev => if mine cb then Some ev else None
  | CallListener _ _ _ _ _ _ => None
  end.
Definition events_for (mine : nat → bool) (calls : list dir_call) : list service_event := omap (put_event mine) calls.

Definition event_key (ev : service_event) : option hkey :=
  match hash_key (ev_service_id ev) with Ok k => Some k | Raise _ => None end.
Definition announces (ev : service_event) : bool := String.eqb (ev_event ev) SERVICE_CONNECTED.

(** The services the subscriber believes to be up *)
Definition mirror_step (m : list hkey) (ev : service_event) : list hkey :=
  match event_key ev with
  | Some k => if announces ev then k :: m else List.filter (λ k', negb (bool_decide (k' = k))) m
  | None => m
  end.
Definition mirror (m : list hkey) (evs : list service_event) : list hkey := fold_left mirror_step evs m.

(** The directory's own view *)
Definition service_up (d : dir) (k : hkey) : Prop := ∃ r, dget (records d) k = Some r ∧ state r = STATE_UP.

(** A subscriber that is told about every service *)
Definition subscribed_to (t : string) (d : dir) (mine : nat → bool) : Prop :=
  ∃ g, g ∈ dvals (dget_or (event_registrations d) t []) ∧ mine (callback g) = true ∧ reg_filters g = [].
Definition subscribed (d : dir) (mine : nat → bool) : Prop :=
  subscribed_to SERVICE_CONNECTED d mine ∧ subscribed_to SERVICE_DISCONNECTED d mine.

(** ** Lemmas on the mirror *)

Lemma mirror_step_other m ev k : event_key ev ≠ Some k → k ∈ mirror_step m ev ↔ k ∈ m.
Proof.
  unfold mirror_step. destruct (event_key ev) as [k'|]; [|done]. intros Hne.
  destruct (announces ev); [rewrite elem_of_cons; naive_solver|]. rewrite list_filter_In.
  assert (k ≠ k') by congruence. rewrite bool_decide_false by done. naive_solver.
Qed.

Lemma mirror_step_same m ev k : event_key ev = Some k → k ∈ mirror_step m ev ↔ announces ev = true.
Proof.
  unfold mirror_step. intros ->. destruct (announces ev); [rewrite elem_of_cons; naive_solver|].
  rewrite list_filter_In. rewrite bool_decide_true by done. naive_solver.
Qed.

(** Events that agree about a service decide; events about others do not. *)
Lemma mirror_other m evs k : (∀ ev, ev ∈ evs → event_key ev ≠ Some k) → k ∈ mirror m evs ↔ k ∈ m.
Proof.
  revert m. induction evs as [|ev evs IH]; intros m H; [done|]. simpl.
  rewrite IH by (intros ev' Hin; apply H; by right). apply mirror_step_other, H. by left.
Qed.

Lemma mirror_decided m evs k b :
  (∀ ev, ev ∈ evs → event_key ev = Some k → announces ev = b) →
  (∃ ev, ev ∈ evs ∧ event_key ev = Some k) → k ∈ mirror m evs ↔ b = true.
Proof.
  revert m. induction evs as [|ev evs IH] using rev_ind; intros m Hb (ev' & Hin & Hk).
  { by apply elem_of_nil in Hin. }
  unfold mirror. rewrite fold_left_app. simpl. fold (mirror m evs).
  destruct (decide (event_key ev = Some k)) as [He|He].
  - rewrite (mirror_step_same _ _ _ He), (Hb ev); [done | apply elem_of_app; right; by left | done].
  - rewrite mirror_step_other by done. apply IH.
    + intros ev1 H1. apply Hb, elem_of_app. by left.
    + exists ev'. apply elem_of_app in Hin as [Hin|Hin%list_elem_of_singleton]; [done|]. by subst.
Qed.

(** ** Publication *)

Definition event_of (d : dir) (p : string * svc_record * val) : service_event :=
  make_event (runtime_id_provider d) p.1.1 p.1.2 p.2.

Lemma events_for_app mine l1 l2 : events_for mine (l1 ++ l2) = events_for mine l1 ++ events_for mine l2.
Proof. apply omap_app. Qed.

Lemma events_for_listeners mine {A} (f : A → dir_call) l : (∀ x, put_event mine (f x) = None) → events_for mine (map f l) = [].
Proof. intros H. induction l as [|x l IH]; [done|]. unfold events_for in *. simpl. by rewrite H. Qed.

(** A subscriber gets a published event, and only that one. *)
Lemma events_for_publish mine t r reason d :
  subscribed_to t d mine →
  let ev := make_event (runtime_id_provider d) t r reason in
  let evs := events_for mine (map (λ c, CallPut c ev) (matching_callbacks d t r)) in
  ev ∈ evs ∧ ∀ ev', ev' ∈ evs → ev' = ev.
Proof.
  intros (g & Hg & Hcb & Hf). cbv zeta. split.
  - unfold events_for, matching_callbacks. rewrite map_map. apply list_elem_of_omap.
    exists (CallPut (callback g) (make_event (runtime_id_provider d) t r reason)). split.
    + apply list_map_In. exists g. split; [|done]. apply list_filter_In. by rewrite Hf.
    + simpl. by rewrite Hcb.
  - intros ev' (c & Hc & Hput)%list_elem_of_omap. apply list_map_In in Hc as (cb' & _ & ->).
    simpl in Hput. destruct (mine cb'); by simplify_eq.
Qed.

(** ** One call on the directory *)

(** The events a call causes bring the mirror from the services that were up
    to those that are. *)
Definition tracks (mine : nat → bool) (d d' : dir) : Prop :=
  ∃ delta, dlog d' = dlog d ++ delta ∧
    ∀ m, (∀ k, k ∈ m ↔ service_up d k) → ∀ k, k ∈ mirror m (events_for mine delta) ↔ service_up d' k.

(** About each service the events say nothing and nothing changed, or they
    all say what is now the case. *)
Lemma tracks_intro mine d d' delta :
  dlog d' = dlog d ++ delta →
  (∀ k, ((∀ ev, ev ∈ events_for mine delta → event_key ev ≠ Some k) ∧ (service_up d k ↔ service_up d' k)) ∨
        ∃ b, (∀ ev, ev ∈ events_for mine delta → event_key ev = Some k → announces ev = b) ∧
             (∃ ev, ev ∈ events_for mine delta ∧ event_key ev = Some k) ∧ (service_up d' k ↔ b = true)) →
  tracks mine d d'.
Proof.
  intros Hlog H. exists delta. split; [done|]. intros m Hm k. destruct (H k) as [[Hno Hup]|(b & Hb & Hex & Hup)].
  - rewrite mirror_other by done. by rewrite Hm.
  - rewrite (mirror_decided m _ k b Hb Hex). by rewrite Hup.
Qed.

Lemma tracks_same mine d d' delta :
  dlog d' = dlog d ++ delta → events_for mine delta = [] → (∀ k, service_up d k ↔ service_up d' k) → tracks mine d d'.
Proof. intros Hl He Hup. apply (tracks_intro mine d d' delta Hl). intros k. left. rewrite He. split; [by intros ev ?%elem_of_nil | done]. Qed.

Lemma tracks_quiet mine d d' : dlog d' = dlog d → records d' = records d → tracks mine d d'.
Proof.
  intros Hl Hr. apply (tracks_same mine d d' []); [by rewrite Hl, app_nil_r | done|].
  intros k. unfold service_up. by rewrite Hr.
Qed.

(** Purging only tells the lifecycle listeners, and drops no service that is up. *)
Lemma notify_all_log mine {A} (ev : A → string * svc_record * pydict * val * pydict) l d :
  ∃ delta, dlog (for_each (λ x, let '(a, b, c, e, f) := ev x in notify_lifecycle a b c e f) l d).1 = dlog d ++ delta ∧
    events_for mine delta = [].
Proof.
  revert d. induction l as [|x l IH]; intros d; [exists []; by rewrite app_nil_r|]. simpl.
  unfold bind. destruct (ev x) as [[[[a b] c] e] f]. rewrite notify_lifecycle_run.
  destruct (IH (log_calls (map (λ l0, CallListener l0 a b c e f) (lifecycle_listeners d)) d)) as (delta & -> & He).
  simpl. eexists. rewrite <- app_assoc. split; [done|]. rewrite events_for_app, He, app_nil_r.
  by apply events_for_listeners.
Qed.

Lemma tracks_purge mine clock now d : dir_ok d → tracks mine d (purge_expired clock now d).1.
Proof.
  intros Hok. set (t := match now with Some n => if n =? 0 then clock else n | None => clock end).
  destruct (purge_run clock now d) as (d' & Hd' & (Hr & _)). fold t in Hr. simpl in Hr.
  assert (∃ delta, dlog (purge_expired clock now d).1 = dlog d ++ delta ∧ events_for mine delta = []) as (delta & Hl & He).
  { unfold purge_expired, bind, get, modify. fold t. simpl.
    destruct (notify_all_log mine (λ p : hkey * svc_record, ("retention-purge", copy_record p.2, [], VNone, [("purged_at", VInt t)]))
      (List.filter (λ p, expired t p.2) (records d)) (set_records (List.filter (λ p, negb (expired t p.2)) (records d)) d))
      as (delta & Hl & He).
    exists delta. split; [exact Hl | done]. }
  apply (tracks_same mine d _ delta Hl He). intros k. rewrite Hd'. unfold service_up. simpl. rewrite Hr.
  destruct (ok_records _ Hok) as [Hdict Hrec]. split; intros (r & Hk & Hu); exists r; (split; [|done]).
  - apply dget_In; [by apply dict_ok_filter|]. apply dget_Some_In in Hk. apply list_filter_In. split; [done|]. simpl.
    unfold expired. by rewrite (proj2 (ok_deadline _ _ (Hrec _ _ Hk)) Hu).
  - apply dget_Some_In, list_filter_In in Hk as [Hk _]. by apply dget_In.
Qed.

(** A change of one record, published or not *)
Lemma tracks_publish mine d d' t r reason k reg calls :
  subscribed_to t d mine → hash_key (service_id r) = Ok k →
  records d' = dset (records d) k reg → (state reg = STATE_UP ↔ t = SERVICE_CONNECTED) →
  (∀ c, c ∈ calls → put_event mine c = None) →
  dlog d' = dlog d ++ calls ++
    map (λ c, CallPut c (make_event (runtime_id_provider d) t r reason)) (matching_callbacks d t r) →
  tracks mine d d'.
Proof.
  intros Hsub Hk Hr Ht Hcalls Hl. destruct (events_for_publish mine t r reason d Hsub) as [Hin Hall].
  set (ev := make_event (runtime_id_provider d) t r reason) in *.
  assert (events_for mine calls = []) as Hc.
  { clear -Hcalls. induction calls as [|c calls IH]; [done|]. unfold events_for in *. simpl.
    rewrite Hcalls by by left. apply IH. intros c' Hc'. apply Hcalls. by right. }
  assert (event_key ev = Some k) as Hek by (unfold event_key, ev, make_event; simpl; by rewrite Hk).
  apply (tracks_intro mine d d' _ Hl). intros k'. rewrite events_for_app, Hc. simpl.
  destruct (decide (k' = k)) as [->|Hne]; [right | left].
  - exists (announces ev). split_and!; [by intros ev' ->%Hall | by exists ev|].
    unfold service_up. rewrite Hr, dget_dset_eq. unfold announces, ev, make_event. simpl.
    rewrite String.eqb_eq, <- Ht. naive_solver.
  - split; [intros ev' ->%Hall; congruence|]. unfold service_up. by rewrite Hr, dget_dset_ne.
Qed.

Lemma listener_calls mine {A} (f : A → dir_call) l c :
  (∀ x, put_event mine (f x) = None) → c ∈ map f l → put_event mine c = None.
Proof. intros H (x & _ & ->)%list_map_In. apply H. Qed.

Lemma tracks_register mine clock record peer d :
  subscribed d mine → tracks mine d (register_service clock record peer d).1.
Proof.
  intros [Hc _]. destruct (register_service clock record peer d) as [d' [r|e]] eqn:E; simpl.
  2: { apply register_raise in E as ->. by apply tracks_quiet. }
  apply register_run in E as (k & gen & prev & act & reg & _ & _ & _ & Hk & Hg & Hb & -> & ->).
  pose proof (build_record_fields _ _ _ _ _ _ _ _ Hb) as (Hid & _ & _ & _ & Hup & _ & _ & _).
  unfold registration_calls. destruct act.
  - eapply (tracks_publish mine d _ SERVICE_CONNECTED (copy_record reg) (VStr "") k reg);
      [done | by simpl; rewrite Hid | done | done| |simpl; done].
    intros c. by apply listener_calls.
  - eapply (tracks_same mine); [done|by rewrite app_nil_r; apply events_for_listeners|]. intros k'.
    unfold service_up. simpl. destruct (decide (k = k')) as [<-|Hne]; [|by rewrite dget_dset_ne].
    rewrite dget_dset_eq. unfold next_generation in Hg.
    destruct (dget (records d) k) as [cur|]; [|done]. case_decide as Hcur; [|done]. naive_solver.
Qed.

Lemma tracks_deregister mine clock s rt gen d :
  dir_ok d → subscribed d mine → tracks mine d (deregister_service clock s rt gen d).1.
Proof.
  intros Hok [_ Hdisc]. destruct (deregister_service clock s rt gen d) as [d' [r|e]] eqn:E; simpl.
  2: { apply deregister_raise in E as ->. by apply tracks_quiet. }
  apply deregister_run in E as (k & cur & _ & Hcur & _ & _ & -> & ->).
  pose proof (ok_key _ _ (records_ok_dget _ _ _ (ok_records _ Hok) Hcur)) as Hk.
  eapply (tracks_publish mine d _ SERVICE_DISCONNECTED (copy_record (mark_deregistered clock (retention_seconds d) cur))
            (VStr "deregistered") k (mark_deregistered clock (retention_seconds d) cur));
    [done | by simpl | done | done| |simpl; done].
  intros c. by apply listener_calls.
Qed.

(** ** Peer events *)

Definition note_type (n : string * svc_record * val) : string :=
  if String.eqb n.1.1 "peer-ready" then SERVICE_CONNECTED else SERVICE_DISCONNECTED.
Definition note_event (d : dir) (n : string * svc_record * val) : service_event :=
  make_event (runtime_id_provider d) (note_type n) n.1.2 n.2.

(** What a record's notification says is what became of the record. *)
Lemma note_decides event now ret r :
  match event_note event now ret r with
  | Some n => service_id n.1.2 = service_id r ∧
      (state (after_event event now ret r) = STATE_UP ↔ note_type n = SERVICE_CONNECTED)
  | None => state (after_event event now ret r) = STATE_UP ↔ state r = STATE_UP
  end.
Proof.
  unfold event_note, after_event, peer_event_step. simpl as_time.
  destruct (negb (py_eqb (peer_handle r) _)); [done|].
  destruct (truthy (event_runtime event) && _); [done|]. cbn [rbind].
  destruct (now <? last_seen r); [done|]. destruct (is_loss _).
  - cbn [fst snd]. split; [done|]. split; [|done]. unfold mark_lost. cbn [state]. by destruct (py_eqb _ _).
  - destruct (py_eqb _ _ && _); [|done]. done.
Qed.

Lemma subscribed_quiet d d' mine : quiet d d' → subscribed d mine → subscribed d' mine.
Proof. intros (_ & He & _) [H1 H2]. split; unfold subscribed_to; by rewrite He. Qed.

Lemma deliver_log mine event ns d :
  subscribed d mine →
  ∃ delta, dlog (for_each (deliver event) ns d).1 = dlog d ++ delta ∧
    (∀ ev, ev ∈ events_for mine delta ↔ ∃ n, n ∈ ns ∧ ev = note_event d n).
Proof.
  revert d. induction ns as [|n ns IH]; intros d Hsub.
  { exists []. split; [by rewrite app_nil_r|]. intros ev. split; [by intros ?%elem_of_nil|].
    by intros (n & ?%elem_of_nil & _). }
  simpl. unfold bind. destruct (quiet_deliver event n d) as [Hq Ho].
  assert (∃ calls, dlog (deliver event n d).1 = dlog d ++ calls ∧ note_event d n ∈ events_for mine calls ∧
            ∀ ev, ev ∈ events_for mine calls → ev = note_event d n) as (calls & Hl & Hin & Hall).
  { destruct n as [[lc r] reason]. unfold deliver, bind at 1. rewrite notify_lifecycle_run. fold (note_type (lc, r, reason)).
    set (d1 := log_calls _ d). rewrite publish_run. eexists. simpl. rewrite <- app_assoc. split; [done|].
    rewrite events_for_app, events_for_listeners by done. simpl.
    assert (subscribed_to (note_type (lc, r, reason)) d1 mine) as Hs.
    { unfold note_type. by case_match; apply Hsub. }
    destruct (events_for_publish mine _ r reason d1 Hs) as [H1 H2]. split; [exact H1 | exact H2]. }
  destruct (deliver event n d) as [d1 o] eqn:Ed. simpl in *. subst o.
  destruct (IH d1 (subscribed_quiet _ _ _ Hq Hsub)) as (delta & -> & Hev).
  exists (calls ++ delta). rewrite Hl, <- app_assoc. split; [done|]. intros ev.
  rewrite events_for_app, elem_of_app, Hev.
  assert (∀ n', note_event d1 n' = note_event d n') as Hne.
  { intros n'. unfold note_event. by destruct Hq as (_ & _ & _ & _ & ->). }
  setoid_rewrite Hne. setoid_rewrite elem_of_cons. naive_solver.
Qed.

(** The notification about a service is the one of its record. *)
Lemma note_of_record event now ret d d1 n k :
  dir_ok d → n ∈ omap (event_note event now ret) (dvals (records d)) → event_key (note_event d1 n) = Some k →
  ∃ r, dget (records d) k = Some r ∧ event_note event now ret r = Some n.
Proof.
  intros Hok (r & Hr & Hn)%list_elem_of_omap Hkey. destruct (ok_records _ Hok) as [Hdict Hrec].
  apply list_map_In in Hr as ([k' r'] & Hin & ->). simpl in Hn. exists r'. split; [|done].
  pose proof (note_decides event now ret r') as Hdec. rewrite Hn in Hdec. destruct Hdec as [Hid _].
  unfold event_key, note_event, make_event in Hkey. simpl in Hkey. rewrite Hid, (ok_key _ _ (Hrec _ _ Hin)) in Hkey.
  injection Hkey as ->. by apply dget_In.
Qed.

Lemma record_has_note event now ret d d1 n k r :
  dir_ok d → dget (records d) k = Some r → event_note event now ret r = Some n →
  n ∈ omap (event_note event now ret) (dvals (records d)) ∧ event_key (note_event d1 n) = Some k.
Proof.
  intros Hok Hk Hn. pose proof (records_ok_dget _ _ _ (ok_records _ Hok) Hk) as Hrec.
  apply dget_Some_In in Hk. split.
  - apply list_elem_of_omap. exists r. split; [|done]. apply list_map_In. by exists (k, r).
  - pose proof (note_decides event now ret r) as Hdec. rewrite Hn in Hdec. destruct Hdec as [Hid _].
    unfold event_key, note_event, make_event. simpl. by rewrite Hid, (ok_key _ _ Hrec).
Qed.

Lemma after_cleanup_log event d : dlog (after_cleanup event d) = dlog d ∧ records (after_cleanup event d) = records d.
Proof. unfold after_cleanup. by destruct (_ && _). Qed.

Lemma tracks_peer_event mine clock event d :
  dir_ok d → subscribed (apply_peer_event clock event d).1 mine → tracks mine d (apply_peer_event clock event d).1.
Proof.
  intros Hok Hsub. destruct (after_cleanup_log event d) as [Hcl Hcr].
  destruct (as_time_cases (event_time clock event)) as [[now Ht]|[e Ht]].
  2: { rewrite (apply_peer_event_bad_time _ _ _ e Ht) in *. by apply tracks_quiet. }
  destruct (apply_peer_event_run clock event d now Ht) as (d' & Hd' & Hq & He).
  rewrite Hd' in *. simpl in *. set (ret := retention_seconds d) in *.
  set (d1 := set_records (dmap (after_event event now ret) (records d)) (after_cleanup event d)) in *.
  set (ns := omap (event_note event now ret) (dvals (records d))) in *.
  assert (subscribed d1 mine) as Hs1.
  { destruct Hq as (_ & Heq & _). destruct Hsub as [H1 H2]. unfold subscribed_to in *. rewrite Heq in *. by split. }
  destruct (deliver_log mine event ns d1 Hs1) as (delta & Hl & Hev). rewrite <- He in Hl.
  assert (dlog d1 = dlog d) as Hl1 by done. rewrite Hl1 in Hl.
  destruct Hq as (Hr & _). simpl in Hr.
  apply (tracks_intro mine d d' delta Hl). intros k. unfold service_up. rewrite Hr, dget_dmap.
  destruct (dget (records d) k) as [r|] eqn:Hk; [destruct (event_note event now ret r) as [n|] eqn:Hn|].
  - right. exists (announces (note_event d1 n)). destruct (record_has_note _ _ _ _ d1 _ _ _ Hok Hk Hn) as [Hin Hkey].
    pose proof (note_decides event now ret r) as Hdec. rewrite Hn in Hdec. destruct Hdec as [_ Hst]. split_and!.
    + intros ev (n' & Hn' & ->)%Hev Hkey'. destruct (note_of_record _ _ _ _ _ _ _ Hok Hn' Hkey') as (r' & Hr' & Hn2).
      congruence.
    + exists (note_event d1 n). split; [|done]. apply Hev. by exists n.
    + unfold announces, note_event, make_event. simpl. rewrite String.eqb_eq, <- Hst. naive_solver.
  - left. pose proof (note_decides event now ret r) as Hdec. rewrite Hn in Hdec. split; [|simpl; naive_solver].
    intros ev (n' & Hn' & ->)%Hev Hkey'. destruct (note_of_record _ _ _ _ _ _ _ Hok Hn' Hkey') as (r' & Hr' & Hn2).
    congruence.
  - left. split; [|naive_solver].
    intros ev (n' & Hn' & ->)%Hev Hkey'. destruct (note_of_record _ _ _ _ _ _ _ Hok Hn' Hkey') as (r' & Hr' & _).
    congruence.
Qed.

(** ** Any sequence of calls *)

Lemma exec_tracks mine op d : dir_ok d → subscribed d mine → subscribed (exec_op op d) mine → tracks mine d (exec_op op d).
Proof.
  intros Hok Hsub Hsub'. destruct op; simpl in *; rewrite ?resolve_state, ?query_state, ?generation_state;
    auto using tracks_purge, tracks_register, tracks_deregister, tracks_peer_event.
  - unfold add_lifecycle_listener. destruct is_callable; [|by apply tracks_quiet].
    apply tracks_quiet; simpl; by case_bool_decide.
  - apply tracks_quiet; simpl; by case_bool_decide.
  - destruct (register_event_notification cb event_type subscriber filters new_id d) as [d' [x|e]] eqn:E.
    + apply subscribe_run in E as (c & fs & _ & _ & _ & _ & ->). by apply tracks_quiet.
    + apply subscribe_raise in E as ->. by apply tracks_quiet.
  - unfold unregister_event_notification. destruct (pop_registration _ _). by apply tracks_quiet.
Qed.

(** The subscription lasts through the calls. *)
Fixpoint stays_subscribed (mine : nat → bool) (ops : list dir_op) (d : dir) : Prop :=
  subscribed d mine ∧ match ops with [] => True | op :: ops' => stays_subscribed mine ops' (exec_op op d) end.

Lemma run_tracks (mine : nat → bool) (ops : list dir_op) (d : dir) (m : list hkey) :
  dir_ok d → stays_subscribed mine ops d → (∀ k, k ∈ m ↔ service_up d k) →
  ∃ delta, dlog (run_ops ops d) = dlog d ++ delta ∧
    ∀ k, k ∈ mirror m (events_for mine delta) ↔ service_up (run_ops ops d) k.
Proof.
  revert d m. induction ops as [|op ops IH]; intros d m Hok [Hsub Hrest] Hm.
  { exists []. split; [by rewrite app_nil_r | done]. }
  assert (subscribed (exec_op op d) mine) as Hsub' by (by destruct ops; destruct Hrest).
  destruct (exec_tracks mine op d Hok Hsub Hsub') as (delta1 & Hl1 & Ht1).
  destruct (IH (exec_op op d) (mirror m (events_for mine delta1)) (dir_ok_exec op d Hok) Hrest) as (delta2 & Hl2 & Ht2).
  { by apply Ht1. }
  exists (delta1 ++ delta2). simpl. rewrite Hl2, Hl1, <- app_assoc. split; [done|]. intros k.
  rewrite events_for_app. unfold mirror. rewrite fold_left_app. apply Ht2.
Qed.

(** C10. A subscriber's events are a faithful account of the directory.
    Whatever sequence of calls the directory serves, registrations, renewals,
    deregistrations, peer events, purges and failed calls, a process that stays
    subscribed to both kinds of events, without filters, and keeps the set of
    services it was told are connected and not since disconnected, has exactly
    the services that are up. *)
Theorem events_mirror_directory (mine : nat → bool) (ops : list dir_op) (d : dir) (m : list hkey) :
  dir_ok d → stays_subscribed mine ops d → (∀ k, k ∈ m ↔ service_up d k) →
  ∃ delta, dlog (run_ops ops d) = dlog d ++ delta ∧
    ∀ k, k ∈ mirror m (events_for mine delta) ↔ service_up (run_ops ops d) k.
Proof. apply run_tracks. Qed.

(** ** Instances *)

(** A subscriber that is there before the first service *)
Definition sub0 : dir :=
  run_ops [OpSubscribe (Some (7%nat, true)) SERVICE_CONNECTED (VStr "watcher") VNone "id-1";
           OpSubscribe (Some (7%nat, true)) SERVICE_DISCONNECTED (VStr "watcher") VNone "id-2"] dir0.
Definition story : list dir_op :=
  [OpRegister 100 (make_record "runtime-1" "peer-1") []; OpRegister 101 (make_record "runtime-1" "peer-1") [];
   OpPeerEvent 102 (peer_event "PEER_LOST" "peer-1" "runtime-1" "socket-close" 102);
   OpRegister 103 (make_record "runtime-2" "peer-2") []; OpPurge 900 None].

Lemma sub0_subscribed ops : ops = story → stays_subscribed (Nat.eqb 7) ops sub0.
Proof.
  intros ->. unfold story. repeat (split; [split; eexists; (split; [vm_compute; left|]; split; reflexivity)|]). exact I.
Qed.

Lemma events_mirror_directory_witness :
  ∃ delta, dlog (run_ops story sub0) = dlog sub0 ++ delta ∧ key0 ∈ mirror [] (events_for (Nat.eqb 7) delta) ∧
    map ev_event (events_for (Nat.eqb 7) delta) = [SERVICE_CONNECTED; SERVICE_DISCONNECTED; SERVICE_CONNECTED].
Proof.
  destruct (events_mirror_directory (Nat.eqb 7) story sub0 []) as (delta & Hl & Hm).
  - apply dir_ok_run, dir0_ok.
  - apply sub0_subscribed. reflexivity.
  - intros k. split; [by intros ?%elem_of_nil|]. intros (r & Hr & _). vm_compute in Hr. discriminate.
  - exists delta. split; [exact Hl|]. split.
    + apply Hm. eexists. split; vm_compute; reflexivity.
    + vm_compute in Hl. rewrite <- Hl. vm_compute. reflexivity.
Defined.

(** The order matters: delivered the other way round, the events of two calls
    leave the subscriber with a service that is gone.  This is why the calls
    hold the transition lock until their events are out. *)
Example overtaken_event_misleads :
  let evs := events_for (Nat.eqb 7) (dlog (run_ops (take 3 story) sub0)) in
  mirror [] evs = [] ∧ mirror [] (rev evs) = [key0].
Proof. vm_compute. split; reflexivity. Qed.
