(* ===== verification/Agent.v ===== *)
(** * Endpoints and agents ([python/infra/defw_agent.py])

    An [Endpoint] names a DEFw process: its address, ports, process id, name,
    host, role, runtime id ([remote_uuid]) and the connection to it
    ([blk_uuid]).  An [Agent] is an endpoint one can send requests to.  The
    role constants are those of [src/defw_common.h]. *)

From S2P Require Import Prelude PyDict PyVal.

Local Open Scope string_scope.
Local Open Scope Z_scope.

Definition EN_DEFW_DIRSVC : Z := 1.
Definition EN_DEFW_AGENT : Z := 2.
Definition EN_DEFW_SERVICE : Z := 3.

(** [str(uuid.UUID(int=0))] *)
Definition ZERO_UUID : string := "00000000-0000-0000-0000-000000000000".

Record Endpoint := MkEndpoint {
  addr : val;
  port : val;
  listen_port : val;
  pid : val;
  name : val;
  hostname : val;
  node_type : val;
  remote_uuid : val;
  blk_uuid : val
}.

(** [Endpoint.__init__]: an unknown role is refused. *)
Definition new_endpoint (addr port listen_port pid name hostname node_type remote_uuid
    blk_uuid : val) : res Endpoint :=
  if py_eqb node_type (VInt EN_DEFW_DIRSVC) || py_eqb node_type (VInt EN_DEFW_SERVICE) ||
     py_eqb node_type (VInt EN_DEFW_AGENT)
  then Ok (MkEndpoint addr port listen_port pid name hostname node_type remote_uuid blk_uuid)
  else Raise (Exc EDEFwError "Unknown node type provided: ").

Definition is_service (e : Endpoint) : bool := py_eqb (node_type e) (VInt EN_DEFW_SERVICE).
Definition is_dirsvc (e : Endpoint) : bool := py_eqb (node_type e) (VInt EN_DEFW_DIRSVC).
Definition get_id (e : Endpoint) : val := remote_uuid e.

Definition node_type2str (e : Endpoint) : res string :=
  if py_eqb (node_type e) (VInt EN_DEFW_DIRSVC) then Ok "DIRSVC"
  else if py_eqb (node_type e) (VInt EN_DEFW_AGENT) then Ok "AGENT"
  else if py_eqb (node_type e) (VInt EN_DEFW_SERVICE) then Ok "SERVICE"
  else Raise (Exc EDEFwError "Unknown node type provided: ").

(** [Endpoint.get]: the printable form. *)
Definition endpoint_get (e : Endpoint) : res (val * pydict) :=
  res_map (λ nt, (name e,
    [("remote uuid", remote_uuid e); ("block uuid", blk_uuid e); ("hostname", hostname e);
     ("addr", addr e); ("listen port", listen_port e); ("connection port", port e);
     ("pid", pid e); ("node-type", VStr nt)])) (node_type2str e).

(** The attributes [getattr] finds on an endpoint. *)
Definition endpoint_attrs (e : Endpoint) : pydict :=
  [("addr", addr e); ("port", port e); ("listen_port", listen_port e); ("pid", pid e);
   ("name", name e); ("hostname", hostname e); ("node_type", node_type e);
   ("remote_uuid", remote_uuid e); ("blk_uuid", blk_uuid e)].

(** An [Agent]: the endpoint and the request timeout read from the
    preferences when it was created. *)
Record Agent := MkAgent { agent_ep : Endpoint; agent_timeout : Z }.

Definition agent_name (a : Agent) : val := name (agent_ep a).
Definition get_remote_uuid (a : Agent) : val := remote_uuid (agent_ep a).
Definition get_blk_uuid (a : Agent) : val := blk_uuid (agent_ep a).

(** A role an endpoint was constructed with always prints. *)
Lemma new_endpoint_prints a p l i n h t r b e :
  new_endpoint a p l i n h t r b = Ok e → is_ok (endpoint_get e) = true.
Proof.
  unfold new_endpoint, endpoint_get, node_type2str. case_match eqn:E; [|done].
  intros [= <-]. simpl. destruct (py_eqb t (VInt EN_DEFW_DIRSVC)); [done|].
  destruct (py_eqb t (VInt EN_DEFW_AGENT)); [done|]. simpl in E.
  by destruct (py_eqb t (VInt EN_DEFW_SERVICE)).
Qed.
