(* ===== verification/Peers.v ===== *)
(** * The peer table ([python/infra/defw_peers.py])

    One record per live or recently lost connection, keyed by its peer handle,
    and the connect targets remembered until their peer shows up.  The parent's
    name, host and port come from the native configuration
    ([cdefw_global]), which is the argument [parent]. *)

From S2P Require Import Prelude PyDict PyVal Agent.

Local Open Scope string_scope.
Local Open Scope Z_scope.
Local Open Scope list_scope.
Import PyNotations.
Local Open Scope py_scope.

Definition CONNECTION_OUTBOUND : string := "OUTBOUND".

(** What the code accepts as an endpoint: a dict, an [Endpoint], or nothing. *)
Inductive ep_arg :=
  | EpNone
  | EpDict (d : pydict)
  | EpObj (e : Endpoint).

(** [_endpoint_value] *)
Definition endpoint_value (ep : ep_arg) (attr : string) (dflt : val) : val :=
  match ep with
  | EpNone => dflt
  | EpDict d => vget_or d attr dflt
  | EpObj e => vget_or (endpoint_attrs e) attr dflt
  end.

Definition ep_truthy (ep : ep_arg) : bool :=
  match ep with EpNone => false | EpDict d => truthy (VDict d) | EpObj _ => true end.

Definition endpoint_address (ep : ep_arg) : val :=
  endpoint_value ep "address" (endpoint_value ep "addr" (VStr "")).
Definition endpoint_node_name (ep : ep_arg) : val :=
  endpoint_value ep "node_name" (endpoint_value ep "name" (VStr "")).

(** [_endpoint_signature] *)
Definition endpoint_signature (ep : ep_arg) : option (val * val * val * val) :=
  if ep_truthy ep then
    Some (endpoint_address ep, endpoint_value ep "listen_port" (VInt 0),
          endpoint_node_name ep, endpoint_value ep "hostname" (VStr ""))
  else None.

Definition signature_eqb (a b : option (val * val * val * val)) : bool :=
  match a, b with
  | None, None => true
  | Some (a1, a2, a3, a4), Some (b1, b2, b3, b4) =>
      py_eqb a1 b1 && py_eqb a2 b2 && py_eqb a3 b3 && py_eqb a4 b4
  | _, _ => false
  end.

(** [_endpoint_listen_port] *)
Definition endpoint_listen_port (ep : ep_arg) : Z :=
  match py_int (py_or (endpoint_value ep "listen_port" (VInt 0)) (VInt 0)) with
  | Ok n => n
  | Raise _ => 0
  end.

(** [_endpoint_node_type] *)
Definition endpoint_node_type (ep : ep_arg) : val := endpoint_value ep "node_type" VNone.

(** [_endpoint_hostname] *)
Definition endpoint_hostname (ep : ep_arg) : val :=
  py_or (endpoint_value ep "hostname" (VStr "")) (endpoint_address ep).

(** [_endpoint_runtime_id] *)
Definition endpoint_runtime_id (ep : ep_arg) : val :=
  let rid := endpoint_value ep "remote_uuid" (VStr "") in
  let rid := if truthy rid then rid else endpoint_value ep "runtime_id" (VStr "") in
  if py_eqb rid (VStr ZERO_UUID) then VStr "" else py_or rid (VStr "").

(** A peer record. *)
Record peer_record := PeerRecord {
  peer_handle : val;
  runtime_id : val;
  endpoint : pydict;
  transport_context : val;
  connection_direction : val;
  is_self : bool;
  last_seen : val;
  peer_node_type : val;
  callable : bool;
  loss_reason : val
}.

(** Keys of the pending table: [('runtime', id)] and [('endpoint', sig)]. *)
Inductive pending_key :=
  | PRuntime (id : hkey)
  | PEndpoint (address port node host : hkey).

#[export] Instance pending_key_eq_dec : EqDecision pending_key.
Proof. solve_decision. Defined.

Record peer_table := PeerTable {
  peers : odict hkey peer_record;
  pending_targets : odict pending_key pydict
}.

Definition empty_table : peer_table := PeerTable [] [].

Definition set_peers (ps : odict hkey peer_record) (t : peer_table) : peer_table :=
  PeerTable ps (pending_targets t).
Definition set_pending (ps : odict pending_key pydict) (t : peer_table) : peer_table :=
  PeerTable (peers t) ps.

(** The parent configuration of this process. *)
Record parent_cfg := Parent {
  parent_name : val;
  parent_hostname : val;
  parent_port : val
}.

Definition signature_key (s : val * val * val * val) : res pending_key :=
  let '(a, p, n, h) := s in
  let? a := hash_key a in
  let? p := hash_key p in
  let? n := hash_key n in
  let? h := hash_key h in
  Ok (PEndpoint a p n h).

(** [__endpoint_record] *)
Definition endpoint_record (ep : ep_arg) : pydict :=
  [("address", endpoint_address ep);
   ("listen_port", endpoint_value ep "listen_port" (VInt 0));
   ("node_name", endpoint_node_name ep);
   ("hostname", endpoint_value ep "hostname" (VStr ""));
   ("pid", endpoint_value ep "pid" (VInt 0));
   ("port", endpoint_value ep "port" (VInt 0));
   ("node_type", endpoint_value ep "node_type" (VInt EN_DEFW_SERVICE));
   ("runtime_id", endpoint_runtime_id ep)].

(** [remember_connect_target] *)
Definition remember_connect_target (ep : ep_arg) (direction : val) : M peer_table unit :=
  let record := endpoint_record ep in
  let record := if truthy direction then dset record "connection_direction" direction
                else record in
  let rid := endpoint_runtime_id ep in
  (if truthy rid then
     let! k := lift_res (hash_key rid) in
     modify (λ t, set_pending (dset (pending_targets t) (PRuntime k) record) t)
   else ret tt) ;;;
  match endpoint_signature ep with
  | Some s =>
      let! k := lift_res (signature_key s) in
      modify (λ t, set_pending (dset (pending_targets t) k record) t)
  | None => ret tt
  end.

(** [__pending_for] *)
Definition pending_for (t : peer_table) (rid : val) (ep : pydict) : res pydict :=
  let? pending := if truthy rid then
                    let? k := hash_key rid in
                    Ok (dget_or (pending_targets t) (PRuntime k) [])
                  else Ok [] in
  if truthy (VDict pending) then Ok pending
  else match endpoint_signature (EpDict ep) with
       | Some s =>
           let? k := signature_key s in
           Ok (dget_or (pending_targets t) k [])
       | None => Ok pending
       end.

(** [x and x != 'None'] on a configured name *)
Definition configured (v : val) : bool := truthy v && negb (py_eqb v (VStr "None")).

(** [__infer_node_type] *)
Definition infer_node_type (parent : parent_cfg) (ep : pydict) : val :=
  if configured (parent_name parent) &&
     py_eqb (vget_or ep "node_name" (VStr "")) (parent_name parent)
  then VInt EN_DEFW_DIRSVC
  else if configured (parent_hostname parent) &&
          py_eqb (vget_or ep "hostname" (VStr "")) (parent_hostname parent) &&
          py_eqb (vget_or ep "listen_port" (VInt 0)) (parent_port parent)
  then VInt EN_DEFW_DIRSVC
  else VNone.

(** The endpoint a record has after an event: what the event says, over what
    was known; blank values do not erase. *)
Definition merge_endpoint (current : option peer_record) (ep : pydict) : pydict :=
  match current with
  | None => ep
  | Some cur =>
      dupdate (endpoint cur)
        (List.filter (λ p, negb (py_eqb p.2 VNone || py_eqb p.2 (VStr ""))) ep)
  end.

Definition cur_field (current : option peer_record) (f : peer_record → val) (dflt : val) : val :=
  match current with Some cur => f cur | None => dflt end.

(** The record an event leads to; [event_type] is known to be applicable. *)
Definition update_record (parent : parent_cfg) (t : peer_table) (handle : val)
    (current : option peer_record) (event : pydict) (timestamp : val) : res peer_record :=
  let event_type := vget event "event_type" in
  let? ep := py_dict_or_empty (vget event "endpoint") in
  let ep := merge_endpoint current ep in
  let rid := py_or (py_or (vget event "remote_runtime_id") (VStr ""))
                   (cur_field current runtime_id (VStr "")) in
  let? pending := pending_for t rid ep in
  let rid := if truthy rid then rid else vget_or pending "runtime_id" (VStr "") in
  let reason := vget_or event "reason" (VStr "") in
  let '(call, loss) :=
    if py_eqb event_type (VStr "PEER_READY") then (true, VStr "")
    else if py_eqb event_type (VStr "PEER_DEGRADED") then (true, reason)
    else if py_eqb event_type (VStr "PEER_LOST") then (false, reason)
    else match current with
         | Some cur => (callable cur, loss_reason cur)
         | None => (false, VStr "")
         end in
  Ok (PeerRecord handle rid ep
        (py_or (vget event "transport_context") (cur_field current transport_context (VStr "")))
        (py_or (py_or (vget event "connection_direction")
                      (cur_field current connection_direction VNone))
               (vget_or pending "connection_direction" (VStr "")))
        (truthy (vget_or event "is_self" (VBool false)))
        timestamp
        (py_or (py_or (py_or (py_or (vget event "node_type") (vget ep "node_type"))
                             (cur_field current peer_node_type VNone))
                      (vget pending "node_type"))
               (infer_node_type parent ep))
        call loss).

(** [apply_event] *)
Definition apply_event (parent : parent_cfg) (clock : Z) (event : pydict)
    : M peer_table (option peer_record) :=
  let handle := vget event "peer_handle" in
  if negb (truthy handle) then ret None
  else
  let event_type := vget event "event_type" in
  let timestamp := vget_or event "timestamp" (VInt clock) in
  let! key := lift_res (hash_key handle) in
  let! t := get in
  let current := dget (peers t) key in
  let! stale := lift_res (match current with
                          | Some cur => py_lt timestamp (last_seen cur)
                          | None => Ok false
                          end) in
  if stale then ret current
  else if py_eqb event_type (VStr "PEER_REMOVED") then
    modify (set_peers (ddel (peers t) key)) ;;; ret current
  else if match current with Some _ => false | None => true end &&
          negb (py_eqb event_type (VStr "PEER_READY") || py_eqb event_type (VStr "PEER_DEGRADED"))
  then ret None
  else
  let! record := lift_res (update_record parent t handle current event timestamp) in
  modify (set_peers (dset (peers t) key record)) ;;;
  ret (Some record).

(** [__record_matches_transport_endpoint] *)
Definition matches_transport_endpoint (record : peer_record) (target : ep_arg) : bool :=
  let ep := EpDict (endpoint record) in
  if negb (endpoint_listen_port ep =? endpoint_listen_port target) then false
  else if endpoint_listen_port ep =? 0 then false
  else
  let target_node_type := endpoint_node_type target in
  let record_node_type := py_or (peer_node_type record) (endpoint_node_type ep) in
  if truthy target_node_type && truthy record_node_type &&
     negb (py_eqb target_node_type record_node_type) then false
  else truthy (endpoint_hostname target) && truthy (endpoint_hostname ep) &&
       py_eqb (endpoint_hostname target) (endpoint_hostname ep).

(** [__record_matches] *)
Definition record_matches (record : peer_record) (target : ep_arg) (direction : val) : bool :=
  if negb (callable record) then false
  else if truthy direction && negb (py_eqb (connection_direction record) direction) then false
  else
  let rid := endpoint_runtime_id target in
  if truthy rid then py_eqb rid (runtime_id record)
  else
  let signature := endpoint_signature target in
  let record_signature := endpoint_signature (EpDict (endpoint record)) in
  if match signature with Some _ => true | None => false end &&
     negb (signature_eqb record_signature signature) &&
     negb (matches_transport_endpoint record target)
  then false
  else true.

(** [__find_record] *)
Definition find_record (t : peer_table) (target : ep_arg) (direction : val) (fallback : bool)
    : res (option peer_record) :=
  let handle := endpoint_value target "blk_uuid" (VStr "") in
  let scan := Ok (List.find (λ r, record_matches r target direction) (dvals (peers t))) in
  if truthy handle && negb (py_eqb handle (VStr ZERO_UUID)) then
    let? k := hash_key handle in
    match dget (peers t) k with
    | Some record => if record_matches record target direction then Ok (Some record)
                     else if fallback then scan else Ok None
    | None => if fallback then scan else Ok None
    end
  else scan.

(** [__record_to_agent]: the endpoint of the agent, or [None] when its
    runtime is not known. *)
Definition record_to_agent (record : peer_record) (target : ep_arg) : res (option Endpoint) :=
  let ep := endpoint record in
  let nt := py_or (peer_node_type record)
              (endpoint_value target "node_type" (VInt EN_DEFW_SERVICE)) in
  let rid := py_or (runtime_id record) (endpoint_value target "remote_uuid" (VStr "")) in
  if negb (truthy rid) then Ok None
  else
  res_map Some
    (new_endpoint
       (py_or (vget ep "address") (endpoint_value target "addr" (VStr "")))
       (vget_or ep "port" (endpoint_value target "port" (VInt 0)))
       (vget_or ep "listen_port" (endpoint_value target "listen_port" (VInt 0)))
       (vget_or ep "pid" (endpoint_value target "pid" (VInt 0)))
       (py_or (vget ep "node_name") (endpoint_value target "name" (VStr "")))
       (py_or (vget ep "hostname") (endpoint_value target "hostname" (VStr "")))
       nt rid (peer_handle record)).

(** [get_agent] *)
Definition get_agent (t : peer_table) (target : ep_arg) (direction : val) (fallback : bool)
    : res (option Endpoint) :=
  let? record := find_record t target direction fallback in
  match record with
  | None => Ok None
  | Some r => record_to_agent r target
  end.

(** [get_dirsvc_agent] *)
Definition get_dirsvc_agent (t : peer_table) : res (option Endpoint) :=
  match List.find (λ r, callable r && py_eqb (peer_node_type r) (VInt EN_DEFW_DIRSVC))
          (dvals (peers t)) with
  | Some r => record_to_agent r EpNone
  | None => Ok None
  end.

(** [get] *)
Definition get_peer (t : peer_table) (handle : val) : res (option peer_record) :=
  res_map (dget (peers t)) (hash_key handle).

(** [snapshot] *)
Definition snapshot (t : peer_table) : odict hkey peer_record := peers t.
