(* ===== verification/PeersFacts.v ===== *)
(** * Correctness of the peer table

    The table invariant, what an event does to it, and what a lookup may
    return. *)

From S2P Require Import Prelude PyDict PyVal Agent Peers.

Local Open Scope string_scope.
Local Open Scope Z_scope.
Local Open Scope list_scope.

Inductive peer_op :=
  | OpEvent (parent : parent_cfg) (clock : Z) (event : pydict)
  | OpRemember (ep : ep_arg) (direction : val).

Definition exec_peer (op : peer_op) (t : peer_table) : peer_table :=
  match op with
  | OpEvent p c e => (apply_event p c e t).1
  | OpRemember ep dir => (remember_connect_target ep dir t).1
  end.

Definition run_peers (ops : list peer_op) (t : peer_table) : peer_table :=
  fold_left (λ t op, exec_peer op t) ops t.

(** Each connection has one record, filed under its own handle. *)
Definition table_ok (t : peer_table) : Prop :=
  dict_ok (peers t) ∧
  ∀ k r, (k, r) ∈ peers t → hash_key (peer_handle r) = Ok k ∧ truthy (peer_handle r) = true.

(** ** What an event does *)

Definition is_type (event : pydict) (ty : string) : bool :=
  py_eqb (vget event "event_type") (VStr ty).

Definition event_timestamp (clock : Z) (event : pydict) : val :=
  vget_or event "timestamp" (VInt clock).

(** [true] when the event is older than what the table knows of that peer. *)
Definition is_stale (cur : option peer_record) (ts : val) : res bool :=
  match cur with Some r => py_lt ts (last_seen r) | None => Ok false end.

Lemma apply_event_run parent clock event t k :
  truthy (vget event "peer_handle") = true → hash_key (vget event "peer_handle") = Ok k →
  let cur := dget (peers t) k in
  let ts := event_timestamp clock event in
  apply_event parent clock event t =
    match is_stale cur ts with
    | Raise e => (t, Raise e)
    | Ok true => (t, Ok cur)
    | Ok false =>
        if is_type event "PEER_REMOVED" then (set_peers (ddel (peers t) k) t, Ok cur)
        else if match cur with None => true | Some _ => false end &&
                negb (is_type event "PEER_READY" || is_type event "PEER_DEGRADED")
        then (t, Ok None)
        else match update_record parent t (vget event "peer_handle") cur event ts with
             | Ok r => (set_peers (dset (peers t) k r) t, Ok (Some r))
             | Raise e => (t, Raise e)
             end
    end.
Proof.
  intros Ht Hk cur ts. unfold apply_event. rewrite Ht. cbn [negb].
  unfold bind, lift_res, get, modify, ret. rewrite Hk. fold (event_timestamp clock event).
  fold cur ts. fold (is_stale cur ts).
  fold (is_type event "PEER_REMOVED") (is_type event "PEER_READY") (is_type event "PEER_DEGRADED").
  destruct (is_stale cur ts) as [[]|]; try done.
  destruct (is_type event "PEER_REMOVED"); [done|].
  destruct (_ && _); [done|]. by destruct (update_record _ _ _ _ _ _).
Qed.

Lemma apply_event_unkeyed parent clock event t :
  truthy (vget event "peer_handle") = false ∨ (∀ k, hash_key (vget event "peer_handle") ≠ Ok k) →
  (apply_event parent clock event t).1 = t.
Proof.
  unfold apply_event. intros [->|H]; [done|]. destruct (truthy _); [|done]. simpl.
  unfold bind, lift_res. destruct (hash_key _) eqn:E; [|done]. by destruct (H a).
Qed.

Lemma update_record_handle parent t h cur event ts r :
  update_record parent t h cur event ts = Ok r → peer_handle r = h ∧ last_seen r = ts.
Proof.
  unfold update_record. destruct (py_dict_or_empty _) as [ep|]; [|done]. simpl.
  destruct (pending_for _ _ _) as [pd|]; [|done]. simpl.
  match goal with |- context [let '(_, _) := ?x in _] => destruct x end. by intros [= <-].
Qed.

Lemma remember_peers ep dir t : peers (remember_connect_target ep dir t).1 = peers t.
Proof.
  unfold remember_connect_target, bind, lift_res, modify, ret.
  destruct (truthy (endpoint_runtime_id ep)).
  - destruct (hash_key _); [|done]. destruct (endpoint_signature ep); [|done].
    by destruct (signature_key _).
  - destruct (endpoint_signature ep); [|done]. by destruct (signature_key _).
Qed.

Lemma table_ok_event parent clock event t :
  table_ok t → table_ok (apply_event parent clock event t).1.
Proof.
  intros [Hd Hr]. destruct (truthy (vget event "peer_handle")) eqn:Ht;
    [|rewrite apply_event_unkeyed by auto; done].
  destruct (hash_key (vget event "peer_handle")) as [k|e] eqn:Hk;
    [|rewrite apply_event_unkeyed by (right; congruence); done].
  rewrite (apply_event_run _ _ _ _ k Ht Hk).
  destruct (is_stale _ _) as [[]|]; [done| |done].
  destruct (is_type event "PEER_REMOVED").
  { split; [by apply dict_ok_ddel|]. intros k' r' [Hin _]%In_ddel. auto. }
  destruct (_ && _); [done|].
  destruct (update_record _ _ _ _ _ _) as [r|] eqn:Hu; [|done].
  apply update_record_handle in Hu as [Hh _].
  split; [by apply dict_ok_dset|]. intros k' r' Hin. destruct (decide (k' = k)) as [->|Hne].
  - apply dget_In in Hin; [|by apply dict_ok_dset]. simpl in Hin. rewrite dget_dset_eq in Hin.
    simplify_eq. by rewrite Hh.
  - apply dset_In_other in Hin; auto.
Qed.

Lemma table_ok_run ops : table_ok (run_peers ops empty_table).
Proof.
  assert (∀ t, table_ok t → table_ok (run_peers ops t)) as H.
  { induction ops as [|op ops IH]; intros t Ht; [done|]. simpl. apply IH.
    destruct op; simpl; [by apply table_ok_event|].
    destruct Ht as [Hd Hr]. by split; rewrite remember_peers. }
  apply H. split; [apply dict_ok_nil | by intros ?? ?%elem_of_nil].
Qed.


(** An event concerns one peer only: the records of all other peers stay as
    they are, whatever the event is and even when it raises. *)
Theorem event_isolated parent clock event t k' :
  hash_key (vget event "peer_handle") ≠ Ok k' →
  dget (peers (apply_event parent clock event t).1) k' = dget (peers t) k'.
Proof.
  intros Hne. destruct (truthy (vget event "peer_handle")) eqn:Ht;
    [|rewrite apply_event_unkeyed by auto; done].
  destruct (hash_key (vget event "peer_handle")) as [k|e] eqn:Hk;
    [|rewrite apply_event_unkeyed by (right; congruence); done].
  assert (k ≠ k') as Hkk by congruence.
  rewrite (apply_event_run _ _ _ _ k Ht Hk). repeat case_match; simpl;
    rewrite ?dget_dset_ne, ?dget_ddel_ne by done; done.
Qed.

(** ** Time *)

Lemma py_lt_numbers a b n m : as_number a = Some n → as_number b = Some m → py_lt a b = Ok (n <? m).
Proof. intros Ha Hb. unfold py_lt. by rewrite Ha, Hb. Qed.

(** The table never goes back in time: if a peer has a record before and
    after an event, the time it was last seen has not decreased, so a delayed
    event cannot overwrite newer knowledge. *)
Theorem last_seen_monotone parent clock event t k r r' n n' :
  dget (peers t) k = Some r → dget (peers (apply_event parent clock event t).1) k = Some r' →
  as_number (last_seen r) = Some n → as_number (last_seen r') = Some n' → n ≤ n'.
Proof.
  intros Hr Hr' Hn Hn'. destruct (truthy (vget event "peer_handle")) eqn:Ht;
    [|rewrite apply_event_unkeyed in Hr' by auto; simplify_eq; lia].
  destruct (hash_key (vget event "peer_handle")) as [k0|e] eqn:Hk;
    [|rewrite apply_event_unkeyed in Hr' by (right; congruence); simplify_eq; lia].
  rewrite (apply_event_run _ _ _ _ k0 Ht Hk) in Hr'.
  destruct (decide (k0 = k)) as [->|Hne].
  - rewrite Hr in Hr'. cbn [is_stale] in Hr'.
    destruct (py_lt _ _) as [[]|] eqn:Hlt; simpl in Hr'; [simplify_eq; lia | | simplify_eq; lia].
    destruct (is_type event "PEER_REMOVED"); [simpl in Hr'; by rewrite dget_ddel_eq in Hr'|].
    destruct (update_record _ _ _ _ _ _) as [r1|] eqn:Hu; simpl in Hr'; [|simplify_eq; lia].
    rewrite dget_dset_eq in Hr'. apply update_record_handle in Hu as [_ Hls]. simplify_eq.
    rewrite Hls in Hn'. rewrite (py_lt_numbers _ _ n' n Hn' Hn) in Hlt. simplify_eq. lia.
  - assert (dget (peers t) k = Some r') as H'; [|simplify_eq; lia].
    revert Hr'. repeat case_match; simpl; rewrite ?dget_dset_ne, ?dget_ddel_ne by done; done.
Qed.

(** ** Lookups *)

Lemma find_In {A} (f : A → bool) (l : list A) x : List.find f l = Some x → x ∈ l ∧ f x = true.
Proof. intros H. apply find_some in H as [H1 H2]. by rewrite list_elem_of_In. Qed.

Lemma dvals_In {K V} `{EqDecision K} (d : odict K V) v :
  dict_ok d → v ∈ dvals d ↔ ∃ k, dget d k = Some v.
Proof.
  intros Hd. unfold dvals. rewrite list_map_In. split.
  - intros ([k v'] & Hin & ->). exists k. by apply dget_In.
  - intros [k Hk%dget_Some_In]. by exists (k, v).
Qed.

(** Every record the search yields is in the table and matches. *)
Lemma find_record_sound t target dir fb r :
  table_ok t → find_record t target dir fb = Ok (Some r) →
  (∃ k, dget (peers t) k = Some r) ∧ record_matches r target dir = true ∧
  (fb = false → truthy (endpoint_value target "blk_uuid" (VStr "")) = true →
   py_eqb (endpoint_value target "blk_uuid" (VStr "")) (VStr ZERO_UUID) = false →
   hash_key (endpoint_value target "blk_uuid" (VStr "")) = hash_key (peer_handle r)).
Proof.
  intros [Hd Hr]. unfold find_record. set (h := endpoint_value target "blk_uuid" (VStr "")).
  assert (List.find (λ r, record_matches r target dir) (dvals (peers t)) = Some r →
          (∃ k, dget (peers t) k = Some r) ∧ record_matches r target dir = true) as Hscan.
  { intros [Hin Hm]%find_In. by rewrite dvals_In in Hin. }
  destruct (truthy h && negb (py_eqb h (VStr ZERO_UUID))) eqn:Hh.
  - destruct (hash_key h) as [k|] eqn:Hk; simpl; [|done].
    destruct (dget (peers t) k) as [r0|] eqn:E.
    + destruct (record_matches r0 target dir) eqn:Hm.
      * intros [= ->]. split_and!; [eauto | done|]. intros _ _ _.
        apply dget_Some_In, Hr in E as [E _]. congruence.
      * destruct fb; [|done]. intros [= H]. destruct (Hscan H). by split_and!.
    + destruct fb; [|done]. intros [= H]. destruct (Hscan H). by split_and!.
  - intros [= H]. destruct (Hscan H) as [Hs1 Hs2]. split_and!; try done. intros _ H1 H2.
    apply andb_false_iff in Hh as [Hh|Hh]; [congruence|]. apply negb_false_iff in Hh. congruence.
Qed.

Lemma record_to_agent_fields r target ep :
  record_to_agent r target = Ok (Some ep) →
  blk_uuid ep = peer_handle r ∧
  remote_uuid ep = py_or (runtime_id r) (endpoint_value target "remote_uuid" (VStr "")) ∧
  truthy (remote_uuid ep) = true.
Proof.
  unfold record_to_agent. destruct (truthy (py_or _ _)) eqn:Ht; simpl; [|done].
  unfold new_endpoint. case_match; [|done]. by intros [= <-].
Qed.

Lemma record_matches_callable r target dir : record_matches r target dir = true → callable r = true.
Proof. unfold record_matches. by destruct (callable r). Qed.

Lemma record_matches_runtime r target dir :
  record_matches r target dir = true → truthy (endpoint_runtime_id target) = true →
  py_eqb (endpoint_runtime_id target) (runtime_id r) = true.
Proof.
  unfold record_matches. destruct (callable r); [|done]. simpl.
  destruct (truthy dir && _); [done|]. intros H Ht. by rewrite Ht in H.
Qed.

Lemma record_matches_direction r target dir :
  record_matches r target dir = true → truthy dir = true →
  py_eqb (connection_direction r) dir = true.
Proof.
  unfold record_matches. destruct (callable r); [|done]. simpl. intros H Hd. rewrite Hd in H.
  simpl in H. by destruct (py_eqb (connection_direction r) dir).
Qed.

Lemma get_agent_from t target dir fb ep :
  get_agent t target dir fb = Ok (Some ep) →
  ∃ r, find_record t target dir fb = Ok (Some r) ∧ record_to_agent r target = Ok (Some ep).
Proof.
  unfold get_agent. destruct (find_record t target dir fb) as [[r|]|]; simpl; [|done|done]. eauto.
Qed.

(** C17. A lookup only ever returns a usable connection of the right process: the
    agent stands for a callable record of the table and carries its handle; if
    the target names a runtime, the record is of that runtime and so is the
    agent; if a direction is asked for, the connection has that direction; and
    a target that names a connection gets that very connection unless the
    caller allowed falling back. *)
Theorem get_agent_sound t target dir fb ep :
  table_ok t → get_agent t target dir fb = Ok (Some ep) →
  ∃ k r, dget (peers t) k = Some r ∧ callable r = true ∧ blk_uuid ep = peer_handle r ∧
    (truthy (endpoint_runtime_id target) = true →
       py_eqb (endpoint_runtime_id target) (runtime_id r) = true ∧ remote_uuid ep = runtime_id r) ∧
    (truthy dir = true → py_eqb (connection_direction r) dir = true) ∧
    (fb = false → truthy (endpoint_value target "blk_uuid" (VStr "")) = true →
     py_eqb (endpoint_value target "blk_uuid" (VStr "")) (VStr ZERO_UUID) = false →
     hash_key (endpoint_value target "blk_uuid" (VStr "")) = Ok k).
Proof.
  intros Hok (r & Hf & Ha)%get_agent_from.
  destruct (find_record_sound _ _ _ _ _ Hok Hf) as ([k Hk] & Hm & Hh).
  apply record_to_agent_fields in Ha as (Hb & Hru & _).
  exists k, r. split_and!; try done.
  - by eapply record_matches_callable.
  - intros Ht. pose proof (record_matches_runtime _ _ _ Hm Ht) as Heq. split; [done|].
    rewrite Hru. apply py_or_truthy. by rewrite <- (py_eqb_truthy _ _ Heq).
  - by eapply record_matches_direction.
  - intros H1 H2 H3. rewrite (Hh H1 H2 H3). destruct Hok as [_ Hr].
    by apply dget_Some_In, Hr in Hk as [].
Qed.

(** A lookup by runtime id that names no connection is complete: it finds
    nothing only if the table has no callable connection of that runtime in
    the requested direction. *)
Theorem get_agent_complete t target dir fb :
  table_ok t → truthy (endpoint_runtime_id target) = true →
  py_eqb (endpoint_value target "blk_uuid" (VStr "")) (VStr ZERO_UUID) = true →
  get_agent t target dir fb = Ok None →
  ∀ k r, dget (peers t) k = Some r → callable r = true →
    (truthy dir = false ∨ py_eqb (connection_direction r) dir = true) →
    py_eqb (endpoint_runtime_id target) (runtime_id r) = false.
Proof.
  intros [Hd _] Hrt Hz. unfold get_agent, find_record. rewrite Hz, andb_false_r. simpl.
  destruct (List.find _ _) as [r0|] eqn:Hfind; simpl.
  - intros Hn. exfalso. revert Hn. apply find_In in Hfind as [_ Hm].
    pose proof (record_matches_runtime _ _ _ Hm Hrt) as Heq. unfold record_to_agent.
    rewrite (py_or_truthy (runtime_id r0)) by (by rewrite <- (py_eqb_truthy _ _ Heq)).
    rewrite <- (py_eqb_truthy _ _ Heq), Hrt. simpl. by destruct (new_endpoint _ _ _ _ _ _ _ _ _).
  - intros _ k r Hk Hc Hdir.
    assert (record_matches r target dir = false) as Hm.
    { eapply (find_none _ _ Hfind), list_elem_of_In, dvals_In; eauto. }
    revert Hm. unfold record_matches. rewrite Hc, Hrt. simpl.
    destruct Hdir as [-> | ->]; simpl; rewrite ?andb_false_r; done.
Qed.

(** ** Losing a peer *)

(** No lookup can return a connection that is gone or not callable. *)
Lemma get_agent_not_handle t target dir fb ep k :
  table_ok t →
  (∀ r, dget (peers t) k = Some r → callable r = false) →
  get_agent t target dir fb = Ok (Some ep) → hash_key (blk_uuid ep) ≠ Ok k.
Proof.
  intros Hok Hdead (r & Hf & Ha)%get_agent_from Hk.
  destruct (find_record_sound _ _ _ _ _ Hok Hf) as ([k' Hk'] & Hm & _).
  apply record_to_agent_fields in Ha as (Hb & _). rewrite Hb in Hk.
  assert (k' = k) as ->.
  { destruct Hok as [_ Hr]. pose proof Hk' as Hin%dget_Some_In. apply Hr in Hin as [Hh _]. congruence. }
  apply record_matches_callable in Hm. specialize (Hdead r Hk'). congruence.
Qed.

Lemma update_record_lost parent t h cur event ts r :
  is_type event "PEER_LOST" = true → update_record parent t h cur event ts = Ok r →
  callable r = false.
Proof.
  unfold update_record, is_type. intros Hl. destruct (py_dict_or_empty _) as [ep|]; [|done].
  cbn [rbind]. destruct (pending_for _ _ _) as [pd|]; [|done]. cbn [rbind].
  assert (vget event "event_type" = VStr "PEER_LOST") as ->.
  { destruct (vget event "event_type"); try done. simpl in Hl.
    apply String.eqb_eq in Hl. by subst. }
  simpl. by intros [= <-].
Qed.

(** After a peer is reported lost or removed, by an event that is accepted,
    that connection is never handed out again: whatever is looked up, no agent
    carries that handle. *)
Theorem lost_peer_never_returned parent clock event t t' res k target dir fb ep :
  table_ok t → truthy (vget event "peer_handle") = true →
  hash_key (vget event "peer_handle") = Ok k →
  is_type event "PEER_LOST" || is_type event "PEER_REMOVED" = true →
  is_stale (dget (peers t) k) (event_timestamp clock event) = Ok false →
  apply_event parent clock event t = (t', Ok res) →
  get_agent t' target dir fb = Ok (Some ep) → hash_key (blk_uuid ep) ≠ Ok k.
Proof.
  intros Hok Ht Hk Hty Hst Hap.
  assert (table_ok t') as Hok'.
  { pose proof (table_ok_event parent clock event t Hok) as H. by rewrite Hap in H. }
  apply get_agent_not_handle; [done|]. intros r Hr.
  rewrite (apply_event_run _ _ _ _ k Ht Hk), Hst in Hap.
  destruct (is_type event "PEER_REMOVED") eqn:Hrm.
  { simplify_eq. simpl in Hr. by rewrite dget_ddel_eq in Hr. }
  rewrite orb_false_r in Hty.
  destruct (_ && _) eqn:Hb.
  - simplify_eq. destruct (dget (peers t') k); [done|]. simplify_eq.
  - destruct (update_record _ _ _ _ _ _) as [r1|] eqn:Hu; [|done]. simplify_eq.
    simpl in Hr. rewrite dget_dset_eq in Hr. simplify_eq. by eapply update_record_lost.
Qed.

(** ** Knowledge is kept *)

(** What is known about a peer is only refined: an event that carries no
    runtime id keeps the known one, and an endpoint field the event leaves out
    or leaves blank keeps its value, while a non-blank field is taken over. *)
Theorem update_keeps_knowledge parent t h cur event ts ep r :
  update_record parent t h (Some cur) event ts = Ok r →
  py_dict_or_empty (vget event "endpoint") = Ok ep → dict_ok ep →
  (truthy (vget event "remote_runtime_id") = false → truthy (runtime_id cur) = true →
   runtime_id r = runtime_id cur) ∧
  (truthy (vget event "remote_runtime_id") = true →
   runtime_id r = vget event "remote_runtime_id") ∧
  ∀ f, dget (endpoint r) f =
       match dget ep f with
       | Some v => if py_eqb v VNone || py_eqb v (VStr "") then dget (endpoint cur) f else Some v
       | None => dget (endpoint cur) f
       end.
Proof.
  intros Hu Hep Hd. unfold update_record in Hu. rewrite Hep in Hu. cbn [rbind cur_field] in Hu.
  destruct (pending_for _ _ _) as [pd|]; [|done]. cbn [rbind] in Hu.
  match type of Hu with context [let '(_, _) := ?x in _] => destruct x end.
  injection Hu as <-. cbn [runtime_id endpoint]. split_and!.
  - intros H1 H2. rewrite (py_or_falsy (vget event "remote_runtime_id")) by done.
    rewrite (py_or_falsy (VStr "")) by done. by rewrite H2.
  - intros H1. rewrite (py_or_truthy (vget event "remote_runtime_id")) by done.
    by rewrite py_or_truthy, H1.
  - intros f. unfold merge_endpoint. rewrite dget_dupdate by (by apply dict_ok_filter).
    rewrite dget_filter by done. destruct (dget ep f) as [w|]; [|done].
    simpl. by destruct (py_eqb w VNone || py_eqb w (VStr "")).
Qed.

(** ** Remembered connect targets *)

Lemma remember_signature ep dir t k s :
  (∀ e, hash_key (endpoint_runtime_id ep) ≠ Raise e) →
  endpoint_signature ep = Some s → signature_key s = Ok k →
  dget (pending_targets (remember_connect_target ep (VStr dir) t).1) k
    = Some (if truthy (VStr dir) then dset (endpoint_record ep) "connection_direction" (VStr dir)
            else endpoint_record ep).
Proof.
  intros Hh Hs Hk. unfold remember_connect_target, bind, lift_res, modify, ret. rewrite Hs, Hk.
  destruct (truthy (endpoint_runtime_id ep)); [|simpl; by rewrite dget_dset_eq].
  destruct (hash_key (endpoint_runtime_id ep)) as [h|e] eqn:E; [|by destruct (Hh e)].
  simpl. by rewrite dget_dset_eq.
Qed.

(** A connect target is recognised when its peer shows up: after
    [remember_connect_target ep dir], the first event of a new peer whose
    endpoint has the signature of [ep] and that itself names neither runtime
    nor direction produces a record with the runtime id and direction
    remembered for [ep]. *)
Theorem connect_target_recognised parent ep dir t h event ts evep s k r :
  (∀ e, hash_key (endpoint_runtime_id ep) ≠ Raise e) →
  endpoint_signature ep = Some s → signature_key s = Ok k → dir ≠ "" →
  py_dict_or_empty (vget event "endpoint") = Ok evep →
  endpoint_signature (EpDict evep) = Some s →
  truthy (vget event "remote_runtime_id") = false →
  truthy (vget event "connection_direction") = false →
  update_record parent (remember_connect_target ep (VStr dir) t).1 h None event ts = Ok r →
  runtime_id r = endpoint_runtime_id ep ∧ connection_direction r = VStr dir.
Proof.
  intros Hh Hs Hk Hdir Hep Hsig Hrt Hcd Hu.
  assert (truthy (VStr dir) = true) as Htd.
  { simpl. by rewrite (proj2 (String.eqb_neq dir "")). }
  unfold update_record in Hu. rewrite Hep in Hu. cbn [rbind cur_field merge_endpoint] in Hu.
  rewrite (py_or_falsy (vget event "remote_runtime_id")) in Hu by done.
  unfold pending_for in Hu. rewrite Hsig in Hu.
  change (truthy (py_or (VStr "") (VStr ""))) with false in Hu. cbn [rbind truthy] in Hu.
  rewrite Hk in Hu. cbn [rbind] in Hu. unfold dget_or in Hu.
  rewrite (remember_signature ep dir t k s) in Hu by done. rewrite Htd in Hu.
  match type of Hu with context [let '(_, _) := ?x in _] => destruct x end.
  injection Hu as <-. cbn [runtime_id connection_direction]. split; [done|].
  rewrite (py_or_falsy (vget event "connection_direction")) by done. done.
Qed.

(** ** Concrete inputs *)

Definition parent0 : parent_cfg := Parent (VStr "dirsvc") (VStr "head") (VInt 8090).

Definition ready_event (handle runtime : string) (t : Z) : pydict :=
  [("event_type", VStr "PEER_READY"); ("peer_handle", VStr handle);
   ("remote_runtime_id", VStr runtime);
   ("endpoint", VDict [("address", VStr "127.0.0.1"); ("listen_port", VInt 8282);
                       ("node_name", VStr "peer-test"); ("hostname", VStr "localhost")]);
   ("timestamp", VInt t)].

Definition lost_event (handle : string) (t : Z) : pydict :=
  [("event_type", VStr "PEER_LOST"); ("peer_handle", VStr handle);
   ("reason", VStr "socket-close"); ("timestamp", VInt t)].

Definition table1 : peer_table :=
  run_peers [OpEvent parent0 0 (ready_event "peer-1" "runtime-1" 5)] empty_table.

Definition target1 : ep_arg :=
  EpObj (MkEndpoint (VStr "127.0.0.1") (VInt 0) (VInt 8282) (VInt 123) (VStr "peer-test")
           (VStr "localhost") (VInt EN_DEFW_SERVICE) (VStr "runtime-1") (VStr ZERO_UUID)).

(** The assertions of the peer event contract test: the target resolves to the
    table's handle while the peer is up and to nothing after it is lost, and a
    peer of unknown runtime is never matched by runtime. *)
Example peer_contract :
  (match get_agent table1 target1 VNone false with
   | Ok (Some ep) => blk_uuid ep = VStr "peer-1"
   | _ => False
   end) ∧
  get_agent (exec_peer (OpEvent parent0 0 (lost_event "peer-1" 6)) table1) target1 VNone false
    = Ok None ∧
  get_agent (exec_peer (OpEvent parent0 0 (ready_event "peer-9" "" 6)) empty_table) target1 VNone false
    = Ok None.
Proof. vm_compute. repeat split. Qed.

Lemma event_isolated_witness :
  dget (peers (apply_event parent0 0 (lost_event "peer-2" 6) table1).1) (KStr "peer-1")
    = dget (peers table1) (KStr "peer-1").
Proof. apply (event_isolated parent0 0 (lost_event "peer-2" 6)). discriminate. Defined.

Lemma last_seen_monotone_witness : 5 ≤ 6.
Proof.
  destruct (dget (peers table1) (KStr "peer-1")) as [r|] eqn:E; [|vm_compute in E; discriminate E].
  destruct (dget (peers (apply_event parent0 0 (lost_event "peer-1" 6) table1).1) (KStr "peer-1"))
    as [r'|] eqn:E'; [|vm_compute in E'; discriminate E'].
  apply (last_seen_monotone parent0 0 (lost_event "peer-1" 6) table1 (KStr "peer-1") r r'); try assumption.
  - vm_compute in E. injection E as <-. reflexivity.
  - vm_compute in E'. injection E' as <-. reflexivity.
Defined.

Lemma get_agent_sound_witness :
  ∃ ep, get_agent table1 target1 VNone false = Ok (Some ep) ∧
    ∃ k r, dget (peers table1) k = Some r ∧ callable r = true ∧ blk_uuid ep = peer_handle r.
Proof.
  destruct (get_agent table1 target1 VNone false) as [[ep|]|] eqn:E;
    [|vm_compute in E; discriminate E..].
  exists ep. split; [reflexivity|].
  destruct (get_agent_sound table1 target1 VNone false ep (table_ok_run _) E)
    as (k & r & H1 & H2 & H3 & _).
  exists k, r. split; [exact H1 | split; [exact H2 | exact H3]].
Defined.

Lemma get_agent_complete_witness :
  get_agent (exec_peer (OpEvent parent0 0 (lost_event "peer-1" 6)) table1) target1 VNone false =
    Ok None ∧
  ∀ k r, dget (peers (exec_peer (OpEvent parent0 0 (lost_event "peer-1" 6)) table1)) k = Some r →
    callable r = true → py_eqb (VStr "runtime-1") (runtime_id r) = false.
Proof.
  split; [vm_compute; reflexivity|]. intros k r Hk Hc.
  apply (get_agent_complete (run_peers [OpEvent parent0 0 (ready_event "peer-1" "runtime-1" 5);
           OpEvent parent0 0 (lost_event "peer-1" 6)] empty_table) target1 VNone false
           (table_ok_run _) eq_refl eq_refl) with (k := k); try assumption;
    [vm_compute; reflexivity | left; reflexivity].
Defined.

Lemma lost_peer_never_returned_witness :
  ∃ t' res, apply_event parent0 0 (lost_event "peer-1" 6) table1 = (t', Ok res) ∧
    ∀ target dir fb ep, get_agent t' target dir fb = Ok (Some ep) →
      hash_key (blk_uuid ep) ≠ Ok (KStr "peer-1").
Proof.
  destruct (apply_event parent0 0 (lost_event "peer-1" 6) table1) as [t' [res|e]] eqn:E;
    [|vm_compute in E; discriminate E].
  exists t', res. split; [reflexivity|]. intros target dir fb ep.
  apply (lost_peer_never_returned parent0 0 (lost_event "peer-1" 6) table1 t' res
           (KStr "peer-1") target dir fb ep (table_ok_run _) eq_refl eq_refl eq_refl).
  - vm_compute. reflexivity.
  - exact E.
Defined.

Lemma update_keeps_knowledge_witness :
  ∃ cur r, dget (peers table1) (KStr "peer-1") = Some cur ∧
    update_record parent0 table1 (VStr "peer-1") (Some cur) (lost_event "peer-1" 6) (VInt 6) = Ok r ∧
    runtime_id r = runtime_id cur.
Proof.
  destruct (dget (peers table1) (KStr "peer-1")) as [cur|] eqn:E; [|vm_compute in E; discriminate E].
  destruct (update_record parent0 table1 (VStr "peer-1") (Some cur) (lost_event "peer-1" 6) (VInt 6))
    as [r|e] eqn:Hu; [|vm_compute in E; injection E as <-; vm_compute in Hu; discriminate Hu].
  exists cur, r. split; [reflexivity | split; [exact Hu|]].
  destruct (update_keeps_knowledge parent0 table1 _ cur (lost_event "peer-1" 6) _ [] r Hu eq_refl)
    as [H _]; [apply dict_ok_nil|].
  apply H; [reflexivity|]. vm_compute in E. injection E as <-. reflexivity.
Defined.

Lemma connect_target_recognised_witness :
  ∃ r, update_record parent0 (remember_connect_target target1 (VStr "OUTBOUND") empty_table).1
         (VStr "peer-1") None (ready_event "peer-1" "" 5) (VInt 5) = Ok r ∧
       runtime_id r = VStr "runtime-1" ∧ connection_direction r = VStr "OUTBOUND".
Proof.
  destruct (update_record parent0 (remember_connect_target target1 (VStr "OUTBOUND") empty_table).1
              (VStr "peer-1") None (ready_event "peer-1" "" 5) (VInt 5)) as [r|e] eqn:Hu;
    [|vm_compute in Hu; discriminate Hu].
  exists r. split; [reflexivity|].
  apply (connect_target_recognised parent0 target1 "OUTBOUND" empty_table (VStr "peer-1")
           (ready_event "peer-1" "" 5) (VInt 5)
           [("address", VStr "127.0.0.1"); ("listen_port", VInt 8282);
            ("node_name", VStr "peer-test"); ("hostname", VStr "localhost")]
           (VStr "127.0.0.1", VInt 8282, VStr "peer-test", VStr "localhost")
           (PEndpoint (KStr "127.0.0.1") (KInt 8282) (KStr "peer-test") (KStr "localhost")) r);
    try reflexivity; try discriminate; exact Hu.
Defined.
