(* ===== verification/Threads.v ===== *)
(** * Threads over a shared state

    The worker runs every incoming request in a thread of its own
    ([WorkerThread.spawn_temporary_worker]); the threads share the module-level
    dicts and protect each access with a lock.  A [thread S A] is such a
    computation cut at its lock sections: each [TStep] is one section, executed
    without interruption, and between two of them any other thread may run.
    The same program is read in two ways: [run] executes it alone, [tstep]
    interleaves a pool of them. *)

From S2P Require Import Prelude.

Inductive thread (S A : Type) :=
  | TDone (r : res A)
  | TStep (f : S → S * thread S A).
Arguments TDone {S A} r.
Arguments TStep {S A} f.

(** Induction over the states each section can be entered in. *)
Lemma thread_ind' {S A} (P : thread S A → Prop) :
  (∀ r, P (TDone r)) → (∀ f, (∀ s, P (f s).2) → P (TStep f)) → ∀ t, P t.
Proof.
  intros Hd Hs. fix go 1. intros [r|f]; [apply Hd|]. apply Hs. intros s.
  destruct (f s) as [s' t']. apply go.
Qed.

Section thread.
Context {S : Type}.

(** One lock section. *)
Definition atomic {A} (m : M S A) : thread S A :=
  TStep (λ s, let '(s', r) := m s in (s', TDone r)).

Definition tret {A} (a : A) : thread S A := TDone (Ok a).
Definition tthrow {A} (c : exc_class) (msg : string) : thread S A :=
  TDone (Raise (Exc c msg)).

Fixpoint tbind {A B} (t : thread S A) (k : A → thread S B) : thread S B :=
  match t with
  | TDone (Ok a) => k a
  | TDone (Raise e) => TDone (Raise e)
  | TStep f => TStep (λ s, let '(s', t') := f s in (s', tbind t' k))
  end.

(** [try: t except ...: h] *)
Fixpoint ttry {A} (t : thread S A) (h : pyexc → thread S A) : thread S A :=
  match t with
  | TDone (Ok a) => TDone (Ok a)
  | TDone (Raise e) => h e
  | TStep f => TStep (λ s, let '(s', t') := f s in (s', ttry t' h))
  end.

(** Execution without interference. *)
Fixpoint run {A} (t : thread S A) (s : S) : S * res A :=
  match t with
  | TDone r => (s, r)
  | TStep f => let '(s', t') := f s in run t' s'
  end.

Lemma run_atomic {A} (m : M S A) s : run (atomic m) s = m s.
Proof. simpl. by destruct (m s). Qed.

Lemma run_tbind {A B} (t : thread S A) (k : A → thread S B) s :
  run (tbind t k) s = bind (run t) (λ a, run (k a)) s.
Proof.
  revert s. unfold bind.
  induction t as [[a|e]|f IH] using thread_ind'; intros s; [done..|]. simpl.
  specialize (IH s). by destruct (f s) as [s' t'].
Qed.

Lemma run_ttry {A} (t : thread S A) (h : pyexc → thread S A) s :
  run (ttry t h) s = try_with (run t) (λ e, run (h e)) s.
Proof.
  revert s. unfold try_with.
  induction t as [[a|e]|f IH] using thread_ind'; intros s; [done..|]. simpl.
  specialize (IH s). by destruct (f s) as [s' t'].
Qed.

(** Interleaving: one thread of the pool executes its next section, or a new
    thread is spawned from an allowed set. *)
Context {A : Type} (spawnable : thread S A → Prop).

Inductive tstep : S * list (thread S A) → S * list (thread S A) → Prop :=
  | tstep_run s ts1 f ts2 s' t' :
      f s = (s', t') → tstep (s, ts1 ++ TStep f :: ts2) (s', ts1 ++ t' :: ts2)
  | tstep_spawn s ts t : spawnable t → tstep (s, ts) (s, ts ++ [t]).

Definition tsteps := rtc tstep.

(** Rely/guarantee: [I] holds between any two sections and every section
    moves the state along the preorder [R].  [respects s t]: started no
    earlier than [s], the thread [t] keeps both, whatever the others do. *)
Context (I : S → Prop) (R : S → S → Prop) `{!PreOrder R}.

Inductive respects : S → thread S A → Prop :=
  | respects_done s r : respects s (TDone r)
  | respects_step s f :
      (∀ s', R s s' → I s' →
         I (f s').1 ∧ R s' (f s').1 ∧ respects (f s').1 (f s').2) →
      respects s (TStep f).

Lemma respects_mono s s' t : respects s t → R s s' → respects s' t.
Proof.
  destruct 1 as [|s f Hf]; intros HR; constructor. intros s'' HR'. apply Hf. by trans s'.
Qed.

Lemma tsteps_respects (c c' : S * list (thread S A)) :
  (∀ s t, spawnable t → respects s t) →
  tsteps c c' → I c.1 → Forall (respects c.1) c.2 →
  I c'.1 ∧ R c.1 c'.1 ∧ Forall (respects c'.1) c'.2.
Proof.
  intros Hsp Hsteps. induction Hsteps as [c|c c1 c2 Hstep _ IH]; [done|].
  intros HI Hts.
  assert (I c1.1 ∧ R c.1 c1.1 ∧ Forall (respects c1.1) c1.2) as (HI1 & HR1 & Hts1).
  { destruct Hstep as [s ts1 f ts2 s' t' Hf|s ts t Ht]; simpl in *;
      rewrite ?Forall_app, ?Forall_cons in *.
    - destruct Hts as (H1 & H & H2). inversion H as [|? ? Hr]; subst.
      destruct (Hr s) as (HI' & HR' & Hr'); [done..|]. rewrite Hf in *. simpl in *.
      split_and!; try done; eapply Forall_impl; eauto using respects_mono.
    - split_and!; auto. by apply reflexivity. }
  destruct (IH HI1 Hts1) as (? & ? & ?). split_and!; try done. by trans (c1.1).
Qed.
End thread.

Arguments tstep {S A} spawnable _ _.
Arguments tsteps {S A} spawnable _ _.

(** ** Schedules

    A concrete interleaving: which thread of the pool runs next. *)

Section sched.
Context {S A : Type} {spawnable : thread S A → Prop}.

(** Run thread [n] of the pool for one section. *)
Definition sched_step (n : nat) (c : S * list (thread S A)) : S * list (thread S A) :=
  match c.2 !! n with
  | Some (TStep f) => let '(s', t') := f c.1 in (s', <[n := t']> c.2)
  | _ => c
  end.

Definition sched (ns : list nat) c := fold_left (λ c n, sched_step n c) ns c.

Lemma sched_step_tstep n c : tsteps spawnable c (sched_step n c).
Proof.
  unfold sched_step, tsteps. destruct (c.2 !! n) as [[r|f]|] eqn:E; [done| |done].
  destruct c as [s ts]; simpl in *. destruct (f s) as [s' t'] eqn:Hf.
  apply rtc_once. rewrite <- (take_drop_middle ts n (TStep f)) at 1 by done.
  rewrite insert_take_drop by eauto using lookup_lt_Some. by constructor.
Qed.

Lemma sched_tsteps ns c : tsteps spawnable c (sched ns c).
Proof.
  unfold sched. revert c. induction ns as [|n ns IH]; intros c; [apply rtc_refl|]. simpl.
  unfold tsteps in *; etrans; [apply sched_step_tstep | apply IH].
Qed.

(** A pool of requests, spawned together. *)
Lemma spawn_all s ts ts' : Forall spawnable ts' → tsteps spawnable (s, ts) (s, ts ++ ts').
Proof.
  unfold tsteps. revert ts. induction ts' as [|t ts' IH]; intros ts; [by rewrite app_nil_r|].
  rewrite Forall_cons. intros [Ht Hts]. eapply rtc_l; [by apply tstep_spawn|].
  rewrite (cons_middle t ts ts'), app_assoc. by apply IH.
Qed.
End sched.
