(* ===== verification/Registry.v ===== *)
(** * Remote object registry ([python/infra/defw_common_def.py], 115-234)

    Three module-level dicts map the handles callers use to live objects:
    [global_class_db] (handle to object), [global_singleton_db]
    (["module:class"] to the shared object) and [global_singleton_alias_db]
    (handle to singleton key).  Each function below is one lock section of the
    source, over a record that holds the three dicts, the allocator of object
    identities and the state [world] of the service code, which the registry
    never looks at. *)

From S2P Require Import Prelude PyDict PyVal Agent Threads.

Local Open Scope string_scope.
Local Open Scope list_scope.
Import PyNotations.
Local Open Scope py_scope.

(** A live object: its identity and the class it is an instance of. *)
Record instance := Instance {
  inst_id : nat;
  inst_module : string;
  inst_class : string
}.

#[export] Instance instance_eq_dec : EqDecision instance.
Proof. solve_decision. Defined.

Section Registry.
Context {W : Type}.

(** A class as [getattr(module, name)] finds it; the constructor is service
    code. *)
Record pyclass := PyClass {
  cls_module : string;
  cls_name : string;
  cls_init : list val → pydict → nat → W → W * res unit
}.

Record registry := Reg {
  class_db : odict string instance;
  singleton_db : odict string instance;
  alias_db : odict string string;
  next_obj : nat;
  world : W
}.

Definition set_class_db (d : odict string instance) (r : registry) : registry :=
  Reg d (singleton_db r) (alias_db r) (next_obj r) (world r).
Definition set_singleton_db (d : odict string instance) (r : registry) : registry :=
  Reg (class_db r) d (alias_db r) (next_obj r) (world r).
Definition set_alias_db (d : odict string string) (r : registry) : registry :=
  Reg (class_db r) (singleton_db r) d (next_obj r) (world r).

(** [my_class(...)]: a fresh object, then its constructor. *)
Definition construct (c : pyclass) (args : list val) (kwargs : pydict) : M registry instance :=
  λ r, let i := next_obj r in
       let '(w', res) := cls_init c args kwargs i (world r) in
       (Reg (class_db r) (singleton_db r) (alias_db r) (S i) w',
        res_map (λ _, Instance i (cls_module c) (cls_name c)) res).

Definition add_to_class_db (i : instance) (class_id : string) : M registry unit :=
  let! r := get in
  if dmem (class_db r) class_id
  then throw EDEFwError "Duplicate class_id. Contention in timing"
  else modify (set_class_db (dset (class_db r) class_id i)).

Definition has_class_entry (class_id : string) : M registry bool :=
  let! r := get in ret (dmem (class_db r) class_id).

Definition get_class_from_db (class_id : string) : M registry instance :=
  let! r := get in
  match dget (class_db r) class_id with
  | Some i => ret i
  | None => throw EDEFwNotFound ("no " ++ class_id ++ " in database")%string
  end.

Definition del_entry_from_class_db (class_id : string) : M registry unit :=
  let! r := get in
  if dmem (class_db r) class_id
  then modify (set_class_db (ddel (class_db r) class_id)) ;;;
       modify (set_alias_db (ddel (alias_db r) class_id))
  else ret tt.

Definition get_singleton_key (module_name class_name : string) : string :=
  (module_name ++ ":" ++ class_name)%string.

Definition get_or_create_singleton_instance (module_name class_name : string)
    (factory : M registry instance) : M registry instance :=
  let key := get_singleton_key module_name class_name in
  let! r := get in
  match dget (singleton_db r) key with
  | Some i => ret i
  | None =>
      let! i := factory in
      let! r' := get in
      modify (set_singleton_db (dset (singleton_db r') key i)) ;;;
      ret i
  end.

(** The handles bound to [key], in dict order. *)
Definition aliases_of (key : string) (d : odict string string) : list string :=
  map fst (List.filter (λ p, String.eqb p.2 key) d).

Definition pop_alias (class_id : string) : M registry unit :=
  let! r := get in
  modify (set_alias_db (ddel (alias_db r) class_id)) ;;;
  modify (set_class_db (ddel (class_db r) class_id)).

Definition evict_singleton_instance (module_name class_name : string) :
    M registry (option instance) :=
  let key := get_singleton_key module_name class_name in
  let! r := get in
  let i := dget (singleton_db r) key in
  modify (set_singleton_db (ddel (singleton_db r) key)) ;;;
  for_each pop_alias (aliases_of key (alias_db r)) ;;;
  ret i.

Definition bind_singleton_alias (class_id module_name class_name : string)
    (i : instance) : M registry unit :=
  let key := get_singleton_key module_name class_name in
  let! r := get in
  if dmem (class_db r) class_id
  then throw EDEFwError "Duplicate class_id. Contention in timing"
  else modify (set_class_db (dset (class_db r) class_id i)) ;;;
       modify (set_alias_db (dset (alias_db r) class_id key)).

Definition is_singleton_alias (class_id : string) : M registry bool :=
  let! r := get in ret (dmem (alias_db r) class_id).

(** [shutdown_service_instance]: whatever the directory answers, the
    singleton is evicted.  [dirsvc] is this process's directory API, when it
    has one; its [deregister] runs service code. *)
Definition shutdown_service_instance (dirsvc : option (Endpoint → M registry unit))
    (me : Endpoint) (i : instance) : thread registry (option instance) :=
  tbind
    (ttry
       (match dirsvc with
        | Some deregister => atomic (deregister me)
        | None => tret tt
        end)
       (λ _, tret tt))
    (λ _, atomic (evict_singleton_instance (inst_module i) (inst_class i))).
End Registry.

Arguments pyclass : clear implicits.
Arguments registry : clear implicits.
Arguments PyClass {W} cls_module cls_name cls_init.

(** ** Modules and their instance mode ([defw_workers.get_instance_mode]) *)

Definition INSTANCE_MODE_SINGLETON : string := "singleton".
Definition INSTANCE_MODE_PER_CONNECTION : string := "per_connection".

Record pymodule (W : Type) := PyModule {
  mod_name : string;
  mod_package : option string;
  mod_svc_info : option val;
  mod_class : string → option (pyclass W);
  mod_function : string → option (option (list val → pydict → thread (registry W) val))
}.
Arguments PyModule {W}.
Arguments mod_name {W}.
Arguments mod_package {W}.
Arguments mod_svc_info {W}.
Arguments mod_class {W}.
Arguments mod_function {W}.

(** [info and 'instance_mode' in info], then [info['instance_mode']] *)
Definition info_mode (info : option val) : res (option val) :=
  match info with
  | None => Ok None
  | Some v =>
      if truthy v then
        let? b := py_contains (VStr "instance_mode") v in
        if b : bool then
          match v with
          | VDict d => Ok (dget d "instance_mode")
          | _ => Raise (Exc ETypeError "indices must be integers or slices")
          end
        else Ok None
      else Ok None
  end.

Section modes.
Context {W : Type} (import_module : string → res (pymodule W)).

Definition package_mode (m : pymodule W) : option val :=
  match mod_package m with
  | Some p =>
      if negb (String.eqb p "") && negb (String.eqb p (mod_name m)) then
        match rbind (import_module p) (λ pm, info_mode (mod_svc_info pm)) with
        | Ok r => r
        | Raise _ => None
        end
      else None
  | None => None
  end.

Definition get_instance_mode (m : pymodule W) : res val :=
  let? own := info_mode (mod_svc_info m) in
  match own with
  | Some v => Ok v
  | None => Ok (default (VStr INSTANCE_MODE_PER_CONNECTION) (package_mode m))
  end.

(** ** Dispatch of the object life-cycle requests

    The branches of [WorkerThread.handle_rpc_req] (defw_workers.py,
    547-593) that act on the registry; [mode] is the value
    [get_instance_mode] returned. *)

Context (me_is_dirsvc : bool) (dirsvc : instance).

Definition getattr_class (m : pymodule W) (cname : string) : res (pyclass W) :=
  match mod_class m cname with
  | Some c => Ok c
  | None => Raise (Exc EAttributeError "module has no attribute")
  end.

Definition instantiate_singleton (m : pymodule W) (mname cname class_id : string)
    (args : list val) (kwargs : pydict) : thread (registry W) unit :=
  tbind (TDone (getattr_class m cname)) (λ c,
  tbind (atomic (get_or_create_singleton_instance mname cname (construct c args kwargs)))
    (λ i,
  tbind (atomic (has_class_entry class_id)) (λ b,
  if b : bool then tret tt else atomic (bind_singleton_alias class_id mname cname i)))).

Definition instantiate_per_connection (m : pymodule W) (cname class_id : string)
    (args : list val) (kwargs : pydict) : thread (registry W) unit :=
  ttry (tbind (atomic (get_class_from_db class_id)) (λ _, tret tt))
    (λ e,
     if bool_decide (exc_type e = EDEFwNotFound) then
       tbind (TDone (getattr_class m cname)) (λ c,
       tbind (atomic (construct c args kwargs)) (λ i,
       atomic (add_to_class_db i class_id)))
     else TDone (Raise e)).

Definition instantiate_class (m : pymodule W) (mname cname class_id : string)
    (args : list val) (kwargs : pydict) : thread (registry W) unit :=
  if me_is_dirsvc && String.eqb cname "DEFwDirSvc" then
    tbind (atomic (has_class_entry class_id)) (λ b,
    if b : bool then tret tt else atomic (add_to_class_db dirsvc class_id))
  else
    tbind (TDone (get_instance_mode m)) (λ mode,
    if py_eqb mode (VStr INSTANCE_MODE_SINGLETON)
    then instantiate_singleton m mname cname class_id args kwargs
    else instantiate_per_connection m cname class_id args kwargs).

Definition destroy_class (cname class_id : string) : thread (registry W) unit :=
  if me_is_dirsvc && String.eqb cname "DEFwDirSvc" then
    atomic (del_entry_from_class_db class_id)
  else
    tbind (atomic (get_class_from_db class_id)) (λ _,
    tbind (atomic (is_singleton_alias class_id)) (λ b,
    if b : bool then atomic (del_entry_from_class_db class_id)
    else atomic (del_entry_from_class_db class_id))).

(** [getattr(instance, method_name)(...)] is service code. *)
Definition method_call
    (invoke : instance → string → list val → pydict → thread (registry W) val)
    (cname mname class_id : string) (args : list val) (kwargs : pydict) :
    thread (registry W) val :=
  tbind (atomic (get_class_from_db class_id)) (λ i,
  if String.eqb (inst_class i) cname then invoke i mname args kwargs
  else tthrow EDEFwError
         ("requested class " ++ cname ++ ", but id refers to class " ++
          inst_class i)%string).
End modes.
