(* ===== verification/RegistryFacts.v ===== *)
(** * Properties of the remote object registry

    One lock section at a time: what each registry function does to the three
    dicts.  Sequentially: every handle is an alias of the singleton its key
    names, or owns its object alone.  Interleaved: requests handled
    concurrently keep the aliases right as long as nobody evicts a singleton,
    and the interleaving with an eviction that breaks it. *)

From S2P Require Import Prelude PyDict PyVal Agent Threads Registry.

Local Open Scope string_scope.
Local Open Scope list_scope.
Import PyNotations.

(** ** Lock sections in closed form *)

Ltac unfold_sections :=
  unfold add_to_class_db, has_class_entry, get_class_from_db, del_entry_from_class_db,
    bind_singleton_alias, is_singleton_alias, get_or_create_singleton_instance, pop_alias,
    bind, get, modify, ret, throw in *; simpl in *.

(** The object is not in the dict it was found in. *)
Ltac absent :=
  match goal with
  | H : dget _ _ = Some ?i, Hc : ∀ _, dget _ _ ≠ Some ?i |- _ => destruct (Hc _ H)
  end.

Section facts.
Context {W : Type}.
Implicit Types (r : registry W) (i : instance) (id key : string).

Lemma pop_aliases ids r :
  for_each pop_alias ids r =
  (Reg (ddrop ids (class_db r)) (singleton_db r) (ddrop ids (alias_db r))
       (next_obj r) (world r), Ok tt).
Proof.
  revert r; induction ids as [|id ids IH]; intros r; simpl.
  - rewrite !ddrop_nil. by destruct r.
  - unfold pop_alias, bind, get, modify. simpl. rewrite IH. simpl. by rewrite !ddel_ddrop.
Qed.

Lemma evict_run module_name class_name r :
  let key := get_singleton_key module_name class_name in
  let ids := aliases_of key (alias_db r) in
  evict_singleton_instance module_name class_name r =
  (Reg (ddrop ids (class_db r)) (ddel (singleton_db r) key) (ddrop ids (alias_db r))
       (next_obj r) (world r), Ok (dget (singleton_db r) key)).
Proof.
  simpl. unfold evict_singleton_instance, bind at 1 2, get, modify. simpl.
  unfold bind. rewrite pop_aliases. done.
Qed.

Lemma elem_of_aliases key (d : odict string string) id :
  dict_ok d → id ∈ aliases_of key d ↔ dget d id = Some key.
Proof.
  intros Hd. unfold aliases_of. rewrite list_map_In. split.
  - intros ([id' k] & [Hin Hk]%list_filter_In & ->). simpl in *.
    apply String.eqb_eq in Hk. subst. by apply dget_In.
  - intros Hget. exists (id, key). split; [|done]. apply list_filter_In. simpl.
    split; [by apply dget_Some_In | apply String.eqb_refl].
Qed.

(** The key of a singleton names its module and class: class names hold no
    colon. *)
Lemma no_char_split c (a b a' b' : list Ascii.ascii) :
  c ∉ b → c ∉ b' → a ++ c :: b = a' ++ c :: b' → a = a' ∧ b = b'.
Proof.
  revert a'. induction a as [|x a IH]; intros [|x' a'] Hb Hb' Heq; simpl in *; simplify_eq.
  - done.
  - exfalso. apply Hb. set_solver.
  - exfalso. apply Hb'. set_solver.
  - destruct (IH a') as [-> ->]; done.
Qed.

(** ** The sequential invariant *)

Record reg_ok r : Prop := {
  ok_class : dict_ok (class_db r);
  ok_singleton : dict_ok (singleton_db r);
  ok_alias : dict_ok (alias_db r)
}.

(** An alias reaches the singleton its key names. *)
Definition aliases_shared r : Prop :=
  ∀ id key, dget (alias_db r) id = Some key →
    ∃ i, dget (class_db r) id = Some i ∧ dget (singleton_db r) key = Some i.

(** Objects have one owner: a singleton key, or a handle that is no alias. *)
Record owned r : Prop := {
  own_fresh_class : ∀ id i, dget (class_db r) id = Some i → inst_id i < next_obj r;
  own_fresh_singleton : ∀ key i, dget (singleton_db r) key = Some i → inst_id i < next_obj r;
  own_keys : ∀ key key' i, dget (singleton_db r) key = Some i →
    dget (singleton_db r) key' = Some i → key = key';
  own_handles : ∀ id id' i, dget (class_db r) id = Some i →
    dget (class_db r) id' = Some i → dget (alias_db r) id = None → id = id';
  own_apart : ∀ id key i, dget (class_db r) id = Some i →
    dget (singleton_db r) key = Some i → dget (alias_db r) id = Some key
}.

Record reg_inv r : Prop := {
  inv_ok : reg_ok r;
  inv_shared : aliases_shared r;
  inv_owned : owned r
}.

Definition empty_registry (w : W) : registry W := Reg [] [] [] 0 w.

Lemma reg_inv_empty w : reg_inv (empty_registry w).
Proof. split; [split; constructor | by intros ? ? | split; by intros]. Qed.

Lemma alias_none r id :
  aliases_shared r → dget (class_db r) id = None → dget (alias_db r) id = None.
Proof.
  intros Hsh Hid. destruct (dget (alias_db r) id) as [key|] eqn:E; [|done].
  destruct (Hsh _ _ E) as (i & Hi & _). congruence.
Qed.

Lemma reg_inv_construct c args kwargs r :
  reg_inv r →
  reg_inv (construct c args kwargs r).1 ∧
  class_db (construct c args kwargs r).1 = class_db r ∧
  singleton_db (construct c args kwargs r).1 = singleton_db r ∧
  alias_db (construct c args kwargs r).1 = alias_db r ∧
  (∀ i, (construct c args kwargs r).2 = Ok i →
     inst_id i = next_obj r ∧ next_obj (construct c args kwargs r).1 = S (next_obj r)).
Proof.
  intros [Hok Hsh Hown]. unfold construct.
  destruct (cls_init c args kwargs (next_obj r) (world r)) as [w' res]. simpl.
  split_and!; try done.
  - split; [by destruct Hok; split | done |]. destruct Hown as [F1 F2 ? ? ?].
    split; simpl; eauto; intros x i Hi; [apply F1 in Hi | apply F2 in Hi]; lia.
  - by destruct res; intros ? [= <-].
Qed.

(** A new object under a free handle. *)
Lemma reg_inv_add r id i :
  reg_inv r → dget (class_db r) id = None → inst_id i < next_obj r →
  (∀ id', dget (class_db r) id' ≠ Some i) → (∀ key, dget (singleton_db r) key ≠ Some i) →
  reg_inv (set_class_db (dset (class_db r) id i) r).
Proof.
  intros [[] Hsh []] Hid Hlt Hc Hs. pose proof (alias_none _ _ Hsh Hid) as Ha.
  split; [by split; simpl; auto using dict_ok_dset | |].
  - intros id' key Hk. simpl in *. destruct (Hsh _ _ Hk) as (i' & Hi' & Hs').
    exists i'. rewrite dget_dset_ne; [done | congruence].
  - split; simpl; intros; rewrite ?dget_dset in *; repeat case_decide; simplify_eq; eauto;
      by absent.
Qed.

(** A handle bound to the singleton of its key. *)
Lemma reg_inv_bind r id key i :
  reg_inv r → dget (class_db r) id = None → dget (singleton_db r) key = Some i →
  reg_inv (set_alias_db (dset (alias_db r) id key) (set_class_db (dset (class_db r) id i) r)).
Proof.
  intros [[] Hsh []] Hid Hs. pose proof (alias_none _ _ Hsh Hid) as Ha.
  split; [by split; simpl; auto using dict_ok_dset | |].
  - intros id' key' Hk. simpl in *. rewrite dget_dset in Hk. rewrite dget_dset.
    case_decide; simplify_eq; eauto.
  - split; simpl; intros; rewrite ?dget_dset in *; repeat case_decide; simplify_eq; eauto;
      try (f_equal; by eauto).
    assert (dget (alias_db r) id0 = Some key) as E by eauto. congruence.
Qed.

(** A new singleton. *)
Lemma reg_inv_singleton r key i :
  reg_inv r → dget (singleton_db r) key = None → inst_id i < next_obj r →
  (∀ id', dget (class_db r) id' ≠ Some i) → (∀ key, dget (singleton_db r) key ≠ Some i) →
  reg_inv (set_singleton_db (dset (singleton_db r) key i) r).
Proof.
  intros [[] Hsh []] Hk Hlt Hc Hs.
  split; [by split; simpl; auto using dict_ok_dset | |].
  - intros id' key' Hk'. simpl in *. destruct (Hsh _ _ Hk') as (i' & Hi' & Hs').
    exists i'. rewrite dget_dset_ne; [done | congruence].
  - split; simpl; intros; rewrite ?dget_dset in *; repeat case_decide; simplify_eq; eauto;
      by absent.
Qed.

Lemma reg_inv_drop r ids key :
  reg_inv r → (∀ id, id ∈ ids ↔ dget (alias_db r) id = Some key) →
  reg_inv (Reg (ddrop ids (class_db r)) (ddel (singleton_db r) key)
               (ddrop ids (alias_db r)) (next_obj r) (world r)).
Proof.
  intros [[] Hsh []] Hids.
  split; [by split; simpl; [apply dict_ok_filter | apply dict_ok_ddel | apply dict_ok_filter] | |].
  - intros id key'. simpl. rewrite !dget_ddrop by done. case_decide; [done|].
    intros Hk. destruct (Hsh _ _ Hk) as (i & ? & ?). exists i.
    rewrite dget_ddel_ne; [done|]. intros <-. naive_solver.
  - split; simpl; intros *; rewrite ?dget_ddrop by done; rewrite ?dget_ddel;
      repeat case_decide; try done; eauto.
Qed.

Lemma reg_inv_del r id :
  reg_inv r →
  reg_inv (set_alias_db (ddel (alias_db r) id) (set_class_db (ddel (class_db r) id) r)).
Proof.
  intros [[] Hsh []]. split; [by split; simpl; auto using dict_ok_ddel | |].
  - intros id' key. simpl. rewrite !dget_ddel. case_decide; [done|]. eauto.
  - split; simpl; intros *; rewrite ?dget_ddel; repeat case_decide; try done; eauto.
Qed.

(** Eviction is complete: afterwards the singleton is gone, every handle
    that was bound to it answers [DEFwNotFound], and every other handle and
    singleton is as before. *)
Theorem evict_complete (mname cname : string) (r : registry W) (id : string)
    (invoke : instance → string → list val → pydict → thread (registry W) val)
    (c meth : string) (args : list val) (kwargs : pydict) :
  reg_ok r →
  let key := get_singleton_key mname cname in
  let '(r', o) := evict_singleton_instance mname cname r in
  o = Ok (dget (singleton_db r) key) ∧ dget (singleton_db r') key = None ∧
  (∀ k, k ≠ key → dget (singleton_db r') k = dget (singleton_db r) k) ∧
  (if decide (dget (alias_db r) id = Some key)
   then dget (alias_db r') id = None ∧
        run (method_call invoke c meth id args kwargs) r' =
        (r', Raise (Exc EDEFwNotFound ("no " ++ id ++ " in database")%string))
   else dget (class_db r') id = dget (class_db r) id ∧
        dget (alias_db r') id = dget (alias_db r) id).
Proof.
  intros [Hc Hs Ha] key. rewrite evict_run. fold key. simpl.
  split_and!; [done | apply dget_ddel_eq | intros; by apply dget_ddel_ne |].
  pose proof (elem_of_aliases key (alias_db r) id Ha) as Hid.
  unfold get_class_from_db, bind, get. simpl. rewrite !dget_ddrop by done.
  repeat case_decide; try done; exfalso; tauto.
Qed.

(** Shutting a service instance down evicts it whatever the directory
    answers to the deregistration, an error included. *)
Theorem shutdown_always_evicts (deregister : Endpoint → M (registry W) unit) (me : Endpoint)
    (i : instance) (r : registry W) :
  run (shutdown_service_instance (Some deregister) me i) r =
  evict_singleton_instance (inst_module i) (inst_class i) (deregister me r).1.
Proof.
  unfold shutdown_service_instance. rewrite run_tbind. unfold bind. rewrite run_ttry.
  unfold try_with. rewrite run_atomic.
  destruct (deregister me r) as [r' [[]|e]]; cbn [run tret fst]; by rewrite run_atomic.
Qed.

(** ** Requests handled one after the other *)

Context (import_module : string → res (pymodule W)) (dirsvc : instance).

Inductive reg_call :=
  | CInstantiate (m : pymodule W) (mname cname id : string) (args : list val) (kwargs : pydict)
  | CDestroy (cname id : string)
  | CEvict (mname cname : string).

Definition call_thread (me_is_dirsvc : bool) (c : reg_call) : thread (registry W) unit :=
  match c with
  | CInstantiate m mname cname id args kwargs =>
      instantiate_class import_module me_is_dirsvc dirsvc m mname cname id args kwargs
  | CDestroy cname id => destroy_class me_is_dirsvc cname id
  | CEvict mname cname =>
      tbind (atomic (evict_singleton_instance mname cname)) (λ _, tret tt)
  end.

Definition exec_calls (me_is_dirsvc : bool) (cs : list reg_call) (r : registry W) :
    registry W :=
  fold_left (λ r c, (run (call_thread me_is_dirsvc c) r).1) cs r.

Lemma get_or_create_inv mname cname c args kwargs r :
  reg_inv r →
  let '(r', o) := get_or_create_singleton_instance mname cname (construct c args kwargs) r in
  reg_inv r' ∧ class_db r' = class_db r ∧
  (∀ i, o = Ok i → dget (singleton_db r') (get_singleton_key mname cname) = Some i).
Proof.
  intros Hr. unfold get_or_create_singleton_instance, bind, get, modify, ret. simpl.
  set (key := get_singleton_key mname cname).
  destruct (dget (singleton_db r) key) as [i|] eqn:E; [by split_and!; intros; simplify_eq|].
  destruct (reg_inv_construct c args kwargs r Hr) as (Hr' & Hc & Hs & Ha & Hi).
  destruct (construct c args kwargs r) as [r' [i|e]]; simpl in *; [|done].
  destruct (Hi i eq_refl) as [Hid Hn]. destruct Hr as [_ _ Hown].
  split_and!; [|done|by intros ? [= <-]; rewrite dget_dset_eq].
  apply reg_inv_singleton; [done | congruence | lia | |].
  - intros id'. rewrite Hc. intros E'%(own_fresh_class _ Hown). lia.
  - intros k. rewrite Hs. intros E'%(own_fresh_singleton _ Hown). lia.
Qed.

Lemma instantiate_singleton_inv m mname cname id args kwargs r :
  reg_inv r → reg_inv (run (instantiate_singleton m mname cname id args kwargs) r).1.
Proof.
  intros Hr. unfold instantiate_singleton. rewrite run_tbind. unfold bind. cbn [run].
  destruct (getattr_class m cname) as [c|e]; [|done].
  rewrite run_tbind. unfold bind. rewrite run_atomic.
  pose proof (get_or_create_inv mname cname c args kwargs r Hr) as H.
  destruct (get_or_create_singleton_instance _ _ _ r) as [r' [i|e]];
    destruct H as (Hr' & Hc & Hi); [|done]. specialize (Hi i eq_refl).
  rewrite run_tbind. unfold bind. rewrite run_atomic. simpl.
  destruct (dmem (class_db r') id) eqn:E; [done|]. simpl.
  unfold_sections. rewrite E. simpl.
  apply dmem_false in E. by apply reg_inv_bind.
Qed.

Lemma instantiate_per_connection_inv m cname id args kwargs r :
  reg_inv r → reg_inv (run (instantiate_per_connection m cname id args kwargs) r).1.
Proof.
  intros Hr. unfold instantiate_per_connection. rewrite run_ttry. unfold try_with.
  rewrite run_tbind. unfold bind. rewrite run_atomic. unfold get_class_from_db, bind, get. simpl.
  destruct (dget (class_db r) id) as [i|] eqn:E; simpl; [done|].
  destruct (getattr_class m cname) as [c|e]; simpl; [|done].
  destruct (reg_inv_construct c args kwargs r Hr) as (Hr' & Hc & Hs & Ha & Hi).
  destruct (construct c args kwargs r) as [r' [i|e]]; simpl in *; [|done].
  destruct (Hi i eq_refl) as [Hid Hn]. destruct Hr as [_ _ Hown].
  unfold_sections. rewrite Hc. rewrite (proj2 (dmem_false _ _) E). simpl. rewrite <- Hc.
  apply reg_inv_add; [done | congruence | lia | |].
  - intros id'. rewrite Hc. intros E'%(own_fresh_class _ Hown). lia.
  - intros k. rewrite Hs. intros E'%(own_fresh_singleton _ Hown). lia.
Qed.

Lemma del_entry_run id (r : registry W) :
  del_entry_from_class_db id r =
  (if dmem (class_db r) id
   then set_alias_db (ddel (alias_db r) id) (set_class_db (ddel (class_db r) id) r) else r,
   Ok tt).
Proof. unfold_sections. by destruct (dmem (class_db r) id). Qed.

Lemma destroy_run cname id r :
  run (destroy_class false cname id) r =
  match dget (class_db r) id with
  | Some _ =>
      (set_alias_db (ddel (alias_db r) id) (set_class_db (ddel (class_db r) id) r), Ok tt)
  | None => (r, Raise (Exc EDEFwNotFound ("no " ++ id ++ " in database")%string))
  end.
Proof.
  unfold destroy_class. simpl. unfold get_class_from_db, is_singleton_alias, bind, get. simpl.
  destruct (dget (class_db r) id) as [i|] eqn:E; [|done]. simpl.
  assert (dmem (class_db r) id = true) as Hm by (unfold dmem; by rewrite E).
  destruct (dmem (alias_db r) id); simpl; rewrite del_entry_run, Hm; done.
Qed.

Lemma call_inv c r : reg_inv r → reg_inv (run (call_thread false c) r).1.
Proof.
  intros Hr. destruct c as [m mname cname id args kwargs|cname id|mname cname]; cbn [call_thread].
  - unfold instantiate_class. cbn [andb]. rewrite run_tbind. unfold bind. cbn [run].
    destruct (get_instance_mode import_module m) as [mode|]; [|done].
    case_match; [by apply instantiate_singleton_inv | by apply instantiate_per_connection_inv].
  - rewrite destroy_run. case_match; [by apply reg_inv_del | done].
  - rewrite run_tbind. unfold bind. rewrite run_atomic, evict_run. simpl.
    apply reg_inv_drop; [done|]. intros id. apply elem_of_aliases, Hr.
Qed.

(** C14. In a process that is not the directory service, whatever sequence of
    instantiate, destroy and evict requests is served, the registry stays
    consistent: the dicts have no duplicate keys, every alias reaches the
    singleton its key names, two singleton keys never share an object, and
    an object bound to a handle that is no alias is bound to that handle
    only and is no singleton. *)
Theorem registry_invariant (w : W) (cs : list reg_call) :
  reg_inv (exec_calls false cs (empty_registry w)).
Proof.
  unfold exec_calls. generalize (reg_inv_empty w). generalize (empty_registry w).
  induction cs as [|c cs IH]; intros r Hr; [done|]. simpl. apply IH. by apply call_inv.
Qed.

(** ** Requests handled concurrently *)

Local Arguments tbind : simpl never.
Local Arguments atomic : simpl never.

Definition shared_inv (r : registry W) : Prop := reg_ok r ∧ aliases_shared r.

(** Singletons only get added. *)
Definition singletons_grow (r r' : registry W) : Prop :=
  ∀ key i, dget (singleton_db r) key = Some i → dget (singleton_db r') key = Some i.

#[local] Instance singletons_grow_preorder : PreOrder singletons_grow.
Proof. split; [by intros ? ? | intros ? ? ? H1 H2 ? ? H; by apply H2, H1]. Qed.

Lemma grow_same r r' : singleton_db r' = singleton_db r → singletons_grow r r'.
Proof. by intros E ? ?; rewrite E. Qed.

Definition life_cycle_request (me_is_dirsvc : bool) (t : thread (registry W) unit) : Prop :=
  ∃ c, t = call_thread me_is_dirsvc c ∧ ∀ m n, c ≠ CEvict m n.

Local Abbreviation respects := (respects shared_inv singletons_grow).

(** A section that reads, or that only touches the handles. *)
Lemma respects_atomic {A} (m : M (registry W) A) (k : A → thread (registry W) unit) s :
  (∀ s', singletons_grow s s' → shared_inv s' →
     shared_inv (m s').1 ∧ singletons_grow s' (m s').1 ∧
     ∀ a, (m s').2 = Ok a → respects (m s').1 (k a)) →
  respects s (tbind (atomic m) k).
Proof.
  intros Hm. constructor. intros s' HR HI. destruct (Hm s' HR HI) as (HI' & HR' & Hk).
  destruct (m s') as [s'' [a|e]]; simpl in *; split_and!; auto. constructor.
Qed.

Lemma respects_pure {A} (o : res A) (k : A → thread (registry W) unit) s :
  (∀ a, o = Ok a → respects s (k a)) → respects s (tbind (TDone o) k).
Proof. destruct o; [by intros Hk; apply Hk | constructor]. Qed.

Lemma respects_atomic_last (m : M (registry W) unit) s :
  (∀ s', singletons_grow s s' → shared_inv s' →
     shared_inv (m s').1 ∧ singletons_grow s' (m s').1) →
  respects s (atomic m).
Proof.
  intros Hm. constructor. intros s' HR HI. destruct (Hm s' HR HI) as (HI' & HR').
  destruct (m s') as [s'' o]; simpl in *; split_and!; auto. constructor.
Qed.

Lemma shared_bind s mname cname id i :
  shared_inv s → dget (singleton_db s) (get_singleton_key mname cname) = Some i →
  shared_inv (bind_singleton_alias id mname cname i s).1 ∧
  singletons_grow s (bind_singleton_alias id mname cname i s).1.
Proof.
  intros [[] Hsh] Hs. unfold_sections. destruct (dmem (class_db s) id) eqn:E; simpl; [done|].
  split; [|by apply grow_same]. split; [by split; simpl; auto using dict_ok_dset|].
  intros id' key' Hk. simpl in *. rewrite dget_dset in Hk. rewrite dget_dset.
  case_decide; simplify_eq; [by exists i | by apply Hsh].
Qed.

Lemma shared_add s id i :
  shared_inv s →
  shared_inv (add_to_class_db i id s).1 ∧ singletons_grow s (add_to_class_db i id s).1.
Proof.
  intros [[] Hsh]. unfold_sections. destruct (dmem (class_db s) id) eqn:E; simpl; [done|].
  apply dmem_false in E. pose proof (alias_none _ _ Hsh E) as Ha.
  split; [|by apply grow_same]. split; [by split; simpl; auto using dict_ok_dset|].
  intros id' key Hk. simpl in *. destruct (Hsh _ _ Hk) as (i' & Hi' & Hs').
  exists i'. rewrite dget_dset_ne; [done | congruence].
Qed.

Lemma shared_del s id :
  shared_inv s →
  shared_inv (del_entry_from_class_db id s).1 ∧
  singletons_grow s (del_entry_from_class_db id s).1.
Proof.
  intros [[] Hsh]. rewrite del_entry_run. destruct (dmem (class_db s) id); simpl; [|done].
  split; [|by apply grow_same]. split; [by split; simpl; auto using dict_ok_ddel|].
  intros id' key. simpl. rewrite !dget_ddel. case_decide; [done|]. eauto.
Qed.

Lemma shared_construct c args kwargs s :
  shared_inv s →
  shared_inv (construct c args kwargs s).1 ∧
  singleton_db (construct c args kwargs s).1 = singleton_db s.
Proof.
  intros [[] Hsh]. unfold construct. case_match. simpl. done.
Qed.

Lemma shared_get_or_create mname cname c args kwargs s :
  shared_inv s →
  let '(s', o) := get_or_create_singleton_instance mname cname (construct c args kwargs) s in
  shared_inv s' ∧ singletons_grow s s' ∧
  ∀ i, o = Ok i → dget (singleton_db s') (get_singleton_key mname cname) = Some i.
Proof.
  intros Hs. unfold get_or_create_singleton_instance, bind, get, modify, ret.
  set (key := get_singleton_key mname cname).
  destruct (dget (singleton_db s) key) as [i|] eqn:E; [by split_and!; intros; simplify_eq|].
  destruct (shared_construct c args kwargs s Hs) as [[Hok Hsh] Hdb].
  destruct (construct c args kwargs s) as [s' [i|e]]; simpl in *.
  - split_and!; [split|..|by intros ? [= <-]; rewrite dget_dset_eq].
    + destruct Hok. by split; simpl; auto using dict_ok_dset.
    + intros id key' Hk. destruct (Hsh _ _ Hk) as (i' & ? & ?). exists i'. simpl.
      rewrite dget_dset_ne; [done | congruence].
    + intros k j Hj. simpl. rewrite Hdb, dget_dset_ne; [done | congruence].
  - split_and!; [split| |]; try done. intros k j. by rewrite Hdb.
Qed.

Lemma life_cycle_respects me_is_dirsvc t s : life_cycle_request me_is_dirsvc t → respects s t.
Proof.
  intros (c & -> & Hne). destruct c as [m mname cname id args kwargs|cname id|mname cname];
    cbn [call_thread]; [| |by destruct (Hne mname cname)].
  - unfold instantiate_class. case_match.
    { apply respects_atomic. intros s' _ HI. simpl. split_and!; try done.
      intros [] _; [constructor|]. apply respects_atomic_last. intros. by apply shared_add. }
    apply respects_pure. intros mode _. case_match; unfold instantiate_singleton, instantiate_per_connection.
    + apply respects_pure. intros c _. apply respects_atomic. intros s1 _ HI.
      pose proof (shared_get_or_create mname cname c args kwargs s1 HI) as Hg.
      destruct (get_or_create_singleton_instance _ _ _ s1) as [s2 o].
      destruct Hg as (HI2 & HR2 & Ho). simpl. split_and!; [done..|].
      intros i Hi. apply Ho in Hi. apply respects_atomic. intros s3 HR3 HI3. simpl.
      split_and!; [done..|]. intros [] _; [constructor|].
      apply respects_atomic_last. intros s4 HR4 HI4. apply shared_bind; [done|].
      by apply HR4, HR3.
    + constructor. intros s1 _ HI. unfold get_class_from_db, bind, get. simpl.
      destruct (dget (class_db s1) id) as [i|]; simpl; [by split_and!; [..|constructor]|].
      split_and!; [done..|]. apply respects_pure. intros c _. apply respects_atomic. intros s2 _ HI2.
      destruct (shared_construct c args kwargs s2 HI2) as [HI3 Hdb].
      split_and!; [done|by intros ? ?; rewrite Hdb|]. intros i _.
      apply respects_atomic_last. intros. by apply shared_add.
  - unfold destroy_class. case_match.
    { apply respects_atomic_last. intros. by apply shared_del. }
    apply respects_atomic. intros s1 _ HI. unfold get_class_from_db, bind, get. simpl.
    split_and!; [by case_match | by case_match|]. intros i _.
    apply respects_atomic. intros s2 _ HI2. simpl. split_and!; [done..|].
    intros [] _; apply respects_atomic_last; intros; by apply shared_del.
Qed.

(** C15. However the threads that serve instantiate and destroy requests
    interleave, two handles bound to the same singleton key reach the same
    object: the one the singleton table holds. *)
Theorem singleton_shared_interleaved (me_is_dirsvc : bool) (w : W) (r : registry W)
    (ts : list (thread (registry W) unit)) (id1 id2 key : string) :
  tsteps (life_cycle_request me_is_dirsvc) (empty_registry w, []) (r, ts) →
  dget (alias_db r) id1 = Some key → dget (alias_db r) id2 = Some key →
  ∃ i, dget (class_db r) id1 = Some i ∧ dget (class_db r) id2 = Some i ∧
       dget (singleton_db r) key = Some i.
Proof.
  intros Hs H1 H2. destruct (reg_inv_empty w) as [Hok Hsh _].
  destruct (tsteps_respects (life_cycle_request me_is_dirsvc) shared_inv singletons_grow
              (empty_registry w, []) (r, ts)) as ([_ Hsh'] & _); try done.
  { intros s t. apply life_cycle_respects. }
  destruct (Hsh' _ _ H1) as (i & ? & Hi), (Hsh' _ _ H2) as (j & ? & Hj). simpl in *.
  simplify_eq. eauto.
Qed.
End facts.

(** ** A concrete service *)

Module Demo.
Definition counter : pyclass unit :=
  PyClass "svc_test_counter.svc_test_counter" "TestCounter" (λ _ _ _ w, (w, Ok tt)).

Definition counter_module : pymodule unit :=
  PyModule "svc_test_counter.svc_test_counter" (Some "svc_test_counter")
    (Some (VDict [("instance_mode", VStr "singleton")]))
    (λ n, if String.eqb n "TestCounter" then Some counter else None) (λ _, None).

Definition import (n : string) : res (pymodule unit) := Ok counter_module.
Definition nobody : instance := Instance 0 "" "".

Definition ask (id : string) : reg_call (W := unit) :=
  CInstantiate counter_module "svc_test_counter.svc_test_counter" "TestCounter" id [] [].

Definition evict : reg_call (W := unit) :=
  CEvict "svc_test_counter.svc_test_counter" "TestCounter".

Definition thread_of := call_thread import nobody false.

(** The interleaving that breaks the sharing: a request finds the
    singleton, the singleton is evicted before the request binds its handle,
    a second request creates a new singleton; the two handles carry the same
    key and reach different objects, one of which no longer is the
    singleton.  Every request involved completes without an error. *)
Theorem eviction_race :
  ∃ r ts i j,
    tsteps (λ t, ∃ c, t = thread_of c) (empty_registry tt, []) (r, ts) ∧
    (∀ t, t ∈ ts → t = TDone (Ok tt)) ∧
    dget (alias_db r) "a" = dget (alias_db r) "b" ∧
    dget (class_db r) "a" = Some i ∧ dget (class_db r) "b" = Some j ∧ i ≠ j.
Proof.
  set (pool := [thread_of (ask "a"); thread_of evict; thread_of (ask "b")]).
  set (c := sched [0; 1; 0; 0; 2; 2; 2] (empty_registry tt, pool)).
  eexists c.1, c.2, _, _. split_and!.
  - etrans; [apply (spawn_all (empty_registry tt) [] pool)|].
    + repeat constructor; eauto.
    + simpl app. pose proof (sched_tsteps (spawnable := λ t, ∃ c, t = thread_of c) [0; 1; 0; 0; 2; 2; 2]
                    (empty_registry tt, pool)) as H.
      fold c in H. by destruct c.
  - vm_compute. intros t Ht. repeat (apply elem_of_cons in Ht as [->|Ht]; [done|]).
    by apply elem_of_nil in Ht.
  - vm_compute. reflexivity.
  - vm_compute. reflexivity.
  - vm_compute. reflexivity.
  - done.
Qed.

Definition two_callers := sched [0; 1; 1; 0; 0; 1] (empty_registry tt, [thread_of (ask "a"); thread_of (ask "b")]).

Lemma singleton_shared_interleaved_witness :
  ∃ i, dget (class_db two_callers.1) "a" = Some i ∧ dget (class_db two_callers.1) "b" = Some i ∧
       dget (singleton_db two_callers.1) "svc_test_counter.svc_test_counter:TestCounter" = Some i.
Proof.
  apply (singleton_shared_interleaved import nobody false tt two_callers.1 two_callers.2);
    [|vm_compute; reflexivity..].
  etrans; [apply (spawn_all (empty_registry tt) [] [thread_of (ask "a"); thread_of (ask "b")])|].
  - repeat constructor; eexists; (split; [reflexivity | done]).
  - rewrite app_nil_l, <- (surjective_pairing two_callers). apply sched_tsteps.
Defined.

Definition served := exec_calls import nobody false [ask "a"; ask "b"] (empty_registry tt).

Lemma evict_complete_witness :
  let '(r', o) := evict_singleton_instance "svc_test_counter.svc_test_counter" "TestCounter" served in
  dget (class_db served) "a" = dget (class_db served) "b" ∧ dget (class_db r') "a" = None ∧
  run (method_call (λ _ _ _ _, tret VNone) "TestCounter" "increment" "a" [] []) r' =
  (r', Raise (Exc EDEFwNotFound "no a in database")).
Proof.
  pose proof (evict_complete "svc_test_counter.svc_test_counter" "TestCounter" served "a"
                (λ _ _ _ _, tret VNone) "TestCounter" "increment" [] []) as H.
  assert (reg_ok served) as Hok by (split; apply (bool_decide_unpack (NoDup _)); vm_compute; exact I).
  specialize (H Hok). split_and!; [vm_compute; reflexivity..|].
  vm_compute in H |- *. apply H.
Defined.
End Demo.
