(* ===== verification/Base64.v ===== *)
(** * Base64, as Python's [base64] module computes it

    [b64encode] is RFC 4648 with padding.  [b64decode] is the lenient decoder
    of [binascii.a2b_base64] that [base64.b64decode(s)] calls: characters
    outside the alphabet are skipped, a complete padding ends the input, and
    input that stops inside a group is an error. *)

From S2P Require Import Prelude.
From Stdlib Require Import Ascii.

Local Open Scope string_scope.
Local Open Scope Z_scope.
Local Open Scope list_scope.

Ltac Zify.zify_post_hook ::= Z.to_euclidean_division_equations.

(** A byte is an integer in [0, 256). *)
Abbreviation bytes := (list Z).
Definition is_byte (b : Z) : Prop := 0 <= b < 256.

Definition alphabet : list ascii :=
  String.list_ascii_of_string "ABCDEFGHIJKLMNOPQRSTUVWXYZabcdefghijklmnopqrstuvwxyz0123456789+/".

Definition char_of (n : Z) : ascii := nth (Z.to_nat n) alphabet "="%char.

Fixpoint index_of (c : ascii) (l : list ascii) (n : Z) : option Z :=
  match l with
  | [] => None
  | x :: l' => if Ascii.eqb c x then Some n else index_of c l' (n + 1)
  end.

Definition sextet_of (c : ascii) : option Z := index_of c alphabet 0.

Fixpoint encode_chars (bs : bytes) : list ascii :=
  match bs with
  | [] => []
  | [a] => [char_of (a / 4); char_of ((a mod 4) * 16); "="%char; "="%char]
  | [a; b] => [char_of (a / 4); char_of ((a mod 4) * 16 + b / 16);
               char_of ((b mod 16) * 4); "="%char]
  | a :: b :: c :: bs' =>
      char_of (a / 4) :: char_of ((a mod 4) * 16 + b / 16) ::
      char_of ((b mod 16) * 4 + c / 64) :: char_of (c mod 64) :: encode_chars bs'
  end.

Definition b64encode (bs : bytes) : string := String.string_of_list_ascii (encode_chars bs).

(** The decoder's state: position in the group, bits left over, padding seen
    since the last alphabet character. *)
Fixpoint decode_chars (quad left pads : Z) (l : list ascii) : res bytes :=
  match l with
  | [] => if quad =? 0 then Ok [] else Raise (Exc EValueError "Incorrect padding")
  | c :: l' =>
      if Ascii.eqb c "=" then
        if (2 <=? quad) && (4 <=? quad + pads + 1) then Ok []
        else decode_chars quad left (if 2 <=? quad then pads + 1 else pads) l'
      else
        match sextet_of c with
        | None => decode_chars quad left pads l'
        | Some n =>
            if quad =? 0 then decode_chars 1 n 0 l'
            else if quad =? 1 then
              res_map (cons (left * 4 + n / 16)) (decode_chars 2 (n mod 16) 0 l')
            else if quad =? 2 then
              res_map (cons (left * 16 + n / 4)) (decode_chars 3 (n mod 4) 0 l')
            else res_map (cons (left * 64 + n)) (decode_chars 0 0 0 l')
        end
  end.

Definition b64decode (s : string) : res bytes :=
  decode_chars 0 0 0 (String.list_ascii_of_string s).

(** ** Round trip *)

Lemma alphabet_ok :
  forallb (λ n, match sextet_of (char_of n) with
                | Some m => (m =? n) && negb (Ascii.eqb (char_of n) "=")
                | None => false
                end) (map Z.of_nat (seq 0 64)) = true.
Proof. vm_compute. reflexivity. Qed.

Lemma char_sextet n :
  0 <= n < 64 → sextet_of (char_of n) = Some n ∧ Ascii.eqb (char_of n) "=" = false.
Proof.
  intros Hn. pose proof alphabet_ok as H. rewrite forallb_forall in H.
  specialize (H n). destruct (sextet_of (char_of n)) as [m|].
  - assert (In n (map Z.of_nat (seq 0 64))) as Hin.
    { apply in_map_iff. exists (Z.to_nat n). rewrite in_seq. lia. }
    specialize (H Hin). apply andb_true_iff in H as [H1%Z.eqb_eq H2%negb_true_iff].
    by subst.
  - discriminate H. apply in_map_iff. exists (Z.to_nat n). rewrite in_seq. lia.
Qed.

Lemma decode_char q left pads n l :
  0 <= n < 64 →
  decode_chars q left pads (char_of n :: l) =
  if q =? 0 then decode_chars 1 n 0 l
  else if q =? 1 then res_map (cons (left * 4 + n / 16)) (decode_chars 2 (n mod 16) 0 l)
  else if q =? 2 then res_map (cons (left * 16 + n / 4)) (decode_chars 3 (n mod 4) 0 l)
  else res_map (cons (left * 64 + n)) (decode_chars 0 0 0 l).
Proof. intros Hn. destruct (char_sextet n Hn) as [Hs He]. simpl. by rewrite He, Hs. Qed.

(** Lists three elements at a time. *)
Lemma list_ind3 {A} (P : list A → Prop) :
  P [] → (∀ a, P [a]) → (∀ a b, P [a; b]) → (∀ a b c l, P l → P (a :: b :: c :: l)) → ∀ l, P l.
Proof.
  intros H0 H1 H2 H3. fix go 1. intros [|a [|b [|c l]]]; [done | apply H1 | apply H2 | apply H3, go].
Qed.

Lemma decode_encode_chars bs : Forall is_byte bs → decode_chars 0 0 0 (encode_chars bs) = Ok bs.
Proof.
  unfold is_byte. induction bs as [|a|a b|a b c bs IH] using list_ind3; rewrite ?Forall_cons;
    intros; destruct_and?; [done|..]; simpl encode_chars; rewrite !decode_char by lia; simpl.
  - do 2 f_equal. lia.
  - f_equal. f_equal; [lia|]. f_equal. lia.
  - rewrite IH by done. simpl. do 2 f_equal; [lia|]. f_equal; [lia|]. f_equal. lia.
Qed.

Lemma b64_roundtrip bs : Forall is_byte bs → b64decode (b64encode bs) = Ok bs.
Proof.
  intros Hbs. unfold b64decode, b64encode.
  rewrite String.list_ascii_of_string_of_list_ascii. by apply decode_encode_chars.
Qed.

Example b64_hello : b64encode [104; 101; 108; 108; 111] = "aGVsbG8=".
Proof. reflexivity. Qed.

Example b64_lenient : b64decode "aG Vs-bG8=" = Ok [104; 101; 108; 108; 111].
Proof. reflexivity. Qed.
