(* ===== verification/Attachments.v ===== *)
(** * Binary attachments ([python/infra/defw_attachments.py])

    A message is walked once before it is sent: NumPy arrays, and byte strings
    from a threshold on, are replaced by small marker dicts and collected; the
    collected buffers travel beside the message, inline as base64 or left in
    memory and named by an RMA descriptor.  The receiver fetches or decodes the
    payloads and puts them back.

    NumPy, PyYAML and the native RMA entry points ([cdefw_agent]) are classes:
    the operations the code calls, and separately what it relies on. *)

From S2P Require Import Prelude PyDict PyVal Base64.
From Stdlib Require Import Ascii.

Local Open Scope string_scope.
Local Open Scope Z_scope.
Local Open Scope list_scope.
Import PyNotations.
Local Open Scope py_scope.

Definition ATTACH_MARKER_KEY : string := "__defw_attachment__".
Definition ATTACH_DATA_KEY : string := "__defw_attachment_data__".
Definition DEFAULT_RMA_THRESHOLD : Z := 64 * 1024.
Definition DEFAULT_ATTACH_THRESHOLD : Z := 4096.

(** ** NumPy *)

Class NumpyOps := {
  ndarray : Type;
  np_loaded : bool;
  ascontiguousarray : ndarray → ndarray;
  shape : ndarray → list Z;
  dtype : ndarray → string;
  tobytes : ndarray → bytes;
  frombuffer : bytes → string → res ndarray;
  reshape : ndarray → list Z → res ndarray
}.

(** ** Message objects

    What a message can hold: scalars, [bytes] ([mutable = false]) and
    [bytearray], arrays, and lists, tuples and dicts of these.  [OOther] is
    any object the walk leaves alone. *)

Section pyobj.
Context `{NumpyOps}.

Unset Elimination Schemes.
Inductive pyobj :=
  | ONone
  | OBool (b : bool)
  | OInt (n : Z)
  | OStr (s : string)
  | OBytes (mutable : bool) (bs : bytes)
  | OArray (a : ndarray)
  | OList (l : list pyobj)
  | OTuple (l : list pyobj)
  | ODict (d : list (hkey * pyobj))
  | OOther (i : nat).
Set Elimination Schemes.

Section ind.
Variable P : pyobj → Prop.
Hypothesis HNone : P ONone.
Hypothesis HBool : ∀ b, P (OBool b).
Hypothesis HInt : ∀ n, P (OInt n).
Hypothesis HStr : ∀ s, P (OStr s).
Hypothesis HBytes : ∀ m bs, P (OBytes m bs).
Hypothesis HArray : ∀ a, P (OArray a).
Hypothesis HList : ∀ l, Forall P l → P (OList l).
Hypothesis HTuple : ∀ l, Forall P l → P (OTuple l).
Hypothesis HDict : ∀ d, Forall (λ p, P p.2) d → P (ODict d).
Hypothesis HOther : ∀ i, P (OOther i).

Fixpoint pyobj_ind (o : pyobj) : P o :=
  let all := fix all l : Forall P l :=
    match l with
    | [] => Forall_nil_2 _
    | x :: l' => Forall_cons_2 _ _ _ (pyobj_ind x) (all l')
    end in
  match o with
  | ONone => HNone
  | OBool b => HBool b
  | OInt n => HInt n
  | OStr s => HStr s
  | OBytes m bs => HBytes m bs
  | OArray a => HArray a
  | OList l => HList l (all l)
  | OTuple l => HTuple l (all l)
  | ODict d =>
      HDict d ((fix alld d : Forall (λ p, P p.2) d :=
                  match d with
                  | [] => Forall_nil_2 _
                  | p :: d' => Forall_cons_2 _ _ _ (pyobj_ind p.2) (alld d')
                  end) d)
  | OOther i => HOther i
  end.
End ind.

Definition is_ndarray (o : pyobj) : bool :=
  match o with OArray _ => np_loaded | _ => false end.

(** What the attachment list holds. *)
Inductive buffer :=
  | BBytes (bs : bytes)
  | BArray (a : ndarray).

(** ** Extraction *)

Definition marker_bytes (index : Z) : pyobj :=
  ODict [(KStr ATTACH_MARKER_KEY, OInt index); (KStr "kind", OStr "bytes")].

Definition marker_ndarray (index : Z) (a : ndarray) : pyobj :=
  ODict [(KStr ATTACH_MARKER_KEY, OInt index); (KStr "kind", OStr "ndarray");
         (KStr "shape", OList (map OInt (shape a))); (KStr "dtype", OStr (dtype a))].

Fixpoint extract (threshold : Z) (o : pyobj) (acc : list buffer) : pyobj * list buffer :=
  let extract_list := fix go l acc :=
    match l with
    | [] => ([], acc)
    | x :: l' =>
        let '(x', acc1) := extract threshold x acc in
        let '(l'', acc2) := go l' acc1 in
        (x' :: l'', acc2)
    end in
  match o with
  | OArray a =>
      if np_loaded then
        let arr := ascontiguousarray a in
        (marker_ndarray (Z.of_nat (length acc)) arr, acc ++ [BArray arr])
      else (o, acc)
  | OBytes m bs =>
      if threshold <=? Z.of_nat (length bs)
      then (marker_bytes (Z.of_nat (length acc)), acc ++ [BBytes bs])
      else (o, acc)
  | ODict d =>
      let '(d', acc') :=
        (fix go d acc :=
           match d with
           | [] => ([], acc)
           | (k, x) :: d' =>
               let '(x', acc1) := extract threshold x acc in
               let '(d'', acc2) := go d' acc1 in
               ((k, x') :: d'', acc2)
           end) d acc in
      (ODict d', acc')
  | OList l => let '(l', acc') := extract_list l acc in (OList l', acc')
  | OTuple l => let '(l', acc') := extract_list l acc in (OTuple l', acc')
  | _ => (o, acc)
  end.

Definition extract_attachments (threshold : Z) (msg : pyobj) : pyobj * list buffer :=
  extract threshold msg [].

(** ** Reinjection *)

(** [l[i]] with Python's negative indices. *)
Definition py_index {A} (l : list A) (i : Z) : res A :=
  let n := Z.of_nat (length l) in
  let j := if i <? 0 then i + n else i in
  match (if (0 <=? j) && (j <? n) then l !! Z.to_nat j else None) with
  | Some x => Ok x
  | None => Raise (Exc EIndexError "list index out of range")
  end.

Definition odget (d : list (hkey * pyobj)) (k : string) : option pyobj := dget d (KStr k).

Definition odindex (d : list (hkey * pyobj)) (k : string) : res pyobj :=
  match odget d k with Some v => Ok v | None => Raise (Exc EKeyError k) end.

Definition as_int (o : pyobj) : res Z :=
  match o with
  | OInt n => Ok n
  | OBool b => Ok (b2z b)
  | _ => Raise (Exc ETypeError "an integer is required")
  end.

Definition as_str (o : pyobj) : res string :=
  match o with OStr s => Ok s | _ => Raise (Exc ETypeError "a string is required") end.

Definition as_dims (o : pyobj) : res (list Z) :=
  match o with
  | OList l | OTuple l => rmapM as_int l
  | _ => res_map (λ n, [n]) (as_int o)
  end.

(** A marker found in the message. *)
Definition restore (d : list (hkey * pyobj)) (index : pyobj) (atts : list bytes) : res pyobj :=
  let? i := as_int index in
  let? buf := py_index atts i in
  match odget d "kind" with
  | Some (OStr "ndarray") =>
      if np_loaded then
        let? dt := odindex d "dtype" in
        let? dt := as_str dt in
        let? arr := frombuffer buf dt in
        let? sh := odindex d "shape" in
        let? sh := as_dims sh in
        res_map OArray (reshape arr sh)
      else Raise (Exc ERuntimeError
             "received a NumPy array attachment but numpy is not available to restore it")
  | _ => Ok (OBytes false buf)
  end.

Fixpoint reinject (o : pyobj) (atts : list bytes) : res pyobj :=
  let reinject_list := fix go l :=
    match l with
    | [] => Ok []
    | x :: l' =>
        let? y := reinject x atts in
        let? ys := go l' in
        Ok (y :: ys)
    end in
  match o with
  | ODict d =>
      match odget d ATTACH_MARKER_KEY with
      | Some index => restore d index atts
      | None =>
          let? d' :=
            (fix go d :=
               match d with
               | [] => Ok []
               | (k, x) :: d' =>
                   let? y := reinject x atts in
                   let? ys := go d' in
                   Ok ((k, y) :: ys)
               end) d in
          Ok (ODict d')
      end
  | OList l => let? l' := reinject_list l in Ok (OList l')
  | OTuple l => let? l' := reinject_list l in Ok (OTuple l')
  | _ => Ok o
  end.

Definition reinject_attachments (msg : pyobj) (atts : list bytes) : res pyobj :=
  match atts with [] => Ok msg | _ => reinject msg atts end.

Definition to_bytes (b : buffer) : bytes :=
  match b with BBytes bs => bs | BArray a => tobytes a end.
End pyobj.

(** ** The native RMA entry points *)

Record rma_desc := RmaDesc {
  rma_handle : Z;
  rma_key : Z;
  rma_addr : Z;
  rma_len : Z
}.

Class RmaOps := {
  rma_state : Type;
  rma_built : bool;
  defw_rma_available : string → res bool;
  defw_rma_publish : bytes → M rma_state (Z * option string);
  defw_rma_fetch : string → Z → Z → Z → Z → M rma_state (Z * option bytes);
  defw_rma_discard : Z → M rma_state unit
}.

(** The two environment variables the module reads. *)
Record rma_env := RmaEnv { env_attachments : option string; env_threshold : option string }.

Definition rma_enabled (env : rma_env) : bool :=
  negb (existsb (String.eqb (default "" (env_attachments env))) ["0"; "no"; "false"; "off"]).

Definition rma_threshold (env : rma_env) : Z :=
  match env_threshold env with
  | Some s => default DEFAULT_RMA_THRESHOLD (int_of_string s)
  | None => DEFAULT_RMA_THRESHOLD
  end.

(** [s.split(':')] *)
Fixpoint split_colon (cur : string) (s : string) : list string :=
  match s with
  | EmptyString => [cur]
  | String c s' =>
      if Ascii.eqb c ":" then cur :: split_colon "" s'
      else split_colon (cur ++ String c EmptyString)%string s'
  end.

Definition parse_int (s : string) : res Z :=
  match int_of_string s with
  | Some n => Ok n
  | None => Raise (Exc EValueError "invalid literal for int() with base 10")
  end.

Definition parse_desc (s : string) : res rma_desc :=
  let? ns := rmapM parse_int (split_colon "" s) in
  match ns with
  | [h; k; a; l] => Ok (RmaDesc h k a l)
  | _ => Raise (Exc EValueError "not enough values to unpack")
  end.

Section rma.
Context `{NumpyOps} `{RmaOps}.

Definition rma_usable (env : rma_env) (blk_uuid : string) : bool :=
  if String.eqb blk_uuid "" || negb (rma_enabled env) then false
  else if negb rma_built then false
  else match defw_rma_available blk_uuid with Ok b => b | Raise _ => false end.

Definition rma_publish (data : bytes) : M rma_state (option rma_desc) :=
  let! out := try_with (let! p := defw_rma_publish data in ret (Some p)) (λ _, ret None) in
  match out with
  | None => ret None
  | Some (rc, desc) =>
      match desc with
      | Some d =>
          if negb (rc =? 0) || String.eqb d "" then ret None
          else lift_res (res_map Some (parse_desc d))
      | None => ret None
      end
  end.

Definition desc_obj (d : rma_desc) : pyobj :=
  ODict [(KStr "handle", OInt (rma_handle d)); (KStr "key", OInt (rma_key d));
         (KStr "addr", OInt (rma_addr d)); (KStr "len", OInt (rma_len d))].

(** The payload list and the handles published for it. *)
Fixpoint encode_loop (use_rma : bool) (threshold : Z) (atts : list buffer) :
    M rma_state (list pyobj * list Z) :=
  match atts with
  | [] => ret ([], [])
  | a :: atts' =>
      let data := to_bytes a in
      let! desc := if use_rma && (threshold <=? Z.of_nat (length data))
                   then rma_publish data else ret None in
      let! out := encode_loop use_rma threshold atts' in
      match desc with
      | Some d => ret (desc_obj d :: out.1, rma_handle d :: out.2)
      | None => ret (OStr (b64encode data) :: out.1, out.2)
      end
  end.

Definition encode_payloads (env : rma_env) (atts : list buffer) (blk_uuid : string) :
    M rma_state (list pyobj * list Z) :=
  encode_loop (rma_usable env blk_uuid) (rma_threshold env) atts.

(** [attach_discard] *)
Definition attach_discard (published : list Z) : M rma_state unit :=
  if rma_built
  then for_each (λ h, try_with (defw_rma_discard h) (λ _, ret tt)) published
  else ret tt.

Definition odindex_int (d : list (hkey * pyobj)) (k : string) : res Z :=
  rbind (odindex d k) as_int.

Definition rma_fetch (desc : list (hkey * pyobj)) (blk_uuid : string) : M rma_state bytes :=
  if negb rma_built then
    throw ERuntimeError
      "message carries an RMA attachment but this DEFw build has no RMA support to fetch it"
  else if String.eqb blk_uuid "" then
    throw ERuntimeError
      "message carries an RMA attachment but the sending agent is unknown, so it cannot be fetched"
  else
    let! h := lift_res (odindex_int desc "handle") in
    let! k := lift_res (odindex_int desc "key") in
    let! a := lift_res (odindex_int desc "addr") in
    let! l := lift_res (odindex_int desc "len") in
    let! out := defw_rma_fetch blk_uuid h k a l in
    match out with
    | (rc, Some data) => if rc =? 0 then ret data else throw ERuntimeError "RMA fetch failed"
    | (_, None) => throw ERuntimeError "RMA fetch failed"
    end.

Definition decode_payload (blk_uuid : string) (p : pyobj) : M rma_state bytes :=
  match p with
  | ODict d => rma_fetch d blk_uuid
  | OStr s => lift_res (b64decode s)
  | OBytes _ bs => lift_res (decode_chars 0 0 0 (map (λ b, ascii_of_nat (Z.to_nat b)) bs))
  | _ => throw ETypeError "argument should be a bytes-like object or ASCII string"
  end.

Fixpoint decode_payloads (ps : list pyobj) (blk_uuid : string) : M rma_state (list bytes) :=
  match ps with
  | [] => ret []
  | p :: ps' =>
      let! b := decode_payload blk_uuid p in
      let! bs := decode_payloads ps' blk_uuid in
      ret (b :: bs)
  end.

(** ** The two entry points *)

Context (yaml_dump : pyobj → string) (yaml_load : string → res pyobj).

(** The serialised message and what [published] is extended with. *)
Definition attach_encode (env : rma_env) (msg : pyobj) (blk_uuid : string) (threshold : Z) :
    M rma_state (string * list Z) :=
  let '(transformed, atts) := extract_attachments threshold msg in
  match atts with
  | [] => ret (yaml_dump transformed, [])
  | _ =>
      let! out := encode_payloads env atts blk_uuid in
      match transformed with
      | ODict d => ret (yaml_dump (ODict (dset d (KStr ATTACH_DATA_KEY) (OList out.1))), out.2)
      | _ => throw ETypeError "object does not support item assignment"
      end
  end.

Definition iter_payloads (o : pyobj) : res (list pyobj) :=
  match o with
  | OList l | OTuple l => Ok l
  | OStr s => Ok (map (λ c, OStr (String c EmptyString)) (String.list_ascii_of_string s))
  | OBytes _ bs => Ok (map OInt bs)
  | ODict d =>
      Ok (map (λ p, match p.1 with
                    | KNone => ONone
                    | KInt n => OInt n
                    | KStr s => OStr s
                    | KObj i => OOther i
                    end) d)
  | _ => Raise (Exc ETypeError "object is not iterable")
  end.

Definition attach_load (msg_str : string) (blk_uuid : string) : M rma_state pyobj :=
  let! o := lift_res (yaml_load msg_str) in
  match o with
  | ODict d =>
      match dget d (KStr ATTACH_DATA_KEY) with
      | Some payloads =>
          let! ps := lift_res (iter_payloads payloads) in
          let! atts := decode_payloads ps blk_uuid in
          lift_res (reinject_attachments (ODict (ddel d (KStr ATTACH_DATA_KEY))) atts)
      | None => ret o
      end
  | _ => ret o
  end.
End rma.
