(* ===== verification/AttachmentsFacts.v ===== *)
(** * Properties of the attachment codec

    Extraction and reinjection are inverse up to the normalisation the source
    performs ([bytearray] becomes [bytes], arrays become contiguous); the
    encoded message, whatever mix of inline and RMA payloads it carries,
    decodes to the message that was sent; a message that is not sent leaves
    no memory region registered. *)

From S2P Require Import Prelude PyDict PyVal Base64 Attachments.
From Stdlib Require Import Ascii.

Local Open Scope string_scope.
Local Open Scope Z_scope.
Local Open Scope list_scope.
Import PyNotations.

Section codec.
Context `{NumpyOps}.
Variable t : Z.

(** What the receiver gets for [o]. *)
Fixpoint norm (o : pyobj) : pyobj :=
  match o with
  | OArray a => OArray (ascontiguousarray a)
  | OBytes m bs => if t <=? Z.of_nat (length bs) then OBytes false bs else o
  | OList l => OList (map norm l)
  | OTuple l => OTuple (map norm l)
  | ODict d => ODict (map (λ p, (p.1, norm p.2)) d)
  | _ => o
  end.

(** An array that its own shape, type and bytes restore. *)
Definition restorable (a : ndarray) : Prop :=
  let c := ascontiguousarray a in
  ∃ b, frombuffer (tobytes c) (dtype c) = Ok b ∧ reshape b (shape c) = Ok c ∧
       Forall is_byte (tobytes c).

(** A message the codec is meant for: no dict uses the reserved marker key,
    bytes are bytes, arrays are restorable. *)
Inductive sendable : pyobj → Prop :=
  | sendable_none : sendable ONone
  | sendable_bool b : sendable (OBool b)
  | sendable_int n : sendable (OInt n)
  | sendable_str s : sendable (OStr s)
  | sendable_bytes m bs : Forall is_byte bs → sendable (OBytes m bs)
  | sendable_array a : np_loaded = true → restorable a → sendable (OArray a)
  | sendable_list l : Forall sendable l → sendable (OList l)
  | sendable_tuple l : Forall sendable l → sendable (OTuple l)
  | sendable_dict d : odget d ATTACH_MARKER_KEY = None →
      Forall (λ p, sendable p.2) d → sendable (ODict d)
  | sendable_other i : sendable (OOther i).

(** ** The walks, list by list *)

Fixpoint extract_list (l : list pyobj) (acc : list buffer) : list pyobj * list buffer :=
  match l with
  | [] => ([], acc)
  | x :: l' =>
      let '(x', acc1) := extract t x acc in
      let '(l'', acc2) := extract_list l' acc1 in
      (x' :: l'', acc2)
  end.

Fixpoint reinject_list (l : list pyobj) (atts : list bytes) : res (list pyobj) :=
  match l with
  | [] => Ok []
  | x :: l' => rbind (reinject x atts) (λ y, rbind (reinject_list l' atts) (λ ys, Ok (y :: ys)))
  end.

Lemma extract_seq_eq l acc :
  extract t (OList l) acc = (let '(l', acc') := extract_list l acc in (OList l', acc')) ∧
  extract t (OTuple l) acc = (let '(l', acc') := extract_list l acc in (OTuple l', acc')).
Proof.
  simpl. match goal with |- (let '(_, _) := ?f l acc in _) = _ ∧ _ => set (g := f) end.
  assert (∀ l acc, g l acc = extract_list l acc) as ->; [|done].
  clear. induction l as [|x l IH]; intros acc; [done|]. simpl.
  destruct (extract t x acc) as [x' acc1]. by rewrite IH.
Qed.

Lemma reinject_seq_eq l atts :
  reinject (OList l) atts = rbind (reinject_list l atts) (λ l, Ok (OList l)) ∧
  reinject (OTuple l) atts = rbind (reinject_list l atts) (λ l, Ok (OTuple l)).
Proof.
  simpl. match goal with |- rbind (?f l) _ = _ ∧ _ => set (g := f) end.
  assert (∀ l, g l = reinject_list l atts) as ->; [|done].
  clear. induction l as [|x l IH]; [done|]. simpl. by rewrite IH.
Qed.

Lemma extract_dict_eq d acc :
  extract t (ODict d) acc =
  let '(l, acc') := extract_list (map snd d) acc in (ODict (zip (map fst d) l), acc').
Proof.
  simpl. match goal with |- (let '(_, _) := ?f d acc in _) = _ => set (g := f) end.
  assert (∀ d acc, g d acc = let '(l, acc') := extract_list (map snd d) acc in
                             (zip (map fst d) l, acc')) as ->.
  { clear. induction d as [|[k x] d IH]; intros acc; [done|]. simpl.
    destruct (extract t x acc) as [x' acc1]. rewrite IH.
    by destruct (extract_list (map snd d) acc1). }
  by destruct (extract_list (map snd d) acc).
Qed.

Lemma reinject_dict_eq d atts :
  odget d ATTACH_MARKER_KEY = None →
  reinject (ODict d) atts =
  rbind (reinject_list (map snd d) atts) (λ l, Ok (ODict (zip (map fst d) l))).
Proof.
  intros Hd. simpl. rewrite Hd. clear Hd.
  match goal with |- rbind (?f d) _ = _ => set (g := f) end.
  assert (∀ d, g d = rbind (reinject_list (map snd d) atts) (λ l, Ok (zip (map fst d) l))) as ->.
  { clear. induction d as [|[k x] d IH]; [done|]. simpl. destruct (reinject x atts); [|done].
    simpl. rewrite IH. by destruct (reinject_list (map snd d) atts). }
  by destruct (reinject_list (map snd d) atts).
Qed.

Lemma extract_list_length l acc : length (extract_list l acc).1 = length l.
Proof.
  revert acc; induction l as [|x l IH]; intros acc; [done|]. simpl.
  destruct (extract t x acc) as [x' acc1]. specialize (IH acc1).
  destruct (extract_list l acc1). simpl in *. by rewrite IH.
Qed.

Lemma odget_keys (d d' : list (hkey * pyobj)) k :
  map fst d = map fst d' → odget d k = None → odget d' k = None.
Proof. unfold odget. rewrite !dget_None. unfold dkeys. by intros ->. Qed.

Lemma fst_zip_map {A} (d : list (hkey * pyobj)) (l : list A) :
  length l = length d → map fst (zip (map fst d) l) = map fst d.
Proof. intros Hl. apply fst_zip. rewrite length_map. lia. Qed.

Lemma snd_zip_map {A} (d : list (hkey * pyobj)) (l : list A) :
  length l = length d → map snd (zip (map fst d) l) = l.
Proof. intros Hl. apply snd_zip. rewrite length_map. lia. Qed.

Lemma zip_fst_snd_map (d : list (hkey * pyobj)) :
  zip (map fst d) (map norm (map snd d)) = map (λ p, (p.1, norm p.2)) d.
Proof. induction d as [|[k x] d IH]; [done|]. simpl. by rewrite IH. Qed.

Lemma py_index_snoc {A} (l : list A) x rest :
  py_index (l ++ x :: rest) (Z.of_nat (length l)) = Ok x.
Proof.
  unfold py_index. rewrite length_app. simpl.
  destruct (Z.ltb_spec (Z.of_nat (length l)) 0); [lia|].
  rewrite (proj2 (Z.leb_le _ _)), (proj2 (Z.ltb_lt _ _)) by lia. simpl.
  by rewrite Nat2Z.id, list_lookup_middle.
Qed.

Lemma as_dims_ints l : as_dims (OList (map OInt l)) = Ok l.
Proof. simpl. induction l as [|x l IH]; [done|]. simpl. by rewrite IH. Qed.

(** Extraction appends to the attachments, and the buffers put back give the
    normalised object. *)
Definition restores (o : pyobj) : Prop :=
  ∀ acc, ∃ o' new,
    extract t o acc = (o', acc ++ new) ∧
    (∀ rest, reinject o' (map to_bytes (acc ++ new) ++ rest) = Ok (norm o)) ∧
    (new = [] → o' = o ∧ norm o = o).

Lemma restores_leaf o : (∀ acc, extract t o acc = (o, acc)) → norm o = o →
  (∀ atts, reinject o atts = Ok o) → restores o.
Proof.
  intros He Hn Hr acc. exists o, []. rewrite app_nil_r, He, Hn.
  split_and!; [done | by intros; rewrite Hr | done].
Qed.

Lemma restores_list l :
  Forall restores l → ∀ acc, ∃ l' new,
    extract_list l acc = (l', acc ++ new) ∧
    (∀ rest, reinject_list l' (map to_bytes (acc ++ new) ++ rest) = Ok (map norm l)) ∧
    (new = [] → l' = l ∧ map norm l = l).
Proof.
  induction 1 as [|x l Hx _ IH]; intros acc.
  { exists [], []. by rewrite app_nil_r. }
  destruct (Hx acc) as (x' & n1 & He & Hr & Hn).
  destruct (IH (acc ++ n1)) as (l' & n2 & Hel & Hrl & Hnl).
  exists (x' :: l'), (n1 ++ n2). simpl. rewrite He, Hel, <- !app_assoc. split_and!; [done|..].
  - intros rest. specialize (Hr (map to_bytes n2 ++ rest)). specialize (Hrl rest).
    rewrite !map_app, <- !app_assoc in *. rewrite Hr. simpl. by rewrite Hrl.
  - intros [-> ->]%app_nil. destruct (Hn eq_refl) as [-> E1], (Hnl eq_refl) as [-> E2].
    by rewrite E1, E2.
Qed.

Lemma restores_bytes m bs : restores (OBytes m bs).
Proof.
  destruct (t <=? Z.of_nat (length bs)) eqn:E; [|by apply restores_leaf; simpl; rewrite ?E].
  intros acc. eexists _, [BBytes bs]. simpl. rewrite E. split_and!; [done| |done].
  intros rest. rewrite map_app, <- app_assoc. simpl. unfold restore. simpl.
  by rewrite <- (length_map to_bytes acc), py_index_snoc.
Qed.

Lemma restores_array a : np_loaded = true → restorable a → restores (OArray a).
Proof.
  intros Hnp (b & Hb & Hs & _) acc. eexists _, [BArray (ascontiguousarray a)]. simpl.
  rewrite Hnp. split_and!; [done| |done]. intros rest. rewrite map_app, <- app_assoc.
  simpl. unfold restore. simpl. rewrite <- (length_map to_bytes acc), py_index_snoc. simpl.
  rewrite Hnp, Hb. simpl. change (rmapM as_int ?l) with (as_dims (OList l)).
  rewrite as_dims_ints. simpl. by rewrite Hs.
Qed.

Lemma sendable_restores o : sendable o → restores o.
Proof.
  induction o as [|b|n|s|m bs|a|l IH|l IH|d IH|i] using pyobj_ind; intros Ho;
    try (by apply restores_leaf); inversion Ho as [ | | | | | | | |? Hk Hd| ]; subst.
  - by apply restores_bytes.
  - by apply restores_array.
  - intros acc. destruct (restores_list l) with acc as (l' & n & He & Hr & Hn).
    { rewrite Forall_forall in *. auto. }
    exists (OList l'), n. rewrite (proj1 (extract_seq_eq l acc)), He.
    split_and!; [done| |by intros [-> Hl]%Hn; simpl; rewrite Hl].
    intros rest. by rewrite (proj1 (reinject_seq_eq l' _)), Hr.
  - intros acc. destruct (restores_list l) with acc as (l' & n & He & Hr & Hn).
    { rewrite Forall_forall in *. auto. }
    exists (OTuple l'), n. rewrite (proj2 (extract_seq_eq l acc)), He.
    split_and!; [done| |by intros [-> Hl]%Hn; simpl; rewrite Hl].
    intros rest. by rewrite (proj2 (reinject_seq_eq l' _)), Hr.
  - intros acc. destruct (restores_list (map snd d)) with acc as (l' & n & He & Hr & Hn).
    { apply Forall_fmap. rewrite Forall_forall in *. intros p Hp. simpl. auto. }
    pose proof (extract_list_length (map snd d) acc) as Hlen. rewrite He, length_map in Hlen.
    exists (ODict (zip (map fst d) l')), n. rewrite extract_dict_eq, He.
    split_and!; [done| |].
    + intros rest. rewrite reinject_dict_eq.
      * rewrite snd_zip_map by done. rewrite Hr. simpl. rewrite fst_zip_map by done. by rewrite zip_fst_snd_map.
      * eapply odget_keys; [|done]. by rewrite fst_zip_map.
    + intros [-> Hl]%Hn. simpl. rewrite <- zip_fst_snd_map, Hl.
      by rewrite zip_fst_snd.
Qed.
End codec.

(** ** What the code relies on *)

(** The native side: [live s d data] says that the region [d] is registered
    and holds [data].  Publishing registers one more region under a fresh
    handle, or fails and registers nothing; fetching a live region returns its
    data and touches no other; discarding releases exactly that handle. *)
Class RmaLaws `{RmaOps} := {
  live : rma_state → rma_desc → bytes → Prop;
  publish_law : ∀ data s,
    match defw_rma_publish data s with
    | (s', Ok (rc, Some d)) =>
        if (rc =? 0) && negb (String.eqb d "") then
          ∃ desc, parse_desc d = Ok desc ∧
            (∀ e x, live s e x → rma_handle e ≠ rma_handle desc) ∧
            (∀ e x, live s' e x ↔ live s e x ∨ (e, x) = (desc, data))
        else ∀ e x, live s' e x ↔ live s e x
    | (s', _) => ∀ e x, live s' e x ↔ live s e x
    end;
  fetch_law : ∀ blk d data s, live s d data →
    ∃ s', defw_rma_fetch blk (rma_handle d) (rma_key d) (rma_addr d) (rma_len d) s =
          (s', Ok (0, Some data)) ∧
          ∀ e x, rma_handle e ≠ rma_handle d → live s e x → live s' e x;
  discard_law : ∀ h s,
    ∃ s', defw_rma_discard h s = (s', Ok tt) ∧
          ∀ e x, live s' e x ↔ live s e x ∧ rma_handle e ≠ h
}.

Section messages.
Context `{NumpyOps} `{RmaOps} `{!RmaLaws}.
Implicit Types (s : rma_state).

(** ** Payload lists *)

(** [ps] carries [datas], of which [ds] are left in memory. *)
Inductive carries : list pyobj → list bytes → list (rma_desc * bytes) → Prop :=
  | carries_nil : carries [] [] []
  | carries_inline ps datas ds data :
      carries ps datas ds → Forall is_byte data →
      carries (OStr (b64encode data) :: ps) (data :: datas) ds
  | carries_rma ps datas ds d data :
      carries ps datas ds → carries (desc_obj d :: ps) (data :: datas) ((d, data) :: ds).

Definition handles (ds : list (rma_desc * bytes)) : list Z := map (λ p, rma_handle p.1) ds.

Lemma rma_publish_spec data s :
  ∃ s' o, rma_publish data s = (s', Ok o) ∧
    match o with
    | Some d => (∀ e x, live s e x → rma_handle e ≠ rma_handle d) ∧
                (∀ e x, live s' e x ↔ live s e x ∨ (e, x) = (d, data))
    | None => ∀ e x, live s' e x ↔ live s e x
    end.
Proof.
  unfold rma_publish, bind, try_with, ret, lift_res. pose proof (publish_law data s) as Hp.
  destruct (defw_rma_publish data s) as [s' [[rc [d|]]|e]]; simpl; [|by eexists _, None..].
  destruct (rc =? 0); simpl in *; [|by eexists _, None].
  destruct (String.eqb d ""); simpl in *; [by eexists _, None|].
  destruct Hp as (desc & -> & Hf & Hl). by eexists _, (Some desc).
Qed.

Lemma encode_loop_spec use thr (atts : list buffer) s :
  Forall (λ a, Forall is_byte (to_bytes a)) atts →
  ∃ s' ps ds, encode_loop use thr atts s = (s', Ok (ps, handles ds)) ∧
    carries ps (map to_bytes atts) ds ∧ NoDup (handles ds) ∧ (use = false → ds = []) ∧
    (∀ e x, live s e x → rma_handle e ∉ handles ds) ∧
    (∀ e x, live s' e x ↔ live s e x ∨ (e, x) ∈ ds).
Proof.
  intros Hb; revert s; induction Hb as [|a atts Ha _ IH]; intros s.
  { exists s, [], []. split_and!; try done; try constructor; set_solver. }
  simpl. unfold bind.
  assert (∃ s1 o, (if use && (thr <=? Z.of_nat (length (to_bytes a)))
                   then rma_publish (to_bytes a) else ret None) s = (s1, Ok o) ∧
    (use = false → o = None) ∧
    match o with
    | Some d => (∀ e x, live s e x → rma_handle e ≠ rma_handle d) ∧
                (∀ e x, live s1 e x ↔ live s e x ∨ (e, x) = (d, to_bytes a))
    | None => ∀ e x, live s1 e x ↔ live s e x
    end) as (s1 & o & -> & Hu & Ho).
  { destruct (use && _) eqn:E; [|by eexists _, None].
    destruct (rma_publish_spec (to_bytes a) s) as (s1 & o & -> & Ho).
    exists s1, o. split_and!; try done. by intros ->. }
  destruct (IH s1) as (s2 & ps & ds & -> & Hc & Hnd & Hud & Hfr & Hl). simpl.
  destruct o as [d|].
  - destruct Ho as [Hf1 Hl1]. exists s2, (desc_obj d :: ps), ((d, to_bytes a) :: ds).
    split_and!; [done | by constructor | | | |].
    + constructor; [|done]. apply (Hfr d (to_bytes a)), Hl1. by right.
    + intros E. by specialize (Hu E).
    + intros e x He. simpl. apply not_elem_of_cons. split; [by eapply Hf1|].
      eapply Hfr, Hl1. by left.
    + intros e x. rewrite Hl, Hl1, elem_of_cons. tauto.
  - exists s2, (OStr (b64encode (to_bytes a)) :: ps), ds.
    split_and!; [done | by constructor | done | done | |].
    + intros e x He. eapply Hfr, Ho, He.
    + intros e x. by rewrite Hl, Ho.
Qed.

Lemma decode_spec ps datas ds blk s :
  carries ps datas ds → NoDup (handles ds) → (∀ d x, (d, x) ∈ ds → live s d x) →
  (ds ≠ [] → rma_built = true ∧ blk ≠ "") →
  ∃ s', decode_payloads ps blk s = (s', Ok datas).
Proof.
  intros Hc; revert s; induction Hc as [|ps datas ds data _ IH Hb|ps datas ds d data _ IH];
    intros s Hnd Hl Hblk; simpl; [by exists s|..]; unfold bind.
  - unfold lift_res. rewrite b64_roundtrip by done.
    destruct (IH s) as (s' & ->); try done. by exists s'.
  - destruct Hblk as [Hbu Hbl]; [done|]. simpl in Hnd. apply NoDup_cons in Hnd as [Hd Hnd].
    unfold rma_fetch, bind, lift_res. rewrite Hbu. simpl.
    destruct (String.eqb_spec blk ""); [done|].
    destruct (fetch_law blk d data s) as (s1 & -> & Hk); [apply Hl; by left|]. simpl.
    destruct (IH s1) as (s2 & ->); try done; [|by exists s2].
    intros e x Hin. apply Hk; [|by apply Hl; right]. intros E. apply Hd.
    rewrite <- E. unfold handles. apply list_map_In. by exists (e, x).
Qed.

(** ** No array is left in the message *)

Fixpoint no_array (o : pyobj) : bool :=
  match o with
  | OArray _ => false
  | OList l | OTuple l => forallb no_array l
  | ODict d => forallb (λ p, no_array p.2) d
  | _ => true
  end.

Lemma forallb_zip_snd ks (l : list pyobj) :
  forallb no_array l = true → forallb (λ p : hkey * pyobj, no_array p.2) (zip ks l) = true.
Proof.
  revert l; induction ks as [|k ks IH]; intros [|x l]; simpl; try done.
  rewrite !andb_true_iff. naive_solver.
Qed.

Lemma extract_no_array t o acc : sendable o → no_array (extract t o acc).1 = true.
Proof.
  revert acc. induction o as [|b|n|s|m bs|a|l IH|l IH|d IH|i] using pyobj_ind; intros acc Ho;
    try done; inversion Ho; subst.
  1: by simpl; case_match.
  1: { simpl. case_match; [|done]. simpl. rewrite !andb_true_r.
       apply forallb_forall. by intros x (n & <- & _)%in_map_iff. }
  all: assert (∀ l acc, Forall (λ o, ∀ acc, sendable o → no_array (extract t o acc).1 = true) l →
         Forall sendable l → forallb no_array (extract_list t l acc).1 = true) as Hl by
    (clear; intros l acc Hx; revert acc; induction Hx as [|x l Hx _ IH]; intros acc; [done|];
     rewrite Forall_cons; intros [Hs Hsl]; simpl; specialize (Hx acc Hs);
     destruct (extract t x acc) as [x' acc1]; specialize (IH acc1 Hsl);
     destruct (extract_list t l acc1); simpl in *; by rewrite Hx, IH).
  - specialize (Hl l acc). rewrite (proj1 (extract_seq_eq t l acc)).
    destruct (extract_list t l acc). by apply Hl.
  - specialize (Hl l acc). rewrite (proj2 (extract_seq_eq t l acc)).
    destruct (extract_list t l acc). by apply Hl.
  - specialize (Hl (map snd d) acc). rewrite extract_dict_eq.
    destruct (extract_list t (map snd d) acc). apply forallb_zip_snd, Hl; by apply Forall_fmap.
Qed.

Lemma carries_no_array ps datas ds : carries ps datas ds → forallb no_array ps = true.
Proof. induction 1; done. Qed.

Lemma extract_bytes_ok t o acc :
  sendable o → Forall (λ a, Forall is_byte (to_bytes a)) acc →
  Forall (λ a, Forall is_byte (to_bytes a)) (extract t o acc).2.
Proof.
  revert acc. induction o as [|b|n|s|m bs|a|l IH|l IH|d IH|i] using pyobj_ind; intros acc Ho Hacc;
    try done; inversion Ho as [| | | | |? ? Hr| | | |]; subst.
  1: by simpl; case_match; simpl; rewrite ?Forall_app, ?Forall_cons.
  1: { simpl. destruct Hr as (? & ? & ? & ?). case_match; [|done]. simpl.
       by rewrite Forall_app, Forall_cons. }
  all: assert (∀ l acc, Forall (λ o, ∀ acc, sendable o →
           Forall (λ a, Forall is_byte (to_bytes a)) acc →
           Forall (λ a, Forall is_byte (to_bytes a)) (extract t o acc).2) l →
         Forall sendable l → Forall (λ a, Forall is_byte (to_bytes a)) acc →
         Forall (λ a, Forall is_byte (to_bytes a)) (extract_list t l acc).2) as Hl by
    (clear; intros l acc Hx; revert acc; induction Hx as [|x l Hx _ IH]; intros acc; [done|];
     rewrite Forall_cons; intros [Hs Hsl] Ha; simpl; specialize (Hx acc Hs Ha);
     destruct (extract t x acc) as [x' acc1]; specialize (IH acc1 Hsl Hx);
     destruct (extract_list t l acc1); simpl in *; done).
  - specialize (Hl l acc). rewrite (proj1 (extract_seq_eq t l acc)).
    destruct (extract_list t l acc). by apply Hl.
  - specialize (Hl l acc). rewrite (proj2 (extract_seq_eq t l acc)).
    destruct (extract_list t l acc). by apply Hl.
  - specialize (Hl (map snd d) acc). rewrite extract_dict_eq.
    destruct (extract_list t (map snd d) acc). apply Hl; [by apply Forall_fmap..|done].
Qed.
End messages.

(** ** The codec as a whole *)

Section roundtrip.
Context `{NumpyOps} `{RmaOps} `{!RmaLaws}.
Context (yaml_dump : pyobj → string) (yaml_load : string → res pyobj).
(** PyYAML restores every value it represents. *)
Hypothesis yaml_law : ∀ o, no_array o = true → yaml_load (yaml_dump o) = Ok o.

Lemma usable_built env blk : rma_usable env blk = true → rma_built = true.
Proof. unfold rma_usable. by repeat case_match; destruct rma_built. Qed.

Lemma dset_no_array d k v :
  no_array (ODict d) = true → no_array v = true → no_array (ODict (dset d k v)) = true.
Proof.
  simpl. intros Hd Hv. induction d as [|[k' v'] d IH]; simpl in *; [by rewrite Hv|].
  apply andb_true_iff in Hd as [? ?]. case_decide; simpl; rewrite ?Hv; [done|].
  by rewrite H2, IH.
Qed.

Lemma extract_dict t d acc :
  ∃ d' acc', extract t (ODict d) acc = (ODict d', acc') ∧ map fst d' = map fst d.
Proof.
  rewrite extract_dict_eq. pose proof (extract_list_length t (map snd d) acc) as Hl.
  destruct (extract_list t (map snd d) acc) as [l acc']. simpl in *. eexists _, _.
  split; [done|]. apply fst_zip_map. by rewrite length_map in Hl.
Qed.

(** The encoding of a sendable message, with what it left registered. *)
Lemma attach_encode_spec env d blk t s :
  sendable (ODict d) → odget d ATTACH_DATA_KEY = None →
  ∃ s1 str ds, attach_encode yaml_dump env (ODict d) blk t s = (s1, Ok (str, handles ds)) ∧
    NoDup (handles ds) ∧
    (∀ e x, live s e x → rma_handle e ∉ handles ds) ∧
    (∀ e x, live s1 e x ↔ live s e x ∨ (e, x) ∈ ds) ∧
    ∀ blk', (ds ≠ [] → blk' ≠ "") →
      ∃ s2, attach_load yaml_load str blk' s1 = (s2, Ok (norm t (ODict d))).
Proof.
  intros Hs Hk. unfold attach_encode, extract_attachments.
  destruct (sendable_restores t _ Hs []) as (o' & new & He & Hr & Hn).
  pose proof (extract_no_array t _ [] Hs) as Hna.
  pose proof (extract_bytes_ok t _ [] Hs (Forall_nil_2 _)) as Hb.
  destruct (extract_dict t d []) as (d' & acc' & He' & Hkeys). rewrite He in *.
  injection He' as -> <-. simpl app in *. unfold fst, snd in Hna, Hb.
  assert (odget d' ATTACH_DATA_KEY = None) as Hk' by (by eapply odget_keys).
  destruct new as [|b new].
  - destruct (Hn eq_refl) as [Ho' Hno]. injection Ho' as ->. exists s, (yaml_dump (ODict d)), [].
    split_and!; [done | constructor | set_solver | set_solver |].
    intros blk' _. exists s. unfold attach_load, bind, lift_res. rewrite yaml_law by done.
    unfold odget in Hk. by rewrite Hk, Hno.
  - destruct (encode_loop_spec (rma_usable env blk) (rma_threshold env) (b :: new) s Hb)
      as (s1 & ps & ds & Henc & Hc & Hnd & Hu & Hfr & Hl).
    unfold bind, encode_payloads. rewrite app_nil_l, Henc. eexists s1, _, ds.
    split_and!; [done..|]. intros blk' Hblk. unfold attach_load, bind, lift_res.
    rewrite yaml_law by (apply dset_no_array; [done | by eapply carries_no_array]).
    rewrite dget_dset_eq. simpl iter_payloads. cbv iota beta.
    destruct (decode_spec ps (map to_bytes (b :: new)) ds blk' s1) as (s2 & Hdec); try done.
    { intros e x Hin. apply Hl. by right. }
    { intros Hds. split; [|by apply Hblk]. destruct (rma_usable env blk) eqn:E.
      - by apply usable_built in E.
      - by destruct (Hds (Hu eq_refl)). }
    rewrite Hdec. exists s2. f_equal. rewrite ddel_dset_fresh by done.
    specialize (Hr []). rewrite app_nil_r in Hr. exact Hr.
Qed.


Lemma discard_all hs s :
  ∃ s', for_each (λ h, try_with (defw_rma_discard h) (λ _, ret tt)) hs s = (s', Ok tt) ∧
        ∀ e x, live s' e x ↔ live s e x ∧ rma_handle e ∉ hs.
Proof.
  revert s; induction hs as [|h hs IH]; intros s; simpl.
  { exists s. split; [done|]. set_solver. }
  unfold bind, try_with at 1. destruct (discard_law h s) as (s1 & -> & Hd).
  destruct (IH s1) as (s' & -> & Hs'). exists s'. split; [done|]. intros e x.
  rewrite Hs', Hd, not_elem_of_cons. naive_solver.
Qed.

(** A message that is encoded but never sent leaves nothing registered:
    discarding the handles the encoder published restores exactly the
    regions that were live before. *)
Theorem unsent_message_releases (env : rma_env) (d : list (hkey * pyobj)) (blk : string)
    (t : Z) (s : rma_state) :
  sendable (ODict d) → odget d ATTACH_DATA_KEY = None → rma_built = true →
  ∃ s1 str pub s2,
    attach_encode yaml_dump env (ODict d) blk t s = (s1, Ok (str, pub)) ∧
    attach_discard pub s1 = (s2, Ok tt) ∧ ∀ e x, live s2 e x ↔ live s e x.
Proof.
  intros Hs Hk Hbu.
  destruct (attach_encode_spec env d blk t s Hs Hk) as (s1 & str & ds & He & _ & Hf & Hl & _).
  destruct (discard_all (handles ds) s1) as (s2 & Hd & Hs2). exists s1, str, (handles ds), s2.
  unfold attach_discard. rewrite Hbu. split_and!; [done..|]. intros e x. rewrite Hs2, Hl.
  split; [|by naive_solver]. intros [[?|Hin] Hnot]; [done|]. destruct Hnot.
  apply list_map_In. by exists (e, x).
Qed.

(** A message with nothing to extract is sent as plain YAML: nothing is
    published and the state of the fabric is untouched. *)
Theorem plain_message_unaffected (env : rma_env) (d : list (hkey * pyobj)) (blk : string)
    (t : Z) (s : rma_state) :
  sendable (ODict d) → (extract_attachments t (ODict d)).2 = [] →
  attach_encode yaml_dump env (ODict d) blk t s = (s, Ok (yaml_dump (ODict d), [])).
Proof.
  intros Hs. unfold attach_encode, extract_attachments.
  destruct (sendable_restores t _ Hs []) as (o' & new & -> & _ & Hn). simpl. intros ->.
  by destruct (Hn eq_refl) as [-> _].
Qed.
End roundtrip.

(** ** A concrete instance

    One-dimensional byte arrays; a fabric with one region; a serialiser that
    writes the code of a value in binary. *)

Module Demo.
#[local] Instance byte_arrays : NumpyOps := {|
  ndarray := list Z;
  np_loaded := true;
  ascontiguousarray := λ a, a;
  shape := λ a, [Z.of_nat (length a)];
  dtype := λ _, "uint8";
  tobytes := λ a, a;
  frombuffer := λ b dt, if String.eqb dt "uint8" then Ok b else Raise (Exc ETypeError "");
  reshape := λ a sh, if bool_decide (sh = [Z.of_nat (length a)]) then Ok a
                     else Raise (Exc EValueError "")
|}.

#[local] Instance one_region : RmaOps := {|
  rma_state := option bytes;
  rma_built := true;
  defw_rma_available := λ _, Ok true;
  defw_rma_publish := λ data s,
    match s with
    | None => (Some data, Ok (0, Some "1:0:0:0"))
    | Some _ => (s, Ok (1, None))
    end;
  defw_rma_fetch := λ _ h k a l s,
    match s with
    | Some data => if (h =? 1) && (k =? 0) && (a =? 0) && (l =? 0)
                   then (None, Ok (0, Some data)) else (s, Ok (1, None))
    | None => (s, Ok (1, None))
    end;
  defw_rma_discard := λ h s, (if h =? 1 then None else s, Ok tt)
|}.

#[local, refine] Instance one_region_laws : RmaLaws := {|
  live := λ s d x, d = RmaDesc 1 0 0 0 ∧ s = Some x
|}.
Proof.
  - intros data [y|]; simpl; [done|]. eexists. split; [vm_compute; reflexivity|].
    split; [naive_solver|]. intros e x. naive_solver.
  - intros blk d data s [-> ->]. eexists. split; [done|]. naive_solver.
  - intros h s. simpl. eexists. split; [done|]. intros e x. simpl.
    destruct (Z.eqb_spec h 1); naive_solver.
Defined.

(** Values as trees, trees as numbers, numbers as strings. *)
Definition leaf : Type := unit + bool + Z + string + (bool * list Z) + list Z + hkey + nat.

Fixpoint to_tree (o : pyobj) : gen_tree leaf :=
  match o with
  | ONone => GenLeaf (inl (inl (inl (inl (inl (inl (inl tt)))))))
  | OBool b => GenLeaf (inl (inl (inl (inl (inl (inl (inr b)))))))
  | OInt n => GenLeaf (inl (inl (inl (inl (inl (inr n))))))
  | OStr s => GenLeaf (inl (inl (inl (inl (inr s)))))
  | OBytes m bs => GenLeaf (inl (inl (inl (inr (m, bs)))))
  | OArray a => GenLeaf (inl (inl (inr a)))
  | OOther i => GenLeaf (inr i)
  | OList l => GenNode 0 (map to_tree l)
  | OTuple l => GenNode 1 (map to_tree l)
  | ODict d => GenNode 2 (map (λ p, GenNode 3 [GenLeaf (inl (inr p.1)); to_tree p.2]) d)
  end.

Fixpoint of_tree (t : gen_tree leaf) : pyobj :=
  match t with
  | GenLeaf (inl (inl (inl (inl (inl (inl (inl _))))))) => ONone
  | GenLeaf (inl (inl (inl (inl (inl (inl (inr b))))))) => OBool b
  | GenLeaf (inl (inl (inl (inl (inl (inr n)))))) => OInt n
  | GenLeaf (inl (inl (inl (inl (inr s))))) => OStr s
  | GenLeaf (inl (inl (inl (inr (m, bs))))) => OBytes m bs
  | GenLeaf (inl (inl (inr a))) => OArray a
  | GenLeaf (inl (inr _)) => ONone
  | GenLeaf (inr i) => OOther i
  | GenNode 0 l => OList (map of_tree l)
  | GenNode 1 l => OTuple (map of_tree l)
  | GenNode _ l =>
      ODict (map (λ t, match t with
                       | GenNode _ [GenLeaf (inl (inr k)); x] => (k, of_tree x)
                       | _ => (KNone, ONone)
                       end) l)
  end.

Lemma of_to_tree o : of_tree (to_tree o) = o.
Proof.
  induction o as [|b|n|s|m bs|a|l IH|l IH|d IH|i] using pyobj_ind; simpl; try done; f_equal.
  1,2: induction IH as [|x l Hx _ IH]; simpl; [done | by rewrite Hx, IH].
  induction IH as [|[k x] d Hx _ IH]; simpl in *; [done | by rewrite Hx, IH].
Qed.

Fixpoint pos_string (p : positive) : string :=
  match p with
  | xH => ""
  | xO p => String "0"%char (pos_string p)
  | xI p => String "1"%char (pos_string p)
  end.

Fixpoint string_pos (s : string) : positive :=
  match s with
  | EmptyString => xH
  | String c s => if Ascii.eqb c "0"%char then xO (string_pos s) else xI (string_pos s)
  end.

Lemma string_pos_string p : string_pos (pos_string p) = p.
Proof. induction p; simpl; by f_equal. Qed.

Definition dump (o : pyobj) : string := pos_string (encode (to_tree o)).
Definition load (s : string) : res pyobj :=
  match decode (string_pos s) with
  | Some t => Ok (of_tree t)
  | None => Raise (Exc EValueError "")
  end.

Lemma load_dump o : no_array o = true → load (dump o) = Ok o.
Proof.
  intros _. unfold load, dump. by rewrite string_pos_string, decode_encode, of_to_tree.
Qed.

Definition idle : @rma_state one_region := None.

Definition env : rma_env := RmaEnv None (Some "4").

(** A small array, a byte array above both thresholds, and plain data. *)
Definition message : list (hkey * pyobj) :=
  [(KStr "rpc", ODict [(KStr "args", OTuple [OArray [1; 2; 3]; OBytes true [7; 8; 9; 10; 11]]);
                       (KStr "rc", OInt 0)])].

Lemma message_sendable : sendable (ODict message).
Proof.
  repeat (constructor; simpl; try reflexivity); try (unfold is_byte; lia).
  exists [1; 2; 3]. split_and!; try reflexivity. repeat constructor; unfold is_byte; simpl; lia.
Qed.


(** In that run the large payload stayed in memory and the small one went
    inline. *)
Example mixed_payloads :
  ∃ d, (encode_payloads env (extract_attachments 2 (ODict message)).2 "peer" idle).2 =
       Ok ([OStr "AQID"; desc_obj d], [1]).
Proof. exists (RmaDesc 1 0 0 0). reflexivity. Qed.

Lemma unsent_message_releases_witness :
  ∃ s1 str pub s2,
    attach_encode dump env (ODict message) "peer" 2 idle = (s1, Ok (str, pub)) ∧
    attach_discard pub s1 = (s2, Ok tt) ∧ ∀ e x, live s2 e x ↔ live idle e x.
Proof.
  apply (unsent_message_releases dump load load_dump env message "peer" 2 idle);
    [exact message_sendable | reflexivity | reflexivity].
Defined.

Lemma plain_message_unaffected_witness :
  attach_encode dump env (ODict [(KStr "rc", OInt 0)]) "peer" 2 idle =
  (idle, Ok (dump (ODict [(KStr "rc", OInt 0)]), [])).
Proof.
  apply (plain_message_unaffected dump env [(KStr "rc", OInt 0)] "peer" 2 idle);
    [repeat constructor | reflexivity].
Defined.
End Demo.
