(* ===== verification/Metrics.v ===== *)
(** * RPC timing statistics ([RPCMetrics], python/infra/defw_common_def.py)

    One timing record for requests, one for responses and one per remote
    method: the last [window_size] round-trip times, their average, and the
    minimum, maximum and number of all of them.  Times are clock ticks; the
    average is a quotient and kept exactly. *)

From S2P Require Import Prelude PyDict.
From Stdlib Require Import QArith.

Local Open Scope Z_scope.
Local Open Scope list_scope.

(** [sys.maxsize] *)
Definition maxsize : Z := 2 ^ 63 - 1.

Record timing := Timing {
  window : list Z;
  avg : Q;
  tmin : Z;
  tmax : Z;
  total : Z
}.

Definition new_timing : timing := Timing [] 0%Q maxsize 0 0.

Record rpc_metrics := Metrics {
  window_size : nat;
  rpc_rsp_timing_db : timing;
  rpc_req_timing_db : timing;
  method_timing_db : odict string timing
}.

Definition new_metrics (window_size : nat) : rpc_metrics :=
  Metrics window_size new_timing new_timing [].

(** [deque(maxlen=n).append(x)]: a full deque drops its oldest element. *)
Definition deque_append (n : nat) (w : list Z) (x : Z) : list Z :=
  let w' := w ++ [x] in skipn (length w' - n) w'.

Definition add_timing_locked (n : nat) (send_time recv_time : Z) (db : timing) : timing :=
  let rtt := recv_time - send_time in
  let w := deque_append n (window db) rtt in
  let len := length w in
  Timing w
    (if (0 <? Z.of_nat len) then (inject_Z (foldr Z.add 0%Z w) / inject_Z (Z.of_nat len))%Q
     else avg db)
    (if rtt <? tmin db then rtt else tmin db)
    (if tmax db <? rtt then rtt else tmax db)
    (total db + 1).

Definition add_rpc_req_time (send_time recv_time : Z) (m : rpc_metrics) : rpc_metrics :=
  Metrics (window_size m) (rpc_rsp_timing_db m)
    (add_timing_locked (window_size m) send_time recv_time (rpc_req_timing_db m))
    (method_timing_db m).

Definition add_rpc_rsp_time (send_time recv_time : Z) (m : rpc_metrics) : rpc_metrics :=
  Metrics (window_size m)
    (add_timing_locked (window_size m) send_time recv_time (rpc_rsp_timing_db m))
    (rpc_req_timing_db m) (method_timing_db m).

Definition add_method_time (start_time end_time : Z) (method : string) (m : rpc_metrics) :
    rpc_metrics :=
  let db := dsetdefault (method_timing_db m) method new_timing in
  let t := dget_or db method new_timing in
  Metrics (window_size m) (rpc_rsp_timing_db m) (rpc_req_timing_db m)
    (dset db method (add_timing_locked (window_size m) start_time end_time t)).

(** What [dump] logs: every record without its window. *)
Definition timing_summary (t : timing) : Q * Z * Z * Z := (avg t, tmin t, tmax t, total t).
Definition dump (m : rpc_metrics) :=
  (timing_summary (rpc_req_timing_db m), timing_summary (rpc_rsp_timing_db m),
   dmap timing_summary (method_timing_db m)).

(** ** What the record holds after a sequence of samples *)

(** The last [n] elements. *)
Definition last_n {A} (n : nat) (l : list A) : list A := skipn (length l - n) l.

Lemma last_n_app {A} n (l1 l2 : list A) : last_n n (last_n n l1 ++ l2) = last_n n (l1 ++ l2).
Proof.
  unfold last_n. rewrite !length_app, length_skipn, !skipn_app, skipn_skipn.
  f_equal; [f_equal|f_equal]; rewrite ?length_skipn; lia.
Qed.

Definition record_all (n : nat) (samples : list (Z * Z)) (t : timing) : timing :=
  fold_left (λ t s, add_timing_locked n s.1 s.2 t) samples t.

Definition rtts (samples : list (Z * Z)) : list Z := map (λ s, s.2 - s.1) samples.

Lemma record_all_fields n samples t :
  let t' := record_all n samples t in
  window t' = match samples with [] => window t | _ => last_n n (window t ++ rtts samples) end ∧
  tmin t' = fold_left Z.min (rtts samples) (tmin t) ∧
  tmax t' = fold_left Z.max (rtts samples) (tmax t) ∧
  total t' = total t + Z.of_nat (length samples).
Proof.
  unfold record_all. revert t. induction samples as [|[s r] l IH]; intros t; simpl.
  { split_and!; try done. lia. }
  destruct (IH (add_timing_locked n s r t)) as (Hw & Hm & HM & Ht). simpl in *.
  split_and!.
  - rewrite Hw. destruct l; simpl.
    + done.
    + change (deque_append n (window t) (r - s)) with (last_n n (window t ++ [r - s])).
      rewrite last_n_app. by rewrite <- app_assoc.
  - rewrite Hm. f_equal. destruct (Z.ltb_spec (r - s) (tmin t)); lia.
  - rewrite HM. f_equal. destruct (Z.ltb_spec (tmax t) (r - s)); lia.
  - rewrite Ht. lia.
Qed.


