(* ===== verification/Trace.v ===== *)
(** * Trace context propagation ([python/infra/defw_trace.py])

    DEFw carries an opaque dict from caller to callee and scopes it around the
    dispatch; what that means is supplied by three hooks of the tracing
    library, whose own state is [T]. *)

From S2P Require Import Prelude PyDict PyVal.

Local Open Scope string_scope.
Local Open Scope list_scope.
Import PyNotations.
Local Open Scope py_scope.

Definition CARRIER_KEY : string := "trace_context".

Section Trace.
Context {T : Type}.

(** A hook that fills a dict returns the dict as it left it, also when it
    raises. *)
Record hooks := Hooks {
  inject_hook : option (pydict → T → T * (pydict * res unit));
  attach_hook : option (pydict → M T val);
  detach_hook : option (val → M T unit)
}.

Definition set_hooks (i : option (pydict → T → T * (pydict * res unit)))
    (a : option (pydict → M T val)) (d : option (val → M T unit)) : hooks := Hooks i a d.

Definition clear_hooks : hooks := Hooks None None None.

Definition hooks_registered (h : hooks) : bool :=
  match inject_hook h, attach_hook h with None, None => false | _, _ => true end.

Definition inject (h : hooks) : M T pydict :=
  match inject_hook h with
  | None => ret []
  | Some f => λ s, match f [] s with
                   | (s', (carrier, Ok _)) => (s', Ok carrier)
                   | (s', (_, Raise _)) => (s', Ok [])
                   end
  end.

Definition attach (h : hooks) (carrier : pydict) : M T val :=
  match attach_hook h with
  | None => ret VNone
  | Some f =>
      if negb (truthy (VDict carrier)) then ret VNone
      else try_with (f carrier) (λ _, ret VNone)
  end.

Definition detach (h : hooks) (token : val) : M T unit :=
  match token, detach_hook h with
  | VNone, _ | _, None => ret tt
  | _, Some f => try_with (f token) (λ _, ret tt)
  end.

(** ** Hook failures are contained *)

Lemma inject_total h s : is_ok (inject h s).2 = true.
Proof. unfold inject. repeat case_match; done. Qed.

Lemma attach_total h c s : is_ok (attach h c s).2 = true.
Proof. unfold attach, try_with, ret. repeat case_match; simplify_eq; done. Qed.

Lemma detach_total h t s : (detach h t s).2 = Ok tt.
Proof.
  unfold detach, try_with, ret. repeat case_match; simplify_eq; try done;
    by destruct a.
Qed.

(** Untraced, nothing changes. *)
Lemma untraced c t s :
  inject clear_hooks s = (s, Ok []) ∧ attach clear_hooks c s = (s, Ok VNone) ∧
  detach clear_hooks t s = (s, Ok tt).
Proof. split_and!; [done..|]. by destruct t. Qed.
End Trace.

Arguments hooks : clear implicits.
