(* ===== verification/Rpc.v ===== *)
(** * Remote procedure calls

    The request and response records
    ([populate_rpc_req]/[populate_rpc_rsp], python/infra/defw_common_def.py),
    the server side ([WorkerThread.handle_rpc_req], defw_workers.py) and the
    client side ([Agent.send_req], defw_agent.py; [BaseRemote],
    defw_remote.py).  The handler runs over the object registry; what it needs
    of its process besides (clock, metrics, trace state, messages sent) is the
    record [host], whose [svc] field belongs to the services. *)

From S2P Require Import Prelude PyDict PyVal Agent Threads Registry Metrics Trace.

Local Open Scope string_scope.
Local Open Scope Z_scope.
Local Open Scope list_scope.
Import PyNotations.
Local Open Scope py_scope.

(** What travels in the ['exception'] field: a [DEFwError] as it is, anything
    else as the text of its traceback. *)
Inductive exc_payload :=
  | ExcObj (e : pyexc)
  | ExcText (s : string).

(** [issubclass(type(e), DEFwError)] *)
Definition is_defw_error (c : exc_class) : bool :=
  match c with
  | EDEFwError | EDEFwNotFound | EDEFwInProgress | EDEFwCommError | EDEFwAgentNotFound
  | EDEFwInternalError | EDEFwRemoteError | EDEFwReserveError => true
  | _ => false
  end.

Record rpc_req := RpcReq {
  req_src : Endpoint;
  req_dst : Endpoint;
  req_type : string;
  req_module : string;
  req_class : string;
  req_method : string;
  req_function : option string;
  req_class_id : string;
  req_args : list val;
  req_kwargs : pydict;
  req_carrier : pydict;
  req_send_time : Z;
  req_uuid : nat
}.

Record rpc_rsp := RpcRsp {
  rsp_src : Endpoint;
  rsp_dst : Endpoint;
  rsp_type : string;
  rsp_exception : option exc_payload;
  rsp_rc : val;
  rsp_send_time : Z;
  rsp_uuid : nat
}.

(** The process a handler runs in. *)
Record host (S T : Type) := Host {
  svc : S;
  clock : Z;
  metrics : rpc_metrics;
  tracing : T;
  outbox : list (val * rpc_rsp)
}.
Arguments Host {S T}.
Arguments svc {S T}.
Arguments clock {S T}.
Arguments metrics {S T}.
Arguments tracing {S T}.
Arguments outbox {S T}.

Section Rpc.
Context {S T : Type}.
Local Abbreviation W := (host S T).
Local Abbreviation St := (registry W).

(** Access to the host part of the state. *)
Definition on_world {A} (m : M W A) : M St A :=
  λ r, let '(w', o) := m (world r) in
       (Reg (class_db r) (singleton_db r) (alias_db r) (next_obj r) w', o).

Definition time : M W Z := λ w, (w, Ok (clock w)).
Definition on_metrics (f : rpc_metrics → rpc_metrics) : M W unit :=
  modify (λ w, Host (svc w) (clock w) (f (metrics w)) (tracing w) (outbox w)).
Definition on_tracing {A} (m : M T A) : M W A :=
  λ w, let '(t', o) := m (tracing w) in
       (Host (svc w) (clock w) (metrics w) t' (outbox w), o).

(** ** Building the messages *)

(** [populate_rpc_req]; the request uuid is set by [WorkerRequest].  The
    ['function'] field of the base record is left [None]. *)
Definition populate_rpc_req (h : hooks T) (src dst : Endpoint)
    (req_type module cname mname class_id : string) (args : list val) (kwargs : pydict)
    (uuid : nat) : M W rpc_req :=
  let! carrier := on_tracing (inject h) in
  let! now := time in
  ret (RpcReq src dst req_type module cname mname None class_id args kwargs carrier now uuid).

(** [populate_rpc_rsp] *)
Definition populate_rpc_rsp (src dst : Endpoint) (rc : val) (exception : option exc_payload)
    (uuid : nat) : M W rpc_rsp :=
  let! now := time in
  ret (RpcRsp src dst (match exception with Some _ => "exception" | None => "response" end)
         exception rc now uuid).

(** ** The server side *)

Context (import_module : string → res (pymodule W)).
Context (invoke : instance → string → list val → pydict → thread St val).
Context (uuid_compare : val → val → bool).
Context (format_tb : pyexc → string).
Context (h : hooks T) (me : Endpoint) (dirsvc : instance).
(** What the transport answers to [defw_send_rsp]. *)
Context (transport_rc : rpc_rsp → Z).

(** [Endpoint.__eq__] *)
Definition endpoint_eq (a b : Endpoint) : bool := uuid_compare (remote_uuid a) (remote_uuid b).

Definition known_type (t : string) : bool :=
  String.eqb t "function_call" || String.eqb t "method_call" ||
  String.eqb t "instantiate_class" || String.eqb t "destroy_class".

Definition no_result : val := VDict [].

Definition function_call (m : pymodule W) (fname : option string) (args : list val)
    (kwargs : pydict) : thread St val :=
  match fname with
  | None => tthrow ETypeError "attribute name must be string, not 'NoneType'"
  | Some f =>
      match mod_function m f with
      | None => tthrow EAttributeError "module has no attribute"
      | Some None => tret no_result
      | Some (Some fn) => fn args kwargs
      end
  end.

(** The [try] block: one branch per request type. *)
Definition dispatch (m : pymodule W) (y : rpc_req) : thread St val :=
  if String.eqb (req_type y) "function_call" then
    function_call m (req_function y) (req_args y) (req_kwargs y)
  else if String.eqb (req_type y) "instantiate_class" then
    tbind (instantiate_class import_module (is_dirsvc me) dirsvc m (req_module y)
             (req_class y) (req_class_id y) (req_args y) (req_kwargs y))
      (λ _, tret no_result)
  else if String.eqb (req_type y) "destroy_class" then
    tbind (destroy_class (is_dirsvc me) (req_class y) (req_class_id y)) (λ _, tret no_result)
  else
    method_call invoke (req_class y) (req_method y) (req_class_id y) (req_args y)
      (req_kwargs y).

(** [except Exception as e]: the outcome as a value. *)
Definition tcatch {A} (t : thread St A) : thread St (res A) :=
  ttry (tbind t (λ a, tret (Ok a))) (λ e, tret (Raise e)).

Definition exception_payload (e : pyexc) : exc_payload :=
  if is_defw_error (exc_type e) then ExcObj e
  else ExcText ("Traceback (most recent call last):" ++ format_tb e)%string.

Definition reply_of (y : rpc_req) (o : res val) : M W rpc_rsp :=
  match o with
  | Ok rc => populate_rpc_rsp (req_dst y) (req_src y) rc None (req_uuid y)
  | Raise e => populate_rpc_rsp (req_dst y) (req_src y) no_result
                 (Some (exception_payload e)) (req_uuid y)
  end.

(** [send_rsp] *)
Definition send_rsp (blk_uuid : val) (rsp : rpc_rsp) : M W Z :=
  modify (λ w, Host (svc w) (clock w) (metrics w) (tracing w) (outbox w ++ [(blk_uuid, rsp)])) ;;;
  ret (transport_rc rsp).

(** [handle_rpc_req]: [None] when the message is for somebody else. *)
Definition handle_rpc_req (y : rpc_req) (blk_uuid : val) : thread St (option Z) :=
  tbind (atomic (on_world time)) (λ start,
  tbind (atomic (on_world (let! now := time in
                           on_metrics (add_rpc_req_time (req_send_time y) now)))) (λ _,
  if negb (endpoint_eq (req_dst y) me) then tret None
  else if negb (known_type (req_type y)) then tthrow EDEFwError "Unexpected rpc"
  else
    tbind (TDone (import_module (req_module y))) (λ m,
    tbind (atomic (on_world (on_tracing (attach h (req_carrier y))))) (λ token,
    tbind (tcatch (dispatch m y)) (λ o,
    tbind (atomic (on_world (on_tracing (detach h token)))) (λ _,
    tbind (atomic (on_world (let! rsp := reply_of y o in send_rsp blk_uuid rsp))) (λ rc,
    tbind (if String.eqb (req_type y) "method_call"
           then atomic (on_world (let! now := time in
                  on_metrics (add_method_time start now
                    (req_class y ++ "." ++ req_method y)%string)))
           else tret tt) (λ _,
    tret (Some rc))))))))).

(** ** The client side *)

(** What waiting for the response gave ([WorkerRequest.wait]): a response,
    nothing because the system is going down, or the pair a non-blocking
    send returns. *)
Inductive awaited :=
  | AwResponse (y : rpc_rsp)
  | AwNone
  | AwNotBlocking.

(** [Agent.send_req], once [defw_workers.send_req] has returned [y]. *)
Definition accept_response (src agent : Endpoint) (y : awaited) : M W val :=
  match y with
  | AwNone => throw ETypeError "'NoneType' object is not subscriptable"
  | AwNotBlocking => throw ETypeError "tuple indices must be integers or slices, not str"
  | AwResponse y =>
      let! now := time in
      on_metrics (add_rpc_rsp_time (rsp_send_time y) now) ;;;
      if negb (endpoint_eq (rsp_dst y) src) then throw EDEFwError "MSG intended to another"
      else if negb (endpoint_eq (rsp_src y) agent)
      then throw EDEFwError "MSG originated from another"
      else if String.eqb (rsp_type y) "failure" then throw EDEFwRemoteError "RPC failure"
      else if String.eqb (rsp_type y) "exception" then
        match rsp_exception y with
        | Some (ExcText s) => throw EDEFwRemoteError s
        | Some (ExcObj e) => lift_res (Raise e)
        | None => throw EKeyError "exception"
        end
      else ret (rsp_rc y)
  end.

(** [Agent.send_req]; [exchange] sends the request and waits. *)
Definition send_req (exchange : rpc_req → M W awaited) (uuid : nat) (src agent : Endpoint)
    (rpc_type module cname mname class_id : string) (args : list val) (kwargs : pydict) :
    M W val :=
  if String.eqb mname "" then
    throw EDEFwError "A method or a function name need to be specified"
  else
    let! rpc := populate_rpc_req h src agent rpc_type module cname mname class_id
                  args kwargs uuid in
    let! y := exchange rpc in
    accept_response src agent y.
End Rpc.
