(* ===== verification/RpcFacts.v ===== *)
(** * Properties of remote procedure calls

    The handler answers every request it can dispatch exactly once, with the
    outcome of the dispatch and the caller's request uuid; what the caller gets
    is the outcome of the call on the server, with foreign exceptions wrapped;
    the requests it cannot dispatch are not answered at all. *)

From S2P Require Import Prelude PyDict PyVal Agent Threads Registry Metrics Trace Rpc.

Local Open Scope string_scope.
Local Open Scope Z_scope.
Local Open Scope list_scope.
Import PyNotations.

(** What the caller sees of an outcome on the server. *)
Definition transported {A} (fmt : pyexc → string) (o : res A) : res A :=
  match o with
  | Ok v => Ok v
  | Raise e =>
      if is_defw_error (exc_type e) then Raise e
      else Raise (Exc EDEFwRemoteError ("Traceback (most recent call last):" ++ fmt e)%string)
  end.

Lemma on_world_time {S T} (r : registry (host S T)) : on_world time r = (r, Ok (clock (world r))).
Proof. by destruct r. Qed.

(** The first two sections of the handler: the start time and the request
    metrics; [r0] names the state after them. *)
Ltac start_handler y r r0 :=
  rewrite run_tbind; unfold bind at 1; rewrite run_atomic;
  rewrite (on_world_time r); cbv beta iota;
  rewrite run_tbind; unfold bind at 1; rewrite run_atomic;
  set (r0 := (on_world (on_metrics (add_rpc_req_time (req_send_time y) (clock (world r)))) r).1);
  match goal with |- context [on_world ?m r] =>
    change (on_world m r) with (r0, @Ok unit tt) end; cbv beta iota.

Section facts.
Context {S T : Type}.
Local Abbreviation W := (host S T).
Local Abbreviation St := (registry W).
Context (import_module : string → res (pymodule W)).
Context (invoke : instance → string → list val → pydict → thread St val).
Context (uuid_compare : val → val → bool).
Context (format_tb : pyexc → string).
Context (h : hooks T) (me : Endpoint) (dirsvc : instance).
Context (transport_rc : rpc_rsp → Z).

Local Abbreviation dispatch := (dispatch import_module invoke me dirsvc).
Local Abbreviation handle_rpc_req :=
  (handle_rpc_req import_module invoke uuid_compare format_tb h me dirsvc transport_rc).
Local Abbreviation endpoint_eq := (endpoint_eq uuid_compare).

Lemma run_tcatch {A} (t : thread St A) r :
  run (tcatch t) r = let '(r', o) := run t r in (r', Ok o).
Proof.
  unfold tcatch. rewrite run_ttry. unfold try_with. rewrite run_tbind. unfold bind.
  by destruct (run t r) as [r' [a|e]].
Qed.

(** What the registry and the services keep, without what the handler keeps
    for itself (clock, metrics, trace state, messages sent). *)
Definition core (r : St) :
    odict string instance * odict string instance * odict string string * nat * S :=
  (class_db r, singleton_db r, alias_db r, next_obj r, svc (world r)).

(** The state the dispatch starts in: the request is counted and the caller's
    trace context is attached. *)
Definition dispatch_start (y : rpc_req) (r : St) : St :=
  let r1 := (on_world (on_metrics (add_rpc_req_time (req_send_time y) (clock (world r)))) r).1 in
  (on_world (on_tracing (attach h (req_carrier y))) r1).1.

(** The reply to an outcome, at a given time. *)
Definition reply_spec (y : rpc_req) (now : Z) (o : res val) (rsp : rpc_rsp) : Prop :=
  rsp_src rsp = req_dst y ∧ rsp_dst rsp = req_src y ∧ rsp_uuid rsp = req_uuid y ∧
  rsp_send_time rsp = now ∧
  match o with
  | Ok v => rsp_type rsp = "response" ∧ rsp_exception rsp = None ∧ rsp_rc rsp = v
  | Raise e => rsp_type rsp = "exception" ∧
               rsp_exception rsp = Some (exception_payload format_tb e) ∧
               rsp_rc rsp = no_result
  end.

Lemma reply_of_spec y o (w : W) :
  ∃ rsp, reply_of format_tb y o w = (w, Ok rsp) ∧ reply_spec y (clock w) o rsp.
Proof. destruct o; eexists; (split; [reflexivity | done]). Qed.

Lemma on_world_ok {A} (m : M W A) r w' a :
  m (world r) = (w', Ok a) →
  on_world m r = (Reg (class_db r) (singleton_db r) (alias_db r) (next_obj r) w', Ok a).
Proof. unfold on_world. by intros ->. Qed.

Lemma attach_world c (r : St) :
  ∃ v, on_world (on_tracing (attach h c)) r = ((on_world (on_tracing (attach h c)) r).1, Ok v).
Proof.
  pose proof (attach_total h c (tracing (world r))) as Ht. unfold on_world, on_tracing.
  destruct (attach h c (tracing (world r))) as [t' [v|e]]; [by exists v | done].
Qed.

Lemma detach_world v (r : St) :
  ∃ r', on_world (on_tracing (detach h v)) r = (r', Ok tt) ∧
        outbox (world r') = outbox (world r) ∧ clock (world r') = clock (world r) ∧
        core r' = core r.
Proof.
  pose proof (detach_total h v (tracing (world r))) as Ht. unfold on_world, on_tracing.
  destruct (detach h v (tracing (world r))) as [t' o]. simpl in Ht. subst. by eexists.
Qed.

Lemma handle_ok y blk m r :
  endpoint_eq (req_dst y) me = true → known_type (req_type y) = true →
  import_module (req_module y) = Ok m →
  let '(r1, o) := run (dispatch m y) (dispatch_start y r) in
  ∃ r' rsp, run (handle_rpc_req y blk) r = (r', Ok (Some (transport_rc rsp))) ∧
    outbox (world r') = outbox (world r1) ++ [(blk, rsp)] ∧
    core r' = core r1 ∧ reply_spec y (clock (world r1)) o rsp.
Proof.
  intros Hdst Hty Himp. unfold Rpc.handle_rpc_req. start_handler y r r0.
  change (dispatch_start y r) with (on_world (on_tracing (attach h (req_carrier y))) r0).1.
  rewrite Hdst, Hty, Himp. cbn [negb].
  rewrite run_tbind. unfold bind at 1. cbn [run].
  rewrite run_tbind. unfold bind at 1. rewrite run_atomic.
  destruct (attach_world (req_carrier y) r0) as [token Hat]. rewrite Hat.
  rewrite run_tbind. unfold bind at 1. rewrite run_tcatch. cbn [fst].
  destruct (run (dispatch m y) _) as [r1 o].
  rewrite run_tbind. unfold bind at 1. rewrite run_atomic.
  destruct (detach_world token r1) as (r2 & -> & Hout & Hclk & Hcore).
  rewrite run_tbind. unfold bind at 1. rewrite run_atomic.
  destruct (reply_of_spec y o (world r2)) as (rsp & Hrsp & Hspec). rewrite Hclk in Hspec.
  erewrite on_world_ok by (unfold bind; rewrite Hrsp; reflexivity).
  destruct (String.eqb (req_type y) "method_call"); eexists _, rsp;
    (split_and!; [reflexivity | simpl; by rewrite Hout | exact Hcore | done]).
Qed.

(** A request that is addressed to this process, has a known type and
    names a module that can be imported is answered exactly once, whatever
    the dispatch did: the reply carries the request's uuid, goes back from
    the addressee to the sender, and holds the result or the exception. *)
Theorem handler_replies_once (y : rpc_req) (blk : val) (m : pymodule W) (r : St) :
  endpoint_eq (req_dst y) me = true → known_type (req_type y) = true →
  import_module (req_module y) = Ok m →
  let '(r1, o) := run (dispatch m y) (dispatch_start y r) in
  ∃ r' rsp, run (handle_rpc_req y blk) r = (r', Ok (Some (transport_rc rsp))) ∧
    outbox (world r') = outbox (world r1) ++ [(blk, rsp)] ∧
    reply_spec y (clock (world r1)) o rsp.
Proof.
  intros Hdst Hty Himp. pose proof (handle_ok y blk m r Hdst Hty Himp) as Hok.
  destruct (run (dispatch m y) _) as [r1 o]. destruct Hok as (r' & rsp & ? & ? & _ & ?).
  eauto.
Qed.

(** A request for this process that has an unknown type or names a
    module that cannot be imported is never answered: the handler raises
    outside its [try] and nothing is sent, so the caller learns of it only
    by timing out. *)
Theorem undispatchable_unanswered (y : rpc_req) (blk : val) (r : St) :
  known_type (req_type y) = false ∨ (∃ e, import_module (req_module y) = Raise e) →
  endpoint_eq (req_dst y) me = true →
  ∃ r' e, run (handle_rpc_req y blk) r = (r', Raise e) ∧
          outbox (world r') = outbox (world r) ∧ class_db r' = class_db r.
Proof.
  intros Hbad Hdst. unfold Rpc.handle_rpc_req.
  start_handler y r r0.
  rewrite Hdst. cbn [negb]. destruct (known_type (req_type y)); cbn [negb].
  - destruct Hbad as [|[e ->]]; [done|]. rewrite run_tbind. unfold bind. simpl. by eexists _, _.
  - by eexists _, _.
Qed.

(** A call and its answer: what the server's state is afterwards, and what the
    caller gets. *)
Lemma exchange_ok {S' T' : Type} (h' : hooks T') (src : Endpoint) (w : host S' T')
    (ty module cname mname class_id : string) (args : list val) (kwargs : pydict) (uuid : nat)
    (blk : val) (m : pymodule W) (r : St) :
  endpoint_eq src src = true → endpoint_eq me me = true → known_type ty = true →
  import_module module = Ok m → mname ≠ "" →
  ∃ y w1, populate_rpc_req h' src me ty module cname mname class_id args kwargs uuid w =
          (w1, Ok y) ∧
  (req_type y = ty ∧ req_module y = module ∧ req_class y = cname ∧ req_method y = mname ∧
   req_function y = None ∧ req_class_id y = class_id ∧ req_args y = args ∧ req_kwargs y = kwargs) ∧
  let '(r1, o) := run (dispatch m y) (dispatch_start y r) in
  ∃ r' rsp rc, run (handle_rpc_req y blk) r = (r', Ok (Some rc)) ∧
    last (outbox (world r')) = Some (blk, rsp) ∧ rsp_uuid rsp = uuid ∧ core r' = core r1 ∧
    (send_req uuid_compare h' (λ _, ret (AwResponse rsp)) uuid src me ty module cname
       mname class_id args kwargs w).2 = transported format_tb o.
Proof.
  intros Hsrc Hme Hty Himp Hm.
  assert (∃ y w1, populate_rpc_req h' src me ty module cname mname class_id args kwargs uuid w =
            (w1, Ok y) ∧ req_src y = src ∧ req_dst y = me ∧ req_type y = ty ∧
            req_module y = module ∧ req_class y = cname ∧ req_method y = mname ∧
            req_function y = None ∧ req_class_id y = class_id ∧ req_args y = args ∧
            req_kwargs y = kwargs ∧ req_uuid y = uuid)
    as (y & w1 & Hp & Hs & Hd & Ht & Hmod & Hrest).
  { unfold populate_rpc_req, bind, on_tracing, time, ret.
    pose proof (inject_total h' (tracing w)) as Hi.
    destruct (inject h' (tracing w)) as [t' [c|e]]; [|done]. by eexists _, _. }
  exists y, w1. split; [done|]. split; [naive_solver|].
  pose proof (handle_ok y blk m r) as Hok. rewrite Hd, Ht, Hmod in Hok.
  specialize (Hok Hme Hty Himp). destruct (run (dispatch m y) _) as [r1 o].
  destruct Hok as (r' & rsp & Hrun & Hout & Hcore & Hr1 & Hr2 & Hu & _ & Ho).
  exists r', rsp, (transport_rc rsp). split; [done|].
  split; [by rewrite Hout, last_snoc|].
  split; [rewrite Hu; by destruct Hrest as (_ & _ & _ & _ & _ & _ & ?)|]. split; [done|].
  unfold send_req, bind. destruct (String.eqb_spec mname ""); [done|]. rewrite Hp.
  unfold ret. unfold accept_response, bind, time, on_metrics, modify, throw, ret, lift_res.
  rewrite Hr1, Hr2, Hs, Hd, Hsrc, Hme. cbn [negb].
  destruct o as [v|e]; destruct Ho as (-> & -> & ->); [done|]. simpl.
  unfold exception_payload, transported. by destruct (is_defw_error (exc_type e)).
Qed.
(** C3. End to end: for a caller whose uuid and whose peer's uuid compare
    equal to themselves, the value or exception its proxy returns is the
    outcome of the dispatch on the server, with exceptions that are not
    DEFw errors turned into a [DEFwRemoteError] carrying the traceback. *)
Theorem rpc_end_to_end {S' T' : Type} (h' : hooks T') (src : Endpoint) (w : host S' T')
    (ty module cname mname class_id : string) (args : list val) (kwargs : pydict) (uuid : nat)
    (blk : val) (m : pymodule W) (r : St) :
  endpoint_eq src src = true → endpoint_eq me me = true → known_type ty = true →
  import_module module = Ok m → mname ≠ "" →
  ∃ y w1, populate_rpc_req h' src me ty module cname mname class_id args kwargs uuid w =
          (w1, Ok y) ∧
  let '(r1, o) := run (dispatch m y) (dispatch_start y r) in
  ∃ r' rsp rc, run (handle_rpc_req y blk) r = (r', Ok (Some rc)) ∧
    last (outbox (world r')) = Some (blk, rsp) ∧
    (send_req uuid_compare h' (λ _, ret (AwResponse rsp)) uuid src me ty module cname
       mname class_id args kwargs w).2 = transported format_tb o.
Proof.
  intros Hsrc Hme Hty Himp Hm.
  destruct (exchange_ok h' src w ty module cname mname class_id args kwargs uuid blk m r Hsrc Hme Hty
              Himp Hm) as (y & w1 & Hp & _ & H).
  exists y, w1. split; [done|]. destruct (run (dispatch m y) _) as [r1 o].
  destruct H as (r' & rsp & rc & ? & ? & _ & _ & ?). eauto 8.
Qed.
End facts.

(** ** The test counter, remotely *)

Module RpcDemo.
Local Abbreviation W := (host Z unit).

Definition mod_path : string := "svc_test_counter.svc_test_counter".

Definition counter : pyclass W :=
  PyClass mod_path "TestCounter" (λ _ _ _ w, (w, Ok tt)).

Definition counter_module : pymodule W :=
  PyModule mod_path (Some "svc_test_counter")
    (Some (VDict [("instance_mode", VStr "singleton")]))
    (λ n, if String.eqb n "TestCounter" then Some counter else None) (λ _, None).

Definition import (n : string) : res (pymodule W) :=
  if String.eqb n mod_path then Ok counter_module
  else Raise (Exc EImportError "No module").

(** [increment], [get_count] *)
Definition invoke (i : instance) (meth : string) (args : list val) (kwargs : pydict) :
    thread (registry W) val :=
  if String.eqb meth "increment" then
    atomic (on_world (λ w, (Host (svc w + 1) (clock w) (metrics w) (tracing w) (outbox w),
                            Ok (VInt (svc w + 1)))))
  else if String.eqb meth "get_count" then
    atomic (on_world (λ w, (w, Ok (VInt (svc w)))))
  else tthrow EAttributeError "object has no attribute".

Definition ep (id : string) (nt : Z) : Endpoint :=
  MkEndpoint (VStr "") (VInt 0) (VInt 0) (VInt 0) (VStr id) (VStr "") (VInt nt) (VStr id)
    (VStr ZERO_UUID).
Definition server := ep "server" EN_DEFW_SERVICE.
Definition client := ep "client" EN_DEFW_AGENT.
Definition nobody : instance := Instance 0 "" "".

Definition start : registry W :=
  Reg [] [] [] 1 (Host 41 1000 (new_metrics 4) tt []).
Definition client_host : host unit unit := Host tt 990 (new_metrics 4) tt [].

(** The handle "h1" is bound by an instantiate request. *)
Definition bound : registry W :=
  (run (instantiate_class import false nobody counter_module mod_path "TestCounter" "h1" [] [])
     start).1.

Definition request (ty module meth : string) : rpc_req :=
  RpcReq client server ty module "TestCounter" meth None "h1" [] [] [] 990 7.

Local Abbreviation handle :=
  (handle_rpc_req import invoke py_eqb exc_msg clear_hooks server nobody (λ _, 0)).

Lemma handler_replies_once_witness :
  ∃ r' rsp, run (handle (request "method_call" mod_path "increment") (VStr "blk")) bound =
              (r', Ok (Some 0)) ∧
    outbox (world r') = [(VStr "blk", rsp)] ∧ rsp_rc rsp = VInt 42 ∧ rsp_uuid rsp = 7%nat.
Proof.
  pose proof (handler_replies_once import invoke py_eqb exc_msg clear_hooks server nobody
                (λ _, 0) (request "method_call" mod_path "increment") (VStr "blk")
                counter_module bound eq_refl eq_refl eq_refl) as H.
  destruct (run (dispatch import invoke server nobody counter_module
                   (request "method_call" mod_path "increment")) _) as [r1 o] eqn:E.
  destruct H as (r' & rsp & Hrun & Hout & _ & _ & Hu & _ & Ho).
  vm_compute in E. injection E as <- <-. exists r', rsp. destruct Ho as (_ & _ & Hrc). done.
Defined.

Lemma undispatchable_unanswered_witness :
  ∃ r' e, run (handle (request "method_call" "no_such_module" "increment") (VStr "blk")) bound =
            (r', Raise e) ∧
          outbox (world r') = [] ∧ class_db r' = class_db bound.
Proof.
  apply (undispatchable_unanswered import invoke py_eqb exc_msg clear_hooks server nobody
           (λ _, 0) (request "method_call" "no_such_module" "increment") (VStr "blk") bound);
    [right; by eexists | reflexivity].
Defined.

(** A call that succeeds and one whose method does not exist. *)
Lemma rpc_end_to_end_witness :
  ∃ rsp,
    (send_req py_eqb clear_hooks (λ _, ret (AwResponse rsp)) 7 client server "method_call"
       mod_path "TestCounter" "increment" "h1" [] [] client_host).2 = Ok (VInt 42) ∧
  ∃ rsp',
    (send_req py_eqb clear_hooks (λ _, ret (AwResponse rsp')) 8 client server "method_call"
       mod_path "TestCounter" "reset" "h1" [] [] client_host).2 =
    Raise (Exc EDEFwRemoteError
             "Traceback (most recent call last):object has no attribute").
Proof.
  pose proof (rpc_end_to_end import invoke py_eqb exc_msg clear_hooks server nobody (λ _, 0)
    clear_hooks client client_host "method_call" mod_path "TestCounter" "increment" "h1" [] [] 7
    (VStr "blk") counter_module bound eq_refl eq_refl eq_refl eq_refl ltac:(done)) as H.
  pose proof (rpc_end_to_end import invoke py_eqb exc_msg clear_hooks server nobody (λ _, 0)
    clear_hooks client client_host "method_call" mod_path "TestCounter" "reset" "h1" [] [] 8
    (VStr "blk") counter_module bound eq_refl eq_refl eq_refl eq_refl ltac:(done)) as H'.
  destruct H as (y & w1 & Hp & H). vm_compute in Hp. injection Hp as <- <-.
  destruct (run (dispatch _ _ _ _ _ _) _) as [r1 o] eqn:E. vm_compute in E.
  injection E as <- <-. destruct H as (r' & rsp & rc & _ & _ & Hs). exists rsp.
  split; [exact Hs|].
  destruct H' as (y & w1 & Hp & H). vm_compute in Hp. injection Hp as <- <-.
  destruct (run (dispatch _ _ _ _ _ _) _) as [r2 o] eqn:E. vm_compute in E.
  injection E as <- <-. destruct H as (r'' & rsp' & rc' & _ & _ & Hs'). by exists rsp'.
Defined.
End RpcDemo.
