(* ===== verification/TestServices.v ===== *)
(** * Service packages and the agent's query
    ([python/services/svc_test_counter], [python/services/svc_test_echo],
    [BaseAgentAPI.query] of [python/infra/defw_agent_baseapi.py])

    The two services of the self-tests, as the service code the registry and
    the RPC handler run: a counter that is one object per process and an echo
    that is one object per connection.  Their state, indexed by the identity
    of the objects, is [svc_state]; the n-th call of [uuid.uuid4()] in the
    process gives [uuid4 n].  [agent_query] collects what the packages of a
    process advertise. *)

From S2P Require Import Prelude PyDict PyVal Agent Threads Registry Metrics Trace Rpc.

Local Open Scope string_scope.
Local Open Scope Z_scope.
Local Open Scope list_scope.
Import PyNotations.
Local Open Scope py_scope.

(** ** State of the services *)

Record svc_state := SvcState {
  drawn : nat;
  instance_ids : odict nat string;
  counts : odict nat Z
}.

Definition init_svc : svc_state := SvcState 0 [] [].

Section TestServices.
Context {T : Type}.
Local Abbreviation W := (host svc_state T).
Local Abbreviation St := (registry W).
Context (uuid4 : nat → string).

Definition set_svc (s : svc_state) (w : W) : W :=
  Host s (clock w) (metrics w) (tracing w) (outbox w).

(** ** Constructors *)

(** The arguments of [__init__(self, start=True)]. *)
Definition check_start (args : list val) (kwargs : pydict) : res unit :=
  match args, kwargs with
  | [], [] | [_], [] => Ok tt
  | [], [(k, _)] => if String.eqb k "start" then Ok tt
                    else Raise (Exc ETypeError "got an unexpected keyword argument")
  | _, _ => Raise (Exc ETypeError "__init__() got unexpected arguments")
  end.

(** [self._instance_id = str(uuid.uuid4())] *)
Definition draw_id (i : nat) (s : svc_state) : svc_state :=
  SvcState (S (drawn s)) (dset (instance_ids s) i (uuid4 (drawn s))) (counts s).

(** [TestCounter.__init__] *)
Definition counter_init (args : list val) (kwargs : pydict) (i : nat) (w : W) : W * res unit :=
  match check_start args kwargs with
  | Ok _ => let s := draw_id i (svc w) in
            (set_svc (SvcState (drawn s) (instance_ids s) (dset (counts s) i 0)) w, Ok tt)
  | Raise e => (w, Raise e)
  end.

(** [TestEcho.__init__] *)
Definition echo_init (args : list val) (kwargs : pydict) (i : nat) (w : W) : W * res unit :=
  match check_start args kwargs with
  | Ok _ => (set_svc (draw_id i (svc w)) w, Ok tt)
  | Raise e => (w, Raise e)
  end.

(** ** Packages *)

Definition COUNTER_MODULE : string := "svc_test_counter.svc_test_counter".
Definition ECHO_MODULE : string := "svc_test_echo.svc_test_echo".

Definition counter_class : pyclass W := PyClass COUNTER_MODULE "TestCounter" counter_init.
Definition echo_class : pyclass W := PyClass ECHO_MODULE "TestEcho" echo_init.

(** [svc_info]; the version 1.0 is the number 1. *)
Definition counter_info : val :=
  VDict [("name", VStr "TestCounter"); ("module", VStr "svc_test_counter");
         ("description", VStr "Singleton counter service for DEFw self-tests"); ("version", VInt 1);
         ("instance_mode", VStr "singleton")].
Definition echo_info : val :=
  VDict [("name", VStr "TestEcho"); ("module", VStr "svc_test_echo");
         ("description", VStr "Per-connection echo service for DEFw self-tests"); ("version", VInt 1);
         ("instance_mode", VStr "per_connection")].

Definition only_class (name : string) (c : pyclass W) (n : string) : option (pyclass W) :=
  if String.eqb n name then Some c else None.

(** The packages and, in each, the module that defines the class. *)
Definition import_module (n : string) : res (pymodule W) :=
  if String.eqb n "svc_test_counter" then
    Ok (PyModule n (Some n) (Some counter_info) (only_class "TestCounter" counter_class) (λ _, None))
  else if String.eqb n COUNTER_MODULE then
    Ok (PyModule n (Some "svc_test_counter") None (only_class "TestCounter" counter_class) (λ _, None))
  else if String.eqb n "svc_test_echo" then
    Ok (PyModule n (Some n) (Some echo_info) (only_class "TestEcho" echo_class) (λ _, None))
  else if String.eqb n ECHO_MODULE then
    Ok (PyModule n (Some "svc_test_echo") None (only_class "TestEcho" echo_class) (λ _, None))
  else Raise (Exc EImportError ("No module named '" ++ n ++ "'")).

(** ** Methods *)

(** [query()] of both services, up to the names *)
Definition query_of (name service_type client_module module description cap : string) : val :=
  VDict [("service_name", VStr name); ("service_type", VStr service_type);
         ("api_bindings", VList [VDict [("binding_name", VStr "default");
            ("client_module", VStr client_module); ("client_class", VStr name);
            ("service_module", VStr module); ("service_class", VStr name); ("version", VInt 1)]]);
         ("selector", VDict [("resources", VList [VStr name])]);
         ("properties", VDict [("description", VStr description)]);
         ("capability", VDict [("type", VInt 1); ("caps", VInt 1); ("description", VStr cap)])].

Definition counter_query : val :=
  query_of "TestCounter" "defw.test.counter" "api_test_counter" COUNTER_MODULE
    "Singleton counter service for DEFw self-tests" "default test counter capability".
Definition echo_query : val :=
  query_of "TestEcho" "defw.test.echo" "api_test_echo" ECHO_MODULE
    "Per-connection echo service for DEFw self-tests" "default test echo capability".

(** Access to the state of the services. *)
Definition on_svc {A} (m : M svc_state A) : M St A :=
  on_world (λ w, let '(s', o) := m (svc w) in (set_svc s' w, o)).

(** [get_instance_id] *)
Definition get_instance_id (i : instance) : M svc_state val :=
  let! s := get in
  match dget (instance_ids s) (inst_id i) with
  | Some u => ret (VStr u)
  | None => throw EAttributeError "object has no attribute '_instance_id'"
  end.

Definition read_count (i : instance) : M svc_state Z :=
  let! s := get in
  match dget (counts s) (inst_id i) with
  | Some n => ret n
  | None => throw EAttributeError "object has no attribute '_count'"
  end.

(** [TestCounter.increment] *)
Definition increment (i : instance) : M svc_state val :=
  let! n := read_count i in
  modify (λ s, SvcState (drawn s) (instance_ids s) (dset (counts s) (inst_id i) (n + 1))) ;;;
  ret (VInt (n + 1)).

(** [TestCounter.get_count] *)
Definition get_count (i : instance) : M svc_state val :=
  let! n := read_count i in ret (VInt n).

(** This process's directory API, when it has one, and its endpoint. *)
Context (deregister : option (Endpoint → M St unit)) (me : Endpoint).

(** [shutdown] *)
Definition service_shutdown (i : instance) : thread St val :=
  tbind (shutdown_service_instance deregister me i) (λ _, tret (VBool true)).

Definition no_arguments (args : list val) (kwargs : pydict) (t : thread St val) : thread St val :=
  match args, kwargs with
  | [], [] => t
  | _, _ => tthrow ETypeError "takes 1 positional argument"
  end.

(** [TestEcho.echo(value)] *)
Definition echo (args : list val) (kwargs : pydict) : thread St val :=
  match args, kwargs with
  | [v], [] => tret v
  | [], [(k, v)] => if String.eqb k "value" then tret v
                    else tthrow ETypeError "echo() got an unexpected keyword argument"
  | _, _ => tthrow ETypeError "echo() takes 2 positional arguments"
  end.

(** [getattr(instance, method)(...)] *)
Definition invoke (i : instance) (meth : string) (args : list val) (kwargs : pydict) :
    thread St val :=
  if String.eqb meth "get_instance_id" then
    no_arguments args kwargs (atomic (on_svc (get_instance_id i)))
  else if String.eqb meth "shutdown" then no_arguments args kwargs (service_shutdown i)
  else if String.eqb (inst_class i) "TestCounter" then
    if String.eqb meth "query" then no_arguments args kwargs (tret counter_query)
    else if String.eqb meth "increment" then
      no_arguments args kwargs (atomic (on_svc (increment i)))
    else if String.eqb meth "get_count" then
      no_arguments args kwargs (atomic (on_svc (get_count i)))
    else tthrow EAttributeError "'TestCounter' object has no such attribute"
  else
    if String.eqb meth "query" then no_arguments args kwargs (tret echo_query)
    else if String.eqb meth "echo" then echo args kwargs
    else if String.eqb meth "raise_error" then
      no_arguments args kwargs (tthrow EDEFwError "intentional self-test error")
    else tthrow EAttributeError "'TestEcho' object has no such attribute".
End TestServices.

(** ** What a process advertises ([BaseAgentAPI.query]) *)

(** A loaded package: its name, and its [service_classes] with what creating
    an object of each and querying it gives. *)
Record package := Package {
  pk_name : string;
  pk_classes : res (list (res val))
}.

(** The loop over the classes: the first failure ends it. *)
Fixpoint query_classes (cs : list (res val)) (svcs : list val) : list val :=
  match cs with
  | [] => svcs
  | Ok v :: cs' => query_classes cs' (svcs ++ [v])
  | Raise _ :: _ => svcs
  end.

(** One package; [bound] says whether the loop variable [c], which the error
    message mentions, has been assigned. *)
Definition query_package (svcs : list val) (bound : bool) (p : package) : res (list val * bool) :=
  match pk_classes p with
  | Ok [] => Ok (svcs, bound)
  | Ok cs => Ok (query_classes cs svcs, true)
  | Raise _ => if bound then Ok (svcs, bound)
               else Raise (Exc ENameError "cannot access local variable 'c'")
  end.

Fixpoint query_packages (is_dirsvc : bool) (dirsvc_query : res val) (ps : list package)
    (svcs : list val) (bound : bool) : res (list val) :=
  match ps with
  | [] => Ok svcs
  | p :: ps' =>
      if String.eqb (pk_name p) "Directory Service" then
        if is_dirsvc then
          let? v := dirsvc_query in
          query_packages is_dirsvc dirsvc_query ps' (svcs ++ [v]) bound
        else query_packages is_dirsvc dirsvc_query ps' svcs bound
      else
        let? (svcs, bound) := query_package svcs bound p in
        query_packages is_dirsvc dirsvc_query ps' svcs bound
  end.

(** [BaseAgentAPI.query] *)
Definition agent_query (is_dirsvc : bool) (dirsvc_query : res val) (ps : list package) :
    res (list val) :=
  query_packages is_dirsvc dirsvc_query ps [] false.

(** What one package advertises: the classes up to the first that fails. *)
Definition advertised (is_dirsvc : bool) (dirsvc_query : res val) (p : package) : list val :=
  if String.eqb (pk_name p) "Directory Service" then
    if is_dirsvc then match dirsvc_query with Ok v => [v] | Raise _ => [] end else []
  else match pk_classes p with Ok cs => query_classes cs [] | Raise _ => [] end.

Lemma query_classes_app cs svcs : query_classes cs svcs = svcs ++ query_classes cs [].
Proof.
  revert svcs. induction cs as [|[v|e] cs IH]; intros svcs; simpl; [by rewrite app_nil_r| |by rewrite app_nil_r].
  rewrite IH, (IH [v]). by rewrite <- app_assoc.
Qed.

(** A process advertises every service of its packages, in order, a class
    that fails hiding only the rest of its own package; and only the
    directory process advertises the directory. *)
Theorem agent_query_complete (is_dirsvc : bool) (dirsvc_query : res val) (ps : list package) :
  (is_dirsvc = true → is_ok dirsvc_query = true) →
  Forall (λ p, is_ok (pk_classes p) = true) ps →
  agent_query is_dirsvc dirsvc_query ps = Ok (flat_map (advertised is_dirsvc dirsvc_query) ps).
Proof.
  intros Hd. unfold agent_query. generalize false. change (flat_map ?f ps) with ([] ++ flat_map f ps).
  generalize (@nil val). intros svcs bound Hps. revert svcs bound.
  induction Hps as [|p ps Hp Hps IH]; intros svcs bound; simpl; [by rewrite app_nil_r|].
  unfold advertised at 1. destruct (String.eqb (pk_name p) "Directory Service").
  - destruct is_dirsvc; [|apply IH]. destruct dirsvc_query as [v|]; [|by discriminate Hd].
    simpl. rewrite IH. by rewrite <- app_assoc.
  - unfold query_package. destruct (pk_classes p) as [[|c cs]|]; [| |done]; cbn [rbind].
    + apply IH.
    + rewrite IH, query_classes_app. by rewrite <- app_assoc.
Qed.

Lemma agent_query_complete_witness :
  agent_query false (Raise (Exc EAttributeError ""))
    [Package "TestEcho" (Ok [Ok echo_query; Raise (Exc ERuntimeError "no"); Ok VNone]);
     Package "Directory Service" (Ok []); Package "TestCounter" (Ok [Ok counter_query])] =
  Ok [echo_query; counter_query].
Proof.
  rewrite (agent_query_complete false); [reflexivity | done | repeat constructor].
Defined.
