(* ===== verification/Workers.v ===== *)
(** * The worker ([python/infra/defw_workers.py])

    The transport puts events into the worker's queue; the worker thread takes
    them in order: requests and directory work go to threads of their own,
    responses and connection results are handed to the work request that waits
    for them, peer events update the peer table, fail the requests that can no
    longer be answered and drop or create the directory binding.

    A work request is identified by its uuid; the events put into its private
    queue are kept in arrival order in [queues].  The native calls
    ([defw_send_req], [defw_connect_to_service], ...) are arguments. *)

From S2P Require Import Prelude PyDict PyVal Agent Peers Threads Rpc.

Local Open Scope string_scope.
Local Open Scope Z_scope.
Local Open Scope list_scope.
Import PyNotations.
Local Open Scope py_scope.

(** ** Events *)

Definition EVENT_INCOMING_REQUEST : Z := 1.
Definition EVENT_INCOMING_RESPONSE : Z := 2.
Definition EVENT_CONN_COMPLETE : Z := 3.
Definition EVENT_SHUTDOWN : Z := 4.
Definition EVENT_PEER_LIFECYCLE : Z := 5.

Definition EN_DEFW_RC_OK : Z := 0.
Definition EN_DEFW_RC_IN_PROGRESS : Z := -20.
Definition EN_DEFW_RC_NOT_STARTED : Z := -25.
Definition EN_DEFW_RC_NO_LISTENER : Z := -26.

Inductive worker_event :=
  | EvRequest (uuid : val) (msg_yaml : option rpc_req)
  | EvResponse (uuid : val) (msg_yaml : option rpc_rsp)
  | EvConnComplete (connect_status : Z) (uuid : nat)
  | EvShutdown
  | EvPeer (peer_event : pydict).

Definition ev_type (we : worker_event) : Z :=
  match we with
  | EvRequest _ _ => EVENT_INCOMING_REQUEST
  | EvResponse _ _ => EVENT_INCOMING_RESPONSE
  | EvConnComplete _ _ => EVENT_CONN_COMPLETE
  | EvShutdown => EVENT_SHUTDOWN
  | EvPeer _ => EVENT_PEER_LIFECYCLE
  end.

(** [WorkerEvent.__check_type] *)
Definition check_event_type (t : Z) : res unit :=
  if negb (t =? EVENT_INCOMING_REQUEST) && negb (t =? EVENT_INCOMING_RESPONSE) &&
     negb (t =? EVENT_CONN_COMPLETE) && negb (t =? EVENT_SHUTDOWN) &&
     negb (t =? EVENT_PEER_LIFECYCLE)
  then Raise (Exc EDEFwError "Bad WorkerEvent type") else Ok tt.

(** [WorkerEvent.type2str] on one type *)
Definition event_type2str (t : Z) : string :=
  if t =? EVENT_INCOMING_REQUEST then "EVENT_INCOMING_REQUEST"
  else if t =? EVENT_INCOMING_RESPONSE then "EVENT_INCOMING_RESPONSE"
  else if t =? EVENT_CONN_COMPLETE then "EVENT_CONN_COMPLETE"
  else if t =? EVENT_SHUTDOWN then "EVENT_SHUTDOWN"
  else if t =? EVENT_PEER_LIFECYCLE then "EVENT_PEER_LIFECYCLE"
  else "UNKNOWN_WORKEREVENT".

Definition PEER_EVENT_TYPES : list val :=
  [VStr "PEER_READY"; VStr "PEER_DEGRADED"; VStr "PEER_LOST"; VStr "PEER_REMOVED"].

(** ** Work requests *)

Inductive wr_body :=
  | WrSendMsg (remote_uuid : string) (blk_uuid : option string) (msg : rpc_req)
  | WrConnect (ep : Endpoint).

Record work_request := WorkRequest {
  wr_uuid : nat;
  wr_kind : wr_body;
  deadline : Z;
  blocking : bool
}.

(** [WorkerRequest.expected_events] as the constructor sets it. *)
Definition expected_events (wr : work_request) : list Z :=
  match wr_kind wr with
  | WrSendMsg _ _ _ => [EVENT_INCOMING_RESPONSE]
  | WrConnect _ => [EVENT_CONN_COMPLETE]
  end.

(** ** Waiting

    One turn of the loop in [WorkerRequest.wait]: is the system up, what
    [queue.get(timeout=1)] gave, and the clock afterwards.  The result is
    [None] while the loop goes on. *)

Record turn := Turn { system_up : bool; got : option worker_event; now : Z }.

Inductive wait_result :=
  | WNothing
  | WStatus (status : Z)
  | WMessage (msg : option rpc_rsp)
  | WRequest (msg : option rpc_req).

(** [f"... {event.get('event_type')} {event.get('reason', '')}"] *)
Definition loss_message (event : pydict) : string :=
  ("Peer disconnected during request: " ++ py_fmt (vget event "event_type") ++ " " ++
   py_fmt (vget_or event "reason" (VStr "")))%string.

Fixpoint wait_loop (dl : Z) (expected : list Z) (t : Z) (turns : list turn) :
    option (res wait_result) :=
  if t <? dl then
    match turns with
    | [] => None
    | Turn up ev t' :: turns' =>
        if negb up then Some (Ok WNothing)
        else
          match ev with
          | None => wait_loop dl expected t' turns'
          | Some (EvConnComplete status _) =>
              match expected with
              | [] => Some (Raise (Exc EIndexError "list index out of range"))
              | e :: es =>
                  if e =? EVENT_CONN_COMPLETE then
                    match es with
                    | [] => Some (Ok (WStatus status))
                    | _ => wait_loop dl es t' turns'
                    end
                  else Some (Raise (Exc EDEFwCommError
                         ("expected CONN_COMPLETE got " ++ event_type2str EVENT_CONN_COMPLETE)%string))
              end
          | Some EvShutdown => Some (Ok WNothing)
          | Some (EvPeer event) => Some (Raise (Exc EDEFwCommError (loss_message event)))
          | Some (EvResponse _ msg) => Some (Ok (WMessage msg))
          | Some (EvRequest _ msg) => Some (Ok (WRequest msg))
          end
    end
  else Some (Raise (Exc EDEFwCommError "Response timed out")).

Definition wait (wr : work_request) (t : Z) (turns : list turn) : option (res wait_result) :=
  if blocking wr then wait_loop (deadline wr) (expected_events wr) t turns
  else Some (Ok WNothing).

(** ** The state of the worker *)

(** Work handed to a temporary thread. *)
Inductive task :=
  | TaskRpc (msg : option rpc_req) (blk_uuid : val)
  | TaskDirectory (event : pydict)
  | TaskBindDirsvc (record : option peer_record).

Record wstate := WState {
  inbox : list worker_event;
  next_uuid : nat;
  req_db : odict nat work_request;
  queues : odict nat (list worker_event);
  peer_tbl : peer_table;
  peer_events : list pydict;
  listeners : list nat;
  notified : list (nat * pydict);
  dirsvc_api : option nat;
  binding_runtime_id : val;
  binding_peer_handle : val;
  tasks : list task;
  stopped : bool
}.

Definition init_wstate : wstate :=
  WState [] 0 [] [] empty_table [] [] [] None VNone VNone [] false.

Definition set_inbox (x : list worker_event) (s : wstate) : wstate :=
  WState x (next_uuid s) (req_db s) (queues s) (peer_tbl s) (peer_events s) (listeners s)
    (notified s) (dirsvc_api s) (binding_runtime_id s) (binding_peer_handle s) (tasks s) (stopped s).
Definition set_req_db (x : odict nat work_request) (s : wstate) : wstate :=
  WState (inbox s) (next_uuid s) x (queues s) (peer_tbl s) (peer_events s) (listeners s)
    (notified s) (dirsvc_api s) (binding_runtime_id s) (binding_peer_handle s) (tasks s) (stopped s).
Definition set_queues (x : odict nat (list worker_event)) (s : wstate) : wstate :=
  WState (inbox s) (next_uuid s) (req_db s) x (peer_tbl s) (peer_events s) (listeners s)
    (notified s) (dirsvc_api s) (binding_runtime_id s) (binding_peer_handle s) (tasks s) (stopped s).
Definition set_next_uuid (x : nat) (s : wstate) : wstate :=
  WState (inbox s) x (req_db s) (queues s) (peer_tbl s) (peer_events s) (listeners s)
    (notified s) (dirsvc_api s) (binding_runtime_id s) (binding_peer_handle s) (tasks s) (stopped s).
Definition set_peer_tbl (x : peer_table) (s : wstate) : wstate :=
  WState (inbox s) (next_uuid s) (req_db s) (queues s) x (peer_events s) (listeners s)
    (notified s) (dirsvc_api s) (binding_runtime_id s) (binding_peer_handle s) (tasks s) (stopped s).
Definition set_peer_events (x : list pydict) (s : wstate) : wstate :=
  WState (inbox s) (next_uuid s) (req_db s) (queues s) (peer_tbl s) x (listeners s)
    (notified s) (dirsvc_api s) (binding_runtime_id s) (binding_peer_handle s) (tasks s) (stopped s).
Definition set_listeners (x : list nat) (s : wstate) : wstate :=
  WState (inbox s) (next_uuid s) (req_db s) (queues s) (peer_tbl s) (peer_events s) x
    (notified s) (dirsvc_api s) (binding_runtime_id s) (binding_peer_handle s) (tasks s) (stopped s).
Definition set_notified (x : list (nat * pydict)) (s : wstate) : wstate :=
  WState (inbox s) (next_uuid s) (req_db s) (queues s) (peer_tbl s) (peer_events s) (listeners s)
    x (dirsvc_api s) (binding_runtime_id s) (binding_peer_handle s) (tasks s) (stopped s).
Definition set_binding (api : option nat) (rid ph : val) (s : wstate) : wstate :=
  WState (inbox s) (next_uuid s) (req_db s) (queues s) (peer_tbl s) (peer_events s) (listeners s)
    (notified s) api rid ph (tasks s) (stopped s).
Definition set_tasks (x : list task) (s : wstate) : wstate :=
  WState (inbox s) (next_uuid s) (req_db s) (queues s) (peer_tbl s) (peer_events s) (listeners s)
    (notified s) (dirsvc_api s) (binding_runtime_id s) (binding_peer_handle s) x (stopped s).
Definition set_stopped (x : bool) (s : wstate) : wstate :=
  WState (inbox s) (next_uuid s) (req_db s) (queues s) (peer_tbl s) (peer_events s) (listeners s)
    (notified s) (dirsvc_api s) (binding_runtime_id s) (binding_peer_handle s) (tasks s) x.

(** ** Peer event listeners *)

Definition add_peer_event_listener (callable : bool) (l : nat) : M wstate nat :=
  if negb callable then throw EDEFwError "Peer lifecycle listener is not callable"
  else
    let! s := get in
    (if bool_decide (l ∈ listeners s) then ret tt
     else modify (set_listeners (listeners s ++ [l]))) ;;;
    ret l.

Fixpoint remove_first (l : nat) (ls : list nat) : list nat :=
  match ls with
  | [] => []
  | x :: ls' => if Nat.eqb x l then ls' else x :: remove_first l ls'
  end.

Definition remove_peer_event_listener (l : nat) : M wstate unit :=
  let! s := get in
  if bool_decide (l ∈ listeners s) then modify (set_listeners (remove_first l (listeners s)))
  else ret tt.

Definition is_dirsvc_peer_event (event : pydict) : bool :=
  py_eqb (vget event "node_type") (VInt EN_DEFW_DIRSVC).

Section Worker.
(** A listener is a function of the application; its exceptions are logged
    and dropped. *)
Context (call_listener : nat → pydict → res unit).
Context (parent : parent_cfg) (me : Endpoint).

Definition notify_peer_event_listeners (event : pydict) : M wstate unit :=
  let! s := get in
  for_each (λ l,
    try_with
      (modify (λ s, set_notified (notified s ++ [(l, event)]) s) ;;;
       lift_res (call_listener l event))
      (λ _, ret tt)) (listeners s).

(** ** Pending requests *)

(** [wr.queue.put(we)]: a request that does not block has no queue. *)
Definition put_queue (wr : work_request) (we : worker_event) : M wstate unit :=
  if blocking wr then
    modify (λ s, set_queues (dset (queues s) (wr_uuid wr)
                               (dget_or (queues s) (wr_uuid wr) [] ++ [we])) s)
  else throw EAttributeError "'NoneType' object has no attribute 'put'".

Definition add_work_request (wr : work_request) : M wstate unit :=
  modify (λ s, set_req_db (dset (req_db s) (wr_uuid wr) wr) s).

Definition remove_work_request (wr : work_request) : M wstate unit :=
  modify (λ s, set_req_db (ddel (req_db s) (wr_uuid wr)) s).

Definition is_loss_event (event : pydict) : bool :=
  py_in_list (vget event "event_type") [VStr "PEER_LOST"; VStr "PEER_REMOVED"].

Definition work_request_targets_peer (wr : work_request) (event : pydict) : bool :=
  match wr_kind wr with
  | WrConnect _ => false
  | WrSendMsg remote blk _ =>
      let remote_uuid := py_or (vget event "remote_runtime_id") (VStr "") in
      if truthy remote_uuid && negb (py_eqb (VStr remote) remote_uuid) then false
      else
        let peer_handle := py_or (vget event "peer_handle") (VStr "") in
        let blk_uuid := VStr (default "" blk) in
        negb (truthy peer_handle) ||
        py_in_list blk_uuid [VStr ""; VStr ZERO_UUID; peer_handle]
  end.

Definition fail_one (event : pydict) (wr : work_request) : M wstate unit :=
  if blocking wr then put_queue wr (EvPeer event) else ret tt.

Definition fail_pending_peer_requests (event : pydict) : M wstate unit :=
  if negb (is_loss_event event) then ret tt
  else
    let! s := get in
    let failed := List.filter (λ wr, work_request_targets_peer wr event) (dvals (req_db s)) in
    modify (set_req_db
      (List.filter (λ p, negb (work_request_targets_peer p.2 event)) (req_db s))) ;;;
    for_each (fail_one event) failed.

(** ** The directory binding *)

Definition is_ready_dirsvc_peer (event : pydict) (record : option peer_record) : bool :=
  if negb (py_eqb (vget event "event_type") (VStr "PEER_READY")) then false
  else if is_dirsvc me then false
  else match record with
       | None => false
       | Some r =>
           if negb (callable r) then false
           else if negb (py_eqb (peer_node_type r) (VInt EN_DEFW_DIRSVC)) then false
           else truthy (runtime_id r) && negb (py_eqb (runtime_id r) (VStr ZERO_UUID))
       end.

Definition is_disconnected_dirsvc_peer (event : pydict) : bool :=
  if negb (is_loss_event event) then false
  else if is_dirsvc me then false
  else is_dirsvc_peer_event event.

Definition dirsvc_peer_still_ready (record : option peer_record) : M wstate bool :=
  match record with
  | None => ret false
  | Some r =>
      let! s := get in
      let! current := lift_res (get_peer (peer_tbl s) (peer_handle r)) in
      ret match current with
          | None => false
          | Some c =>
              callable c && py_eqb (peer_node_type c) (VInt EN_DEFW_DIRSVC) &&
              py_eqb (runtime_id c) (runtime_id r)
          end
  end.

Definition clear_dirsvc_peer (event : pydict) : M wstate unit :=
  if negb (is_disconnected_dirsvc_peer event) then ret tt
  else
    let rid := py_or (vget event "remote_runtime_id") (VStr "") in
    let ph := py_or (vget event "peer_handle") (VStr "") in
    let! s := get in
    if truthy (binding_runtime_id s) && truthy rid &&
       negb (py_eqb (binding_runtime_id s) rid) then ret tt
    else if truthy (binding_peer_handle s) && truthy ph &&
            negb (py_eqb (binding_peer_handle s) ph) then ret tt
    else modify (set_binding None VNone VNone).

(** [_peer_endpoint] *)
Definition peer_endpoint (r : peer_record) : res Endpoint :=
  let ep := endpoint r in
  new_endpoint (vget_or ep "address" (VStr "")) (vget_or ep "port" (VInt 0))
    (vget_or ep "listen_port" (VInt 0)) (vget_or ep "pid" (VInt 0))
    (vget_or ep "node_name" (VStr "")) (vget_or ep "hostname" (VStr ""))
    (peer_node_type r) (runtime_id r) (peer_handle r).

(** [bind_dirsvc_peer] runs in a temporary thread.  [api_loaded]: is the
    directory API among the loaded modules; [connect]: its constructor,
    which instantiates the remote object; [up]: [common.is_system_up()]
    when an exception arrives. *)
Definition bind_dirsvc_peer (api_loaded up : bool) (connect : Endpoint → res nat)
    (r : peer_record) : thread wstate unit :=
  ttry
    (if is_dirsvc me then tret tt
     else
       let rid := py_or (runtime_id r) (VStr "") in
       let ph := py_or (peer_handle r) (VStr "") in
       tbind (atomic (let! s := get in
                      ret (match dirsvc_api s with Some _ => true | None => false end &&
                           py_eqb (binding_runtime_id s) rid &&
                           py_eqb (binding_peer_handle s) ph))) (λ bound,
       if bound : bool then tret tt
       else if negb api_loaded then tthrow EDEFwNotFound "Directory service API not loaded"
       else
         tbind (atomic (dirsvc_peer_still_ready (Some r))) (λ ready,
         if negb ready then tret tt
         else
           tbind (TDone (rbind (peer_endpoint r) connect)) (λ api,
           tbind (atomic (dirsvc_peer_still_ready (Some r))) (λ ready,
           if negb ready then tret tt
           else atomic (modify (set_binding (Some api) rid ph)))))))
    (λ e, if up then TDone (Raise e) else tret tt).

(** ** The event loop *)

Definition spawn (t : task) : M wstate unit := modify (λ s, set_tasks (tasks s ++ [t]) s).

Definition on_peers {A} (m : M peer_table A) : M wstate A :=
  λ s, let '(t', o) := m (peer_tbl s) in (set_peer_tbl t' s, o).

Definition handle_peer_event (clock : Z) (event : pydict) : M wstate unit :=
  let! record := on_peers (apply_event parent clock event) in
  spawn (TaskDirectory event) ;;;
  modify (λ s, set_peer_events (peer_events s ++ [event]) s) ;;;
  fail_pending_peer_requests event ;;;
  clear_dirsvc_peer event ;;;
  (if is_ready_dirsvc_peer event record then spawn (TaskBindDirsvc record) else ret tt) ;;;
  notify_peer_event_listeners event.

Definition find_request (u : nat) : M wstate work_request :=
  let! s := get in
  match dget (req_db s) u with
  | Some wr => ret wr
  | None => throw EKeyError ""
  end.

(** The body of the [while] loop of [WorkerThread.handle] for one event;
    [true] ends the loop. *)
Definition handle_event (clock : Z) (we : worker_event) : M wstate bool :=
  match we with
  | EvRequest uuid msg => spawn (TaskRpc msg uuid) ;;; ret false
  | EvResponse uuid msg =>
      try_with
        (match msg with
         | None => throw ETypeError "'NoneType' object is not subscriptable"
         | Some y =>
             let! wr := find_request (rsp_uuid y) in
             modify (λ s, set_req_db (ddel (req_db s) (rsp_uuid y)) s) ;;;
             put_queue wr we
         end)
        (λ _, ret tt) ;;;
      ret false
  | EvConnComplete status uuid =>
      try_with (let! wr := find_request uuid in put_queue wr we) (λ _, ret tt) ;;;
      ret false
  | EvPeer event => handle_peer_event clock event ;;; ret false
  | EvShutdown =>
      let! s := get in
      for_each (λ wr, put_queue wr we) (dvals (req_db s)) ;;;
      modify (set_stopped true) ;;;
      ret true
  end.

(** One turn of the loop: nothing happens while the queue is empty. *)
Definition handle_step (clock : Z) : M wstate bool :=
  let! s := get in
  if stopped s then ret true
  else match inbox s with
       | [] => ret false
       | we :: rest => modify (set_inbox rest) ;;; handle_event clock we
       end.

(** ** What the transport calls *)

Definition put_ev (we : worker_event) : M wstate unit :=
  modify (λ s, set_inbox (inbox s ++ [we]) s).

(** A message that does not decode is dropped. *)
Definition put_request (decoded : res (option rpc_req)) (uuid : val) : M wstate unit :=
  try_with (let! msg := lift_res decoded in put_ev (EvRequest uuid msg)) (λ _, ret tt).

Definition put_response (decoded : res (option rpc_rsp)) (uuid : val) : M wstate unit :=
  try_with (let! msg := lift_res decoded in put_ev (EvResponse uuid msg)) (λ _, ret tt).

Definition put_connect_complete (status : Z) (uuid : nat) : M wstate unit :=
  put_ev (EvConnComplete status uuid).

Definition put_peer_event (event : pydict) : M wstate unit :=
  if negb (py_in_list (vget event "event_type") PEER_EVENT_TYPES) then
    throw EDEFwError "Bad peer event type"
  else if negb (dmem event "peer_handle") then
    throw EDEFwError "Peer lifecycle event missing peer_handle"
  else put_ev (EvPeer event).

Definition put_shutdown : M wstate unit := put_ev EvShutdown.

Definition get_peer_events : M wstate (list pydict) := λ s, (s, Ok (peer_events s)).

(** ** What the client side calls *)

(** [WorkerRequest.__init__]: a fresh uuid, a queue when it blocks. *)
Definition new_work_request (kind : nat → wr_body) (time timeout : Z) (blk : bool) :
    M wstate work_request :=
  let! s := get in
  let u := next_uuid s in
  modify (set_next_uuid (S u)) ;;;
  (if blk then modify (λ s, set_queues (dset (queues s) u []) s) else ret tt) ;;;
  ret (WorkRequest u (kind u) (time + timeout) blk).

(** A blocking call goes on to wait on its queue. *)
Inductive started :=
  | Waiting (u : nat)
  | Returned (rc : Z).

(** [send_req]: [encoded] is what [attach_encode] returned, [rc] the
    transport's answer. *)
Definition send_req (encoded : res string) (rc : Z) (wr : work_request) : M wstate started :=
  (if blocking wr then add_work_request wr else ret tt) ;;;
  let! _ := lift_res encoded in
  if negb (rc =? 0) then throw EDEFwCommError "Sending failed"
  else if blocking wr then ret (Waiting (wr_uuid wr)) else ret (Returned rc).

Definition connect_failure_message (rc2str : Z → string) (ep : Endpoint) (rc : Z) : string :=
  let message := ("Failed to connect to " ++ py_fmt (name ep) ++ " at " ++
                  py_fmt (py_or (hostname ep) (addr ep)) ++ ":" ++
                  py_fmt (listen_port ep) ++ ": " ++ rc2str rc)%string in
  if rc =? EN_DEFW_RC_NOT_STARTED then
    (message ++ ". DEFw is not started in this process: run it under defwp or defw-python, not a plain python3")%string
  else if rc =? EN_DEFW_RC_NO_LISTENER then
    (message ++ ". This process has no DEFw listener: set DEFW_LISTEN_PORT to a free port")%string
  else message.

(** [connect_to_agent]; the transport has one entry point for services and
    one for other processes. *)
Definition connect_to_agent (rc2str : Z → string)
    (connect_to_service connect_to_client : Endpoint → Z) (wr : work_request) (ep : Endpoint) :
    M wstate started :=
  (if blocking wr then add_work_request wr else ret tt) ;;;
  on_peers (remember_connect_target (EpObj ep) (VStr CONNECTION_OUTBOUND)) ;;;
  let rc := if is_service ep then connect_to_service ep else connect_to_client ep in
  if negb (rc =? 0) && negb (rc =? EN_DEFW_RC_IN_PROGRESS) then
    (if blocking wr then remove_work_request wr else ret tt) ;;;
    throw EDEFwError (connect_failure_message rc2str ep rc)
  else if blocking wr then ret (Waiting (wr_uuid wr)) else ret (Returned rc).
End Worker.
