(* ===== verification/WorkersFacts.v ===== *)
(** * Properties of the worker

    A request is completed at most once, by a response or by the loss of its
    peer; waiting always ends; losing a peer fails exactly the requests sent to
    it; shutting down wakes every caller; the directory binding follows the
    peer it was made for, except in one interleaving. *)

From S2P Require Import Prelude PyDict PyVal Agent Peers Threads Rpc Workers.

Local Open Scope string_scope.
Local Open Scope Z_scope.
Local Open Scope list_scope.
Import PyNotations.

(** ** Waiting *)

(** A turn without an event took at least a tick: [queue.get(timeout=1)]
    returns early only with an event. *)
Fixpoint ticking (t : Z) (turns : list turn) : Prop :=
  match turns with
  | [] => True
  | tk :: turns' => (got tk = None → t + 1 <= now tk) ∧ t <= now tk ∧ ticking (now tk) turns'
  end.

Lemma wait_loop_ends dl expected t turns :
  (length expected ≤ 1)%nat → ticking t turns → dl - t <= Z.of_nat (length turns) →
  is_Some (wait_loop dl expected t turns).
Proof.
  intros He. revert t. induction turns as [|[up ev t'] turns IH]; intros t Ht Hl; simpl in *.
  - destruct (Z.ltb_spec t dl); [lia | done].
  - destruct (t <? dl); [|done]. destruct up; simpl; [|done].
    destruct Ht as (H1 & H2 & H3).
    destruct ev as [[| |st u| |]|]; try done.
    + destruct expected as [|e [|]]; simpl in *; [done| |lia]. by destruct (e =? _).
    + apply IH; [done|]. specialize (H1 eq_refl). lia.
Qed.

(** C6. Waiting for a work request ends: if every turn of the loop that finds
    the queue empty takes at least one tick, the call has returned or raised
    after as many turns as there are ticks left to its deadline. *)
Theorem wait_terminates (wr : work_request) (t : Z) (turns : list turn) :
  ticking t turns → deadline wr - t <= Z.of_nat (length turns) →
  is_Some (wait wr t turns).
Proof.
  intros Ht Hl. unfold wait. destruct (blocking wr); [|done].
  apply wait_loop_ends; try done. by destruct wr as [? [] ? ?].
Qed.

(** The outcome of the event a wait ends with. *)
Definition outcome (wr : work_request) (we : worker_event) : res wait_result :=
  match we with
  | EvConnComplete status _ =>
      match wr_kind wr with
      | WrConnect _ => Ok (WStatus status)
      | WrSendMsg _ _ _ => Raise (Exc EDEFwCommError "expected CONN_COMPLETE got EVENT_CONN_COMPLETE")
      end
  | EvShutdown => Ok WNothing
  | EvPeer event => Raise (Exc EDEFwCommError (loss_message event))
  | EvResponse _ msg => Ok (WMessage msg)
  | EvRequest _ msg => Ok (WRequest msg)
  end.

Lemma wait_loop_skip dl expected t idle rest :
  Forall (λ tk, system_up tk = true ∧ got tk = None ∧ now tk < dl) idle → t < dl →
  ∃ t', t' < dl ∧ wait_loop dl expected t (idle ++ rest) = wait_loop dl expected t' rest.
Proof.
  revert t. induction idle as [|[up ev t'] idle IH]; intros t Hi Ht; [by exists t|].
  apply Forall_cons in Hi as [(Hup & Hg & Hn) Hi]. simpl in *. subst.
  rewrite (proj2 (Z.ltb_lt t dl)) by done. simpl. by apply IH.
Qed.

(** A blocking call returns what the first event in its queue says, when
    that event arrives before the deadline: a response its message, a
    connection result its status, the loss of the peer or an unexpected event
    a [DEFwCommError], a shutdown nothing. *)
Theorem wait_first_event (wr : work_request) (t : Z) (idle : list turn) (we : worker_event)
    (t' : Z) (rest : list turn) :
  blocking wr = true → t < deadline wr →
  Forall (λ tk, system_up tk = true ∧ got tk = None ∧ now tk < deadline wr) idle →
  wait wr t (idle ++ Turn true (Some we) t' :: rest) = Some (outcome wr we).
Proof.
  intros Hb Ht Hi. unfold wait. rewrite Hb.
  destruct (wait_loop_skip (deadline wr) (expected_events wr) t idle
              (Turn true (Some we) t' :: rest) Hi Ht) as (t'' & Hlt & ->).
  simpl. rewrite (proj2 (Z.ltb_lt t'' _)) by done. simpl. unfold expected_events, outcome.
  by destruct we, (wr_kind wr).
Qed.

(** ** Queues *)

Definition put_in (we : worker_event) (q : odict nat (list worker_event)) (wr : work_request) :
    odict nat (list worker_event) :=
  dset q (wr_uuid wr) (dget_or q (wr_uuid wr) [] ++ [we]).

Lemma put_queue_run wr we s :
  blocking wr = true → put_queue wr we s = (set_queues (put_in we (queues s) wr) s, Ok tt).
Proof. unfold put_queue. by intros ->. Qed.

Lemma put_queues_run we wrs s :
  Forall (λ wr, blocking wr = true) wrs →
  for_each (λ wr, put_queue wr we) wrs s =
  (set_queues (fold_left (put_in we) wrs (queues s)) s, Ok tt).
Proof.
  intros Hb; revert s; induction Hb as [|wr wrs Hwr _ IH]; intros s; simpl; [by destruct s|].
  unfold bind. rewrite put_queue_run by done. rewrite IH. by destruct s.
Qed.

Lemma dget_put_in we q wr u :
  dget (put_in we q wr) u =
  if decide (u = wr_uuid wr) then Some (dget_or q u [] ++ [we]) else dget q u.
Proof. unfold put_in. rewrite dget_dset. repeat case_decide; congruence. Qed.

Lemma dget_put_all we wrs q u :
  NoDup (map wr_uuid wrs) →
  dget (fold_left (put_in we) wrs q) u =
  if decide (u ∈ map wr_uuid wrs) then Some (dget_or q u [] ++ [we]) else dget q u.
Proof.
  revert q; induction wrs as [|wr wrs IH]; intros q Hnd; simpl.
  { done. }
  apply NoDup_cons in Hnd as [Hn Hnd]. rewrite IH by done.
  unfold dget_or. rewrite !dget_put_in.
  destruct (decide (u ∈ map wr_uuid wrs)) as [Hin|Hin], (decide (u = wr_uuid wr)) as [->|Hne],
    (decide (_ ∈ wr_uuid wr :: map wr_uuid wrs)) as [Hc|Hc]; rewrite ?elem_of_cons in Hc;
    try done; exfalso; tauto.
Qed.

Lemma dict_ok_put_all we wrs q : dict_ok q → dict_ok (fold_left (put_in we) wrs q).
Proof.
  revert q; induction wrs as [|wr wrs IH]; intros q Hq; [done|]. simpl. apply IH.
  by apply dict_ok_dset.
Qed.

(** ** The invariant of the pending requests *)

(** A response or the loss of the peer completes a request. *)
Definition completes (we : worker_event) : bool :=
  match we with EvResponse _ _ | EvPeer _ => true | _ => false end.

Definition completions (q : list worker_event) : nat := length (List.filter completes q).

Definition pending (s : wstate) (u : nat) : bool := dmem (req_db s) u.

Record winv (s : wstate) : Prop := {
  w_db : dict_ok (req_db s);
  w_queues : dict_ok (queues s);
  w_pending : ∀ u wr, dget (req_db s) u = Some wr →
    wr_uuid wr = u ∧ blocking wr = true ∧ (u < next_uuid s)%nat ∧ is_Some (dget (queues s) u);
  w_once : ∀ u q, dget (queues s) u = Some q →
    (u < next_uuid s)%nat ∧ (completions q + (if pending s u then 1 else 0) ≤ 1)%nat
}.

Lemma winv_init : winv init_wstate.
Proof. split; [constructor | constructor | done | done]. Qed.

(** Everything else in the state is irrelevant to it. *)
Lemma winv_frame s s' :
  req_db s' = req_db s → queues s' = queues s → next_uuid s' = next_uuid s → winv s → winv s'.
Proof.
  intros E1 E2 E3 []. split; unfold pending; rewrite ?E1, ?E2, ?E3; done.
Qed.

Lemma completions_app q1 q2 : completions (q1 ++ q2) = (completions q1 + completions q2)%nat.
Proof. unfold completions. by rewrite List.filter_app, length_app. Qed.

Lemma pending_uuids s :
  winv s → map wr_uuid (dvals (req_db s)) = dkeys (req_db s).
Proof.
  intros [Hd _ Hp _]. unfold dvals, dkeys. rewrite map_map. apply map_ext_in.
  intros [u wr] Hin%list_elem_of_In. simpl. by destruct (Hp u wr (dget_In _ _ _ Hd Hin)).
Qed.

Lemma pending_blocking s : winv s → Forall (λ wr, blocking wr = true) (dvals (req_db s)).
Proof.
  intros [Hd _ Hp _]. apply Forall_forall. intros wr ([u wr'] & Hin & ->)%list_map_In.
  by destruct (Hp u wr' (dget_In _ _ _ Hd Hin)) as (_ & ? & _).
Qed.

(** The uuids of the pending requests that satisfy [P]. *)
Lemma selected_uuids s (P : work_request → bool) u :
  winv s →
  u ∈ map wr_uuid (List.filter P (dvals (req_db s))) ↔
  ∃ wr, dget (req_db s) u = Some wr ∧ P wr = true.
Proof.
  intros [Hd _ Hp _]. rewrite list_map_In. split.
  - intros (wr & [([u' wr'] & Hin & ->)%list_map_In HP]%list_filter_In & ->). simpl in *.
    pose proof (dget_In _ _ _ Hd Hin) as Hg. destruct (Hp _ _ Hg) as (-> & _). eauto.
  - intros (wr & Hg & HP). exists wr. destruct (Hp _ _ Hg) as (<- & _). split; [|done].
    apply list_filter_In. split; [|done]. apply list_map_In.
    exists (wr_uuid wr, wr). split; [by apply dget_Some_In | done].
Qed.

Lemma NoDup_map_filter {A B} (f : A → B) (P : A → bool) (l : list A) :
  NoDup (map f l) → NoDup (map f (List.filter P l)).
Proof.
  induction l as [|x l IH]; simpl; [done|]. rewrite NoDup_cons. intros [Hn Hnd].
  destruct (P x); simpl; [|auto]. apply NoDup_cons. split; [|auto]. intros Hin. apply Hn.
  apply list_map_In in Hin as (y & [Hy _]%list_filter_In & ->). apply list_map_In. eauto.
Qed.

Lemma selected_nodup s P : winv s → NoDup (map wr_uuid (List.filter P (dvals (req_db s)))).
Proof. intros Hw. apply NoDup_map_filter. rewrite pending_uuids by done. apply Hw. Qed.

(** Completing the pending requests that satisfy [P] with one event each. *)
Definition complete_all (P : work_request → bool) (we : worker_event) (s : wstate) : wstate :=
  set_queues (fold_left (put_in we) (List.filter P (dvals (req_db s))) (queues s))
    (set_req_db (List.filter (λ p, negb (P p.2)) (req_db s)) s).

Lemma complete_all_effect (P : work_request → bool) we s u :
  winv s →
  match dget (req_db s) u with
  | Some wr =>
      if P wr then dget (req_db (complete_all P we s)) u = None ∧
                   dget (queues (complete_all P we s)) u = Some (dget_or (queues s) u [] ++ [we])
      else dget (req_db (complete_all P we s)) u = Some wr ∧
           dget (queues (complete_all P we s)) u = dget (queues s) u
  | None => dget (req_db (complete_all P we s)) u = None ∧
            dget (queues (complete_all P we s)) u = dget (queues s) u
  end.
Proof.
  intros Hw. unfold complete_all. simpl. rewrite dget_filter by apply Hw.
  rewrite dget_put_all by by apply selected_nodup.
  pose proof (selected_uuids s P u Hw) as Hsel.
  destruct (dget (req_db s) u) as [wr|] eqn:E; simpl.
  - destruct (P wr) eqn:EP; simpl; (split; [done|]).
    + case_decide as Hu; [done|]. destruct Hu. apply Hsel. eauto.
    + case_decide as Hu; [|done]. apply Hsel in Hu as (? & ? & ?). congruence.
  - split; [done|]. case_decide as Hu; [|done]. by apply Hsel in Hu as (? & ? & ?).
Qed.

Lemma winv_complete_all P we s : completes we = true → winv s → winv (complete_all P we s).
Proof.
  intros Hc Hw. pose proof (complete_all_effect P we s) as He. destruct Hw as [Hd Hq Hp Ho].
  assert (winv s) as Hw by by split. split.
  - by apply dict_ok_filter.
  - by apply dict_ok_put_all.
  - intros u wr Hg. specialize (He u Hw). destruct (dget (req_db s) u) as [wr'|] eqn:E.
    + destruct (Hp _ _ E) as (? & ? & ? & ?).
      destruct (P wr'); destruct He as [He1 He2]; rewrite He1 in Hg; simplify_eq.
      by rewrite He2.
    + destruct He as [He1 _]. congruence.
  - intros u q Hg. specialize (He u Hw). unfold pending, dmem.
    destruct (dget (req_db s) u) as [wr'|] eqn:E.
    + destruct (Hp _ _ E) as (? & ? & ? & [q' Hq']). pose proof (Ho _ _ Hq') as [? Hle].
      unfold pending, dmem in Hle. rewrite E in Hle.
      destruct (P wr'); destruct He as [He1 He2]; rewrite He1; rewrite He2 in Hg.
      * unfold dget_or in Hg. rewrite Hq' in Hg. simplify_eq. rewrite completions_app.
        unfold completions at 2. simpl. rewrite Hc. simpl. split; [done | lia].
      * simplify_eq. done.
    + destruct He as [He1 He2]. rewrite He1. rewrite He2 in Hg. pose proof (Ho _ _ Hg) as Hle.
      unfold pending, dmem in Hle. by rewrite E in Hle.
Qed.

(** An event that completes nothing put into some pending queues. *)
Lemma winv_put_all we wrs s :
  completes we = false → NoDup (map wr_uuid wrs) →
  (∀ wr, wr ∈ wrs → is_Some (dget (req_db s) (wr_uuid wr))) → winv s →
  winv (set_queues (fold_left (put_in we) wrs (queues s)) s).
Proof.
  intros Hc Hnd Hin Hw. destruct Hw as [Hd Hq Hp Ho]. split; simpl; [done|by apply dict_ok_put_all| |].
  - intros u wr Hg. destruct (Hp _ _ Hg) as (? & ? & ? & ?). split_and!; try done.
    rewrite dget_put_all by done. by case_decide.
  - intros u q. rewrite dget_put_all by done. case_decide as Hu; [|by apply Ho].
    apply list_map_In in Hu as (wr & Hwr & ->). destruct (Hin wr Hwr) as [wr' Hg].
    destruct (Hp _ _ Hg) as (_ & _ & ? & [q' Hq']). unfold dget_or. rewrite Hq'.
    intros [= <-]. rewrite completions_app. unfold completions at 2. simpl. rewrite Hc. simpl.
    destruct (Ho _ _ Hq'). split; [done|]. unfold pending in *. simpl. lia.
Qed.

(** ** The operations in closed form *)

Lemma fail_pending_run event s :
  winv s →
  fail_pending_peer_requests event s =
  (if is_loss_event event
   then complete_all (λ wr, work_request_targets_peer wr event) (EvPeer event) s else s, Ok tt).
Proof.
  intros Hw. unfold fail_pending_peer_requests. destruct (is_loss_event event); [|done].
  cbn [negb]. unfold bind, get, modify. pose proof (pending_blocking s Hw) as Hb.
  rewrite Forall_forall in Hb.
  erewrite (for_each_ext _ (λ wr, put_queue wr (EvPeer event))).
  - rewrite put_queues_run; [done|]. apply Forall_forall.
    intros wr [Hin _]%list_filter_In. auto.
  - intros wr s' [Hin _]%list_filter_In. unfold fail_one. by rewrite Hb.
Qed.

Section handler.
Context (call_listener : nat → pydict → res unit) (parent : parent_cfg) (me : Endpoint).
Local Abbreviation handle_event := (handle_event call_listener parent me).

Definition answers (u : nat) (wr : work_request) : bool := bool_decide (wr_uuid wr = u).

Lemma answers_true u wr : wr_uuid wr = u → answers u wr = true.
Proof. unfold answers. by intros ->; apply bool_decide_true. Qed.

Lemma answers_false u wr : wr_uuid wr ≠ u → answers u wr = false.
Proof. unfold answers. by intros; apply bool_decide_false. Qed.

Lemma find_request_run u s :
  find_request u s = match dget (req_db s) u with
                     | Some wr => (s, Ok wr)
                     | None => (s, Raise (Exc EKeyError ""))
                     end.
Proof. unfold find_request, bind, get. by destruct (dget (req_db s) u). Qed.

Lemma response_run clock uuid y s :
  winv s →
  handle_event clock (EvResponse uuid (Some y)) s =
  (if pending s (rsp_uuid y)
   then complete_all (answers (rsp_uuid y)) (EvResponse uuid (Some y)) s else s, Ok false).
Proof.
  intros Hw. unfold Workers.handle_event, bind, try_with, modify, ret. rewrite find_request_run.
  unfold pending, dmem. destruct (dget (req_db s) (rsp_uuid y)) as [wr|] eqn:E; [|done].
  destruct (w_pending _ Hw _ _ E) as (Hu & Hb & _). rewrite put_queue_run by done.
  unfold complete_all, answers.
  rewrite (filter_own_key (req_db s) wr_uuid (rsp_uuid y) wr (w_db _ Hw));
    [|by intros u0 wr0 H0; destruct (w_pending _ Hw _ _ H0)|done].
  simpl. do 3 f_equal. unfold ddel. apply List.filter_ext_in.
  intros [u wr'] Hin%list_elem_of_In. simpl.
  destruct (w_pending _ Hw u wr') as (-> & _); [apply dget_In; [apply Hw | done]|].
  rewrite <- bool_decide_not. done.
Qed.

Lemma conn_complete_run clock status u s :
  winv s →
  handle_event clock (EvConnComplete status u) s =
  (match dget (req_db s) u with
   | Some wr => set_queues (put_in (EvConnComplete status u) (queues s) wr) s
   | None => s
   end, Ok false).
Proof.
  intros Hw. unfold Workers.handle_event, bind, try_with, ret. rewrite find_request_run.
  destruct (dget (req_db s) u) as [wr|] eqn:E; [|done].
  destruct (w_pending _ Hw _ _ E) as (Hu & Hb & _). by rewrite put_queue_run.
Qed.

Lemma shutdown_run clock s :
  winv s →
  handle_event clock EvShutdown s =
  (set_stopped true
     (set_queues (fold_left (put_in EvShutdown) (dvals (req_db s)) (queues s)) s), Ok true).
Proof.
  intros Hw. unfold Workers.handle_event, bind, get, modify, ret.
  by rewrite put_queues_run by by apply pending_blocking.
Qed.

(** ** Preservation *)

Definition keeps {A} (m : M wstate A) : Prop := ∀ s, winv s → winv (m s).1.

Lemma keeps_ret {A} (a : A) : keeps (ret a).
Proof. by intros s. Qed.

Lemma keeps_bind {A B} (m : M wstate A) (k : A → M wstate B) :
  keeps m → (∀ a, keeps (k a)) → keeps (bind m k).
Proof.
  intros Hm Hk s Hs. unfold bind. specialize (Hm s Hs).
  destruct (m s) as [s' [a|e]]; simpl in *; [by apply Hk | done].
Qed.

Lemma keeps_try {A} (m : M wstate A) h : keeps m → (∀ e, keeps (h e)) → keeps (try_with m h).
Proof.
  intros Hm Hh s Hs. unfold try_with. specialize (Hm s Hs).
  destruct (m s) as [s' [a|e]]; simpl in *; [done | by apply Hh].
Qed.

Lemma keeps_for_each {A} (f : A → M wstate unit) l : (∀ x, keeps (f x)) → keeps (for_each f l).
Proof. intros Hf s Hs. apply for_each_inv; [|done]. intros x s' Hs'. by apply Hf. Qed.

Lemma keeps_frame {A} (m : M wstate A) :
  (∀ s, req_db (m s).1 = req_db s ∧ queues (m s).1 = queues s ∧
        next_uuid (m s).1 = next_uuid s) → keeps m.
Proof. intros Hm s Hs. destruct (Hm s) as (? & ? & ?). by eapply winv_frame. Qed.

Lemma keeps_fail_pending event : keeps (fail_pending_peer_requests event).
Proof.
  intros s Hs. rewrite fail_pending_run by done. simpl.
  case_match; [by apply winv_complete_all | done].
Qed.

Lemma keeps_handle_peer_event clock event :
  keeps (handle_peer_event call_listener parent me clock event).
Proof.
  unfold handle_peer_event. apply keeps_bind; [apply keeps_frame|].
  { intros s. unfold on_peers. by destruct (apply_event parent clock event (peer_tbl s)). }
  intros record. apply keeps_bind; [by apply keeps_frame|intros _].
  apply keeps_bind; [by apply keeps_frame|intros _].
  apply keeps_bind; [apply keeps_fail_pending|intros _].
  apply keeps_bind.
  { apply keeps_frame. intros s. unfold clear_dirsvc_peer, bind, get, modify, ret.
    by repeat case_match. }
  intros _. apply keeps_bind; [case_match; by apply keeps_frame|intros _].
  unfold notify_peer_event_listeners. apply keeps_bind; [by apply keeps_frame|].
  intros s. apply keeps_for_each. intros l. apply keeps_try; [|by intros; apply keeps_ret].
  by apply keeps_bind; [|intros []]; apply keeps_frame.
Qed.

Lemma keeps_handle_event clock we : keeps (handle_event clock we).
Proof.
  intros s Hs. destruct we as [uuid msg|uuid [y|]|status u| |event].
  - by apply (winv_frame s).
  - rewrite response_run by done. simpl. case_match; [by apply winv_complete_all | done].
  - done.
  - rewrite conn_complete_run by done. simpl.
    destruct (dget (req_db s) u) as [wr|] eqn:E; [|done].
    apply (winv_put_all (EvConnComplete status u) [wr]); try done; [by apply NoDup_singleton|].
    intros wr' ->%list_elem_of_singleton. destruct (w_pending _ Hs _ _ E) as (-> & _). by eexists.
  - rewrite shutdown_run by done. simpl.
    eapply (winv_frame (set_queues _ s)); [done..|]. apply winv_put_all; try done.
    + rewrite pending_uuids by done. apply Hs.
    + intros wr ([u wr'] & Hin & ->)%list_map_In. simpl.
      pose proof (dget_In _ _ _ (w_db _ Hs) Hin) as Hg.
      destruct (w_pending _ Hs _ _ Hg) as (-> & _). by eexists.
  - unfold Workers.handle_event, bind. pose proof (keeps_handle_peer_event clock event s Hs).
    by destruct (handle_peer_event _ _ _ _ _ _) as [s' [[]|e]].
Qed.

(** ** Reachable states

    The transport puts events, the worker takes them, application threads
    send, connect, add listeners, and bind the directory.  An exception that
    leaves the loop ends the worker thread. *)

Definition worker_turn (clock : Z) (s : wstate) : wstate :=
  match handle_step call_listener parent me clock s with
  | (s', Ok _) => s'
  | (s', Raise _) => set_stopped true s'
  end.

Inductive wstep : wstate → wstate → Prop :=
  | ws_put s we : wstep s (put_ev we s).1
  | ws_turn s clock : wstep s (worker_turn clock s)
  | ws_send s kind time timeout blk encoded rc :
      wstep s (bind (new_work_request kind time timeout blk) (send_req encoded rc) s).1
  | ws_connect s ep time timeout blk rc2str f g :
      wstep s (bind (new_work_request (λ _, WrConnect ep) time timeout blk)
                 (λ wr, connect_to_agent rc2str f g wr ep) s).1
  | ws_add_listener s c l : wstep s (add_peer_event_listener c l s).1
  | ws_remove_listener s l : wstep s (remove_peer_event_listener l s).1
  | ws_bind s api rid ph : wstep s (set_binding api rid ph s).

Definition reachable (s : wstate) : Prop := rtc wstep init_wstate s.

(** A new request: not pending yet, an empty queue when it blocks. *)
Lemma new_request_winv kind time timeout blk s :
  winv s →
  ∃ s', new_work_request kind time timeout blk s =
          (s', Ok (WorkRequest (next_uuid s) (kind (next_uuid s)) (time + timeout) blk)) ∧
    winv s' ∧ next_uuid s' = S (next_uuid s) ∧ req_db s' = req_db s ∧
    dget (req_db s) (next_uuid s) = None ∧
    dget (queues s') (next_uuid s) = if blk then Some [] else dget (queues s) (next_uuid s).
Proof.
  intros [Hd Hq Hp Ho]. assert (dget (req_db s) (next_uuid s) = None) as Hn.
  { destruct (dget (req_db s) (next_uuid s)) as [wr|] eqn:E; [|done].
    destruct (Hp _ _ E) as (_ & _ & ? & _). lia. }
  unfold new_work_request, bind, get, modify, ret.
  destruct blk; (eexists; split; [done|]); simpl; split_and!; try done.
  - split; simpl; [done | by apply dict_ok_dset| |].
    + intros u wr Hg. destruct (Hp _ _ Hg) as (? & ? & ? & ?). split_and!; try done; [lia|].
      rewrite dget_dset. by case_decide.
    + intros u q. rewrite dget_dset. unfold pending, dmem. simpl. case_decide; subst.
      * intros [= <-]. rewrite Hn. simpl. lia.
      * intros Hg. destruct (Ho _ _ Hg). split; [lia | done].
  - apply dget_dset_eq.
  - split; simpl; try done.
    + intros u wr Hg. destruct (Hp _ _ Hg) as (? & ? & ? & ?). split_and!; try done. lia.
    + intros u q Hg. destruct (Ho _ _ Hg). split; [lia | done].
Qed.

(** The new request becomes pending. *)
Lemma add_request_winv wr s :
  winv s → dget (req_db s) (wr_uuid wr) = None → blocking wr = true →
  (wr_uuid wr < next_uuid s)%nat → dget (queues s) (wr_uuid wr) = Some [] →
  winv (add_work_request wr s).1.
Proof.
  intros [Hd Hq Hp Ho] Hn Hb Hlt Hg. split; simpl; [by apply dict_ok_dset | done| |].
  - intros u wr'. rewrite dget_dset. case_decide; [|by apply Hp]. intros [= <-]. subst.
    by split_and!.
  - intros u q Hu. destruct (Ho _ _ Hu) as [? Hle]. split; [done|].
    unfold pending, dmem in *. simpl. rewrite dget_dset. case_decide; [|done]. subst.
    rewrite Hg in Hu. by simplify_eq.
Qed.

Lemma remove_request_winv wr s : winv s → winv (remove_work_request wr s).1.
Proof.
  intros [Hd Hq Hp Ho]. split; simpl; [by apply dict_ok_ddel | done| |].
  - intros u wr'. rewrite dget_ddel. case_decide; [done|]. apply Hp.
  - intros u q Hu. destruct (Ho _ _ Hu) as [? Hle]. split; [done|].
    unfold pending, dmem in *. simpl. rewrite dget_ddel. case_decide; [|done]. simpl.
    case_match; lia.
Qed.

Lemma wstep_winv s s' : wstep s s' → winv s → winv s'.
Proof.
  destruct 1 as [s we|s clock|s kind time timeout blk encoded rc
                |s ep time timeout blk rc2str f g|s c l|s l|s api rid ph]; intros Hs.
  - by apply (winv_frame s).
  - unfold worker_turn, handle_step, bind, get, modify, ret.
    destruct (stopped s); [done|]. destruct (inbox s) as [|we rest]; [done|].
    assert (winv (set_inbox rest s)) as Hs' by by apply (winv_frame s).
    pose proof (keeps_handle_event clock we _ Hs') as Hk.
    destruct (handle_event clock we (set_inbox rest s)) as [s' [b|e]]; [done|].
    by apply (winv_frame s').
  - destruct (new_request_winv kind time timeout blk s Hs) as (s1 & E & H1 & Hn & Hdb & Hf & Hq).
    unfold bind at 1. rewrite E. unfold send_req, bind, lift_res, throw, ret. simpl.
    destruct blk.
    + assert (winv (add_work_request (WorkRequest (next_uuid s) (kind (next_uuid s))
                      (time + timeout) true) s1).1) as Ha.
      { apply add_request_winv; simpl; try done; [by rewrite Hdb | lia]. }
      by repeat case_match; simplify_eq.
    + by repeat case_match; simplify_eq.
  - destruct (new_request_winv (λ _, WrConnect ep) time timeout blk s Hs)
      as (s1 & E & H1 & Hn & Hdb & Hf & Hq).
    unfold bind at 1. rewrite E. unfold connect_to_agent.
    assert (keeps (A := started)
      (bind (on_peers (remember_connect_target (EpObj ep) (VStr CONNECTION_OUTBOUND))) (λ _,
        let rc := if is_service ep then f ep else g ep in
        if negb (rc =? 0) && negb (rc =? EN_DEFW_RC_IN_PROGRESS) then
          bind (if blk then remove_work_request (WorkRequest (next_uuid s) (WrConnect ep)
                  (time + timeout) blk) else ret tt)
            (λ _, throw EDEFwError (connect_failure_message rc2str ep rc))
        else if blk then ret (Waiting (next_uuid s)) else ret (Returned rc)))) as Hrest.
    { apply keeps_bind.
      - apply keeps_frame. intros s2. unfold on_peers.
        by destruct (remember_connect_target _ _ (peer_tbl s2)).
      - intros _. cbv zeta. destruct (negb _ && negb _); [|destruct blk; by intros ? ?].
        apply keeps_bind; [|by intros; apply keeps_frame].
        destruct blk; [|apply keeps_ret]. intros s2 ?. by apply remove_request_winv. }
    destruct blk; unfold bind at 1; simpl blocking; cbv iota.
    + apply Hrest. apply (add_request_winv _ s1); simpl; try done; [by rewrite Hdb | lia].
    + by apply Hrest.
  - apply (winv_frame s); try done; unfold add_peer_event_listener, bind, get, modify, ret, throw;
      by repeat case_match; simplify_eq.
  - apply (winv_frame s); try done; unfold remove_peer_event_listener, bind, get, modify, ret;
      by case_match.
  - by apply (winv_frame s).
Qed.

Lemma reachable_winv s : reachable s → winv s.
Proof.
  unfold reachable. generalize winv_init. generalize init_wstate.
  induction 2 as [|s1 s2 s3 Hstep _ IH]; [done|]. apply IH. by eapply wstep_winv.
Qed.

(** C4. In every reachable state of the worker a request has been completed
    at most once, by a response or by the loss of its peer, and is then no
    longer pending; every pending request has a queue, so neither a response
    nor a shutdown finds one it cannot wake. *)
Theorem request_completed_once (s : wstate) (u : nat) :
  reachable s →
  (∀ q, dget (queues s) u = Some q →
     (completions q ≤ 1)%nat ∧ (completions q = 1%nat → pending s u = false)) ∧
  (∀ wr, dget (req_db s) u = Some wr → blocking wr = true ∧ is_Some (dget (queues s) u)).
Proof.
  intros [Hd Hq Hp Ho]%reachable_winv. split.
  - intros q Hg. destruct (Ho _ _ Hg) as [_ Hle]. by destruct (pending s u); (split; [lia|]); [lia|].
  - intros wr Hg. by destruct (Hp _ _ Hg) as (_ & ? & _ & ?).
Qed.

(** C5. Handling a response completes exactly the pending request it names:
    that request leaves the database with the response as the last event of
    its queue; every other request and queue is as before; a response nobody
    waits for changes nothing.  The handler never raises. *)
Theorem response_reaches_request (s : wstate) (clock : Z) (uuid : val) (y : rpc_rsp) :
  reachable s →
  let '(s', o) := handle_event clock (EvResponse uuid (Some y)) s in
  o = Ok false ∧
  if pending s (rsp_uuid y) then
    pending s' (rsp_uuid y) = false ∧
    dget (queues s') (rsp_uuid y) =
      Some (dget_or (queues s) (rsp_uuid y) [] ++ [EvResponse uuid (Some y)]) ∧
    ∀ u, u ≠ rsp_uuid y →
      dget (req_db s') u = dget (req_db s) u ∧ dget (queues s') u = dget (queues s) u
  else s' = s.
Proof.
  intros Hw%reachable_winv. rewrite response_run by done. split; [done|].
  destruct (pending s (rsp_uuid y)) eqn:E; [|done].
  pose proof (complete_all_effect (answers (rsp_uuid y)) (EvResponse uuid (Some y)) s) as He.
  unfold pending, dmem in *. split_and!.
  - specialize (He (rsp_uuid y) Hw). case_match eqn:E'; [|done].
    destruct (w_pending _ Hw _ _ E') as (Hu & _).
    rewrite answers_true in He by done. by destruct He as [-> _].
  - specialize (He (rsp_uuid y) Hw). case_match eqn:E'; [|done].
    destruct (w_pending _ Hw _ _ E') as (Hu & _).
    rewrite answers_true in He by done. by destruct He as [_ ->].
  - intros u Hne. specialize (He u Hw). destruct (dget (req_db s) u) as [wr|] eqn:E'; [|done].
    destruct (w_pending _ Hw _ _ E') as (Hu & _). by rewrite answers_false in He by congruence.
Qed.


(** C26. Shutting down wakes every caller: the event reaches the queue of every
    pending request and the loop ends. *)
Theorem shutdown_wakes_all (s : wstate) (clock : Z) (u : nat) :
  reachable s → pending s u = true →
  let '(s', o) := handle_event clock EvShutdown s in
  o = Ok true ∧ stopped s' = true ∧
  dget (queues s') u = Some (dget_or (queues s) u [] ++ [EvShutdown]).
Proof.
  intros Hw%reachable_winv Hp. rewrite shutdown_run by done. simpl. split_and!; [done..|].
  rewrite dget_put_all by (rewrite pending_uuids by done; apply Hw).
  case_decide as Hu; [done|]. exfalso. apply Hu. rewrite pending_uuids by done.
  by apply dmem_true.
Qed.

(** What stays behind: a blocking request whose send failed is still in
    the database after the exception, and so is a connection request after
    its result was delivered; nothing removes either before a shutdown.  A
    refused connection, by contrast, is removed. *)
Theorem requests_left_pending (s : wstate) (wr : work_request) (ep : Endpoint)
    (encoded : string) (rc status clock : Z) (rc2str : Z → string) (f g : Endpoint → Z) :
  reachable s → blocking wr = true → rc ≠ 0 → rc ≠ EN_DEFW_RC_IN_PROGRESS →
  (∀ e, f e = rc) → (∀ e, g e = rc) →
  (raises EDEFwCommError (send_req (Ok encoded) rc wr s).2 = true ∧
   pending (send_req (Ok encoded) rc wr s).1 (wr_uuid wr) = true) ∧
  (∀ u, pending s u = true →
     pending (handle_event clock (EvConnComplete status u) s).1 u = true) ∧
  (is_ok (remember_connect_target (EpObj ep) (VStr CONNECTION_OUTBOUND) (peer_tbl s)).2 = true →
   raises EDEFwError (connect_to_agent rc2str f g wr ep s).2 = true ∧
   pending (connect_to_agent rc2str f g wr ep s).1 (wr_uuid wr) = false).
Proof.
  intros Hw%reachable_winv Hb Hrc Hip Hf Hg.
  assert (negb (rc =? 0) = true) as E1 by (destruct (Z.eqb_spec rc 0); done).
  assert (negb (rc =? EN_DEFW_RC_IN_PROGRESS) = true) as E2
    by (destruct (Z.eqb_spec rc EN_DEFW_RC_IN_PROGRESS); done).
  split_and!.
  - unfold send_req, bind, lift_res, throw. by rewrite Hb, E1.
  - unfold send_req, bind, lift_res, throw. rewrite Hb, E1. simpl. unfold pending, dmem. simpl.
    by rewrite dget_dset_eq.
  - intros u Hu. rewrite conn_complete_run by done. simpl. by case_match.
  - intros Hrem. unfold connect_to_agent, bind, throw, on_peers. rewrite Hb. simpl.
    destruct (remember_connect_target _ _ _) as [t' [[]|e]]; simpl in *; [|done].
    destruct (is_service ep); rewrite ?Hf, ?Hg, E1, E2; simpl; (split; [done|]);
      unfold pending, dmem; simpl; by rewrite dget_ddel_eq.
Qed.
End handler.

(** ** The directory binding *)

Section binding.
Context (me : Endpoint).

(** The ids of a loss event and of the binding are compatible: a blank id
    matches everything. *)
Definition same_or_blank (bound id : val) : bool :=
  negb (truthy bound) || negb (truthy id) || py_eqb bound id.

Lemma clear_dirsvc_run event s :
  clear_dirsvc_peer me event s =
  (if is_disconnected_dirsvc_peer me event &&
      same_or_blank (binding_runtime_id s) (vget event "remote_runtime_id") &&
      same_or_blank (binding_peer_handle s) (vget event "peer_handle")
   then set_binding None VNone VNone s else s, Ok tt).
Proof.
  unfold clear_dirsvc_peer, bind, get, modify, ret, same_or_blank.
  destruct (is_disconnected_dirsvc_peer me event); [|done]. simpl.
  assert (∀ v, truthy (py_or v (VStr "")) = truthy v) as Ht
    by (intros v; unfold py_or; by destruct (truthy v) eqn:E).
  assert (∀ v, truthy v = true → py_or v (VStr "") = v) as Hv
    by (intros v E; by apply py_or_truthy).
  rewrite !Ht. destruct (truthy (binding_runtime_id s)), (truthy (vget event "remote_runtime_id")) eqn:E1;
    simpl; rewrite ?(Hv _ E1);
    try (destruct (py_eqb (binding_runtime_id s) (vget event "remote_runtime_id")); simpl; [|done]);
    destruct (truthy (binding_peer_handle s)), (truthy (vget event "peer_handle")) eqn:E2;
    simpl; rewrite ?(Hv _ E2); try done;
    destruct (py_eqb (binding_peer_handle s) (vget event "peer_handle")); done.
Qed.

(** A directory binding lives as long as its peer: a thread that binds a
    peer that stays ready installs the API object under the peer's ids, the
    loss of that peer drops it, and the loss of a directory reached through
    another connection leaves it in place. *)
Theorem binding_follows_peer (connect : Endpoint → res nat) (up : bool) (r : peer_record)
    (ep : Endpoint) (api : nat) (s : wstate) (lost other : pydict) :
  is_dirsvc me = false → dirsvc_api s = None →
  truthy (runtime_id r) = true → truthy (peer_handle r) = true →
  py_eqb (runtime_id r) (runtime_id r) = true → py_eqb (peer_handle r) (peer_handle r) = true →
  (dirsvc_peer_still_ready (Some r) s).2 = Ok true →
  peer_endpoint r = Ok ep → connect ep = Ok api →
  is_disconnected_dirsvc_peer me lost = true →
  vget lost "remote_runtime_id" = runtime_id r → vget lost "peer_handle" = peer_handle r →
  truthy (vget other "peer_handle") = true →
  py_eqb (peer_handle r) (vget other "peer_handle") = false →
  let '(s1, o) := run (bind_dirsvc_peer me true up connect r) s in
  o = Ok tt ∧ dirsvc_api s1 = Some api ∧
  dirsvc_api (clear_dirsvc_peer me lost s1).1 = None ∧
  dirsvc_api (clear_dirsvc_peer me other s1).1 = Some api.
Proof.
  intros Hme Hno Hr Hp Hrr Hpp Hready Hep Hc Hl Hlr Hlp Ho Hne.
  assert (dirsvc_peer_still_ready (Some r) s = (s, Ok true)) as Hs.
  { revert Hready. unfold dirsvc_peer_still_ready, bind, get, lift_res, ret.
    by destruct (get_peer (peer_tbl s) (peer_handle r)); simpl; intros [= ->]. }
  unfold bind_dirsvc_peer. rewrite run_ttry. unfold try_with. rewrite Hme.
  rewrite run_tbind. unfold bind at 1. rewrite run_atomic. unfold bind at 1, get at 1, ret.
  rewrite Hno. cbn [andb negb].
  rewrite run_tbind. unfold bind at 1. rewrite run_atomic, Hs. cbn [negb].
  rewrite Hep. cbn [rbind]. rewrite Hc. rewrite run_tbind. unfold bind at 1. cbn [run].
  rewrite run_tbind. unfold bind at 1. rewrite run_atomic, Hs. cbn [negb].
  rewrite run_atomic. unfold modify. rewrite !py_or_truthy by done.
  rewrite !clear_dirsvc_run, Hl, Hlr, Hlp. simpl. unfold same_or_blank.
  rewrite Hr, Hp, Hrr, Hpp, Ho, Hne. simpl. rewrite !andb_false_r. simpl.
  by split_and!.
Qed.
End binding.

(** ** A concrete worker *)

Module WorkerDemo.
Definition silent (l : nat) (event : pydict) : res unit := Ok tt.
Definition no_parent : parent_cfg := Parent VNone VNone VNone.
Definition ep (id : string) (nt : Z) : Endpoint :=
  MkEndpoint (VStr "") (VInt 0) (VInt 9000) (VInt 1) (VStr id) (VStr "node") (VInt nt) (VStr id)
    (VStr ZERO_UUID).
Definition me : Endpoint := ep "me" EN_DEFW_AGENT.
Definition request : rpc_req :=
  RpcReq me (ep "svc" EN_DEFW_SERVICE) "method_call" "m" "C" "f" None "h" [] [] [] 0 0.

Definition sending : wstate :=
  (bind (new_work_request (λ _, WrSendMsg "svc" (Some "conn-1") request) 100 300 true)
     (send_req (Ok "...") 0) init_wstate).1.

Local Abbreviation reachable := (reachable silent no_parent me).

Lemma sending_reachable : reachable sending.
Proof. apply rtc_once. apply ws_send. Qed.

Definition wr : work_request := WorkRequest 0 (WrSendMsg "svc" (Some "conn-1") request) 400 true.

Definition reply : rpc_rsp :=
  RpcRsp (ep "svc" EN_DEFW_SERVICE) me "response" None (VInt 42) 101 0.

Definition lost (handle : string) : pydict :=
  [("event_type", VStr "PEER_LOST"); ("peer_handle", VStr handle);
   ("remote_runtime_id", VStr "svc"); ("reason", VStr "reset");
   ("node_type", VInt EN_DEFW_DIRSVC); ("timestamp", VInt 120)].

Lemma wait_terminates_witness :
  is_Some (wait wr 397 [Turn true None 398; Turn true None 399; Turn true None 400]).
Proof. apply (wait_terminates wr); simpl; lia. Defined.

Lemma wait_first_event_witness :
  wait wr 100 [Turn true None 101; Turn true (Some (EvPeer (lost "conn-1"))) 102] =
  Some (Raise (Exc EDEFwCommError "Peer disconnected during request: PEER_LOST reset")).
Proof.
  apply (wait_first_event wr 100 [Turn true None 101] (EvPeer (lost "conn-1")) 102 []);
    [reflexivity | simpl; lia | repeat constructor].
Defined.

Lemma request_completed_once_witness :
  (∀ q, dget (queues sending) 0%nat = Some q →
     (completions q ≤ 1)%nat ∧ (completions q = 1%nat → pending sending 0 = false)) ∧
  (∀ w, dget (req_db sending) 0%nat = Some w →
     blocking w = true ∧ is_Some (dget (queues sending) 0%nat)).
Proof. apply (request_completed_once silent no_parent me), sending_reachable. Defined.

Lemma response_reaches_request_witness :
  let '(s', o) := handle_event silent no_parent me 105 (EvResponse (VStr "conn-1") (Some reply))
                    sending in
  pending sending 0 = true ∧ pending s' 0 = false ∧
  dget (queues s') 0%nat = Some [EvResponse (VStr "conn-1") (Some reply)].
Proof.
  pose proof (response_reaches_request silent no_parent me sending 105 (VStr "conn-1") reply
                sending_reachable) as H.
  destruct (handle_event _ _ _ _ _ _) as [s' o]. destruct H as (_ & H1 & H2 & _).
  split_and!; [reflexivity | exact H1 | exact H2].
Defined.


Lemma shutdown_wakes_all_witness :
  let '(s', o) := handle_event silent no_parent me 105 EvShutdown sending in
  o = Ok true ∧ stopped s' = true ∧ dget (queues s') 0%nat = Some [EvShutdown].
Proof. exact (shutdown_wakes_all silent no_parent me sending 105 0 sending_reachable eq_refl). Defined.

Definition second : work_request :=
  WorkRequest 1 (WrSendMsg "svc" (Some "conn-1") request) 400 true.

Lemma requests_left_pending_witness :
  pending (send_req (Ok "...") (-1) second sending).1 1 = true ∧
  pending (handle_event silent no_parent me 105 (EvConnComplete 0 0) sending).1 0 = true.
Proof.
  destruct (requests_left_pending silent no_parent me sending second (ep "svc" EN_DEFW_SERVICE)
              "..." (-1) 0 105 (λ _, "") (λ _, -1) (λ _, -1) sending_reachable)
    as ([_ H1] & H2 & _); [done..|]. split; [exact H1 | by apply H2].
Defined.

(** A directory peer that is ready. *)
Definition dir_record : peer_record :=
  PeerRecord (VStr "conn-1") (VStr "svc")
    [("address", VStr "10.0.0.1"); ("node_name", VStr "dir")] (VStr "") (VStr "OUTBOUND") false
    (VInt 110) (VInt EN_DEFW_DIRSVC) true (VStr "").
Definition ready_state : wstate :=
  set_peer_tbl (PeerTable [(KStr "conn-1", dir_record)] []) init_wstate.
Definition new_api (e : Endpoint) : res nat := Ok 5%nat.

Lemma binding_follows_peer_witness :
  let '(s1, o) := run (bind_dirsvc_peer me true true new_api dir_record) ready_state in
  o = Ok tt ∧ dirsvc_api s1 = Some 5%nat ∧
  dirsvc_api (clear_dirsvc_peer me (lost "conn-1") s1).1 = None ∧
  dirsvc_api (clear_dirsvc_peer me (lost "conn-2") s1).1 = Some 5%nat.
Proof.
  refine (binding_follows_peer me new_api true dir_record _ 5 ready_state (lost "conn-1")
            (lost "conn-2") _ _ _ _ _ _ _ _ _ _ _ _ _ _); reflexivity.
Defined.

(** The interleaving that leaves a stale binding: the binding thread has
    just checked that the peer is ready when the worker handles the loss of
    that peer, finding nothing to clear; the thread then installs the API
    object.  Everything has run to completion without an error, the peer is
    recorded as lost, and the process keeps a directory API for it. *)
Theorem stale_binding_race :
  ∃ s, tsteps (λ t, t = bind_dirsvc_peer me true true new_api dir_record ∨
                    t = atomic (handle_peer_event silent no_parent me 120 (lost "conn-1")))
         (ready_state, []) (s, [TDone (Ok tt); TDone (Ok tt)]) ∧
       dirsvc_api s = Some 5%nat ∧
       (dirsvc_peer_still_ready (Some dir_record) s).2 = Ok false.
Proof.
  set (pool := [bind_dirsvc_peer me true true new_api dir_record;
                atomic (handle_peer_event silent no_parent me 120 (lost "conn-1"))]).
  exists (sched [0; 0; 0; 1; 0]%nat (ready_state, pool)).1.
  split_and!; [|vm_compute; reflexivity..]. unfold tsteps. etrans.
  - apply (spawn_all ready_state [] pool). unfold pool. rewrite !Forall_cons, Forall_nil. auto.
  - pose proof (sched_tsteps (spawnable := λ t, t = bind_dirsvc_peer me true true new_api dir_record ∨
       t = atomic (handle_peer_event silent no_parent me 120 (lost "conn-1")))
       [0; 0; 0; 1; 0]%nat (ready_state, pool)) as H.
    replace (sched [0; 0; 0; 1; 0]%nat (ready_state, pool)) with
      ((sched [0; 0; 0; 1; 0]%nat (ready_state, pool)).1, [TDone (S := wstate) (Ok tt); TDone (Ok tt)])
      in H by (vm_compute; reflexivity). exact H.
Qed.
End WorkerDemo.
