(* ===== verification/DirProcess.v ===== *)
(** * The directory process: worker and directory together
    ([defw_workers.py], [defw_directory.py])

    In the directory process the worker hands every peer event to the
    directory in a temporary thread of its own, so that the directory may see
    the events of a peer in any order.  This file composes both: a run is any
    sequence of turns of the worker and of temporary threads that apply one of
    the events handed over so far. *)

From S2P Require Import Prelude PyDict PyVal Agent Peers Threads Rpc Workers Directory DirectoryFacts DirectoryWitness.

Local Open Scope string_scope.
Local Open Scope Z_scope.
Local Open Scope list_scope.

Section DirProcess.
Context (call_listener : nat → pydict → res unit) (parent : parent_cfg) (me : Endpoint).

Record dir_process := DirProcess { worker : wstate; directory : dir }.

(** The events that temporary threads have still to apply *)
Definition pending_event (t : task) : option pydict :=
  match t with TaskDirectory e => Some e | _ => None end.
Definition pending (s : wstate) : list pydict := omap pending_event (tasks s).

(** A run, with the events the worker handed over and those the directory
    applied, in order *)
Inductive process_run : dir_process → list pydict → list pydict → dir_process → Prop :=
  | run_end p : process_run p [] [] p
  | run_worker p clock we s' o es hs done p' :
      handle_event call_listener parent me clock we (worker p) = (s', o) →
      pending s' = pending (worker p) ++ es →
      process_run (DirProcess s' (directory p)) hs done p' → process_run p (es ++ hs) done p'
  | run_directory p clock e before after hs done p' :
      tasks (worker p) = before ++ TaskDirectory e :: after →
      process_run (DirProcess (set_tasks (before ++ after) (worker p))
                     (apply_peer_event clock e (directory p)).1) hs done p' →
      process_run p hs (e :: done) p'.

(** Every event handed over is applied, once, or still pending. *)
Lemma run_permutation p hs done p' :
  process_run p hs done p' → pending (worker p) ++ hs ≡ₚ done ++ pending (worker p').
Proof.
  induction 1 as [p|p clock we s' o es hs done p' _ Hp _ IH|p clock e before after hs done p' Ht _ IH].
  - simpl. by rewrite app_nil_r.
  - simpl in IH. rewrite Hp in IH. by rewrite app_assoc.
  - simpl in *. unfold pending in *. rewrite Ht. simpl in IH. rewrite omap_app in IH |- *. simpl.
    rewrite <- Permutation_middle. simpl. by rewrite IH.
Qed.

(** Computations of the worker that hand nothing over *)
Definition hands_nothing {A} (m : M wstate A) : Prop := ∀ s, pending (m s).1 = pending s.

Lemma hn_bind {A B} (m : M wstate A) (k : A → M wstate B) :
  hands_nothing m → (∀ a, hands_nothing (k a)) → hands_nothing (bind m k).
Proof.
  intros Hm Hk s. unfold bind. specialize (Hm s). destruct (m s) as [s1 [a|e]]; simpl in *; [|done].
  by rewrite Hk.
Qed.
Lemma hn_try {A} (m : M wstate A) h : hands_nothing m → (∀ e, hands_nothing (h e)) → hands_nothing (try_with m h).
Proof.
  intros Hm Hh s. unfold try_with. specialize (Hm s). destruct (m s) as [s1 [a|e]]; simpl in *; [done|]. by rewrite Hh.
Qed.
Lemma hn_for {A} (f : A → M wstate unit) l : (∀ x, hands_nothing (f x)) → hands_nothing (for_each f l).
Proof. intros Hf. induction l as [|x l IH]; simpl; [by intros s | by apply hn_bind]. Qed.
Lemma hn_ret {A} (a : A) : hands_nothing (ret a).
Proof. by intros s. Qed.
Lemma hn_get : hands_nothing get.
Proof. by intros s. Qed.
Lemma hn_throw {A} c msg : hands_nothing (throw (A := A) c msg).
Proof. by intros s. Qed.
Lemma hn_lift {A} (r : res A) : hands_nothing (lift_res r).
Proof. by intros s. Qed.
Lemma hn_modify f : (∀ s, tasks (f s) = tasks s) → hands_nothing (modify f).
Proof. intros Hf s. unfold pending. simpl. by rewrite Hf. Qed.
Lemma hn_spawn t : pending_event t = None → hands_nothing (spawn t).
Proof. intros Ht s. unfold pending. simpl. rewrite omap_app. simpl. by rewrite Ht, app_nil_r. Qed.
Lemma hn_put wr we : hands_nothing (put_queue wr we).
Proof. intros s. unfold put_queue. by destruct (blocking wr). Qed.
Lemma hn_find u : hands_nothing (find_request u).
Proof. intros s. unfold find_request, bind, get. by destruct (dget (req_db s) u). Qed.

Create HintDb hands discriminated.
Local Hint Resolve hn_ret hn_get hn_throw hn_lift hn_put hn_find : hands.
Local Ltac hands_tac :=
  repeat (auto with hands nocore;
    match goal with
    | |- hands_nothing (bind _ _) => apply hn_bind; [|intros ?]
    | |- hands_nothing (try_with _ _) => apply hn_try; [|intros ?]
    | |- hands_nothing (for_each _ _) => apply hn_for; intros ?
    | |- hands_nothing (modify _) => by apply hn_modify
    | |- hands_nothing (spawn _) => by apply hn_spawn
    | |- hands_nothing (match ?x with _ => _ end) => destruct x
    end); auto with hands nocore.

(** A turn of the worker hands over the peer event it handled, or nothing. *)
Lemma worker_hands_over clock we (s : wstate) :
  ∃ es, pending (handle_event call_listener parent me clock we s).1 = pending s ++ es ∧
    match we with
    | EvPeer event => es = if is_ok (apply_event parent clock event (peer_tbl s)).2 then [event] else []
    | _ => es = []
    end.
Proof.
  destruct we as [uuid msg|uuid msg|status uuid| |event]; cbn [handle_event].
  1,2,3,4: exists []; split; [rewrite app_nil_r; revert s;
    match goal with |- ∀ s, pending (?m s).1 = _ => change (hands_nothing m) end; hands_tac | done].
  exists (if is_ok (apply_event parent clock event (peer_tbl s)).2 then [event] else []). split; [|done].
  unfold handle_peer_event, bind at 1 2, on_peers.
  destruct (apply_event parent clock event (peer_tbl s)) as [t [record|e]]; simpl; [|by rewrite app_nil_r].
  unfold spawn at 1, modify at 1, bind at 1. set (s1 := set_tasks _ _).
  assert (pending s1 = pending s ++ [event]) as <- by (unfold pending; simpl; by rewrite omap_app).
  match goal with |- pending (match ?m s1 with _ => _ end).1 = _ => assert (hands_nothing m) as Hm end.
  { unfold fail_pending_peer_requests, clear_dirsvc_peer, notify_peer_event_listeners, fail_one. hands_tac. }
  specialize (Hm s1). by match goal with |- pending (match ?x with _ => _ end).1 = _ => destruct x as [s2 [[]|e]] end.
Qed.

(** ** The record of a service *)

(** An event with a time of its own *)
Definition stamp_of (e : pydict) : Z := match dget e "timestamp" with Some (VInt t) => t | _ => 0 end.
Definition stamped (e : pydict) : Prop := dget e "timestamp" = Some (VInt (stamp_of e)).

(** Whether an event is about the peer that offers the service *)
Definition concerns (e : pydict) (r : svc_record) : bool :=
  py_eqb (Directory.peer_handle r) (vget e "peer_handle") &&
  (negb (truthy (event_runtime e)) || py_eqb (Directory.runtime_id r) (event_runtime e)).

Lemma apply_record clock e d k :
  stamped e →
  dget (records (apply_peer_event clock e d).1) k =
  after_event e (stamp_of e) (retention_seconds d) <$> dget (records d) k.
Proof.
  intros He. destruct (apply_peer_event_run clock e d (stamp_of e)) as (d' & -> & (Hr & _) & _).
  { unfold event_time, vget_or. by rewrite He. }
  simpl. rewrite Hr. simpl. apply dget_dmap.
Qed.

Definition is_ready (e : pydict) : bool := py_eqb (vget e "event_type") (VStr "PEER_READY").

(** What the decisive event [e] leaves in a record of the peer, and what holds
    until it is applied; [live] when the service was not deregistered *)
Definition decided (e : pydict) (live : bool) (s : Directory.svc_state) : Prop :=
  if is_loss (vget e "event_type") then s = STATE_DOWN ∨ s = STATE_TIMED_OUT
  else is_ready e = true → live = true → s = STATE_UP.
Definition open_until (e : pydict) (live : bool) (r0 r : svc_record) : Prop :=
  Directory.peer_handle r = Directory.peer_handle r0 ∧ Directory.runtime_id r = Directory.runtime_id r0 ∧
  Directory.last_seen r ≤ stamp_of e ∧ (live = true → state r ≠ STATE_DEREGISTERED).
Definition settled (e : pydict) (live : bool) (r0 r : svc_record) : Prop :=
  Directory.peer_handle r = Directory.peer_handle r0 ∧ Directory.runtime_id r = Directory.runtime_id r0 ∧
  Directory.last_seen r = stamp_of e ∧ (live = true → state r ≠ STATE_DEREGISTERED) ∧ decided e live (state r).

Lemma concerns_same e r0 r :
  Directory.peer_handle r = Directory.peer_handle r0 → Directory.runtime_id r = Directory.runtime_id r0 →
  concerns e r = concerns e r0.
Proof. unfold concerns. by intros -> ->. Qed.

Lemma event_targets_concerns e now r : event_targets e now r = concerns e r && (Directory.last_seen r <=? now).
Proof. done. Qed.

(** An event of the same peer, older than the decisive one *)
Lemma open_step e live r0 r e' ret :
  open_until e live r0 r → (concerns e' r0 = true → stamp_of e' ≤ stamp_of e) →
  open_until e live r0 (after_event e' (stamp_of e') ret r).
Proof.
  intros (Hp & Hr & Hl & Hd) He'. rewrite after_event_spec, event_targets_concerns, (concerns_same e' r0 r Hp Hr).
  destruct (concerns e' r0) eqn:Ec; [|done]. specialize (He' eq_refl). simpl.
  destruct (Z.leb_spec (Directory.last_seen r) (stamp_of e')); [|done].
  destruct (is_loss _); [split_and!; simpl; try done; by destruct (py_eqb _ _)|].
  by destruct (py_eqb _ _ && _).
Qed.

(** The decisive event itself *)
Lemma decisive_step e live r0 r ret :
  open_until e live r0 r → concerns e r0 = true → settled e live r0 (after_event e (stamp_of e) ret r).
Proof.
  intros (Hp & Hr & Hl & Hd) Hc. rewrite after_event_spec, event_targets_concerns, (concerns_same e r0 r Hp Hr), Hc.
  rewrite (proj2 (Z.leb_le _ _)) by done. cbn [andb]. unfold settled, decided.
  destruct (is_loss (vget e "event_type")).
  { split_and!; simpl; try done; destruct (py_eqb (loss_reason e) _); auto. }
  unfold is_ready. destruct (py_eqb (vget e "event_type") (VStr "PEER_READY")); cbn [andb]; [|by split_and!].
  case_bool_decide as Hs; [by split_and!|]. split_and!; simpl; try done. intros _ Hlive.
  specialize (Hd Hlive). destruct (state r); naive_solver.
Qed.

(** After it, older events are stale. *)
Lemma settled_step e live r0 r e' ret :
  settled e live r0 r → (concerns e' r0 = true → stamp_of e' < stamp_of e ∨ e' = e) → concerns e r0 = true →
  settled e live r0 (after_event e' (stamp_of e') ret r).
Proof.
  intros (Hp & Hr & Hl & Hd & Hdec) He' Hc.
  destruct (concerns e' r0) eqn:Ec.
  - destruct (He' eq_refl) as [Hlt| ->]; [|apply decisive_step; [split_and!; (done || lia) | done]].
    rewrite after_event_spec, event_targets_concerns, (proj2 (Z.leb_gt _ _)), andb_false_r by lia. done.
  - by rewrite after_event_spec, event_targets_concerns, (concerns_same e' r0 r Hp Hr), Ec.
Qed.

Lemma run_record p hs done p' k r0 r e live :
  process_run p hs done p' → Forall stamped done → dget (records (directory p)) k = Some r →
  (∀ e', e' ∈ done → concerns e' r0 = true → stamp_of e' < stamp_of e ∨ e' = e) → concerns e r0 = true →
  settled e live r0 r ∨ (open_until e live r0 r ∧ e ∈ done) →
  ∃ r', dget (records (directory p')) k = Some r' ∧ settled e live r0 r'.
Proof.
  intros Hrun. revert r. induction Hrun as [p|p clock we s' o es hs done p' _ _ _ IH|p clock e1 before after hs done p' _ _ IH];
    intros r Hst Hr Hlate Hc Hinv.
  - exists r. split; [done|]. by destruct Hinv as [?|[_ ?%elem_of_nil]].
  - by eapply IH.
  - apply Forall_cons in Hst as [He1 Hst]. eapply IH; [done| | | done|].
    + simpl. rewrite apply_record by done. by rewrite Hr.
    + intros e' He'. apply Hlate. by right.
    + specialize (Hlate e1 (list_elem_of_here _ _)). destruct Hinv as [Hs|[Ho [->|Hin]%elem_of_cons]].
      * left. by apply settled_step.
      * left. by apply decisive_step.
      * right. split; [|done]. apply open_step; [done|]. intros Hc'. destruct (Hlate Hc') as [?| ->]; lia.
Qed.

(** C21. In the directory process the latest event of a peer decides, although
    the events are applied by threads that may overtake each other: once every
    event that was handed over has been applied, in whatever order, a service
    of the peer is down if its latest event is a loss, and up if it is the peer
    becoming ready, unless the service was deregistered. *)
Theorem latest_peer_event_decides p hs done p' k r e :
  process_run p hs done p' → pending (worker p) = [] → pending (worker p') = [] → Forall stamped hs →
  dget (records (directory p)) k = Some r →
  e ∈ hs → concerns e r = true → Directory.last_seen r ≤ stamp_of e →
  (∀ e', e' ∈ hs → concerns e' r = true → stamp_of e' < stamp_of e ∨ e' = e) →
  ∃ r', dget (records (directory p')) k = Some r' ∧
    (is_loss (vget e "event_type") = true → state r' = STATE_DOWN ∨ state r' = STATE_TIMED_OUT) ∧
    (is_loss (vget e "event_type") = false → is_ready e = true → state r ≠ STATE_DEREGISTERED →
     state r' = STATE_UP).
Proof.
  intros Hrun Hp Hp' Hst Hr He Hc Hl Hlate. pose proof (run_permutation _ _ _ _ Hrun) as Hperm.
  rewrite Hp, Hp', app_nil_r in Hperm. simpl in Hperm.
  destruct (run_record p hs done p' k r r e (bool_decide (state r ≠ STATE_DEREGISTERED)) Hrun) as (r' & Hr' & Hs).
  - by rewrite <- Hperm.
  - done.
  - intros e' He'. apply Hlate. by rewrite Hperm.
  - done.
  - right. split; [|by rewrite <- Hperm]. split_and!; [done | done | done|]. by intros H%bool_decide_eq_true.
  - exists r'. split; [done|]. destruct Hs as (_ & _ & _ & _ & Hd). unfold decided in Hd. split.
    + intros Hloss. by rewrite Hloss in Hd.
    + intros Hloss Hready Hlive. rewrite Hloss in Hd. apply Hd; [done|]. by apply bool_decide_eq_true.
Qed.
End DirProcess.

(** ** A loss that overtakes the readiness before it

    The worker handles the readiness of a peer and then its loss; the thread
    of the loss runs first. *)
Module DirProcessDemo.
Definition silent (listener : nat) (event : pydict) : res unit := Ok tt.
Definition no_parent : parent_cfg := Parent VNone VNone VNone.
Definition me : Endpoint :=
  MkEndpoint (VStr "127.0.0.1") (VInt 8095) (VInt 8095) (VInt 1) (VStr "dirsvc") (VStr "node")
    (VInt EN_DEFW_DIRSVC) (VStr "directory-runtime-1") (VStr ZERO_UUID).
Definition ready : pydict := peer_event "PEER_READY" "peer-1" "runtime-1" "" 101.
Definition gone : pydict := peer_event "PEER_LOST" "peer-1" "runtime-1" "socket-close" 102.
Definition turn (e : pydict) (s : wstate) : wstate := (handle_event silent no_parent me 103 (EvPeer e) s).1.
Definition start : dir_process := DirProcess init_wstate dir1.
Definition both_applied : dir_process :=
  DirProcess (set_tasks [] (turn gone (turn ready init_wstate)))
    (apply_peer_event 104 ready (apply_peer_event 103 gone dir1).1).1.

Lemma demo_run : process_run silent no_parent me start [ready; gone] [gone; ready] both_applied.
Proof.
  refine (run_worker _ _ _ _ 103 (EvPeer ready) (turn ready init_wstate) _ [ready] [gone] _ _ _ _ _).
  { unfold turn. apply surjective_pairing. } { vm_compute. reflexivity. }
  refine (run_worker _ _ _ _ 103 (EvPeer gone) (turn gone (turn ready init_wstate)) _ [gone] [] _ _ _ _ _).
  { unfold turn. apply surjective_pairing. } { vm_compute. reflexivity. }
  refine (run_directory _ _ _ _ 103 gone [TaskDirectory ready] [] [] _ _ _ _).
  { vm_compute. reflexivity. }
  refine (run_directory _ _ _ _ 104 ready [] [] [] _ _ _ _).
  { reflexivity. }
  apply run_end.
Qed.

Lemma latest_peer_event_decides_witness :
  ∃ r, dget (records (directory both_applied)) key0 = Some r ∧ (state r = STATE_DOWN ∨ state r = STATE_TIMED_OUT).
Proof.
  destruct (dget (records dir1) key0) as [r0|] eqn:Hr0; [|vm_compute in Hr0; discriminate].
  destruct (latest_peer_event_decides silent no_parent me start [ready; gone] [gone; ready] both_applied key0 r0 gone)
    as (r & Hr & Hlost & _).
  - exact demo_run.
  - reflexivity.
  - reflexivity.
  - repeat constructor.
  - exact Hr0.
  - right. left.
  - vm_compute in Hr0. injection Hr0 as <-. reflexivity.
  - vm_compute in Hr0. injection Hr0 as <-. vm_compute. discriminate.
  - intros e' He _. apply elem_of_cons in He as [->|He]; [left; reflexivity|].
    right. by apply list_elem_of_singleton.
  - exists r. split; [exact Hr|]. apply Hlost. reflexivity.
Defined.
End DirProcessDemo.
