(* ===== verification/Launcher.v ===== *)
(** * The launcher service ([python/services/svc_launcher/svc_launcher.py])

    The launcher starts processes, keeps the running ones in [proc_dict] and
    the results of the exited ones in [dead_procs], both keyed by pid.  One
    thread per process waits for it to exit; kill, terminate and shutdown
    remove a process before that thread gets there.  Each lock section is one
    operation below; [Popen], [communicate] and the remote shell are
    arguments. *)

From S2P Require Import Prelude PyDict PyVal.
From Stdlib Require Import Ascii.

Local Open Scope string_scope.
Local Open Scope Z_scope.
Local Open Scope list_scope.
Import PyNotations.
Local Open Scope py_scope.

(** ** The command *)

(** [Process]: the argument vector and the environment of the child. *)
Record process_spec := ProcessSpec { argv : list string; child_env : odict string val }.

(** [Process.__init__], on the words [shlex.split] found. *)
Definition new_process (words : list string) (environ : odict string val) (env : val)
    (path : string) : res process_spec :=
  match words with
  | [] => Raise (Exc EValueError "process command must not be empty")
  | w :: ws =>
      let argv := (if String.eqb path "" then w else path_join path w) :: ws in
      Ok (ProcessSpec argv
            (match env with VDict d => dupdate environ d | _ => environ end))
  end.

(** [compose_remote_cmd] *)
Definition compose_remote_cmd (exe : string) (env : pydict) (use modules python_env : string) :
    string :=
  let cmd :=
    match env with
    | [] => ""
    | _ => (String.concat "; "
              (map (λ p, ("export " ++ p.1 ++ "=" ++ py_fmt p.2)%string) env) ++ ";")%string
    end in
  let cmd :=
    if negb (String.eqb use "") && negb (String.eqb modules "") then
      (cmd ++ String.concat "" (map (λ u, ("module use " ++ u ++ ";")%string) (split_on ":" "" use))
           ++ String.concat "" (map (λ m, ("module load " ++ m ++ ";")%string)
                                  (split_on ":" "" modules)))%string
    else cmd in
  let cmd := if String.eqb python_env "" then cmd
             else (cmd ++ "source " ++ python_env ++ ";")%string in
  if String.eqb cmd "" then exe else (cmd ++ " " ++ exe)%string.

(** ** The tables *)

(** [(stdout, stderr, returncode)] *)
Definition result : Type := string * string * Z.

(** Process objects are identified by [nat]; [killed] records the objects a
    signal was sent to and [remote] the commands sent elsewhere. *)
Record launcher := Launcher {
  proc_dict : odict Z nat;
  dead_procs : odict Z result;
  next_proc : nat;
  killed : list nat;
  remote : list (string * string)
}.

Definition new_launcher : launcher := Launcher [] [] 0 [] [].

Definition set_procs (x : odict Z nat) (s : launcher) : launcher :=
  Launcher x (dead_procs s) (next_proc s) (killed s) (remote s).
Definition set_dead (x : odict Z result) (s : launcher) : launcher :=
  Launcher (proc_dict s) x (next_proc s) (killed s) (remote s).
Definition add_killed (p : nat) (s : launcher) : launcher :=
  Launcher (proc_dict s) (dead_procs s) (next_proc s) (killed s ++ [p]) (remote s).
Definition add_remote (c : string * string) (s : launcher) : launcher :=
  Launcher (proc_dict s) (dead_procs s) (next_proc s) (killed s) (remote s ++ [c]).
Definition alloc_proc (s : launcher) : launcher :=
  Launcher (proc_dict s) (dead_procs s) (S (next_proc s)) (killed s) (remote s).

(** The lock section at the end of [__wait_for_exit]. *)
Definition reap (pid : Z) (proc : nat) (r : result) : M launcher unit :=
  let! s := get in
  if bool_decide (dget (proc_dict s) pid = Some proc) then
    modify (set_procs (ddel (proc_dict s) pid)) ;;;
    modify (λ s, set_dead (dset (dead_procs s) pid r) s)
  else ret tt.

Definition kill (pid : Z) : M launcher unit :=
  let! s := get in
  match dget (proc_dict s) pid with
  | Some p => modify (add_killed p) ;;; modify (λ s, set_procs (ddel (proc_dict s) pid) s)
  | None => ret tt
  end.

(** [terminate] has the same body: it kills the process. *)
Definition terminate (pid : Z) : M launcher unit :=
  let! s := get in
  match dget (proc_dict s) pid with
  | Some p => modify (add_killed p) ;;; modify (λ s, set_procs (ddel (proc_dict s) pid) s)
  | None => ret tt
  end.

Definition status (pid : Z) : M launcher result :=
  let! s := get in
  match dget (dead_procs s) pid with
  | Some r => modify (set_dead (ddel (dead_procs s) pid)) ;;; ret r
  | None => throw EDEFwInProgress (py_fmt (VInt pid) ++ " is still running")%string
  end.

Definition shutdown (keep : bool) : M launcher unit :=
  if keep then ret tt
  else
    let! s := get in
    for_each (λ p, modify (add_killed p)) (dvals (proc_dict s)) ;;;
    for_each (λ pid, modify (λ s, set_procs (ddel (proc_dict s) pid) s)) (dkeys (proc_dict s)).

(** [Popen], then [proc_dict[pid] = proc]. *)
Definition start_process (popen : res Z) : M launcher (Z * nat) :=
  let! pid := lift_res popen in
  let! s := get in
  let p := next_proc s in
  modify alloc_proc ;;;
  modify (λ s, set_procs (dset (proc_dict s) pid p) s) ;;;
  ret (pid, p).

Inductive launched :=
  | Remote
  | Finished (r : result)
  | Started (pid : Z) (proc : nat).

(** [launch]: [words] are the shell words of [cmd], [popen] what [Popen]
    gives, [communicate] the result of a process that is waited for,
    [waiter] whether its thread could be started. *)
Definition launch (cmd : string) (words : list string) (environ : odict string val) (env : val)
    (path : string) (wait : bool) (target hostname muse modules python_env : string)
    (popen : process_spec → res Z) (communicate : nat → res result) (waiter : res unit) :
    M launcher launched :=
  if negb (String.eqb target "") && negb (String.eqb target hostname) then
    modify (add_remote (target, compose_remote_cmd cmd
              (match env with VDict d => d | _ => [] end) muse modules python_env)) ;;;
    ret Remote
  else
    let! spec := lift_res (new_process words environ env path) in
    let! st := start_process (popen spec) in
    let '(pid, p) := st in
    if wait then
      let! r := lift_res (communicate p) in
      let! s := get in
      (if bool_decide (dget (proc_dict s) pid = Some p)
       then modify (set_procs (ddel (proc_dict s) pid)) else ret tt) ;;;
      ret (Finished r)
    else
      match waiter with
      | Ok _ => ret (Started pid p)
      | Raise e => kill pid ;;; lift_res (Raise e)
      end.

(** ** Any interleaving of the lock sections

    Client calls and waiter threads in any order; pids are whatever the
    operating system hands out, reused ones included. *)

Inductive lop :=
  | LStart (pid : Z)
  | LReap (pid : Z) (proc : nat) (r : result)
  | LKill (pid : Z)
  | LTerminate (pid : Z)
  | LStatus (pid : Z)
  | LShutdown (keep : bool).

Definition exec_lop (o : lop) (s : launcher) : launcher :=
  match o with
  | LStart pid => (start_process (Ok pid) s).1
  | LReap pid p r => (reap pid p r s).1
  | LKill pid => (kill pid s).1
  | LTerminate pid => (terminate pid s).1
  | LStatus pid => (status pid s).1
  | LShutdown keep => (shutdown keep s).1
  end.

Definition exec_lops (os : list lop) (s : launcher) : launcher := fold_left (λ s o, exec_lop o s) os s.

(** Both tables are dicts and a process object is tracked under one pid. *)
Record linv (s : launcher) : Prop := {
  l_procs : dict_ok (proc_dict s);
  l_dead : dict_ok (dead_procs s);
  l_fresh : ∀ pid p, dget (proc_dict s) pid = Some p → (p < next_proc s)%nat;
  l_once : ∀ pid pid' p, dget (proc_dict s) pid = Some p → dget (proc_dict s) pid' = Some p →
    pid = pid'
}.

Lemma linv_del s pid : linv s → linv (set_procs (ddel (proc_dict s) pid) s).
Proof.
  intros [Hp Hd Hf Ho]. split; simpl; [by apply dict_ok_ddel | done|..]; intros *;
    rewrite !dget_ddel; repeat case_decide; try done; [apply Hf | apply Ho].
Qed.

Lemma linv_dead s d : dict_ok d → linv s → linv (set_dead d s).
Proof. intros Hok [Hp Hd Hf Ho]. by split. Qed.

Lemma linv_killed s p : linv s → linv (add_killed p s).
Proof. intros [Hp Hd Hf Ho]. by split. Qed.

Lemma launcher_shutdown_run s :
  ∃ s', shutdown false s = (s', Ok tt) ∧ proc_dict s' = [] ∧ dead_procs s' = dead_procs s ∧
        next_proc s' = next_proc s ∧ killed s' = killed s ++ dvals (proc_dict s).
Proof.
  unfold shutdown, bind, get.
  rewrite (for_each_total _ (λ p s, add_killed p s)) by done.
  assert (∀ ps s, let s' := fold_left (λ s p, add_killed p s) ps s in
            proc_dict s' = proc_dict s ∧ dead_procs s' = dead_procs s ∧
            next_proc s' = next_proc s ∧ killed s' = killed s ++ ps) as Hk.
  { induction ps as [|p ps IH]; intros s0; simpl; [by rewrite app_nil_r|].
    destruct (IH (add_killed p s0)) as (-> & -> & -> & ->). simpl. by rewrite <- app_assoc. }
  destruct (Hk (dvals (proc_dict s)) s) as (E1 & E2 & E3 & E4).
  set (s1 := fold_left _ _ s) in *.
  rewrite (for_each_total _ (λ pid s, set_procs (ddel (proc_dict s) pid) s)) by done.
  assert (∀ pids s, let s' := fold_left (λ s pid, set_procs (ddel (proc_dict s) pid) s) pids s in
            proc_dict s' = ddrop pids (proc_dict s) ∧ dead_procs s' = dead_procs s ∧
            next_proc s' = next_proc s ∧ killed s' = killed s) as Hd.
  { induction pids as [|pid pids IH]; intros s0; simpl; [by rewrite ddrop_nil|].
    destruct (IH (set_procs (ddel (proc_dict s0) pid) s0)) as (-> & -> & -> & ->). simpl.
    by rewrite ddel_ddrop. }
  destruct (Hd (dkeys (proc_dict s)) s1) as (F1 & F2 & F3 & F4). eexists. split; [done|].
  rewrite F1, F2, F3, F4, E1, E2, E3, E4. by rewrite ddrop_keys.
Qed.

Lemma exec_lop_inv o s : linv s → linv (exec_lop o s).
Proof.
  intros Hs. destruct o as [pid|pid p r|pid|pid|pid|keep]; simpl.
  - destruct Hs as [Hp Hd Hf Ho]. split; simpl; [by apply dict_ok_dset | done|..].
    + intros pid' p. rewrite dget_dset. case_decide; [intros [= <-]; lia|]. intros Hl%Hf. lia.
    + intros pid1 pid2 p. rewrite !dget_dset. repeat case_decide; subst; try done.
      * intros [= <-] Hl%Hf. lia.
      * intros Hl%Hf [= <-]. lia.
      * apply Ho.
  - unfold reap, bind, get, modify, ret. case_bool_decide; [|done]. simpl.
    by apply linv_dead; [apply dict_ok_dset, Hs | apply linv_del].
  - unfold kill, bind, get, modify, ret. case_match; [|done]. by apply (linv_del (add_killed _ s)), linv_killed.
  - unfold terminate, bind, get, modify, ret. case_match; [|done].
    by apply (linv_del (add_killed _ s)), linv_killed.
  - unfold status, bind, get, modify, ret, throw. case_match; [|done].
    by apply linv_dead; [apply dict_ok_ddel, Hs|].
  - destruct keep; [done|]. destruct (launcher_shutdown_run s) as (s' & -> & E1 & E2 & E3 & _). simpl.
    split; rewrite ?E1, ?E2, ?E3; try done; [constructor | apply Hs].
Qed.

Lemma linv_new : linv new_launcher.
Proof. split; try constructor; done. Qed.

Lemma exec_lops_inv os s : linv s → linv (exec_lops os s).
Proof.
  unfold exec_lops. revert s. induction os as [|o os IH]; intros s Hs; [done|].
  simpl. by apply IH, exec_lop_inv.
Qed.


(** The exit of a process is reported once: when its waiter comes through,
    the process is no longer tracked, the next [status] returns its output and
    return code, and the one after that says it is running. *)
Theorem exit_reported_once (s : launcher) (pid : Z) (p : nat) (r : result) :
  dget (proc_dict s) pid = Some p →
  let s1 := (reap pid p r s).1 in
  let s2 := (status pid s1).1 in
  dget (proc_dict s1) pid = None ∧ (status pid s1).2 = Ok r ∧
  raises EDEFwInProgress (status pid s2).2 = true.
Proof.
  intros Hp. unfold reap, status, bind, get, modify, ret, throw. rewrite bool_decide_true by done.
  simpl. rewrite dget_dset_eq. simpl. rewrite !dget_ddel_eq. done.
Qed.

(** A process that was killed, terminated or shut down is never reported:
    its waiter finds it gone and changes nothing, also when its pid has been
    given to a newer process in between. *)
Theorem killed_never_reported (s : launcher) (pid : Z) (p : nat) (r : result) :
  linv s → dget (proc_dict s) pid = Some p →
  let s1 := (kill pid s).1 in
  killed s1 = killed s ++ [p] ∧ dget (proc_dict s1) pid = None ∧
  reap pid p r s1 = (s1, Ok tt) ∧ (terminate pid s).1 = s1 ∧
  (let s2 := (start_process (Ok pid) s1).1 in reap pid p r s2 = (s2, Ok tt)) ∧
  p ∈ killed (shutdown false s).1.
Proof.
  intros Hs Hp. assert (p ∈ killed (shutdown false s).1) as Hsd.
  { destruct (launcher_shutdown_run s) as (s' & -> & _ & _ & _ & Hk). simpl. rewrite Hk.
    apply elem_of_app. right.
    unfold dvals. apply list_map_In. exists (pid, p). split; [by apply dget_Some_In | done]. }
  cbv zeta. revert Hsd. generalize (shutdown false s). intros sd Hsd. unfold kill, terminate, bind, get, modify. rewrite Hp. simpl.
  split_and!; [done | apply dget_ddel_eq | | done | |].
  - unfold reap, bind, get. simpl. by rewrite dget_ddel_eq.
  - unfold reap, bind, get, start_process, lift_res. simpl. rewrite dget_dset_eq.
    rewrite bool_decide_false; [done|]. intros [= E]. pose proof (l_fresh _ Hs _ _ Hp). lia.
  - exact Hsd.
Qed.

(** ** Examples *)

Definition demo : launcher := exec_lops [LStart 100; LStart 101] new_launcher.

Lemma exit_reported_once_witness :
  let s1 := (reap 100 0 ("out", "", 0) demo).1 in
  dget (proc_dict s1) 100 = None ∧ (status 100 s1).2 = Ok ("out", "", 0) ∧
  raises EDEFwInProgress (status 100 (status 100 s1).1).2 = true.
Proof. apply (exit_reported_once demo 100 0). reflexivity. Defined.

Lemma demo_inv : linv demo.
Proof.
  apply exec_lops_inv, linv_new.
Qed.

Lemma killed_never_reported_witness :
  let s1 := (kill 100 demo).1 in
  dget (proc_dict s1) 100 = None ∧ reap 100 0 ("", "", -9) s1 = (s1, Ok tt).
Proof.
  destruct (killed_never_reported demo 100 0 ("", "", -9) demo_inv eq_refl)
    as (_ & H1 & H2 & _). split; [exact H1 | exact H2].
Defined.

Example compose_all :
  compose_remote_cmd "defwp -d" [("A", VStr "1"); ("B", VInt 2)] "/m:/n" "gcc" "/v/activate" =
  "export A=1; export B=2;module use /m;module use /n;module load gcc;source /v/activate; defwp -d".
Proof. reflexivity. Qed.
