(* ===== verification/DirSvc.v ===== *)
(** * The directory service ([python/services/svc_dirsvc/svc_dirsvc.py])

    The remote face of the directory: an agent that registers is looked up
    among the live peers, asked for the services it offers, and each
    advertisement becomes a directory record.  [services_db] remembers the
    agents, keyed by runtime id.  The remote calls to the agent
    ([BaseAgentAPI(target=ep)] and its [query]) are the argument
    [query_agent], and the API object of an entry is its target, [e_api]. *)

From S2P Require Import Prelude PyDict PyVal Agent Peers Directory.

Local Open Scope string_scope.
Local Open Scope Z_scope.
Local Open Scope list_scope.
Import PyNotations.
Local Open Scope py_scope.

Record svc_entry := SvcEntry {
  e_agent : Endpoint;
  e_api : Endpoint;
  e_info : val;
  e_context : option val
}.

Record dirsvc := DirSvc {
  ds_dir : dir;
  ds_peers : Peers.peer_table;
  services_db : odict hkey svc_entry
}.

Definition set_db (db : odict hkey svc_entry) (s : dirsvc) : dirsvc :=
  DirSvc (ds_dir s) (ds_peers s) db.

Definition on_dir {A} (m : M dir A) : M dirsvc A :=
  λ s, let '(d', o) := m (ds_dir s) in (DirSvc d' (ds_peers s) (services_db s), o).

(** [__live_agent_ids] *)
Definition live_agent_ids (t : Peers.peer_table) : res (list hkey) :=
  rmapM (λ r, hash_key (Peers.runtime_id r))
    (List.filter (λ r, Peers.callable r && truthy (Peers.runtime_id r)) (dvals (Peers.snapshot t))).

(** [__prune_db] *)
Definition prune_db : M dirsvc unit :=
  let! s := get in
  let! ids := lift_res (live_agent_ids (ds_peers s)) in
  modify (set_db (ddrop (List.filter (λ k, negb (bool_decide (k ∈ ids))) (dkeys (services_db s)))
                    (services_db s))).

(** [__endpoint_record] *)
Definition endpoint_record (ep : Endpoint) : pydict :=
  [("address", addr ep); ("listen_port", listen_port ep); ("node_name", name ep);
   ("hostname", hostname ep); ("pid", pid ep)].

Definition setdefault_unless_unset (d : pydict) (k : string) (v : val) : pydict :=
  if py_eqb v (VInt (-1)) then d else dsetdefault d k v.

(** [__directory_record] *)
Definition directory_record (ep : Endpoint) (advertisement context : val) : res pydict :=
  match advertisement with
  | VDict adv =>
      let ctx := match context with VDict c => c | _ => [] end in
      let service_name := py_or (vget ctx "service_name") (vget adv "service_name") in
      if negb (truthy service_name) then
        Raise (Exc EDEFwError "Service metadata missing service_name")
      else
      let? properties := py_dict_or_empty (vget ctx "properties") in
      let? more := py_dict_or_empty (vget adv "properties") in
      let properties := dupdate properties more in
      let? capability := py_dict (py_or (py_or (vget ctx "capability") (vget adv "capability"))
                                     (VDict [])) in
      let qpm_type := vget_or ctx "qpm_type"
                        (vget_or adv "qpm_type" (vget_or properties "qpm_type" (VInt (-1)))) in
      let qpm_capabilities :=
        vget_or ctx "qpm_capabilities"
          (vget_or adv "qpm_capabilities"
             (vget_or properties "qpm_capabilities" (VInt (-1)))) in
      let properties := setdefault_unless_unset properties "qpm_type" qpm_type in
      let properties := setdefault_unless_unset properties "qpm_capabilities" qpm_capabilities in
      let service_id :=
        py_or (py_or (py_or (vget ctx "service_id") (vget adv "service_id"))
                 (vget properties "service_id"))
          (VStr (py_fmt service_name ++ ":" ++ py_fmt (hostname ep) ++ ":" ++
                 py_fmt (name ep))%string) in
      let selector :=
        py_or (py_or (py_or (vget ctx "selector") (vget adv "selector"))
                 (vget properties "selector"))
          (VDict [("resources", VList [service_name])]) in
      let service_type :=
        match vget ctx "service_type" with
        | VNone => vget_or adv "service_type"
                     (vget_or properties "service_type" (VStr "defw.service"))
        | v => v
        end in
      let api_bindings := py_or (vget ctx "api_bindings") (vget adv "api_bindings") in
      if negb (truthy api_bindings) then
        Raise (Exc EDEFwError "Service metadata missing api_bindings")
      else
      let? bindings := py_iter api_bindings in
      let? bindings := rmapM py_dict bindings in
      Ok [("service_id", service_id); ("service_name", service_name);
          ("service_type", service_type); ("runtime_id", remote_uuid ep);
          ("peer_handle", blk_uuid ep); ("endpoint", VDict (endpoint_record ep));
          ("api_bindings", VList (map VDict bindings)); ("selector", selector);
          ("properties", VDict properties); ("capability", VDict capability);
          ("qpm_type", qpm_type); ("qpm_capabilities", qpm_capabilities)]
  | _ => Raise (Exc EDEFwError "Service query must return metadata dictionaries")
  end.

Section DirSvc.
Context (query_agent : Endpoint → res val) (clock : Z).

(** [__register] *)
Definition register (ep : Endpoint) (context : option val) : M dirsvc unit :=
  prune_db ;;;
  let! s := get in
  let! agent := lift_res (Peers.get_agent (ds_peers s) (Peers.EpObj ep) VNone false) in
  match agent with
  | None => throw EDEFwAgentNotFound "Registration from an unknown client"
  | Some agent =>
      let! advertisements := lift_res (query_agent ep) in
      let! key := lift_res (hash_key (get_id ep)) in
      let! s := get in
      let old := dget (services_db s) key in
      let context := match context with
                     | Some c => Some c
                     | None => old ≫= e_context
                     end in
      modify (set_db (dset (services_db s) key (SvcEntry agent ep advertisements context)))
  end.

(** The loop over the advertisements: each one is a record of its own. *)
Fixpoint register_all (ep : Endpoint) (context : val) (ads : list val) :
    M dirsvc (list svc_record) :=
  match ads with
  | [] => ret []
  | ad :: ads' =>
      let! record := lift_res (directory_record ep ad context) in
      let! r := on_dir (register_service clock record []) in
      let! rs := register_all ep context ads' in
      ret (r :: rs)
  end.

(** [__register_directory_entries] *)
Definition register_directory_entries (id : val) (context : option val) :
    M dirsvc (list svc_record) :=
  let! key := lift_res (hash_key id) in
  let! s := get in
  match dget (services_db s) key with
  | None => ret []
  | Some entry =>
      let! info :=
        if truthy (e_info entry) then ret (e_info entry)
        else
          let! info := lift_res (query_agent (e_api entry)) in
          let! s := get in
          modify (set_db (dset (services_db s) key
                            (SvcEntry (e_agent entry) (e_api entry) info (e_context entry)))) ;;;
          ret info in
      let! ads := lift_res (py_iter (py_or info (VList []))) in
      register_all (e_agent entry) (default VNone context) ads
  end.

(** [DEFwDirSvc.register_service] *)
Definition dirsvc_register_service (ep : Endpoint) (context : option val) :
    M dirsvc (list svc_record) :=
  register ep context ;;;
  register_directory_entries (get_id ep) context.

(** The API object an agent is reached through has one method; any other
    attribute is missing ([BaseAgentAPI], defw_agent_baseapi.py). *)
Definition base_agent_api : list string := ["query"].

Definition api_call (method : string) : M dirsvc unit :=
  if bool_decide (method ∈ base_agent_api) then ret tt
  else throw EAttributeError "'BaseAgentAPI' object has no attribute".

Definition deregister_record (id : val) (r : svc_record) : M dirsvc unit :=
  if py_eqb (runtime_id r) id then
    let! _ := on_dir (deregister_service clock (service_id r) (runtime_id r)
                        (VInt (generation r))) in ret tt
  else ret tt.

(** [DEFwDirSvc.deregister] *)
Definition deregister (ep : Endpoint) : M dirsvc unit :=
  let! key := lift_res (hash_key (get_id ep)) in
  let! s := get in
  if negb (dmem (services_db s) key) then throw EDEFwAgentNotFound "agent not found"
  else
    api_call "unregister" ;;;
    let! records := on_dir (query clock true) in
    for_each (deregister_record (get_id ep)) records ;;;
    modify (λ s, set_db (ddel (services_db s) key) s).

(** Delegations. *)
Definition dirsvc_resolve_services (filters : pydict) : M dirsvc (list resolved) :=
  on_dir (resolve_services clock filters).
Definition dirsvc_deregister_service (service runtime gen : val) : M dirsvc svc_record :=
  on_dir (deregister_service clock service runtime gen).
Definition dirsvc_get_service_generation (service : val) : M dirsvc (option Z) :=
  on_dir (get_service_generation clock service).
End DirSvc.

(** ** Properties *)

(** The ids [prune_db] keeps. *)
Definition is_live (t : Peers.peer_table) (k : hkey) : Prop :=
  ∃ r, r ∈ dvals (Peers.snapshot t) ∧ Peers.callable r = true ∧
       truthy (Peers.runtime_id r) = true ∧ hash_key (Peers.runtime_id r) = Ok k.

Lemma live_agent_ids_spec t ids :
  live_agent_ids t = Ok ids → ∀ k, k ∈ ids ↔ is_live t k.
Proof.
  intros H k. rewrite (rmapM_In _ _ _ H k). unfold is_live. split.
  - intros (r & [Hin [Hc Ht]%andb_true_iff]%list_filter_In & Hk). eauto.
  - intros (r & Hin & Hc & Ht & Hk). exists r. split; [|done]. apply list_filter_In.
    by rewrite Hc, Ht.
Qed.

(** Pruning keeps exactly the agents that are still connected: an entry
    survives when a callable peer has its runtime id, and nothing else of the
    state changes. *)
Theorem prune_keeps_live (s : dirsvc) (ids : list hkey) (k : hkey) :
  dict_ok (services_db s) → live_agent_ids (ds_peers s) = Ok ids →
  let '(s', o) := prune_db s in
  o = Ok tt ∧ ds_dir s' = ds_dir s ∧ ds_peers s' = ds_peers s ∧
  ∀ e, dget (services_db s') k = Some e ↔ dget (services_db s) k = Some e ∧ is_live (ds_peers s) k.
Proof.
  intros Hok Hids. unfold prune_db, bind, get, lift_res, modify. rewrite Hids.
  split_and!; [done..|]. intros e. simpl. rewrite dget_ddrop by done.
  rewrite <- (live_agent_ids_spec _ _ Hids k). case_decide as Hd.
  - split; [done|]. intros [_ Hl]. apply list_filter_In in Hd as [_ Hd].
    by rewrite bool_decide_true in Hd.
  - split; [|by intros []]. intros Hk. split; [done|]. apply dec_stable. intros Hn. apply Hd.
    apply list_filter_In. rewrite bool_decide_false by done. split; [|done].
    apply dget_Some_In in Hk. by eapply In_dkeys.
Qed.

(** The registration context, read as a dict *)
Definition context_dict (context : val) : pydict := match context with VDict c => c | _ => [] end.

(** What an advertisement turns into: the record names the agent that
    registered (its runtime, its connection and its address, whatever the
    metadata says), has a service name, a service id and at least one binding,
    and prefers the registration context over the advertisement. *)
Theorem directory_record_shape (ep : Endpoint) (adv context : val) (record : pydict) :
  directory_record ep adv context = Ok record →
  vget record "runtime_id" = remote_uuid ep ∧ vget record "peer_handle" = blk_uuid ep ∧
  vget record "endpoint" = VDict (endpoint_record ep) ∧
  truthy (vget record "service_name") = true ∧ truthy (vget record "service_id") = true ∧
  (∃ bs, vget record "api_bindings" = VList (map VDict bs)) ∧
  (truthy (vget (context_dict context) "service_name") = true →
   vget record "service_name" = vget (context_dict context) "service_name") ∧
  (truthy (vget (context_dict context) "service_id") = true →
   vget record "service_id" = vget (context_dict context) "service_id").
Proof.
  unfold directory_record. destruct adv as [| | | | |adv|]; try done.
  fold (context_dict context). set (ctx := context_dict context).
  destruct (truthy (py_or (vget ctx "service_name") (vget adv "service_name"))) eqn:En; [|done].
  cbn [negb]. destruct (py_dict_or_empty (vget ctx "properties")) as [p1|]; [|done].
  destruct (py_dict_or_empty (vget adv "properties")) as [p2|]; [|done].
  destruct (py_dict (py_or _ (VDict []))) as [cap|]; [|done]. cbn [rbind].
  destruct (negb (truthy (py_or (vget ctx "api_bindings") _))); [done|].
  destruct (py_iter _) as [bs|]; [|done]. cbn [rbind].
  destruct (rmapM py_dict bs) as [ds|]; [|done]. cbn [rbind]. intros [= <-].
  assert (∀ a b, truthy b = true → truthy (py_or a b) = true) as Hor.
  { intros a b Hb. unfold py_or. by destruct (truthy a) eqn:?. }
  unfold vget at 1 2 3 4 5 6 7 9. simpl. split_and!; try done.
  - apply Hor. simpl. by destruct (py_fmt (py_or (vget ctx "service_name") _)).
  - by eexists.
  - intros Hc. by apply py_or_truthy.
  - intros Hc. unfold py_or at 1 2 3. by rewrite !Hc.
Qed.

(** [deregister] cannot succeed: the API object it calls has no such
    method, so the call raises before any record is touched, and a service
    that shuts down keeps its UP records until its connection is lost. *)
Theorem deregister_never_succeeds (clock : Z) (ep : Endpoint) (s : dirsvc) :
  (deregister clock ep s).1 = s ∧ is_ok (deregister clock ep s).2 = false.
Proof.
  unfold deregister, bind, lift_res, get, throw. destruct (hash_key (get_id ep)); [|done].
  by destruct (dmem (services_db s) a).
Qed.

(** ** Examples *)

Definition demo_ep : Endpoint :=
  MkEndpoint (VStr "10.0.0.2") (VInt 0) (VInt 8090) (VInt 7) (VStr "svc") (VStr "node2")
    (VInt EN_DEFW_SERVICE) (VStr "rt-1") (VStr "conn-1").

Definition demo_peer : Peers.peer_record :=
  Peers.PeerRecord (VStr "conn-1") (VStr "rt-1") [] (VStr "") (VStr "INBOUND") false (VInt 5)
    (VInt EN_DEFW_SERVICE) true (VStr "").

Definition demo_entry : svc_entry := SvcEntry demo_ep demo_ep (VList []) None.

Definition demo_svc : dirsvc :=
  DirSvc (init_dir 300 "dir") (Peers.PeerTable [(KStr "conn-1", demo_peer)] [])
    [(KStr "rt-0", demo_entry); (KStr "rt-1", demo_entry)].

Lemma prune_keeps_live_witness :
  let s' := (prune_db demo_svc).1 in
  dget (services_db s') (KStr "rt-0") = None ∧ dget (services_db s') (KStr "rt-1") = Some demo_entry.
Proof.
  assert (dict_ok (services_db demo_svc)) as Hok
    by (apply (bool_decide_unpack (NoDup _)); vm_compute; exact I).
  pose proof (prune_keeps_live demo_svc [KStr "rt-1"] (KStr "rt-1") Hok eq_refl) as H.
  destruct (prune_db demo_svc) as [s' o] eqn:E. destruct H as (_ & _ & _ & H). simpl.
  split; [vm_compute in E; by injection E as <- _|]. apply H. split; [reflexivity|].
  exists demo_peer. split_and!; try reflexivity. by left.
Defined.

Definition demo_adv : pydict :=
  [("service_name", VStr "TestCounter"); ("runtime_id", VStr "forged");
   ("api_bindings", VList [VDict [("binding_name", VStr "default")]])].

Lemma directory_record_shape_witness :
  ∃ record, directory_record demo_ep (VDict demo_adv) (VDict []) = Ok record ∧
    vget record "runtime_id" = VStr "rt-1" ∧
    vget record "service_id" = VStr "TestCounter:node2:svc".
Proof.
  destruct (directory_record demo_ep (VDict demo_adv) (VDict [])) as [record|] eqn:E;
    [|by vm_compute in E].
  pose proof (directory_record_shape demo_ep (VDict demo_adv) (VDict []) record E) as (H1 & _).
  exists record. split_and!; [done | exact H1 |]. vm_compute in E. by injection E as <-.
Defined.
