(* ===== verification/EventApi.v ===== *)
(** * Event queues with a file descriptor ([python/infra/defw_event_baseapi.py])

    [BaseEventAPI] keeps a queue of events and a pipe whose readability tells
    a [select] loop that there is something to get: one byte is written per
    event put and one read per event taken.  [equalto] and [recordtime] are
    the caller's functions; [eqb] is [==] on events, which [list.remove]
    uses. *)

From S2P Require Import Prelude PyDict PyVal Threads Registry.

Local Open Scope string_scope.
Local Open Scope list_scope.
Import PyNotations.
Local Open Scope py_scope.

Section EventApi.
Context {E C : Type} (eqb : E → E → bool).

(** The queue and the number of bytes in the pipe. *)
Record event_api := EventApi { event_queue : list E; pipe_bytes : nat }.

Definition new_event_api : event_api := EventApi [] 0.

Definition put (e : E) : M event_api unit :=
  modify (λ s, EventApi (event_queue s ++ [e]) (pipe_bytes s)) ;;;
  modify (λ s, EventApi (event_queue s) (S (pipe_bytes s))).

(** [list.remove(e)]: the first element equal to [e]. *)
Fixpoint list_remove (e : E) (l : list E) : res (list E) :=
  match l with
  | [] => Raise (Exc EValueError "list.remove(x): x not in list")
  | x :: l' => if eqb x e then Ok l' else res_map (cons x) (list_remove e l')
  end.

Fixpoint remove_all (es : list E) (l : list E) : res (list E) :=
  match es with
  | [] => Ok l
  | e :: es' => rbind (list_remove e l) (remove_all es')
  end.

(** [os.read(fd, n)] on a pipe: at most what is there; it blocks when bytes
    are asked for and there are none ([None]). *)
Definition os_read (n : nat) (bytes : nat) : option nat :=
  match n, bytes with
  | O, _ => Some bytes
  | _, O => None
  | _, _ => Some (bytes - n)
  end.

(** [recordtime(e)] may write to the selected events, which are the objects in
    the queue. *)
Definition stamp (criteria : C) (equalto : C → E → bool) (recordtime : E → E) (e : E) : E :=
  if equalto criteria e then recordtime e else e.

Definition get_events (criteria : C) (equalto : C → E → bool) (recordtime : E → E)
    (s : event_api) : option (event_api * res (list E)) :=
  let found := map recordtime (List.filter (equalto criteria) (event_queue s)) in
  let queue := map (stamp criteria equalto recordtime) (event_queue s) in
  match remove_all found queue with
  | Raise e => Some (EventApi queue (pipe_bytes s), Raise e)
  | Ok rest =>
      match os_read (length found) (pipe_bytes s) with
      | Some b => Some (EventApi rest b, Ok found)
      | None => None
      end
  end.

(** ** The pipe mirrors the queue *)

Definition mirrors (s : event_api) : Prop := pipe_bytes s = length (event_queue s).

(** What the code relies on: [==] is reflexive, an event the criteria select
    is not equal to one they reject, and stamping it does not change that. *)
Variable equalto : C → E → bool.
Variable recordtime : E → E.
Hypothesis eqb_refl : ∀ e, eqb e e = true.
Hypothesis eqb_same : ∀ c e e', eqb e e' = true → equalto c e = equalto c e'.

Hypothesis recordtime_same : ∀ c e, equalto c (recordtime e) = equalto c e.

Lemma stamp_filter c l :
  List.filter (equalto c) (map (stamp c equalto recordtime) l) =
  map recordtime (List.filter (equalto c) l) ∧
  List.filter (λ x, negb (equalto c x)) (map (stamp c equalto recordtime) l) =
  List.filter (λ x, negb (equalto c x)) l.
Proof.
  induction l as [|x l [IH1 IH2]]; simpl; [done|].
  assert (equalto c (stamp c equalto recordtime x) = equalto c x) as ->.
  { unfold stamp. by destruct (equalto c x) eqn:Ex; rewrite ?recordtime_same. }
  destruct (equalto c x) eqn:Ex; simpl; rewrite IH1, IH2; [|by unfold stamp; rewrite Ex].
  split; [|done]. f_equal. unfold stamp. by rewrite Ex.
Qed.

Lemma remove_skip e l1 l2 c :
  equalto c e = true → Forall (λ x, equalto c x = false) l1 →
  list_remove e (l1 ++ e :: l2) = Ok (l1 ++ l2).
Proof.
  intros He Hl. induction Hl as [|x l1 Hx _ IH]; simpl; [by rewrite eqb_refl|].
  destruct (eqb x e) eqn:Exe; [|by rewrite IH].
  rewrite (eqb_same c _ _ Exe), He in Hx. done.
Qed.

(** Removing the selected events one by one leaves the others, in order. *)
Lemma remove_found c l1 l2 :
  Forall (λ x, equalto c x = false) l1 →
  remove_all (List.filter (equalto c) l2) (l1 ++ l2) =
  Ok (l1 ++ List.filter (λ x, negb (equalto c x)) l2).
Proof.
  revert l1. induction l2 as [|x l2 IH]; intros l1 Hl1; simpl; [done|].
  destruct (equalto c x) eqn:Ex; simpl.
  - rewrite (remove_skip _ _ _ c) by done. simpl. by apply IH.
  - rewrite (cons_middle x l1 l2), app_assoc, IH, <- app_assoc; [done|].
    apply Forall_app. by repeat constructor.
Qed.

Lemma filter_split_length (f : E → bool) (l : list E) :
  length l = (length (List.filter f l) + length (List.filter (λ x, negb (f x)) l))%nat.
Proof. induction l as [|x l IH]; simpl; [done|]. destruct (f x); simpl; lia. Qed.

(** Taking the selected events out of the queue cannot fail. *)
Lemma remove_selected c l :
  remove_all (map recordtime (List.filter (equalto c) l)) (map (stamp c equalto recordtime) l) =
  Ok (List.filter (λ x, negb (equalto c x)) l).
Proof.
  destruct (stamp_filter c l) as [Hf1 Hf2].
  pose proof (remove_found c [] (map (stamp c equalto recordtime) l) (Forall_nil_2 _)) as Hr.
  by rewrite !app_nil_l, Hf1, Hf2 in Hr.
Qed.

(** As long as the pipe holds one byte per queued event, which every [put]
    and every [get] preserves, [get] never blocks: it returns exactly the
    events the criteria select, in the order they were put, and leaves the
    others queued with their bytes, so the descriptor is readable exactly
    when events are waiting. *)
Theorem event_pipe_mirrors_queue (s : event_api) (e : E) (c : C) :
  mirrors s →
  mirrors (put e s).1 ∧
  ∃ s', get_events c equalto recordtime s =
          Some (s', Ok (map recordtime (List.filter (equalto c) (event_queue s)))) ∧
    event_queue s' = List.filter (λ x, negb (equalto c x)) (event_queue s) ∧ mirrors s'.
Proof.
  unfold mirrors. intros Hm. split; [simpl; rewrite length_app; simpl; lia|].
  unfold get_events. rewrite remove_selected, length_map.
  pose proof (filter_split_length (equalto c) (event_queue s)) as Hl.
  set (n := length (List.filter (equalto c) (event_queue s))) in *.
  assert (os_read n (pipe_bytes s) = Some (pipe_bytes s - n)) as ->.
  { unfold os_read. destruct n as [|n']; [by rewrite Nat.sub_0_r|].
    destruct (pipe_bytes s) eqn:Eb; [lia | done]. }
  eexists. split; [done|]. simpl. split; [done | lia].
Qed.
End EventApi.

(** ** Exposing a queue to remote callers *)

Section external.
Context {W : Type}.

(** [register_external]: once, whatever the number of calls. *)
Definition register_external (i : instance) (class_id : string) : thread (registry W) unit :=
  ttry (tbind (atomic (get_class_from_db class_id)) (λ _, tret tt))
    (λ e, if bool_decide (exc_type e = EDEFwNotFound) then atomic (add_to_class_db i class_id)
          else TDone (Raise e)).

Definition unregister_external (class_id : string) : thread (registry W) unit :=
  atomic (del_entry_from_class_db class_id).

(** Registering twice is registering once, and unregistering undoes it. *)
Lemma register_external_once i class_id (r : registry W) :
  dget (class_db r) class_id = None →
  let r1 := (run (register_external i class_id) r).1 in
  dget (class_db r1) class_id = Some i ∧
  run (register_external i class_id) r1 = (r1, Ok tt) ∧
  class_db (run (unregister_external class_id) r1).1 = class_db r.
Proof.
  intros Hn. cbv zeta.
  assert (run (register_external i class_id) r =
          (set_class_db (dset (class_db r) class_id i) r, Ok tt)) as ->.
  { unfold register_external. simpl. unfold get_class_from_db, bind, get. simpl. rewrite Hn.
    simpl. unfold add_to_class_db, bind, get, modify, dmem. simpl. by rewrite Hn. }
  simpl. unfold get_class_from_db, del_entry_from_class_db, bind, get, modify, dmem. simpl.
  rewrite dget_dset_eq. simpl. split_and!; [done..|]. by apply ddel_dset_fresh.
Qed.
End external.

Definition parity (c : bool) (n : nat) : bool := Bool.eqb (Nat.even n) c.

Lemma event_pipe_mirrors_queue_witness :
  ∃ s', get_events Nat.eqb true parity id (EventApi [1; 2; 3; 4; 2] 5) = Some (s', Ok [2; 4; 2]) ∧
        event_queue s' = [1; 3] ∧ pipe_bytes s' = 2.
Proof.
  destruct (event_pipe_mirrors_queue Nat.eqb parity id) with (s := EventApi [1; 2; 3; 4; 2] 5)
    (e := 6) (c := true) as (_ & s' & H1 & H2 & H3).
  - apply Nat.eqb_refl.
  - intros c e e' ->%Nat.eqb_eq. reflexivity.
  - reflexivity.
  - reflexivity.
  - exists s'. split_and!; [exact H1 | exact H2|]. unfold mirrors in H3. by rewrite H3, H2.
Defined.
