(* ===== verification/EventLock.v ===== *)
(** * Event queues shared by threads ([python/infra/defw_event_baseapi.py])

    The worker's threads put events into a [BaseEventAPI] while the
    application takes them out.  Each call runs under a [ConditionalLock],
    which is a lock only when the queue was created thread safe.  A call is
    here the sequence of its own steps (take the lock, change the queue, use
    the pipe, release the lock), and a run is any interleaving of the steps of
    any number of calls; a step that would block is not taken. *)

From S2P Require Import Prelude PyDict PyVal EventApi.

Local Open Scope string_scope.
Local Open Scope list_scope.
Import PyNotations.
Local Open Scope py_scope.

(** ** The lock *)

Record cond_lock := CondLock { thread_safe : bool; lock_held : bool }.

(** [ConditionalLock.__init__] *)
Definition new_lock (safe : bool) : cond_lock := CondLock safe false.

(** [acquire] and [__enter__]; [None] while another thread holds the lock *)
Definition acquire (l : cond_lock) : option cond_lock :=
  if thread_safe l then if lock_held l then None else Some (CondLock true true) else Some l.

(** [release] and [__exit__] *)
Definition release (l : cond_lock) : res cond_lock :=
  if thread_safe l then
    if lock_held l then Ok (CondLock true false) else Raise (Exc ERuntimeError "release unlocked lock")
  else Ok l.

(** [locked] *)
Definition locked (l : cond_lock) : bool := if thread_safe l then lock_held l else false.

(** ** Totals over the threads *)

Section total.
Context {T : Type}.

Definition total (f : T → nat) (ts : list T) : nat := foldr (λ t n, (f t + n)%nat) 0%nat ts.

Lemma total_update f ts i t t' :
  ts !! i = Some t → (total f (<[i:=t']> ts) + f t = total f ts + f t')%nat.
Proof.
  revert i. induction ts as [|u ts IH]; intros [|i]; simpl; [done|done| |].
  - intros [= ->]. lia.
  - intros Hi%IH. lia.
Qed.

Lemma total_ge f ts i t : ts !! i = Some t → (f t ≤ total f ts)%nat.
Proof. revert i. induction ts as [|u ts IH]; intros [|i]; simpl; [done|done| |]; [intros [= ->] | intros ?%IH]; lia. Qed.

Lemma total_le f g ts : (∀ t, f t ≤ g t)%nat → (total f ts ≤ total g ts)%nat.
Proof. intros H. induction ts as [|t ts IH]; simpl; [done|]. specialize (H t). lia. Qed.

Lemma total_add f g ts : total (λ t, f t + g t)%nat ts = (total f ts + total g ts)%nat.
Proof. induction ts as [|t ts IH]; simpl; lia. Qed.

Lemma total_pos f ts : (0 < total f ts)%nat → ∃ i t, ts !! i = Some t ∧ (0 < f t)%nat.
Proof.
  induction ts as [|t ts IH]; simpl; [lia|]. intros H. destruct (f t) eqn:Ef.
  - destruct IH as (i & u & Hi & Hu); [lia|]. by exists (S i), u.
  - exists 0%nat, t. split; [done | lia].
Qed.
End total.

Section EventLock.
Context {E C : Type} (eqb : E → E → bool) (equalto : C → E → bool) (recordtime : E → E).
Local Abbreviation api := (event_api (E := E)).

(** What a call ends with *)
Inductive outcome := PutDone | Got (found : list E) | Failed (e : pyexc).

(** Where a call is: [put] and [get] in steps, and the way out of [with] *)
Inductive place :=
  | PutEnter (e : E) | PutAppend (e : E) | PutWrite
  | GetEnter (c : C) | GetTake (c : C) | GetRead (found : list E)
  | Leave (o : outcome) | Finished (o : outcome).

Record shared := Shared { lock : cond_lock; queue : api }.

(** The two loops of [get]: the selected events, stamped, leave the queue. *)
Definition take (c : C) (s : api) : api * res (list E) :=
  let found := map recordtime (List.filter (equalto c) (event_queue s)) in
  let q := map (stamp c equalto recordtime) (event_queue s) in
  match remove_all eqb found q with
  | Ok rest => (EventApi rest (pipe_bytes s), Ok found)
  | Raise e => (EventApi q (pipe_bytes s), Raise e)
  end.

(** One step of a call; [None] when it blocks or is over *)
Definition call_step (t : place) (s : shared) : option (shared * place) :=
  match t with
  | PutEnter e => (λ l, (Shared l (queue s), PutAppend e)) <$> acquire (lock s)
  | PutAppend e => Some (Shared (lock s) (EventApi (event_queue (queue s) ++ [e]) (pipe_bytes (queue s))), PutWrite)
  | PutWrite => Some (Shared (lock s) (EventApi (event_queue (queue s)) (S (pipe_bytes (queue s)))), Leave PutDone)
  | GetEnter c => (λ l, (Shared l (queue s), GetTake c)) <$> acquire (lock s)
  | GetTake c =>
      let '(q, r) := take c (queue s) in
      Some (Shared (lock s) q, match r with Ok found => GetRead found | Raise e => Leave (Failed e) end)
  | GetRead found =>
      (λ b, (Shared (lock s) (EventApi (event_queue (queue s)) b), Leave (Got found)))
        <$> os_read (length found) (pipe_bytes (queue s))
  | Leave o =>
      Some match release (lock s) with
           | Ok l => (Shared l (queue s), Finished o)
           | Raise e => (s, Finished (Failed e))
           end
  | Finished _ => None
  end.

(** A call that nobody interrupts is the call of [EventApi]. *)
Fixpoint call_run (n : nat) (t : place) (s : shared) : shared * place :=
  match n with
  | O => (s, t)
  | S n' => match call_step t s with Some (s', t') => call_run n' t' s' | None => (s, t) end
  end.

Lemma put_alone e s safe :
  call_run 4 (PutEnter e) (Shared (new_lock safe) s) = (Shared (new_lock safe) (put e s).1, Finished PutDone).
Proof. by destruct safe. Qed.

Lemma get_alone c s safe :
  match get_events eqb c equalto recordtime s with
  | Some (s', Ok found) =>
      call_run 4 (GetEnter c) (Shared (new_lock safe) s) = (Shared (new_lock safe) s', Finished (Got found))
  | Some (s', Raise e) =>
      call_run 4 (GetEnter c) (Shared (new_lock safe) s) = (Shared (new_lock safe) s', Finished (Failed e))
  | None => ∃ s' found, call_run 4 (GetEnter c) (Shared (new_lock safe) s) = (s', GetRead found)
  end.
Proof.
  unfold get_events. destruct (remove_all eqb _ _) as [rest|e] eqn:Er.
  - destruct (os_read _ _) as [b|] eqn:Eo.
    + destruct safe; simpl; unfold take; rewrite Er; simpl; by rewrite Eo.
    + destruct safe; simpl; unfold take; rewrite Er; simpl; rewrite Eo; simpl; eauto.
  - destruct safe; simpl; unfold take; by rewrite Er.
Qed.

(** ** Interleavings *)

Definition config : Type := shared * list place.

Inductive config_step : config → config → Prop :=
  | cs_step i t s s' t' ts :
      ts !! i = Some t → call_step t s = Some (s', t') → config_step (s, ts) (s', <[i:=t']> ts).

(** Whether a call has not begun, is over, or is over without an exception *)
Definition fresh (t : place) : bool := match t with PutEnter _ | GetEnter _ => true | _ => false end.
Definition over (t : place) : bool := match t with Finished _ => true | _ => false end.
Definition succeeded (t : place) : bool :=
  match t with Leave (Failed _) | Finished (Failed _) => false | _ => true end.

(** Whether it is inside [with], the steps it has left, the byte it has still
    to write, the bytes it has still to read *)
Definition inside (t : place) : nat :=
  match t with PutAppend _ | PutWrite | GetTake _ | GetRead _ | Leave _ => 1%nat | _ => 0%nat end.
Definition steps_left (t : place) : nat :=
  match t with
  | PutEnter _ | GetEnter _ => 4%nat | PutAppend _ | GetTake _ => 3%nat | PutWrite | GetRead _ => 2%nat
  | Leave _ => 1%nat | Finished _ => 0%nat
  end.
Definition owes (t : place) : nat := match t with PutWrite => 1%nat | _ => 0%nat end.
Definition due (t : place) : nat := match t with GetRead found => length found | _ => 0%nat end.

(** The event a call has still to put, and the events it took out *)
Definition to_put (t : place) : list E := match t with PutEnter e | PutAppend e => [e] | _ => [] end.
Definition got (t : place) : list E :=
  match t with GetRead l | Leave (Got l) | Finished (Got l) => l | _ => [] end.

Lemma flat_map_update {B} (f : place → list B) ts i t t' :
  ts !! i = Some t → flat_map f (<[i:=t']> ts) ++ f t ≡ₚ flat_map f ts ++ f t'.
Proof.
  revert i. induction ts as [|u ts IH]; intros [|i]; simpl; [done|done| |].
  - intros [= ->]. rewrite (Permutation_app_comm (f t')), <- !app_assoc.
    rewrite (Permutation_app_comm (f t) (flat_map f ts ++ f t')). rewrite <- app_assoc.
    by rewrite (Permutation_app_comm (f t') (f t)).
  - intros Hi%IH. rewrite <- !app_assoc. by rewrite Hi.
Qed.

(** ** The invariant *)

Context (eqb_refl : ∀ e, eqb e e = true).
Context (eqb_same : ∀ c e e', eqb e e' = true → equalto c e = equalto c e').
Context (recordtime_same : ∀ c e, equalto c (recordtime e) = equalto c e).

Record threads_ok (all : list E) (s : shared) (ts : list place) : Prop := {
  tk_safe : thread_safe (lock s) = true;
  tk_lock : total inside ts = if lock_held (lock s) then 1%nat else 0%nat;
  tk_bytes : (pipe_bytes (queue s) + total owes ts = length (event_queue (queue s)) + total due ts)%nat;
  tk_good : Forall (λ t, succeeded t = true) ts;
  tk_events : ∃ taken, flat_map got ts ≡ₚ map recordtime taken ∧
    event_queue (queue s) ++ taken ++ flat_map to_put ts ≡ₚ all
}.

Lemma take_selected c q :
  take c q = (EventApi (List.filter (λ x, negb (equalto c x)) (event_queue q)) (pipe_bytes q),
              Ok (map recordtime (List.filter (equalto c) (event_queue q)))).
Proof. unfold take. by rewrite remove_selected. Qed.

Lemma filter_split_perm (f : E → bool) (l : list E) :
  l ≡ₚ List.filter (λ x, negb (f x)) l ++ List.filter f l.
Proof.
  induction l as [|x l IH]; simpl; [done|]. destruct (f x); simpl; [|by rewrite <- IH].
  rewrite <- Permutation_middle. by rewrite <- IH.
Qed.

(** A call inside is the only one, and neither owes nor expects bytes of another. *)
Lemma alone ts i t :
  total inside ts = 1%nat → ts !! i = Some t → inside t = 1%nat →
  total owes ts = owes t ∧ total due ts = due t.
Proof.
  intros H1 Hi Ht. assert (∀ f, (∀ u, inside u = 0%nat → f u = 0%nat) → total f ts = f t) as H.
  { intros f Hf. revert i H1 Hi. induction ts as [|u ts IH]; intros [|i]; simpl; [done|done| |].
    - intros H1 [= ->]. assert (total inside ts = 0%nat) as H0 by lia.
      assert (total f ts = 0%nat); [|lia]. clear IH H1. induction ts as [|u ts IH]; simpl in *; [done|].
      rewrite Hf by lia. apply IH. lia.
    - intros H1 Hi. pose proof (total_ge inside ts i t Hi). rewrite Hf by lia. apply (IH i); [lia | done]. }
  split; apply H; by intros [].
Qed.

(** The step of one call, seen from the whole *)
Lemma threads_ok_update all s ts i t s' t' extra :
  threads_ok all s ts → ts !! i = Some t → thread_safe (lock s') = true →
  (inside t' + (if lock_held (lock s) then 1 else 0) = inside t + (if lock_held (lock s') then 1 else 0))%nat →
  (pipe_bytes (queue s') + owes t' + due t + length (event_queue (queue s)) =
   pipe_bytes (queue s) + owes t + due t' + length (event_queue (queue s')))%nat →
  succeeded t' = true → got t' ≡ₚ got t ++ map recordtime extra →
  event_queue (queue s') ++ extra ++ to_put t' ≡ₚ event_queue (queue s) ++ to_put t →
  threads_ok all s' (<[i:=t']> ts).
Proof.
  intros [Hs Hl Hb Hg (taken & Ht & Hall)] Hi Hs' Hl' Hb' Hg' Hgot Hq.
  pose proof (total_update inside ts i t t' Hi). pose proof (total_update owes ts i t t' Hi).
  pose proof (total_update due ts i t t' Hi). split; [done|lia|lia| |].
  - by apply Forall_insert.
  - exists (taken ++ extra). split.
    + apply (Permutation_app_inv_r (got t)). rewrite (flat_map_update got ts i t t' Hi), Hgot, Ht, map_app.
      by rewrite <- !app_assoc, (Permutation_app_comm (got t)).
    + apply (Permutation_app_inv_r (to_put t)). rewrite <- Hall, <- !app_assoc.
      rewrite (flat_map_update to_put ts i t t' Hi).
      transitivity ((event_queue (queue s') ++ extra ++ to_put t') ++ taken ++ flat_map to_put ts).
      * rewrite <- !app_assoc. apply Permutation_app_head.
        rewrite (Permutation_app_swap_app taken extra). apply Permutation_app_head.
        rewrite (Permutation_app_comm (flat_map to_put ts) (to_put t')). by rewrite Permutation_app_swap_app.
      * rewrite Hq, <- !app_assoc. apply Permutation_app_head. rewrite Permutation_app_comm, <- !app_assoc. done.
Qed.

Lemma os_read_enough n b : (n ≤ b)%nat → os_read n b = Some (b - n)%nat.
Proof. intros H. destruct n, b; simpl; try done; lia. Qed.

Lemma held_inside all s ts i t :
  threads_ok all s ts → ts !! i = Some t → inside t = 1%nat → lock_held (lock s) = true ∧ total inside ts = 1%nat.
Proof.
  intros [_ Hl _ _ _] Hi Ht. pose proof (total_ge inside ts i t Hi). destruct (lock_held (lock s)); [done | lia].
Qed.

Lemma acquire_inv l l' : thread_safe l = true → acquire l = Some l' → lock_held l = false ∧ l' = CondLock true true.
Proof. unfold acquire. intros ->. destruct (lock_held l); [done|]. by intros [= <-]. Qed.

Lemma call_step_ok all s ts i t s' t' :
  threads_ok all s ts → ts !! i = Some t → call_step t s = Some (s', t') →
  threads_ok all s' (<[i:=t']> ts) ∧ (S (steps_left t') ≤ steps_left t)%nat.
Proof.
  intros Hok Hi Hstep. pose proof (tk_safe _ _ _ Hok) as Hs.
  assert (inside t = 1%nat → lock_held (lock s) = true) as Hin by (intros Ht; by apply (held_inside _ _ _ _ _ Hok Hi)).
  destruct t as [e|e| |c|c|found|o|o]; simpl in Hstep.
  - apply fmap_Some in Hstep as (l & (Hf & ->)%acquire_inv & [= -> ->]); [|done].
    split; [|done]. apply (threads_ok_update all s ts i _ _ _ [] Hok Hi); simpl; rewrite ?Hf; try done; lia.
  - injection Hstep as <- <-. split; [|done].
    apply (threads_ok_update all s ts i _ _ _ [] Hok Hi); simpl; try done; rewrite ?length_app; simpl; [lia|].
    by rewrite app_nil_r.
  - injection Hstep as <- <-. split; [|done].
    apply (threads_ok_update all s ts i _ _ _ [] Hok Hi); simpl; try done; lia.
  - apply fmap_Some in Hstep as (l & (Hf & ->)%acquire_inv & [= -> ->]); [|done].
    split; [|done]. apply (threads_ok_update all s ts i _ _ _ [] Hok Hi); simpl; rewrite ?Hf; try done; lia.
  - rewrite take_selected in Hstep. injection Hstep as <- <-. split; [|done].
    apply (threads_ok_update all s ts i _ _ _ (List.filter (equalto c) (event_queue (queue s))) Hok Hi); simpl; try done.
    + rewrite length_map. pose proof (filter_split_length (equalto c) (event_queue (queue s))). lia.
    + rewrite !app_nil_r. symmetry. apply filter_split_perm.
  - apply fmap_Some in Hstep as (b & Hb & [= -> ->]). split; [|done].
    destruct (held_inside _ _ _ _ _ Hok Hi eq_refl) as [_ H1].
    destruct (alone _ _ _ H1 Hi eq_refl) as [Ho Hd]. pose proof (tk_bytes _ _ _ Hok) as Hbytes. simpl in Ho, Hd.
    rewrite os_read_enough in Hb by lia. injection Hb as <-.
    apply (threads_ok_update all s ts i _ _ _ [] Hok Hi); simpl; try done; [lia|]. by rewrite app_nil_r.
  - unfold release in Hstep. rewrite Hs, (Hin eq_refl) in Hstep. injection Hstep as <- <-. split; [|done].
    pose proof (Forall_lookup_1 _ _ _ _ (tk_good _ _ _ Hok) Hi) as Hgood.
    apply (threads_ok_update all s ts i _ _ _ [] Hok Hi); simpl; rewrite ?(Hin eq_refl); try done.
    by destruct o; simpl; rewrite ?app_nil_r.
  - done.
Qed.

(** Some call can always go on, until all are over. *)
Lemma call_can_step all s ts i t :
  threads_ok all s ts → ts !! i = Some t → over t = false →
  (inside t = 1%nat ∨ lock_held (lock s) = false) → is_Some (call_step t s).
Proof.
  intros Hok Hi Ho Hin. pose proof (tk_safe _ _ _ Hok) as Hs.
  destruct t as [e|e| |c|c|found|o|o]; try done; simpl; try by eexists.
  1,2: destruct Hin as [|Hf]; [done|]; unfold acquire; rewrite Hs, Hf; by eexists.
  - rewrite take_selected. by eexists.
  - destruct (held_inside _ _ _ _ _ Hok Hi eq_refl) as [_ H1].
    destruct (alone _ _ _ H1 Hi eq_refl) as [Hw Hd]. pose proof (tk_bytes _ _ _ Hok) as Hb. simpl in Hw, Hd.
    rewrite os_read_enough by lia. by eexists.
Qed.

Lemma not_stuck all s ts :
  threads_ok all s ts → Forall (λ t, over t = true) ts ∨ ∃ c', config_step (s, ts) c'.
Proof.
  intros Hok. destruct (decide (Forall (λ t, over t = true) ts)) as [|Hn]; [by left | right].
  assert (∃ i t, ts !! i = Some t ∧ over t = false ∧ (inside t = 1%nat ∨ lock_held (lock s) = false))
    as (i & t & Hi & Ho & Hin).
  { pose proof (tk_lock _ _ _ Hok) as Hl. destruct (lock_held (lock s)).
    - destruct (total_pos inside ts) as (i & t & Hi & Ht); [lia|]. exists i, t.
      pose proof (total_ge inside ts i t Hi). split_and!; [done|by destruct t; simpl in *; lia || done | left; lia].
    - apply not_Forall_Exists in Hn; [|intros t; apply _]. apply Exists_exists in Hn as (t & (i & Hi)%list_elem_of_lookup & Ht).
      exists i, t. apply not_true_is_false in Ht. by split_and!; [| |right]. }
  destruct (call_can_step _ _ _ _ _ Hok Hi Ho Hin) as [[s' t'] Hst]. eexists. by econstructor.
Qed.

Lemma threads_ok_start q0 ts0 :
  mirrors q0 → Forall (λ t, fresh t = true) ts0 →
  threads_ok (event_queue q0 ++ flat_map to_put ts0) (Shared (new_lock true) q0) ts0.
Proof.
  intros Hm Hf. assert (∀ g : place → nat, (∀ t, fresh t = true → g t = 0%nat) → total g ts0 = 0%nat) as H0.
  { intros g Hg. induction Hf; simpl; [done|]. by rewrite Hg. }
  split; simpl; [done| | | |].
  - apply H0. by intros [].
  - rewrite !H0 by (by intros []). unfold mirrors in Hm. lia.
  - eapply Forall_impl; [exact Hf|]. by intros [].
  - exists []. split; [|done]. simpl. clear H0. induction Hf as [|t ts Ht _ IH]; simpl; [done|]. destruct t; try done; exact IH.
Qed.

Lemma steps_ok n all c c' :
  nsteps config_step n c c' → threads_ok all c.1 c.2 →
  threads_ok all c'.1 c'.2 ∧ (n + total steps_left c'.2 ≤ total steps_left c.2)%nat.
Proof.
  induction 1 as [c|n c1 c2 c3 Hstep _ IH]; [done|]. intros Hok.
  destruct Hstep as [i t s s' t' ts Hi Hst]. simpl in Hok.
  destruct (call_step_ok _ _ _ _ _ _ _ Hok Hi Hst) as [Hok' Hle]. destruct (IH Hok') as [? Hn].
  split; [done|]. simpl in *. pose proof (total_update steps_left ts i t t' Hi). lia.
Qed.

End EventLock.

(** ** Two producers and a consumer *)
Module EventLockDemo.
Local Abbreviation step := (config_step Nat.eqb parity id).

(** A schedule: which call takes the next step *)
Definition sched_one (i : nat) (c : config (E := nat) (C := bool)) : config :=
  match c.2 !! i with
  | Some t => match call_step Nat.eqb parity id t c.1 with
              | Some (s', t') => (s', <[i:=t']> c.2)
              | None => c
              end
  | None => c
  end.

(** Every choice of the schedule is a step that can be taken. *)
Fixpoint valid (js : list nat) (c : config (E := nat) (C := bool)) : bool :=
  match js with
  | [] => true
  | i :: js' =>
      match c.2 !! i with
      | Some t => match call_step Nat.eqb parity id t c.1 with
                  | Some _ => valid js' (sched_one i c)
                  | None => false
                  end
      | None => false
      end
  end.

Lemma valid_nsteps js c : valid js c = true → nsteps step (length js) c (fold_left (λ c i, sched_one i c) js c).
Proof.
  revert c. induction js as [|i js IH]; intros [s ts]; simpl; [constructor|].
  destruct (ts !! i) as [t|] eqn:Hi; [|done]. destruct (call_step _ _ _ t s) as [[s' t']|] eqn:Hst; [|done].
  assert (sched_one i (s, ts) = (s', <[i:=t']> ts)) as -> by (unfold sched_one; simpl; by rewrite Hi, Hst).
  intros Hv. econstructor; [by econstructor | by apply IH].
Qed.

Definition q0 : event_api := EventApi [4] 1.
Definition calls : list (place (E := nat) (C := bool)) := [PutEnter 2; GetEnter true; PutEnter 3].

(** The consumer gets in between the producers. *)
Definition order : list nat := [2; 2; 2; 2; 1; 1; 1; 1; 0; 0; 0; 0].


(** Without the lock a [get] can run between the two halves of two [put]s and
    find one byte for two events: the second byte then stays in the pipe, and
    the descriptor is readable although nothing is queued. *)
Definition torn : list nat := [0; 0; 2; 2; 0; 1; 1; 1; 1; 0; 2; 2].
Definition both_even : list (place (E := nat) (C := bool)) := [PutEnter 2; GetEnter true; PutEnter 4].

Example unlocked_queue_tears :
  let start := (Shared (new_lock false) (EventApi [] 0), both_even) in
  let c := fold_left (λ c i, sched_one i c) torn start in
  valid torn start = true ∧ forallb over c.2 = true ∧ event_queue (queue c.1) = [] ∧ pipe_bytes (queue c.1) = 1.
Proof. vm_compute. repeat split. Qed.
End EventLockDemo.
