(* ===== verification/Connect.v ===== *)
(** * Connections and proxies

    [connect_to_services], [connect_to_binding] and [wait_dirsvc]
    (python/infra/defw.py, 1457-1571) and the remote proxies ([BaseRemote],
    python/infra/defw_remote.py).  The state is the worker's; the blocking
    connect call and the peer tables later polls see are arguments. *)

From S2P Require Import Prelude PyDict PyVal Agent Peers PeersFacts Workers.

Local Open Scope string_scope.
Local Open Scope Z_scope.
Local Open Scope list_scope.
Import PyNotations.
Local Open Scope py_scope.

(** ** Finding a connection *)

(** [_zero_blk_endpoint] *)
Definition zero_blk_endpoint (e : Endpoint) : res Endpoint :=
  new_endpoint (addr e) (port e) (listen_port e) (pid e) (name e) (hostname e) (node_type e)
    (remote_uuid e) (VStr ZERO_UUID).

(** [_find_bound_agent] *)
Definition find_bound_agent (t : peer_table) (e : Endpoint) : res (option Endpoint) :=
  let? agent := get_agent t (EpObj e) VNone false in
  match agent with
  | Some a => Ok (Some a)
  | None => get_agent t (EpObj e) (VStr CONNECTION_OUTBOUND) true
  end.

(** [_wait_for_bound_agent]: [polls] are the peer tables at the successive
    looks before the deadline. *)
Fixpoint wait_for_bound_agent (polls : list peer_table) (e : Endpoint) : res (option Endpoint) :=
  match polls with
  | [] => Ok None
  | t :: polls' =>
      let? agent := find_bound_agent t e in
      match agent with
      | Some a => Ok (Some a)
      | None => wait_for_bound_agent polls' e
      end
  end.

Section Connect.
Context (connect : Endpoint → M wstate unit).
Context (polls : Endpoint → list peer_table).

Definition connect_one (e : Endpoint) : M wstate Endpoint :=
  let! s := get in
  let! agent := lift_res (find_bound_agent (peer_tbl s) e) in
  match agent with
  | Some a => ret a
  | None =>
      let! connect_ep := lift_res (zero_blk_endpoint e) in
      connect connect_ep ;;;
      let! agent := lift_res (wait_for_bound_agent (polls connect_ep) connect_ep) in
      match agent with
      | Some a => ret a
      | None => throw EDEFwAgentNotFound "Connection completed without a bound peer"
      end
  end.

(** [connect_to_services] *)
Fixpoint connect_to_services (eps : list Endpoint) : M wstate (list Endpoint) :=
  match eps with
  | [] => ret []
  | e :: eps' =>
      let! a := connect_one e in
      let! as' := connect_to_services eps' in
      ret (a :: as')
  end.

(** The endpoint a resolved record leads to. *)
Definition binding_endpoint (record : pydict) : res Endpoint :=
  let? transport := as_dict (py_or (vget record "transport_binding") (VDict [])) in
  let peer_handle := py_or (py_or (vget record "peer_handle") (vget transport "peer_handle"))
                       (VStr ZERO_UUID) in
  let? nt := if truthy (vget record "node_type") then Ok (vget record "node_type")
             else let? e := as_dict (py_or (vget record "endpoint") (VDict [])) in
                  Ok (vget e "node_type") in
  let nt := match nt with
            | VNone => if py_eqb (vget record "service_type") (VStr "defw.dirsvc")
                       then VInt EN_DEFW_DIRSVC else VInt EN_DEFW_SERVICE
            | v => v
            end in
  let? ep := vindex record "endpoint" in
  let? ep := as_dict ep in
  let? address := vindex ep "address" in
  let? listen_port := vindex ep "listen_port" in
  let? pid := vindex ep "pid" in
  let? node_name := vindex ep "node_name" in
  let? hostname := vindex ep "hostname" in
  let? runtime_id := vindex record "runtime_id" in
  new_endpoint address (VInt 0) listen_port pid node_name hostname nt runtime_id peer_handle.

(** [connect_to_binding]; [instantiate] imports the client module, finds the
    class and constructs the proxy for the bound endpoint. *)
Definition connect_to_binding
    (instantiate : val → val → Endpoint → val → val → M wstate nat)
    (record binding : pydict) : M wstate nat :=
  let! e := lift_res (binding_endpoint record) in
  let! bound := connect_to_services [e] in
  let bound_ep := match bound with b :: _ => b | [] => e end in
  let! client_module := lift_res (vindex binding "client_module") in
  let! client_class := lift_res (vindex binding "client_class") in
  instantiate client_module client_class bound_ep (vget binding "service_module")
    (vget binding "service_class").
End Connect.

(** [wait_dirsvc]: [seen] tells, second by second, whether the directory is
    bound when the loop looks. *)
Fixpoint dirsvc_loop (wait timeout : Z) (seen : list bool) : bool :=
  if wait <? timeout then
    match seen with
    | [] => false
    | b :: seen' => if b then true else dirsvc_loop (wait + 1) timeout seen'
    end
  else false.

Definition wait_dirsvc (timeout : Z) (now : bool) (seen : list bool) : bool :=
  if now then true else dirsvc_loop 0 timeout seen.

(** ** Proxies *)

Record proxy := Proxy {
  px_own : bool;
  px_agent : option Endpoint;
  px_module : string;
  px_class : string;
  px_class_id : string;
  px_blocking : bool
}.

(** A request a proxy sends: type, module, class, method, handle. *)
Definition sent : Type := string * string * string * string * string.

(** [Agent.send_req] takes seven arguments before the call's own; fewer raise
    before anything is sent. *)
Definition call_send_req (answer : sent → res val) (positional : nat) (m : sent) :
    M (list sent) val :=
  if (positional <? 7)%nat then
    throw ETypeError "send_req() missing 1 required positional argument: 'blocking'"
  else modify (λ l, l ++ [m]) ;;; lift_res (answer m).

Section Remote.
Context (answer : sent → res val).

(** [BaseRemote.__init__]; [lookup] is what [get_agent(target)] gave. *)
Definition new_proxy (class_id : string) (blocking : bool)
    (lookup : option (res (option Endpoint))) (remote_module remote_class fresh_id : string) :
    M (list sent) proxy :=
  match lookup with
  | None => ret (Proxy true None "" "" "" blocking)
  | Some (Raise _) => throw EDEFwError "Unknown Agent: "
  | Some (Ok None) => throw EDEFwAgentNotFound "agent not found"
  | Some (Ok (Some agent)) =>
      if String.eqb remote_module "" || String.eqb remote_class "" then
        throw EDEFwError "remote bindings require service_module and service_class"
      else if negb (String.eqb class_id "") then
        ret (Proxy false (Some agent) remote_module remote_class class_id blocking)
      else
        let! _ := call_send_req answer 7
                    ("instantiate_class", remote_module, remote_class, "__init__", fresh_id) in
        ret (Proxy true (Some agent) remote_module remote_class fresh_id blocking)
  end.

(** A method called on the proxy. *)
Definition proxy_call (p : proxy) (local : res val) (method : string) : M (list sent) val :=
  match px_agent p with
  | Some _ => call_send_req answer 7
                ("method_call", px_module p, px_class p, method, px_class_id p)
  | None => lift_res local
  end.

(** [BaseRemote.__del__] passes six arguments, under a bare [except]. *)
Definition proxy_del (p : proxy) : M (list sent) unit :=
  try_with
    (if negb (px_own p) then ret tt
     else match px_agent p with
          | Some _ =>
              let! _ := call_send_req answer 6
                          ("destroy_class", px_module p, px_class p, "__del__", px_class_id p) in
              ret tt
          | None => ret tt
          end)
    (λ _, ret tt).
End Remote.

(** [defwrc]: the status field of a test result. *)
Definition defwrc (error : Z) (args : list val) (kwargs : pydict) : pydict :=
  [("status", VStr (if error =? -1 then "FAIL" else if error =? -2 then "SKIP" else "PASS"))] ++
  (match args with [] => [] | _ => [("args", VList args)] end) ++
  (match kwargs with [] => [] | _ => [("kwargs", VDict kwargs)] end).

(** ** Properties *)

(** [a] stands for a callable connection of [t] that fits the target [e]. *)
Definition usable (t : peer_table) (e a : Endpoint) : Prop :=
  ∃ k r, dget (peers t) k = Some r ∧ callable r = true ∧ blk_uuid a = peer_handle r ∧
         (truthy (endpoint_runtime_id (EpObj e)) = true →
          py_eqb (endpoint_runtime_id (EpObj e)) (runtime_id r) = true).

Lemma get_agent_usable t e a dir fb :
  table_ok t → get_agent t (EpObj e) dir fb = Ok (Some a) → usable t e a.
Proof.
  intros Hok (r & Hf & Ha)%get_agent_from.
  destruct (find_record_sound _ _ _ _ _ Hok Hf) as ([k Hk] & Hm & _).
  destruct (record_to_agent_fields _ _ _ Ha) as (Hb & _ & _).
  exists k, r. split_and!; try done; [by eapply record_matches_callable|].
  by eapply record_matches_runtime.
Qed.

Lemma find_bound_usable t e a :
  table_ok t → find_bound_agent t e = Ok (Some a) → usable t e a.
Proof.
  intros Hok. unfold find_bound_agent.
  destruct (get_agent t (EpObj e) VNone false) as [[a'|]|] eqn:E; simpl; [| |done].
  - intros [= ->]. by eapply get_agent_usable.
  - by apply get_agent_usable.
Qed.

Lemma wait_for_bound_found polls e a :
  wait_for_bound_agent polls e = Ok (Some a) →
  ∃ t, t ∈ polls ∧ find_bound_agent t e = Ok (Some a).
Proof.
  induction polls as [|t polls IH]; simpl; [done|].
  destruct (find_bound_agent t e) as [[a'|]|] eqn:E; simpl; [| |done].
  - intros [= ->]. exists t. split; [by left | done].
  - intros (t' & Hin & Ht')%IH. exists t'. split; [by right | done].
Qed.

(** The endpoint to connect to keeps the identity of the target. *)
Lemma zero_blk_runtime e e' :
  zero_blk_endpoint e = Ok e' →
  endpoint_runtime_id (EpObj e') = endpoint_runtime_id (EpObj e).
Proof. unfold zero_blk_endpoint, new_endpoint. case_match; [|done]. by intros [= <-]. Qed.

Lemma connect_one_bound (P : peer_table → Prop) connect polls e s s' a :
  (∀ t, P t → table_ok t) → (∀ e t, t ∈ polls e → P t) → P (peer_tbl s) →
  connect_one connect polls e s = (s', Ok a) →
  ∃ t, P t ∧ usable t e a.
Proof.
  intros HP Hpolls Hok. unfold connect_one, bind, get, lift_res, ret, throw.
  destruct (find_bound_agent (peer_tbl s) e) as [[a'|]|] eqn:E; [| |done].
  - intros [= -> ->]. exists (peer_tbl s'). split; [done|]. apply find_bound_usable; auto.
  - destruct (zero_blk_endpoint e) as [e'|] eqn:Ez; [|done].
    destruct (connect e' s) as [s1 [[]|]]; [|done].
    destruct (wait_for_bound_agent (polls e') e') as [[a'|]|] eqn:Ew; [|done|done].
    intros [= -> ->]. apply wait_for_bound_found in Ew as (t & Hin & Hf).
    exists t. split; [by eapply Hpolls|].
    destruct (find_bound_usable t e' a) as (k & r & ? & ? & ? & Hr);
      [by eapply HP, Hpolls | done|].
    exists k, r. split_and!; try done. by rewrite <- (zero_blk_runtime _ _ Ez).
Qed.

(** [connect_to_services] returns one bound endpoint per target, in order:
    each belongs to a callable connection of a peer table the call has seen
    and, when the target names a runtime, to that runtime.  ([P] is any
    property of the tables the process goes through: the current one, those
    the connect calls lead to and those the polls look at.) *)
Theorem connect_to_services_bound (P : peer_table → Prop) (connect : Endpoint → M wstate unit)
    (polls : Endpoint → list peer_table) (eps : list Endpoint) (s s' : wstate)
    (out : list Endpoint) :
  (∀ t, P t → table_ok t) → (∀ e t, t ∈ polls e → P t) →
  (∀ e s, P (peer_tbl s) → P (peer_tbl (connect e s).1)) → P (peer_tbl s) →
  connect_to_services connect polls eps s = (s', Ok out) →
  Forall2 (λ e a, ∃ t, P t ∧ usable t e a) eps out.
Proof.
  intros HP Hpolls Hconn. revert s s' out. induction eps as [|e eps IH]; intros s s' out Hok; simpl.
  { intros [= <- <-]. constructor. }
  unfold bind at 1. destruct (connect_one connect polls e s) as [s1 [a|]] eqn:E1; [|done].
  unfold bind. destruct (connect_to_services connect polls eps s1) as [s2 [as'|]] eqn:E2; [|done].
  intros [= <- <-]. constructor; [by eapply connect_one_bound|].
  eapply IH; [|done]. revert E1. unfold connect_one, bind, get, lift_res, ret, throw.
  destruct (find_bound_agent _ e) as [[a'|]|]; [by intros [= <- _]| |by intros [= <- _]].
  destruct (zero_blk_endpoint e) as [e'|]; [|by intros [= <- _]].
  specialize (Hconn e' s Hok). destruct (connect e' s) as [s3 [[]|]]; [|by intros [= <- _]].
  destruct (wait_for_bound_agent _ _) as [[|]|]; by intros [= <- _].
Qed.

(** An existing connection is reused: when every target has one, nothing
    is connected and the state is unchanged. *)
Theorem connect_reuses (connect : Endpoint → M wstate unit) (polls : Endpoint → list peer_table)
    (found : Endpoint → Endpoint) (eps : list Endpoint) (s : wstate) :
  (∀ e, e ∈ eps → find_bound_agent (peer_tbl s) e = Ok (Some (found e))) →
  connect_to_services connect polls eps s = (s, Ok (map found eps)).
Proof.
  induction eps as [|e eps IH]; intros Hf; [done|]. simpl. unfold bind at 1.
  unfold connect_one at 1, bind, get, lift_res, ret. rewrite Hf by by left.
  rewrite IH; [done|]. intros e' He'. apply Hf. by right.
Qed.

(** A proxy that goes away tells nobody: [__del__] calls [send_req] without
    its [blocking] argument and drops the resulting [TypeError], so no
    [destroy_class] request is ever sent and the handle stays bound on the
    server. *)
Theorem proxy_del_sends_nothing (answer : sent → res val) (p : proxy) (l : list sent) :
  proxy_del answer p l = (l, Ok tt).
Proof.
  unfold proxy_del, try_with, bind, ret. destruct (px_own p); [|done]. simpl.
  by destruct (px_agent p).
Qed.

(** [wait_dirsvc] succeeds exactly when the directory is bound at the call
    or at one of the [timeout] looks that follow; a directory that appears
    during the last second is missed. *)
Theorem wait_dirsvc_exact (timeout : Z) (now : bool) (seen : list bool) :
  wait_dirsvc timeout now seen = true ↔
  now = true ∨ true ∈ take (Z.to_nat timeout) seen.
Proof.
  assert (∀ seen w, 0 <= w →
    dirsvc_loop w timeout seen = true ↔ true ∈ take (Z.to_nat (timeout - w)) seen) as Hl.
  { clear. induction seen as [|b seen IH]; intros w Hw; simpl.
    - rewrite take_nil. by destruct (w <? timeout); split; intros; rewrite ?elem_of_nil in *.
    - destruct (Z.ltb_spec w timeout).
      + replace (Z.to_nat (timeout - w)) with (S (Z.to_nat (timeout - (w + 1)))) by lia.
        simpl. rewrite elem_of_cons. destruct b; [naive_solver|]. rewrite IH by lia. naive_solver.
      + replace (Z.to_nat (timeout - w)) with 0%nat by lia. simpl. by rewrite elem_of_nil. }
  unfold wait_dirsvc. destruct now; [naive_solver|]. rewrite Hl by lia.
  rewrite Z.sub_0_r. naive_solver.
Qed.

(** ** Examples *)

Definition demo_target : Endpoint :=
  MkEndpoint (VStr "10.0.0.2") (VInt 0) (VInt 8090) (VInt 7) (VStr "svc") (VStr "node2")
    (VInt EN_DEFW_SERVICE) (VStr "rt-1") (VStr ZERO_UUID).

Definition demo_record : peer_record :=
  PeerRecord (VStr "conn-1") (VStr "rt-1") [("address", VStr "10.0.0.2")] (VStr "")
    (VStr "OUTBOUND") false (VInt 5) (VInt EN_DEFW_SERVICE) true (VStr "").

Definition demo_table : peer_table := PeerTable [(KStr "conn-1", demo_record)] [].

Definition demo_bound : Endpoint :=
  MkEndpoint (VStr "10.0.0.2") (VInt 0) (VInt 8090) (VInt 7) (VStr "svc") (VStr "node2")
    (VInt EN_DEFW_SERVICE) (VStr "rt-1") (VStr "conn-1").

(** The peer shows up at the second look. *)
Definition demo_polls (e : Endpoint) : list peer_table := [empty_table; demo_table].

Lemma connect_to_services_bound_witness :
  ∃ t, (t = empty_table ∨ t = demo_table) ∧ usable t demo_target demo_bound.
Proof.
  assert (connect_to_services (λ _, ret tt) demo_polls [demo_target] init_wstate =
          (init_wstate, Ok [demo_bound])) as E by (vm_compute; reflexivity).
  apply (connect_to_services_bound (λ t, t = empty_table ∨ t = demo_table)) in E.
  - by inversion E.
  - intros t [-> | ->]; (split; [apply (bool_decide_unpack (NoDup _)); vm_compute; exact I|]); simpl; [set_solver|].
    intros k r Hin%list_elem_of_singleton. by simplify_eq.
  - intros e t. unfold demo_polls. rewrite !elem_of_cons, elem_of_nil. tauto.
  - intros e s Hs. exact Hs.
  - by left.
Defined.

Lemma connect_reuses_witness :
  let s := set_peer_tbl demo_table init_wstate in
  connect_to_services (λ _, throw ERuntimeError "not called") demo_polls
    [demo_target; demo_target] s = (s, Ok [demo_bound; demo_bound]).
Proof.
  apply (connect_reuses _ _ (λ _, demo_bound)).
  intros e. rewrite !elem_of_cons, elem_of_nil. intros [-> | [-> | []]]; vm_compute; reflexivity.
Defined.
