(* ===== verification/Discovery.v ===== *)
(** * From registration to a proxy: the directory between two processes
    ([svc_dirsvc.py], [defw_directory.py], [defw.py])

    A service process registers with the directory service; a client process
    resolves the service and connects to the binding it was given.  This file
    composes [DirSvc], [Directory] and [Connect]: what a client gets is what
    the service registered, over a connection of the runtime that registered
    it, and nothing once that connection is lost. *)

From S2P Require Import Prelude PyDict PyVal Agent Peers PeersFacts Directory DirectoryFacts DirSvc Workers Connect.

Local Open Scope string_scope.
Local Open Scope Z_scope.
Local Open Scope list_scope.

Section Discovery.
Context (query_agent : Endpoint → res val) (clock : Z).

(** The record of a service that the agent [a] offers now *)
Record offered (a : Endpoint) (r : svc_record) : Prop := {
  off_up : state r = STATE_UP;
  off_runtime : Directory.runtime_id r = remote_uuid a;
  off_peer : Directory.peer_handle r = blk_uuid a;
  off_endpoint : endpoint r = endpoint_record a;
  off_seen : last_seen r = clock
}.

(** ** Registration *)

Lemma prune_frame s s1 o : prune_db s = (s1, o) → ds_dir s1 = ds_dir s ∧ ds_peers s1 = ds_peers s.
Proof.
  unfold prune_db, bind, get, lift_res, modify. destruct (live_agent_ids _); by intros [= <- _].
Qed.

Lemma register_agent_run ep ctx s s1 :
  register query_agent ep ctx s = (s1, Ok tt) →
  ∃ a info key ctx',
    Peers.get_agent (ds_peers s) (Peers.EpObj ep) VNone false = Ok (Some a) ∧
    query_agent ep = Ok info ∧ hash_key (get_id ep) = Ok key ∧ ds_dir s1 = ds_dir s ∧
    dget (services_db s1) key = Some (SvcEntry a ep info ctx').
Proof.
  unfold register, bind at 1. destruct (prune_db s) as [s0 [[]|]] eqn:Ep; [|done].
  destruct (prune_frame _ _ _ Ep) as [Hd Hp]. unfold bind, get, lift_res, throw, modify. rewrite Hp.
  destruct (Peers.get_agent _ _ _ _) as [[a|]|]; [|done|done].
  destruct (query_agent ep) as [info|]; [|done].
  destruct (hash_key (get_id ep)) as [key|]; [|done]. intros [= <-]. eexists a, info, key, _.
  split_and!; try done. simpl. by rewrite dget_dset_eq.
Qed.

Lemma build_record_endpoint record peer sid rt ph gen now reg p e :
  vget record "endpoint" = VDict (p :: e) →
  build_record record peer sid rt ph gen now = Ok reg → endpoint reg = p :: e.
Proof.
  intros He. unfold build_record. rewrite He. cbn [py_or truthy py_dict].
  destruct (py_dict_or_empty (vget record "properties")); [|done].
  destruct (record_value record ["qpm_type"]); [|done].
  destruct (record_value record ["qpm_capabilities"]); [|done].
  destruct (normalize_bindings record); [|done].
  destruct (py_dict_or_empty (vget record "selector")); [|done].
  destruct (py_dict_or_empty (vget record "capability")); [|done]. by intros [= <-].
Qed.

Lemma py_or_none v : truthy (py_or v VNone) = true → py_or v VNone = v.
Proof. unfold py_or. by destruct (truthy v). Qed.

(** What one advertisement registers *)
Lemma register_one a ad ctx rec d d' r :
  directory_record a ad ctx = Ok rec → register_service clock rec [] d = (d', Ok r) →
  ∃ k reg, hash_key (service_id r) = Ok k ∧ service_id reg = service_id r ∧ offered a reg ∧
    records d' = dset (records d) k reg.
Proof.
  intros (Hrt & Hph & Hep & _ & Hid & _)%directory_record_shape.
  intros (k & gen & prev & act & reg & _ & Tr & Tp & Hk & _ & Hb & -> & ->)%register_run.
  pose proof (build_record_fields _ _ _ _ _ _ _ _ Hb) as (H1 & H2 & H3 & _ & H5 & _ & H7 & _).
  exists k, reg. simpl. rewrite H1. split_and!; try done. split; try done.
  - rewrite H2. unfold req_runtime_id in *. rewrite Hrt in *. by apply py_or_none.
  - rewrite H3. unfold req_peer_handle in *. rewrite Hph in *. by apply py_or_none.
  - by eapply build_record_endpoint.
Qed.

(** The loop over the advertisements: every record it returns is the one the
    directory holds, or has been replaced by a later advertisement of the same
    agent under the same id. *)
Lemma register_all_offered a ctx ads s s' rs :
  register_all clock a ctx ads s = (s', Ok rs) →
  length rs = length ads ∧
  (∀ k reg, dget (records (ds_dir s)) k = Some reg → offered a reg →
     ∃ reg', dget (records (ds_dir s')) k = Some reg' ∧ offered a reg') ∧
  ∀ r, r ∈ rs → ∃ k reg, hash_key (service_id r) = Ok k ∧
     dget (records (ds_dir s')) k = Some reg ∧ offered a reg.
Proof.
  revert s s' rs. induction ads as [|ad ads IH]; intros s s' rs; simpl.
  { intros [= <- <-]. split_and!; [done | eauto|]. by intros r ?%elem_of_nil. }
  unfold bind at 1, lift_res at 1. destruct (directory_record a ad ctx) as [rec|] eqn:Er; [|done].
  unfold bind at 1, on_dir. destruct (register_service clock rec [] (ds_dir s)) as [d1 [r|]] eqn:E1; [|done].
  unfold bind. destruct (register_all clock a ctx ads _) as [s2 [rs'|]] eqn:E2; [|done].
  intros [= <- <-]. destruct (IH _ _ _ E2) as (Hlen & Hkeep & Hall). simpl in Hkeep.
  destruct (register_one _ _ _ _ _ _ _ Er E1) as (k & reg & Hk & Hid & Hoff & Hd1).
  rewrite Hd1 in Hkeep. split_and!; [simpl; congruence| |].
  - intros k' reg' Hk' Ho'. destruct (decide (k = k')) as [<-|Hne].
    + apply (Hkeep k reg); [by rewrite dget_dset_eq | done].
    + apply (Hkeep k' reg'); [by rewrite dget_dset_ne | done].
  - intros r' [->|Hr']%elem_of_cons; [|by apply Hall].
    destruct (Hkeep k reg) as (reg' & Hg' & Ho'); [by rewrite dget_dset_eq | done|]. by exists k, reg'.
Qed.

(** The whole call: the agent is found among the peers, asked, and registered. *)
Lemma dirsvc_register_run ep ctx s s' rs :
  dirsvc_register_service query_agent clock ep ctx s = (s', Ok rs) →
  ∃ a info ads s1, Peers.get_agent (ds_peers s) (Peers.EpObj ep) VNone false = Ok (Some a) ∧
    query_agent ep = Ok info ∧ py_iter (py_or info (VList [])) = Ok ads ∧
    ds_dir s1 = ds_dir s ∧ register_all clock a (default VNone ctx) ads s1 = (s', Ok rs).
Proof.
  unfold dirsvc_register_service, bind at 1.
  destruct (register query_agent ep ctx s) as [s1 [[]|]] eqn:E; [|done].
  destruct (register_agent_run _ _ _ _ E) as (a & info & key & ctx' & Ha & Hq & Hk & Hd & He).
  unfold register_directory_entries, bind at 1, lift_res at 1. rewrite Hk.
  unfold bind at 1, get at 1. rewrite He. simpl. unfold bind at 1. destruct (truthy info) eqn:Ht; simpl.
  - unfold bind, lift_res at 1. destruct (py_iter _) as [ads|] eqn:Ei; [|done].
    intros Hr. exists a, info, ads, s1. split_and!; done.
  - unfold bind, lift_res, get, modify. rewrite Hq. simpl.
    destruct (py_iter _) as [ads|] eqn:Ei; [|done]. intros Hr. eexists a, info, ads, _.
    split_and!; [done | done | done | |exact Hr]. done.
Qed.

(** The directory stays well formed. *)
Lemma register_all_ok a ctx ads s : dir_ok (ds_dir s) → dir_ok (ds_dir (register_all clock a ctx ads s).1).
Proof.
  revert s. induction ads as [|ad ads IH]; intros s Hok; simpl; [done|].
  unfold bind at 1, lift_res at 1. destruct (directory_record a ad ctx) as [rec|]; [|done].
  unfold bind at 1, on_dir. pose proof (dir_ok_register clock rec [] (ds_dir s) Hok) as H1.
  destruct (register_service clock rec [] (ds_dir s)) as [d1 [r|]]; [|done]. simpl in H1.
  unfold bind. specialize (IH (DirSvc d1 (ds_peers s) (services_db s)) H1).
  by destruct (register_all clock a ctx ads _) as [s2 [rs'|]].
Qed.

(** ** Resolution *)

(** What clients are told about the service [id]: exactly the record [cur],
    with every binding that fits, or nothing. *)
Definition answers (d : dir) (id : val) (cur : option svc_record) : Prop :=
  ∀ clock' filters ms, (resolve_services clock' filters d).2 = Ok ms →
    (∀ m, m ∈ ms → service_id (service_record m) = id → Some (service_record m) = copy_record <$> cur) ∧
    (∀ r b, cur = Some r → record_matches r filters = Ok true → b ∈ api_bindings r →
       binding_matches b filters = true → Resolved (copy_record r) (dupdate [] b) (generation r) ∈ ms).

Lemma answers_record d id k r :
  dir_ok d → hash_key id = Ok k → dget (records d) k = Some r →
  answers d id (if decide (state r = STATE_UP) then Some r else None).
Proof.
  intros Hok Hk Hr clock' filters ms Hms. split.
  - intros m Hm Hid. apply (resolve_In _ _ _ _ _ Hok Hms) in Hm as (k' & r' & b & Hr' & Hup & _ & _ & _ & ->).
    simpl in Hid. pose proof (records_ok_dget _ _ _ (ok_records _ Hok) Hr') as [Hkey _ _ _ _ _ _].
    rewrite Hid, Hk in Hkey. injection Hkey as <-. rewrite Hr in Hr'. injection Hr' as <-.
    by rewrite decide_True.
  - intros r' b. case_decide as Hup; [|done]. intros [= <-] Hrm Hb Hbm.
    apply (resolve_In _ _ _ _ _ Hok Hms). by exists k, r, b.
Qed.

(** ** The client's side *)

(** The endpoint a client connects to is the agent, as the directory sees it. *)
Definition leads_to (a e : Endpoint) : Prop :=
  addr e = addr a ∧ listen_port e = listen_port a ∧ pid e = pid a ∧ name e = name a ∧
  hostname e = hostname a ∧ remote_uuid e = remote_uuid a ∧ blk_uuid e = blk_uuid a.

Lemma offered_endpoint a r :
  offered a r → truthy (Directory.peer_handle r) = true →
  ∃ e, binding_endpoint (record_dict (copy_record r)) = Ok e ∧ leads_to a e.
Proof.
  intros [_ Hrt Hph Hep _] Ht. unfold binding_endpoint. unfold record_dict, vget, vindex. simpl.
  rewrite Hep, Hrt. simpl. rewrite (py_or_truthy (py_or _ _)), (py_or_truthy (Directory.peer_handle r));
    [|done|by rewrite py_or_truthy].
  rewrite Hph. unfold new_endpoint.
  destruct (py_eqb (service_type r) (VStr "defw.dirsvc")); simpl; eexists; (split; [done|]); done.
Qed.

(** ** The loss of the connection *)

(** A loss event that reaches the record *)
Definition loses (event : pydict) (t : Z) (r : svc_record) : Prop :=
  is_loss (vget event "event_type") = true ∧ event_targets event t r = true.

Lemma lost_not_answered d id k r clock' event t :
  dir_ok d → hash_key id = Ok k → dget (records d) k = Some r →
  as_time (event_time clock' event) = Ok t → loses event t r →
  answers (apply_peer_event clock' event d).1 id None.
Proof.
  intros Hok Hk Hr Ht [Hloss Htgt].
  destruct (apply_peer_event_run clock' event d t Ht) as (d' & Hd' & (Hrec & _) & _).
  pose proof (dir_ok_peer_event clock' event d Hok) as Hok'. rewrite Hd' in *. simpl in *.
  assert (dget (records d') k = Some (after_event event t (retention_seconds d) r)) as Hr'.
  { by rewrite Hrec, dget_dmap, Hr. }
  pose proof (answers_record d' id k _ Hok' Hk Hr') as Ha. rewrite decide_False in Ha; [done|].
  rewrite after_event_spec, Htgt, Hloss. unfold mark_lost. cbn [state]. by destruct (py_eqb _ _).
Qed.

(** C8. Discovery across processes.  When a service process registers, the
    directory finds its connection among its peers, and for every record it
    returns there is a record of the service, up, under the runtime and the
    connection of that peer, such that: every client that resolves the service
    is told exactly that record, with each binding that fits its filters; the
    endpoint the client derives from it is the registered process; and once
    the connection is reported lost no client is told about the service. *)
Theorem registered_service_discovered ep ctx s s' rs :
  dir_ok (ds_dir s) → table_ok (ds_peers s) →
  dirsvc_register_service query_agent clock ep ctx s = (s', Ok rs) →
  ∃ a, Peers.get_agent (ds_peers s) (EpObj ep) VNone false = Ok (Some a) ∧ usable (ds_peers s) ep a ∧
    ∀ r, r ∈ rs → ∃ cur, offered a cur ∧
      answers (ds_dir s') (service_id r) (Some cur) ∧
      (∃ e, binding_endpoint (record_dict (copy_record cur)) = Ok e ∧ leads_to a e) ∧
      (∀ clock' event t, as_time (event_time clock' event) = Ok t → loses event t cur →
         answers (apply_peer_event clock' event (ds_dir s')).1 (service_id r) None).
Proof.
  intros Hok Htab (a & info & ads & s1 & Ha & _ & _ & Hd & Hall)%dirsvc_register_run.
  exists a. split; [done|]. split; [by eapply get_agent_usable|].
  destruct (register_all_offered _ _ _ _ _ _ Hall) as (_ & _ & Hrs).
  pose proof (register_all_ok a (default VNone ctx) ads s1) as Hok'. rewrite Hall, Hd in Hok'.
  specialize (Hok' Hok). simpl in Hok'. intros r Hr. destruct (Hrs r Hr) as (k & cur & Hk & Hcur & Hoff).
  exists cur. split_and!; [done| | |].
  - rewrite <- (decide_True (P := state cur = STATE_UP) (Some cur) None) by apply Hoff. by eapply answers_record.
  - apply offered_endpoint; [done|]. by apply (records_ok_dget _ _ _ (ok_records _ Hok') Hcur).
  - intros clock' event t Ht Hl. by eapply lost_not_answered.
Qed.

(** A runtime id that names one: the zero id stands for any. *)
Definition names_runtime (id : val) : Prop := truthy id = true ∧ py_eqb id (VStr ZERO_UUID) = false.

(** C9. The proxy a client gets for a resolved service talks to the runtime
    that registered it: when connecting to a binding of an offered record
    returns, the proxy was created for the module and class the binding names,
    on a callable connection, of a peer table the client has seen, whose
    runtime is the one of the agent that offers the service. *)
Theorem proxy_reaches_registrant (P : peer_table → Prop) connect polls instantiate a cur binding st st' n :
  offered a cur → truthy (Directory.peer_handle cur) = true → names_runtime (remote_uuid a) →
  (∀ t, P t → table_ok t) → (∀ e t, t ∈ polls e → P t) → P (peer_tbl st) →
  connect_to_binding connect polls instantiate (record_dict (copy_record cur)) binding st = (st', Ok n) →
  ∃ cm cc bound st1 t k pr,
    instantiate cm cc bound (vget binding "service_module") (vget binding "service_class") st1 = (st', Ok n) ∧
    vindex binding "client_module" = Ok cm ∧ vindex binding "client_class" = Ok cc ∧
    P t ∧ dget (peers t) k = Some pr ∧ callable pr = true ∧ blk_uuid bound = Peers.peer_handle pr ∧
    py_eqb (remote_uuid a) (Peers.runtime_id pr) = true.
Proof.
  intros Hoff Hph [Hrt Hz] HP Hpolls Hst. destruct (offered_endpoint a cur Hoff Hph) as (e & He & Hl).
  unfold connect_to_binding, bind at 1, lift_res at 1. rewrite He. unfold bind at 1. simpl. unfold bind at 1.
  destruct (connect_one connect polls e st) as [st1 [bound|]] eqn:E1; [|done]. simpl.
  unfold bind, lift_res.
  destruct (vindex binding "client_module") as [cm|]; [|done].
  destruct (vindex binding "client_class") as [cc|]; [|done]. intros Hi.
  destruct (connect_one_bound P _ _ _ _ _ _ HP Hpolls Hst E1) as (t & Ht & k & pr & Hk & Hc & Hb & Hr).
  exists cm, cc, bound, st1, t, k, pr. split_and!; try done.
  assert (endpoint_runtime_id (EpObj e) = remote_uuid a) as Hid.
  { unfold endpoint_runtime_id. destruct Hl as (_ & _ & _ & _ & _ & He' & _). unfold endpoint_value.
    change (vget_or (endpoint_attrs e) "remote_uuid" _) with (remote_uuid e). rewrite He', Hrt, Hz.
    by apply py_or_truthy. }
  rewrite Hid in Hr. by apply Hr.
Qed.
End Discovery.

(** ** A counter that registers and is found *)
Module DiscoveryDemo.
Definition query (ep : Endpoint) : res val := Ok (VList [VDict demo_adv]).
Definition registered : dirsvc := (dirsvc_register_service query 100 demo_ep None demo_svc).1.
Definition counter_id : val := VStr "TestCounter:node2:svc".

Lemma demo_tables_ok : table_ok (ds_peers demo_svc) ∧ table_ok empty_table ∧ table_ok demo_table.
Proof.
  split_and!; (split; [apply (bool_decide_unpack (NoDup _)); vm_compute; exact I|]); intros k r; vm_compute.
  - intros Hin%list_elem_of_singleton. by simplify_eq.
  - intros Hin%elem_of_nil. done.
  - intros Hin%list_elem_of_singleton. by simplify_eq.
Qed.

Lemma registered_service_discovered_witness :
  ∃ cur, answers (ds_dir registered) counter_id (Some cur) ∧
    answers (apply_peer_event 102 (peer_event "PEER_LOST" "conn-1" "rt-1" "socket-close" 101)
               (ds_dir registered)).1 counter_id None.
Proof.
  destruct (dirsvc_register_service query 100 demo_ep None demo_svc) as [s' [rs|]] eqn:E; [|by vm_compute in E].
  destruct (registered_service_discovered query 100 demo_ep None demo_svc s' rs) as (a & Ha & _ & Hr).
  - apply dir_ok_init.
  - apply demo_tables_ok.
  - exact E.
  - unfold registered. rewrite E. simpl. destruct rs as [|r rs]; [by vm_compute in E|].
    destruct (Hr r (list_elem_of_here _ _)) as (cur & Hoff & Hans & _ & Hlost).
    assert (service_id r = counter_id) as <- by (vm_compute in E; injection E as _ <- _; reflexivity).
    exists cur. split; [exact Hans|]. apply (Hlost _ _ 101); [reflexivity|]. split; [reflexivity|].
    vm_compute in Ha. injection Ha as <-.
    unfold event_targets. rewrite (off_peer _ _ _ Hoff), (off_runtime _ _ _ Hoff), (off_seen _ _ _ Hoff). reflexivity.
Defined.

(** The record the client was given, and a proxy that is its connection *)
Definition counter_record : svc_record :=
  SvcRecord counter_id (VStr "TestCounter") (VStr "defw.service") (VStr "rt-1") (VStr "conn-1") 1
    (endpoint_record demo_ep) [[("binding_name", VStr "default")]] [] [] [] (VInt (-1)) (VInt (-1)) STATE_UP 100 100
    (VStr "") None.
Definition counter_binding : pydict :=
  [("client_module", VStr "api_test_counter"); ("client_class", VStr "TestCounter");
   ("service_module", VStr "svc_test_counter"); ("service_class", VStr "TestCounter")].
Definition new_api (cm cc : val) (e : Endpoint) (sm sc : val) : M wstate nat := ret 7%nat.

Lemma proxy_reaches_registrant_witness :
  ∃ t k pr, (t = empty_table ∨ t = demo_table) ∧ dget (peers t) k = Some pr ∧ callable pr = true ∧
    py_eqb (VStr "rt-1") (Peers.runtime_id pr) = true.
Proof.
  destruct (connect_to_binding (λ _, ret tt) demo_polls new_api (record_dict (copy_record counter_record))
              counter_binding init_wstate) as [st' [n|]] eqn:E; [|by vm_compute in E].
  destruct (proxy_reaches_registrant 100 (λ t, t = empty_table ∨ t = demo_table) (λ _, ret tt) demo_polls new_api
              demo_ep counter_record counter_binding init_wstate st' n)
    as (cm & cc & bound & st1 & t & k & pr & _ & _ & _ & Ht & Hk & Hc & _ & Hr).
  - split; reflexivity.
  - reflexivity.
  - split; reflexivity.
  - intros t [-> | ->]; apply demo_tables_ok.
  - intros e t. unfold demo_polls. rewrite !elem_of_cons, elem_of_nil. tauto.
  - by left.
  - exact E.
  - exists t, k, pr. split; [exact Ht|]. split; [exact Hk|]. split; [exact Hc | exact Hr].
Defined.
End DiscoveryDemo.
