(* ===== verification/Notify.v ===== *)
(** * Directory events across processes
    ([svc_dirsvc.py], [api_events.py], [defw_event_baseapi.py])

    A process that wants the directory's events creates an event queue,
    exposes it under its class id, and gives the id to the directory service,
    which makes a proxy for it and subscribes the proxy.  Publishing an event
    calls [put] on the proxy; the call arrives in the process, is looked up
    under the class id, and puts the event into the queue.  This file composes
    these parts and carries the theorem of [Mirror] to the queue. *)

From S2P Require Import Prelude PyDict PyVal Agent Peers Threads Registry Directory DirectoryFacts DirectoryWitness Mirror DirSvc EventApi Connect.

Local Open Scope string_scope.
Local Open Scope list_scope.
Import PyNotations.
Local Open Scope py_scope.

(** ** The directory service *)

(** The directory service with the proxies it has subscribed, a callback being
    its place in the list, and the requests it has sent *)
Record notifier := Notifier { nt_svc : dirsvc; nt_callbacks : list proxy; nt_sent : list sent }.

Definition EVENT_MODULE : string := "defw_event_baseapi".
Definition EVENT_CLASS : string := "BaseEventAPI".

(** [BaseEventAPI.__init__] of [api_events.py]: the proxy of a queue *)
Definition new_event_proxy (answer : sent → res val) (class_id : string) (target : res (option Endpoint))
    (fresh_id : string) : M (list sent) proxy :=
  new_proxy answer class_id true (Some target) EVENT_MODULE EVENT_CLASS fresh_id.

Section Subscribe.
Context (answer : sent → res val).

(** [DEFwDirSvc.register_event_notification] *)
Definition dirsvc_register_event_notification (endpoint : Endpoint) (event_type class_id : string) (filters : val)
    (fresh_id new_id : string) : M notifier string :=
  λ n, let target := Peers.get_agent (ds_peers (nt_svc n)) (Peers.EpObj endpoint) VNone false in
       match new_event_proxy answer class_id target fresh_id (nt_sent n) with
       | (l, Raise e) => (Notifier (nt_svc n) (nt_callbacks n) l, Raise e)
       | (l, Ok p) =>
           let cb := length (nt_callbacks n) in
           let '(s', o) := on_dir (register_event_notification (Some (cb, true)) event_type (get_id endpoint)
                                     filters new_id) (nt_svc n) in
           (Notifier s' (nt_callbacks n ++ [p]) l, o)
       end.

(** [DEFwDirSvc.unregister_event_notification] *)
Definition dirsvc_unregister_event_notification (registration_id : string) : M notifier bool :=
  λ n, let '(s', o) := on_dir (unregister_event_notification registration_id) (nt_svc n) in
       (Notifier s' (nt_callbacks n) (nt_sent n), o).
End Subscribe.

(** ** The subscriber *)

(** The event as it is sent *)
Definition event_dict (ev : service_event) : pydict :=
  [("event", VStr (ev_event ev)); ("directory_runtime_id", VStr (ev_directory_runtime_id ev));
   ("service_id", ev_service_id ev); ("service_type", ev_service_type ev);
   ("runtime_id", ev_runtime_id ev); ("peer_handle", ev_peer_handle ev)] ++
  (match ev_service_record ev with Some r => [("service_record", VDict (record_dict r))] | None => [] end) ++
  (match ev_reason ev with Some reason => [("reason", reason)] | None => [] end).
Definition event_val (ev : service_event) : val := VDict (event_dict ev).

(** The queues of the process, by the identity of their objects *)
Abbreviation inboxes := (odict nat (event_api (E := val))).

Section Deliver.
(** The other methods and classes of the process *)
Context (other : instance → string → list val → pydict → thread (registry inboxes) val).

(** [put] on the queue *)
Definition put_inbox (i : instance) (e : val) : M (registry inboxes) val :=
  λ r, match dget (world r) (inst_id i) with
       | Some q => (Reg (class_db r) (singleton_db r) (alias_db r) (next_obj r)
                      (dset (world r) (inst_id i) (put e q).1), Ok VNone)
       | None => (r, Raise (Exc EAttributeError "no event queue"))
       end.

Definition invoke_event (i : instance) (mname : string) (args : list val) (kwargs : pydict) :
    thread (registry inboxes) val :=
  match args with
  | [e] => if String.eqb (inst_class i) EVENT_CLASS && String.eqb mname "put" && bool_decide (kwargs = [])
           then atomic (put_inbox i e) else other i mname args kwargs
  | _ => other i mname args kwargs
  end.

Context (callbacks : list proxy) (runtime : val).

(** A call the directory makes, as it arrives in the process [runtime]; an
    exception is caught and logged by the directory. *)
Definition deliver_call (r : registry inboxes) (c : dir_call) : registry inboxes :=
  match c with
  | CallPut cb ev =>
      match callbacks !! cb with
      | Some p =>
          match px_agent p with
          | Some a =>
              if py_eqb (remote_uuid a) runtime then
                (run (method_call invoke_event (px_class p) "put" (px_class_id p) [event_val ev] []) r).1
              else r
          | None => r
          end
      | None => r
      end
  | CallListener _ _ _ _ _ _ => r
  end.

(** The callbacks that lead to the queue under the class id [u] *)
Definition leads_to_queue (u : string) (cb : nat) : bool :=
  match callbacks !! cb with
  | Some p => match px_agent p with
              | Some a => py_eqb (remote_uuid a) runtime && String.eqb (px_class p) EVENT_CLASS &&
                          String.eqb (px_class_id p) u
              | None => false
              end
  | None => false
  end.
End Deliver.

(** ** From the directory to the queue *)

Definition event_proxies (callbacks : list proxy) : Prop := Forall (λ p, px_class p = EVENT_CLASS) callbacks.

(** The process exposes the queue [q] under [u], and under no other id. *)
Record exposes (r : registry inboxes) (u : string) (i : instance) (q : event_api) : Prop := {
  ex_entry : dget (class_db r) u = Some i;
  ex_class : inst_class i = EVENT_CLASS;
  ex_queue : dget (world r) (inst_id i) = Some q;
  ex_only : ∀ u' i', dget (class_db r) u' = Some i' → inst_id i' = inst_id i → u' = u
}.

Section Delivery.
Context (other : instance → string → list val → pydict → thread (registry inboxes) val).
Context (callbacks : list proxy) (runtime : val) (u : string) (i : instance).
Local Abbreviation mine := (leads_to_queue callbacks runtime u).

(** The queue after some events were put *)
Definition filled (q : event_api) (evs : list service_event) : event_api :=
  EventApi (event_queue q ++ map event_val evs) (pipe_bytes q + length evs).

Lemma deliver_one r q c :
  event_proxies callbacks → exposes r u i q →
  exposes (deliver_call other callbacks runtime r c) u i (filled q (events_for mine [c])).
Proof.
  intros Hp Hex. assert (exposes r u i (filled q [])) as Hsame.
  { unfold filled. simpl. rewrite app_nil_r, Nat.add_0_r. by destruct q. }
  destruct c as [l t s p reason det|cb ev]; [exact Hsame|].
  simpl. unfold events_for. simpl. unfold leads_to_queue.
  destruct (callbacks !! cb) as [p|] eqn:Hcb; [|exact Hsame].
  destruct (px_agent p) as [a|]; [|exact Hsame]. destruct (py_eqb (remote_uuid a) runtime); [|exact Hsame].
  pose proof (Forall_lookup_1 _ _ _ _ Hp Hcb) as Hc. rewrite Hc, String.eqb_refl. simpl.
  destruct Hex as [He Hcl Hq Honly].
  unfold method_call. simpl. unfold get_class_from_db, bind, get.
  destruct (String.eqb_spec (px_class_id p) u) as [->|Hne].
  - rewrite He. simpl. rewrite Hcl. simpl. unfold put_inbox. rewrite Hq.
    split; simpl; try done. rewrite dget_dset_eq. unfold filled. simpl. by rewrite Nat.add_comm.
  - destruct (dget (class_db r) (px_class_id p)) as [i'|] eqn:Ei'; [|exact Hsame]. simpl.
    destruct (String.eqb_spec (inst_class i') EVENT_CLASS) as [Hc'|Hc']; [|exact Hsame].
    simpl. unfold put_inbox. destruct (dget (world r) (inst_id i')) as [q'|]; [|exact Hsame].
    destruct Hsame as [_ _ Hq2 _]. split; simpl; try done. rewrite dget_dset_ne; [done|].
    intros Heq. apply Hne. by eapply Honly.
Qed.

Lemma deliver_all r q calls :
  event_proxies callbacks → exposes r u i q →
  exposes (fold_left (deliver_call other callbacks runtime) calls r) u i (filled q (events_for mine calls)).
Proof.
  intros Hp. revert r q. induction calls as [|c calls IH]; intros r q Hex; cbn [fold_left].
  { unfold filled. simpl. rewrite app_nil_r, Nat.add_0_r. by destruct q. }
  pose proof (IH _ _ (deliver_one _ _ c Hp Hex)) as H.
  replace (filled q (events_for mine (c :: calls))) with (filled (filled q (events_for mine [c])) (events_for mine calls));
    [exact H|].
  change (c :: calls) with ([c] ++ calls). rewrite events_for_app. unfold filled. cbn [event_queue pipe_bytes].
  by rewrite map_app, length_app, app_assoc, Nat.add_assoc.
Qed.
End Delivery.

(** ** Subscribing *)

Lemma subscribe_effect answer ep t u fs fresh id n n' x runtime :
  truthy fs = false → u ≠ "" →
  (∀ a, Peers.get_agent (ds_peers (nt_svc n)) (Peers.EpObj ep) VNone false = Ok (Some a) →
     py_eqb (remote_uuid a) runtime = true) →
  dirsvc_register_event_notification answer ep t u fs fresh id n = (n', Ok x) →
  (∃ p, nt_callbacks n' = nt_callbacks n ++ [p] ∧ px_class p = EVENT_CLASS) ∧
  subscribed_to t (ds_dir (nt_svc n')) (leads_to_queue (nt_callbacks n') runtime u) ∧
  ds_peers (nt_svc n') = ds_peers (nt_svc n) ∧
  (∀ t' mine, t' ≠ t → subscribed_to t' (ds_dir (nt_svc n)) mine → subscribed_to t' (ds_dir (nt_svc n')) mine) ∧
  (dir_ok (ds_dir (nt_svc n)) → dir_ok (ds_dir (nt_svc n'))).
Proof.
  intros Hfs Hu Hrt. unfold dirsvc_register_event_notification, new_event_proxy, new_proxy.
  destruct (Peers.get_agent _ _ _ _) as [[a|]|] eqn:Ea; [|done|done]. simpl.
  rewrite (proj2 (String.eqb_neq u "") Hu). simpl. unfold ret. unfold on_dir.
  destruct (register_event_notification _ _ _ _ _ _) as [d' o] eqn:E. intros [= <- ->]. simpl.
  assert (dir_ok (ds_dir (nt_svc n)) → dir_ok d') as Hok.
  { intros Hok. pose proof (dir_ok_subscribe (Some (length (nt_callbacks n), true)) t (get_id ep) fs id _ Hok) as H.
    by rewrite E in H. }
  apply subscribe_run in E as (c & fs' & [= <-] & Hfs' & -> & _ & ->).
  assert (fs' = []) as -> by (unfold py_dict_or_empty, py_or in Hfs'; rewrite Hfs in Hfs'; by simplify_eq/=).
  split_and!; [by eexists | | done | | done].
  - set (g := Registration id t (py_fmt (get_id ep)) (length (nt_callbacks n)) []). exists g.
    simpl. unfold dget_or at 1. rewrite dget_dset_eq. split; [|split; [|reflexivity]].
    + unfold dvals. apply list_map_In. exists (id, g). split; [|reflexivity]. apply dget_Some_In, dget_dset_eq.
    + unfold leads_to_queue. simpl. rewrite lookup_app_r, Nat.sub_diag by done. simpl.
      by rewrite (Hrt a eq_refl), !String.eqb_refl.
  - intros t' mine Hne (g & Hg & Hm & Hf). exists g. split; [|done]. simpl. unfold dget_or in *.
    rewrite dget_dset_ne, dget_dsetdefault, decide_False by done. exact Hg.
Qed.

Lemma leads_to_queue_app cbs l runtime u cb :
  leads_to_queue cbs runtime u cb = true → leads_to_queue (cbs ++ l) runtime u cb = true.
Proof.
  unfold leads_to_queue. destruct (cbs !! cb) as [p|] eqn:E; [|done]. by rewrite (lookup_app_l_Some _ _ _ _ E).
Qed.

Lemma subscribed_to_weaken t d (mine mine' : nat → bool) :
  (∀ cb, mine cb = true → mine' cb = true) → subscribed_to t d mine → subscribed_to t d mine'.
Proof. intros H (g & Hg & Hm & Hf). exists g. auto. Qed.

(** The subscription survives each of the calls. *)
Fixpoint lasts (mine : nat → bool) (ops : list dir_op) (d : dir) : Prop :=
  match ops with
  | [] => True
  | op :: ops' => subscribed (exec_op op d) mine ∧ lasts mine ops' (exec_op op d)
  end.

Lemma lasts_stays mine ops d : subscribed d mine → lasts mine ops d → stays_subscribed mine ops d.
Proof.
  revert d. induction ops as [|op ops IH]; intros d Hs; simpl; [done|]. intros [H1 H2]. split; [done | by apply IH].
Qed.

Section EndToEnd.
Context (other : instance → string → list val → pydict → thread (registry inboxes) val).
Context (answer : sent → res val) (ep a : Endpoint) (runtime : val) (u : string) (i : instance).

End EndToEnd.

(** ** A process that watches a service come and go *)
Module NotifyDemo.
Definition no_other (i : instance) (m : string) (args : list val) (kwargs : pydict) : thread (registry inboxes) val :=
  tthrow EAttributeError m.
Definition answer (m : sent) : res val := Ok VNone.
Definition n0 : notifier := Notifier (DirSvc dir0 (ds_peers demo_svc) []) [] [].
Definition n1 : notifier :=
  (dirsvc_register_event_notification answer demo_ep SERVICE_CONNECTED "queue-1" VNone "f1" "id-1" n0).1.
Definition n2 : notifier :=
  (dirsvc_register_event_notification answer demo_ep SERVICE_DISCONNECTED "queue-1" VNone "f2" "id-2" n1).1.
Definition queue_obj : instance := Instance 3 EVENT_MODULE EVENT_CLASS.
Definition watcher : registry inboxes := Reg [("queue-1", queue_obj)] [] [] 4 [(3%nat, new_event_api)].

End NotifyDemo.
