(* ===== verification/Advertise.v ===== *)
(** * What the services of this repository advertise

    The [query] methods of the launcher and of the directory service beside
    those of the test services ([TestServices]), and the other half of
    discovery: registering a process that loads any of these services
    succeeds, so that [Discovery] applies to it. *)

From S2P Require Import Prelude PyDict PyVal Agent Peers Directory DirectoryFacts Registry TestServices DirSvc Discovery.

Local Open Scope string_scope.
Local Open Scope Z_scope.
Local Open Scope list_scope.

(** [Launcher.query] *)
Definition launcher_query : val :=
  VDict [("service_name", VStr "Launcher"); ("service_type", VStr "defw.launcher");
         ("api_bindings", VList [VDict [("binding_name", VStr "default");
            ("client_module", VStr "api_launcher"); ("client_class", VStr "Launcher");
            ("service_module", VStr "svc_launcher.svc_launcher"); ("service_class", VStr "Launcher");
            ("version", VInt 1)]]);
         ("selector", VDict [("resources", VList [VStr "Launcher"])]);
         ("properties", VDict [("description", VStr "Process Launcher")]);
         ("capability", VDict [("type", VInt 1); ("caps", VInt 1); ("description", VStr "Process Launcher")])].

(** [DEFwDirSvc.query] *)
Definition dirsvc_query : val :=
  VDict [("service_name", VStr "DEFwDirSvc"); ("service_type", VStr "defw.dirsvc");
         ("api_bindings", VList [VDict [("binding_name", VStr "directory");
            ("client_module", VStr "api_dirsvc"); ("client_class", VStr "DEFwDirSvc");
            ("service_module", VStr "svc_dirsvc.svc_dirsvc"); ("service_class", VStr "DEFwDirSvc");
            ("version", VInt 1)]]);
         ("selector", VDict [("resources", VList [VStr "DEFwDirSvc"])]);
         ("properties", VDict [("description", VStr "DEFw Directory Service")]);
         ("capability", VDict [("type", VInt 1); ("caps", VInt 1); ("description", VStr "directory service")])].

Definition builtin : list val := [launcher_query; dirsvc_query; counter_query; echo_query].

(** The shape they have in common *)
Definition ad_of (n ty b cm cc sm sc resource desc cap : string) : val :=
  VDict [("service_name", VStr n); ("service_type", VStr ty);
         ("api_bindings", VList [VDict [("binding_name", VStr b); ("client_module", VStr cm); ("client_class", VStr cc);
            ("service_module", VStr sm); ("service_class", VStr sc); ("version", VInt 1)]]);
         ("selector", VDict [("resources", VList [VStr resource])]);
         ("properties", VDict [("description", VStr desc)]);
         ("capability", VDict [("type", VInt 1); ("caps", VInt 1); ("description", VStr cap)])].

(** What an advertisement says of itself *)
Definition ad_field (ad : val) (k : string) : val := match ad with VDict d => vget d k | _ => VNone end.

(** The id an advertisement without one is filed under *)
Definition derived_id (ep : Endpoint) (ad : val) : string :=
  (py_fmt (ad_field ad "service_name") ++ ":" ++ py_fmt (hostname ep) ++ ":" ++ py_fmt (name ep))%string.

(** The record of an advertisement is the directory's own reading of it. *)
Record faithful (ep : Endpoint) (ad : val) (r : svc_record) : Prop := {
  fa_id : service_id r = VStr (derived_id ep ad);
  fa_name : service_name r = ad_field ad "service_name";
  fa_type : service_type r = ad_field ad "service_type";
  fa_bindings : VList (map VDict (api_bindings r)) = ad_field ad "api_bindings";
  fa_selector : VDict (selector r) = ad_field ad "selector";
  fa_capability : VDict (capability r) = ad_field ad "capability";
  fa_runtime : Directory.runtime_id r = remote_uuid ep;
  fa_up : state r = STATE_UP
}.

(** No other runtime serves the id now. *)
Definition unclaimed (ep : Endpoint) (d : dir) (ad : val) : Prop :=
  ∀ r, dget (records d) (KStr (derived_id ep ad)) = Some r → state r = STATE_UP →
    py_eqb (Directory.runtime_id r) (remote_uuid ep) = true.

Section Advertise.
Context (clock : Z) (ep : Endpoint).
Hypothesis Hrt : truthy (remote_uuid ep) = true.
Hypothesis Hph : truthy (blk_uuid ep) = true.
Hypothesis Hval : val_ok (remote_uuid ep).

Lemma unclaimed_generation d ad :
  unclaimed ep d ad →
  ∃ g, next_generation (dget (records d) (KStr (derived_id ep ad))) (remote_uuid ep) = Ok g.
Proof.
  unfold unclaimed, next_generation. intros H. destruct (dget _ _) as [r|]; [|by eexists].
  destruct (decide (state r = STATE_UP)) as [Hu|]; [|by eexists]. rewrite (H r eq_refl Hu). by eexists.
Qed.

(** A registration that nothing refuses *)
Lemma register_ok rec d id g prev act reg :
  next_generation (dget (records d) (KStr id)) (remote_uuid ep) = Ok (g, prev, act) →
  vget rec "service_id" = VStr id → id ≠ "" → vget rec "runtime_id" = remote_uuid ep →
  vget rec "peer_handle" = blk_uuid ep →
  build_record rec [] (VStr id) (remote_uuid ep) (blk_uuid ep) g clock = Ok reg →
  register_service clock rec [] d =
    (log_calls (registration_calls d (copy_record reg) prev act) (set_records (dset (records d) (KStr id) reg) d),
     Ok (copy_record reg)).
Proof.
  intros Hg Hid Hne Hr Hp Hb. assert (truthy (VStr id) = true) as Ht by by destruct id.
  assert (req_service_id rec = VStr id) as Es by (unfold req_service_id; rewrite Hid; by apply py_or_truthy).
  assert (req_runtime_id rec [] = remote_uuid ep) as Er by (unfold req_runtime_id; rewrite Hr; by apply py_or_truthy).
  assert (req_peer_handle rec [] = blk_uuid ep) as Ep by (unfold req_peer_handle; rewrite Hp; by apply py_or_truthy).
  destruct (register_service clock rec [] d) as [d' [r|e]] eqn:E.
  - apply register_run in E as (k & gen & pv & ac & rg & _ & _ & _ & Hk & Hg' & Hb' & -> & ->).
    rewrite Es in Hk. injection Hk as <-. rewrite Er, Hg in Hg'. injection Hg' as <- <- <-.
    rewrite Es, Er, Ep, Hb in Hb'. by injection Hb' as <-.
  - exfalso. revert E. unfold register_service.
    fold (req_service_id rec) (req_runtime_id rec []) (req_peer_handle rec []).
    rewrite Es, Er, Ep, Ht, Hrt, Hph. simpl. unfold bind, lift_res, get. rewrite Hg, Hb. by destruct act.
Qed.

(** One advertisement *)
Lemma ad_registers n ty b cm cc sm sc rs desc cap d :
  let ad := ad_of n ty b cm cc sm sc rs desc cap in
  n ≠ "" → unclaimed ep d ad →
  ∃ rec d' r reg, directory_record ep ad VNone = Ok rec ∧ register_service clock rec [] d = (d', Ok r) ∧
    faithful ep ad r ∧ records d' = dset (records d) (KStr (derived_id ep ad)) reg ∧
    Directory.runtime_id reg = remote_uuid ep.
Proof.
  intros ad Hn Hun. destruct (unclaimed_generation d ad Hun) as [[[g prev] act] Hg].
  destruct n as [|c n]; [done|]. eexists _, _, _, _. split; [reflexivity|].
  split; [eapply (register_ok _ d _ g prev act _ Hg); [reflexivity | done | reflexivity..]|].
  split; [by split|]. by split.
Qed.

Lemma builtin_shape ad :
  ad ∈ builtin → ∃ n ty b cm cc sm sc rs desc cap, ad = ad_of n ty b cm cc sm sc rs desc cap ∧ n ≠ "".
Proof.
  unfold builtin. rewrite !elem_of_cons, elem_of_nil.
  intros [->|[->|[->|[->|[]]]]]; eexists _, _, _, _, _, _, _, _, _, _; (split; [reflexivity | done]).
Qed.

Lemma builtin_registers ad d :
  ad ∈ builtin → unclaimed ep d ad →
  ∃ rec d' r reg, directory_record ep ad VNone = Ok rec ∧ register_service clock rec [] d = (d', Ok r) ∧
    faithful ep ad r ∧ records d' = dset (records d) (KStr (derived_id ep ad)) reg ∧
    Directory.runtime_id reg = remote_uuid ep.
Proof. intros (n & ty & b & cm & cc & sm & sc & rs & desc & cap & -> & Hn)%builtin_shape Hun. by apply ad_registers. Qed.

Lemma unclaimed_after ad ad' d d' reg :
  records d' = dset (records d) (KStr (derived_id ep ad)) reg → Directory.runtime_id reg = remote_uuid ep →
  unclaimed ep d ad' → unclaimed ep d' ad'.
Proof.
  intros Hd Hr Hun r. rewrite Hd. destruct (decide (KStr (derived_id ep ad) = KStr (derived_id ep ad'))) as [<-|Hne].
  - rewrite dget_dset_eq. intros [= <-] _. rewrite Hr. by apply py_eqb_refl.
  - rewrite dget_dset_ne by done. apply Hun.
Qed.

(** All of them, one after the other *)
Lemma builtins_register ads s :
  Forall (λ ad, ad ∈ builtin) ads → Forall (unclaimed ep (ds_dir s)) ads →
  ∃ s' rs, register_all clock ep VNone ads s = (s', Ok rs) ∧ Forall2 (faithful ep) ads rs.
Proof.
  revert s. induction ads as [|ad ads IH]; intros s; [by exists s, []|].
  intros [Had Hads]%Forall_cons [Hun Huns]%Forall_cons.
  destruct (builtin_registers ad (ds_dir s) Had Hun) as (rec & d' & r & reg & Hrec & Hreg & Hf & Hd' & Hrr).
  destruct (IH (DirSvc d' (ds_peers s) (services_db s)) Hads) as (s' & rs & Hs' & Hrs).
  { eapply Forall_impl; [exact Huns|]. intros ad' H. by eapply unclaimed_after. }
  exists s', (r :: rs). split; [|by constructor]. simpl. unfold bind at 1, lift_res. rewrite Hrec.
  unfold bind at 1, on_dir. rewrite Hreg. unfold bind. by rewrite Hs'.
Qed.
End Advertise.

(** ** The whole registration *)
Section Whole.
Context (query_agent : Endpoint → res val) (clock : Z).

Lemma register_succeeds ep a s ids info k :
  live_agent_ids (ds_peers s) = Ok ids →
  Peers.get_agent (ds_peers s) (EpObj ep) VNone false = Ok (Some a) →
  query_agent ep = Ok info → hash_key (get_id ep) = Ok k →
  ∃ s1 ctx, register query_agent ep None s = (s1, Ok tt) ∧ ds_dir s1 = ds_dir s ∧
    dget (services_db s1) k = Some (SvcEntry a ep info ctx).
Proof.
  intros Hids Ha Hq Hk. unfold register, prune_db, bind, get, lift_res, modify. rewrite Hids. simpl.
  rewrite Ha, Hq, Hk. eexists _, _. split_and!; [reflexivity | done|]. apply dget_dset_eq.
Qed.

End Whole.

