(* ===== verification/Results.v ===== *)
(** * Experiment results ([python/infra/defw.py], 78-320)

    [YamlResults] holds the results of one suite by experiment name,
    [YamlGlobalTestResults] the suites with their aggregated status and
    duration; the report functions render them as an aligned table and as a
    detailed listing.  Durations are ticks; how one is printed is the argument
    [fmt_duration]. *)

From S2P Require Import Prelude PyDict PyVal.
From Stdlib Require Import Ascii.

Local Open Scope string_scope.
Local Open Scope Z_scope.
Local Open Scope list_scope.
Import PyNotations.
Local Open Scope py_scope.

(** ** Data *)

(** One experiment result: the fields the reports read. *)
Record result := Result {
  r_name : string;
  r_status : string;
  r_duration : Z;
  r_error : option val;
  r_kwargs : pydict;
  r_args : list val
}.

(** A suite: an entry of ['Tests']. *)
Record suite := Suite {
  s_name : string;
  s_subtests : list result;
  s_duration : Z;
  s_status : string
}.

(** [YamlResults.__setitem__]: the result of that name is replaced in place,
    or appended; either way it carries the key as its name. *)
Fixpoint set_result (key : string) (value : result) (l : list result) : list result :=
  let value := Result key (r_status value) (r_duration value) (r_error value) (r_kwargs value)
                 (r_args value) in
  match l with
  | [] => [value]
  | e :: l' => if String.eqb (r_name e) key then value :: l' else e :: set_result key value l'
  end.

(** [YamlResults.__getitem__] *)
Definition get_result (key : string) (l : list result) : option result :=
  List.find (λ e, String.eqb (r_name e) key) l.

(** [YamlResults.get(status)] *)
Definition get_results (status : option string) (l : list result) : list result :=
  match status with
  | Some st => if String.eqb st "" then l
               else List.filter (λ e, String.eqb (r_status e) (upper st)) l
  | None => l
  end.

(** The loop of [finalize]: duration and status so far. *)
Definition finalize_step (acc : Z * string) (r : result) : Z * string :=
  let '(total, st) := acc in
  (total + r_duration r,
   if String.eqb (r_status r) "FAIL" then "FAIL"
   else if String.eqb (r_status r) "SKIP" && negb (String.eqb st "FAIL") then "SKIP"
   else st).

Definition finalize_suite (s : suite) : suite :=
  let '(total, st) := fold_left finalize_step (s_subtests s) (0, "PASS") in
  Suite (s_name s) (s_subtests s) total st.

(** [finalize(name)] *)
Definition finalize (name : string) (ts : list suite) : list suite :=
  map (λ s, if String.eqb (s_name s) name then finalize_suite s else s) ts.

(** [YamlGlobalTestResults.__setitem__] *)
Fixpoint set_in_suite (key : string) (value : result) (ts : list suite) : option (list suite) :=
  match ts with
  | [] => None
  | s :: ts' =>
      if String.eqb (s_name s) key
      then Some (Suite (s_name s) (set_result (r_name value) value (s_subtests s))
                   (s_duration s) (s_status s) :: ts')
      else cons s <$> set_in_suite key value ts'
  end.

Definition set_global (key : string) (value : result) (ts : list suite) : list suite :=
  match set_in_suite key value ts with
  | Some ts' => finalize key ts'
  | None => finalize key (ts ++ [Suite key (set_result (r_name value) value []) 0 ""])
  end.

(** What an experiment may return: a dict with a ['status'] (its fields), a
    bool, nothing, or any other value, a dict without ['status'] included. *)
Inductive raw_result :=
  | RawStatus (d : result)
  | RawBool (b : bool)
  | RawNone
  | RawOther (v : val).

(** [normalize_experiment_result] *)
Definition normalize_experiment_result (r : raw_result) : result :=
  match r with
  | RawStatus d => d
  | RawBool b => Result "" (if b then "PASS" else "FAIL") 0 None [] []
  | RawNone => Result "" "PASS" 0 None [] []
  | RawOther v => Result "" "PASS" 0 None [] [v]
  end.

(** ** Text *)

Definition is_break (c : ascii) : bool :=
  let n := nat_of_ascii c in
  ((Nat.leb 10 n && Nat.leb n 13) || (Nat.leb 28 n && Nat.leb n 30))%bool.

(** The first line of [s.splitlines()], if there is one. *)
Fixpoint until_break (l : list ascii) : list ascii :=
  match l with
  | [] => []
  | c :: l' => if is_break c then [] else c :: until_break l'
  end.

Definition first_line (s : string) : res string :=
  match s with
  | EmptyString => Raise (Exc EIndexError "list index out of range")
  | _ => Ok (String.string_of_list_ascii (until_break (String.list_ascii_of_string s)))
  end.

(** [get_result_details] *)
Definition get_result_details (r : result) : res string :=
  match r_error r with
  | Some e => first_line (py_fmt e)
  | None =>
      match r_kwargs r, r_args r with
      | _ :: _, _ => Ok (String.concat ", " (map (λ p, (p.1 ++ "=" ++ py_fmt p.2)%string) (r_kwargs r)))
      | [], _ :: _ => Ok (String.concat ", " (map py_fmt (r_args r)))
      | [], [] => Ok ""
      end
  end.

Definition newline_to_space (c : ascii) : ascii := if Ascii.eqb c "010" then " "%char else c.

(** [summarize_result_details] *)
Definition summarize_result_details (r : result) (max_width : nat) : res string :=
  let? details := get_result_details r in
  let l := strip_l (map newline_to_space (String.list_ascii_of_string details)) in
  Ok (String.string_of_list_ascii
        (if Nat.leb (length l) max_width then l
         else if Nat.leb max_width 3 then firstn max_width l
         else firstn (max_width - 3) l ++ ["."; "."; "."]%char)).

(** [format_experiment_result] *)
Definition nl : string := String "010"%char EmptyString.

Definition format_experiment_result (r : result) : string :=
  String.concat nl
    ([("status: " ++ r_status r)%string] ++
     map (λ p, (p.1 ++ ": " ++ py_fmt p.2)%string) (r_kwargs r) ++
     (match r_args r with
      | [] => []
      | args => "args:" :: map (λ v, ("  - " ++ py_fmt v)%string) args
      end) ++
     (match r_error r with Some e => ["error:"; py_fmt e] | None => [] end)).

Section Reports.
Context (fmt_duration : Z → string).

(** The results a report covers, with the name of their suite. *)
Definition selected (status : option string) (ts : list suite) : list (string * result) :=
  flat_map (λ s, map (λ r, (s_name s, r))
                   (match status with
                    | Some st => if String.eqb (upper st) "" then s_subtests s
                                 else List.filter (λ r, String.eqb (r_status r) (upper st))
                                        (s_subtests s)
                    | None => s_subtests s
                    end)) ts.

Definition row (p : string * result) : res (list string) :=
  let? summary := summarize_result_details p.2 80 in
  Ok [(p.1 ++ "::" ++ r_name p.2)%string; r_status p.2;
      (fmt_duration (r_duration p.2) ++ "s")%string; summary].

Definition headers : list string := ["Experiment"; "Status"; "Duration"; "Summary"].

(** [widths[i] = max(widths[i], len(row[i]))] *)
Definition widen (ws : list nat) (r : list string) : list nat :=
  zip_with (λ w s, Nat.max w (String.length s)) ws r.

Fixpoint repeat_str (s : string) (n : nat) : string :=
  match n with O => "" | S n' => (s ++ repeat_str s n')%string end.

(** [value.ljust(w)] *)
Definition ljust (w : nat) (s : string) : string :=
  (s ++ repeat_str " " (w - String.length s))%string.

Definition format_row (ws : list nat) (values : list string) : string :=
  String.concat " | " (zip_with ljust ws values).

Definition separator (ws : list nat) : string := String.concat "-+-" (map (repeat_str "-") ws).

Definition table_lines (rows : list (list string)) : list string :=
  let ws := fold_left widen rows (map String.length headers) in
  format_row ws headers :: separator ws :: map (format_row ws) rows.

(** [formatGlobalTestResultsTable] *)
Definition format_table (status : option string) (ts : list suite) : res string :=
  let? rows := rmapM row (selected status ts) in
  Ok (match rows with
      | [] => "No experiment results recorded."
      | _ => String.concat nl (table_lines rows)
      end).

(** [formatGlobalTestResultsDetail] *)
Definition format_detail (status : option string) (ts : list suite) : string :=
  match selected status ts with
  | [] => "No experiment results recorded."
  | ps =>
      String.concat (nl ++ nl)
        (map (λ p, ("[" ++ p.1 ++ "::" ++ r_name p.2 ++ "]" ++ nl ++
                    format_experiment_result p.2)%string) ps)
  end.

(** [get_report_mode]: the environment's setting, else the preference. *)
Definition get_report_mode (env_mode : option string) (preference : val) : string :=
  let mode := py_fmt (match env_mode with Some m => VStr m | None => preference end) in
  let mode := lower (strip mode) in
  if existsb (String.eqb mode) ["summary"; "detail"; "both"] then mode else "both".

(** [formatGlobalTestResultsReport] *)
Definition format_report (env_mode : option string) (preference : val) (status : option string) (ts : list suite) : res string :=
  let mode := get_report_mode env_mode preference in
  if String.eqb mode "summary" then format_table status ts
  else if String.eqb mode "detail" then Ok (format_detail status ts)
  else let? t := format_table status ts in
       Ok (t ++ nl ++ nl ++ format_detail status ts)%string.
End Reports.

(** ** Aggregation *)

(** The status of a set of results. *)
Definition worst (rs : list result) : string :=
  if existsb (λ r, String.eqb (r_status r) "FAIL") rs then "FAIL"
  else if existsb (λ r, String.eqb (r_status r) "SKIP") rs then "SKIP"
  else "PASS".

Definition total_duration (rs : list result) : Z := foldr (λ r n, r_duration r + n) 0 rs.

Lemma finalize_fold rs total st :
  st = "PASS" ∨ st = "SKIP" ∨ st = "FAIL" →
  fold_left finalize_step rs (total, st) =
  (total + total_duration rs,
   if String.eqb st "FAIL" || existsb (λ r, String.eqb (r_status r) "FAIL") rs then "FAIL"
   else if String.eqb st "SKIP" || existsb (λ r, String.eqb (r_status r) "SKIP") rs then "SKIP"
   else "PASS").
Proof.
  revert total st. induction rs as [|r rs IH]; intros total st Hst; simpl.
  { rewrite Z.add_0_r. by destruct Hst as [-> | [-> | ->]]. }
  rewrite IH by (destruct (String.eqb (r_status r) "FAIL"); [by auto|];
                 destruct (String.eqb (r_status r) "SKIP" && _); auto).
  f_equal; [lia|]. destruct (String.eqb (r_status r) "FAIL") eqn:E1; simpl.
  - by rewrite orb_true_r.
  - destruct (String.eqb (r_status r) "SKIP") eqn:E2; simpl;
      destruct Hst as [-> | [-> | ->]]; simpl; done.
Qed.

Lemma finalize_suite_spec s :
  s_subtests (finalize_suite s) = s_subtests s ∧
  s_duration (finalize_suite s) = total_duration (s_subtests s) ∧
  s_status (finalize_suite s) = worst (s_subtests s).
Proof. unfold finalize_suite. by rewrite finalize_fold by auto. Qed.

Definition aggregated (s : suite) : Prop :=
  s_duration s = total_duration (s_subtests s) ∧ s_status s = worst (s_subtests s) ∧
  NoDup (map r_name (s_subtests s)).

Definition results_ok (ts : list suite) : Prop :=
  NoDup (map s_name ts) ∧ Forall aggregated ts.

Lemma set_result_names key v l :
  map r_name (set_result key v l) =
  if decide (key ∈ map r_name l) then map r_name l else map r_name l ++ [key].
Proof.
  revert v. induction l as [|e l IH]; intros v; [done|]. cbn [set_result map].
  destruct (String.eqb_spec (r_name e) key) as [He|He]; cbn [map r_name].
  - rewrite He, decide_True by left. done.
  - rewrite IH. destruct (decide (key ∈ map r_name l)) as [Hd|Hd].
    + by rewrite decide_True by (right; exact Hd).
    + by rewrite decide_False by (rewrite not_elem_of_cons; auto).
Qed.

Lemma set_result_nodup key v l : NoDup (map r_name l) → NoDup (map r_name (set_result key v l)).
Proof.
  intros Hl. rewrite set_result_names. case_decide; [done|]. apply NoDup_app.
  split_and!; [done | set_solver | apply NoDup_singleton].
Qed.

Lemma get_set_result key v l :
  get_result key (set_result key v l) =
  Some (Result key (r_status v) (r_duration v) (r_error v) (r_kwargs v) (r_args v)).
Proof.
  unfold get_result. revert v. induction l as [|e l IH]; intros v; simpl;
    [by rewrite String.eqb_refl|].
  destruct (String.eqb (r_name e) key) eqn:E; simpl; [by rewrite String.eqb_refl|].
  by rewrite E, IH.
Qed.

Lemma finalize_ok name ts :
  NoDup (map s_name ts) →
  Forall (λ s, (s_name s = name ∧ NoDup (map r_name (s_subtests s))) ∨ aggregated s) ts →
  results_ok (finalize name ts).
Proof.
  intros Hnd Hts. split.
  - unfold finalize. rewrite map_map. erewrite map_ext; [exact Hnd|]. intros s.
    destruct (String.eqb _ _); [|done]. unfold finalize_suite. by case_match.
  - unfold finalize. apply Forall_fmap. eapply Forall_impl; [exact Hts|]. intros s Hs. simpl.
    destruct (String.eqb_spec (s_name s) name) as [Hn|Hn].
    + destruct (finalize_suite_spec s) as (E1 & E2 & E3). unfold aggregated.
      rewrite E1, E2, E3. split_and!; try done. by destruct Hs as [[_ ?]|(_ & _ & ?)].
    + by destruct Hs as [[? _]|?].
Qed.

Lemma set_in_suite_spec key v ts :
  match set_in_suite key v ts with
  | None => key ∉ map s_name ts
  | Some ts' => key ∈ map s_name ts ∧ map s_name ts' = map s_name ts ∧
      (Forall aggregated ts →
       Forall (λ s, (s_name s = key ∧ NoDup (map r_name (s_subtests s))) ∨ aggregated s) ts')
  end.
Proof.
  induction ts as [|s ts IH]; simpl; [apply not_elem_of_nil|].
  destruct (String.eqb_spec (s_name s) key) as [->|Hn]; simpl.
  - split_and!; [by left | done|]. rewrite !Forall_cons. intros [(? & ? & Hnd) Hts]. split.
    + left. split; [done|]. simpl. by apply set_result_nodup.
    + eapply Forall_impl; [exact Hts|]. auto.
  - destruct (set_in_suite key v ts) as [ts'|]; simpl.
    + destruct IH as (Hin & Hmap & Hall). split_and!; [by right | by rewrite Hmap|].
      rewrite !Forall_cons. intros [? ?]. split; auto.
    + rewrite not_elem_of_cons. done.
Qed.

Lemma set_global_ok key v ts : results_ok ts → results_ok (set_global key v ts).
Proof.
  intros [Hnd Hag]. unfold set_global. pose proof (set_in_suite_spec key v ts) as Hs.
  destruct (set_in_suite key v ts) as [ts'|].
  - destruct Hs as (_ & Hmap & Hall). apply finalize_ok; [by rewrite Hmap | by apply Hall].
  - apply finalize_ok.
    + rewrite map_app. apply NoDup_app. split_and!; [done | set_solver | apply NoDup_singleton].
    + apply Forall_app. split; [eapply Forall_impl; [exact Hag|]; auto|].
      constructor; [left | constructor]. split; [done|]. simpl. apply NoDup_singleton.
Qed.

(** However results are recorded, each suite appears once and its status
    and duration aggregate its current results: FAIL if any failed, else SKIP
    if any was skipped, else PASS, with the durations summed; re-running an
    experiment replaces its result and the aggregate follows. *)
Theorem results_aggregate (rs : list (string * result)) :
  results_ok (fold_left (λ ts p, set_global p.1 p.2 ts) rs []).
Proof.
  assert (results_ok []) as H0 by (split; constructor). revert H0. generalize (@nil suite).
  induction rs as [|p rs IH]; intros ts Hts; [done|]. simpl. apply IH. by apply set_global_ok.
Qed.

(** ** The table *)

Lemma str_length_app s t : String.length (s ++ t)%string = (String.length s + String.length t)%nat.
Proof. induction s as [|c s IH]; simpl; [done|]. by rewrite IH. Qed.

Lemma repeat_str_length n s :
  String.length (repeat_str s n) = (n * String.length s)%nat.
Proof. induction n as [|n IH]; simpl; [done|]. by rewrite str_length_app, IH. Qed.

Lemma ljust_length w s : (String.length s ≤ w)%nat → String.length (ljust w s) = w.
Proof. intros H. unfold ljust. rewrite str_length_app, repeat_str_length. simpl. lia. Qed.

(** The length of cells of widths [ws] joined with a separator of length 3. *)
Fixpoint joined (ws : list nat) : nat :=
  match ws with [] => 0 | [w] => w | w :: ws' => w + 3 + joined ws' end.

Lemma concat_length sep cells ws :
  String.length sep = 3%nat → Forall2 (λ c w, String.length c = w) cells ws →
  String.length (String.concat sep cells) = joined ws.
Proof.
  intros Hsep. induction 1 as [|c w cells ws Hc Hcs IH]; [done|].
  destruct Hcs as [|c' w' cells' ws' Hc' Hcs']; simpl in *; [done|].
  rewrite !str_length_app, Hsep, Hc. rewrite IH. lia.
Qed.

(** A row that fits its widths. *)
Definition fits (ws : list nat) (r : list string) : Prop :=
  Forall2 (λ w s, String.length s ≤ w)%nat ws r.

Lemma format_row_length ws r : fits ws r → String.length (format_row ws r) = joined ws.
Proof.
  intros Hf. apply concat_length; [done|].
  induction Hf as [|w s ws r Hs _ IH]; simpl; constructor; auto using ljust_length.
Qed.

Lemma separator_length ws : String.length (separator ws) = joined ws.
Proof.
  apply concat_length; [done|]. induction ws as [|w ws IH]; constructor; [|exact IH].
  rewrite repeat_str_length. simpl. lia.
Qed.

Lemma widen_fits ws r : length r = length ws → fits (widen ws r) r.
Proof.
  revert r. induction ws as [|w ws IH]; intros [|s r] Hl; simpl in *; try done; constructor;
    [lia | apply IH; lia].
Qed.

Lemma widen_mono ws r r' : length r = length ws → fits ws r' → fits (widen ws r) r'.
Proof.
  intros Hl Hf. revert r Hl. induction Hf as [|w s ws r' Hs _ IH]; intros [|x r] Hl; simpl in *;
    try done; constructor; [lia | apply IH; lia].
Qed.

Lemma widen_length ws r : length r = length ws → length (widen ws r) = length ws.
Proof. intros H. unfold widen. rewrite length_zip_with. lia. Qed.

Lemma widths_fit rows ws :
  Forall (λ r : list string, length r = length ws) rows →
  let ws' := fold_left widen rows ws in
  (∀ r, fits ws r → fits ws' r) ∧ Forall (fits ws') rows.
Proof.
  revert ws. induction rows as [|r rows IH]; intros ws Hr; simpl; [by split|].
  apply Forall_cons in Hr as [Hl Hr].
  destruct (IH (widen ws r)) as [H1 H2]; [by rewrite widen_length|].
  split; [intros r' Hf; by apply H1, widen_mono|]. constructor; [|done].
  by apply H1, widen_fits.
Qed.

Lemma row_length fmt p r : row fmt p = Ok r → length r = 4%nat.
Proof.
  unfold row. destruct (summarize_result_details p.2 80); simpl; [|done]. by intros [= <-].
Qed.

Lemma table_lines_aligned rows :
  Forall (λ r : list string, length r = 4%nat) rows →
  ∃ n, Forall (λ line, String.length line = n) (table_lines rows).
Proof.
  intros Hlen.
  destruct (widths_fit rows (map String.length headers)) as [H1 H2]; [done|].
  unfold table_lines. set (ws := fold_left widen rows _) in *. exists (joined ws).
  rewrite !Forall_cons. split_and!.
  - apply format_row_length, H1. repeat constructor.
  - apply separator_length.
  - apply Forall_fmap. eapply Forall_impl; [exact H2|]. intros r. apply format_row_length.
Qed.

(** The report table covers exactly the selected results and is aligned:
    a header, a separator and one line per selected result, all of the same
    length; only without any is the placeholder printed. *)
Theorem table_aligned (fmt : Z → string) (status : option string) (ts : list suite) (text : string) :
  format_table fmt status ts = Ok text →
  (selected status ts = [] ∧ text = "No experiment results recorded.") ∨
  ∃ n lines, text = String.concat nl lines ∧
    length lines = (2 + length (selected status ts))%nat ∧
    Forall (λ line, String.length line = n) lines.
Proof.
  unfold format_table. destruct (rmapM (row fmt) _) as [rows|] eqn:Hrows; [|done].
  cbn [rbind]. intros [= <-]. pose proof (rmapM_length _ _ _ Hrows) as Hlen.
  destruct (decide (rows = [])) as [->|Hne]; [left; by destruct (selected status ts)|].
  right. destruct (table_lines_aligned rows) as [n Hn].
  { apply Forall_forall. intros r (p & _ & Hp)%(proj1 (rmapM_In _ _ _ Hrows r)).
    by apply (row_length fmt p). }
  exists n, (table_lines rows). split_and!; [by destruct rows | | done].
  unfold table_lines. simpl. by rewrite length_map, Hlen.
Qed.

(** The text a summary is made of. *)
Definition summary_text (d : string) : list ascii :=
  strip_l (map newline_to_space (String.list_ascii_of_string d)).

(** The summary column is bounded: a summary is never longer than asked
    for, and a text that fits is kept whole. *)
Theorem summary_bounded (r : result) (w : nat) (s : string) :
  summarize_result_details r w = Ok s →
  (String.length s ≤ w)%nat ∧
  ∃ d, get_result_details r = Ok d ∧
    ((length (summary_text d) ≤ w)%nat → s = String.string_of_list_ascii (summary_text d)).
Proof.
  unfold summarize_result_details. destruct (get_result_details r) as [d|]; [|done].
  cbn [rbind]. intros [= <-]. fold (summary_text d).
  assert (∀ l, String.length (String.string_of_list_ascii l) = length l) as Hl
    by (induction l; simpl; congruence).
  rewrite Hl. destruct (Nat.leb_spec (length (summary_text d)) w) as [Hle|Hgt].
  - split; [done|]. by exists d.
  - split; [|exists d; split; [done | lia]].
    destruct (Nat.leb_spec w 3); rewrite ?length_app, length_firstn; simpl; lia.
Qed.

(** ** Examples *)

Definition demo_result (n st : string) (d : Z) : result := Result n st d None [("k", VInt 1)] [].

Example aggregate_follows :
  map (λ s, (s_name s, s_status s, s_duration s))
    (fold_left (λ ts p, set_global p.1 p.2 ts)
       [("a", demo_result "x" "FAIL" 2); ("a", demo_result "y" "SKIP" 3);
        ("b", demo_result "x" "PASS" 1); ("a", demo_result "x" "PASS" 4)] []) =
  [("a", "SKIP", 7); ("b", "PASS", 1)].
Proof. reflexivity. Qed.

Definition demo_suites : list suite :=
  [Suite "a" [demo_result "x" "FAIL" 2] 2 "FAIL"; Suite "suite" [demo_result "long name" "PASS" 1234] 1234 "PASS"].

Lemma table_aligned_witness :
  ∃ text, format_table (λ d, py_fmt (VInt d)) None demo_suites = Ok text ∧
  ∃ n lines, text = String.concat nl lines ∧ length lines = 4%nat ∧
    Forall (λ line, String.length line = n) lines.
Proof.
  destruct (format_table (λ d, py_fmt (VInt d)) None demo_suites) as [text|] eqn:E;
    [|by vm_compute in E].
  exists text. split; [done|].
  destruct (table_aligned _ _ _ _ E) as [[He _]|H]; [by vm_compute in He | exact H].
Defined.

Lemma summary_bounded_witness :
  let r := Result "x" "PASS" 0 None [] [VStr "abcdefghij"] in
  summarize_result_details r 6 = Ok "abc..." ∧ (String.length "abc..." ≤ 6)%nat.
Proof.
  split; [reflexivity|].
  apply (summary_bounded (Result "x" "PASS" 0 None [] [VStr "abcdefghij"]) 6). reflexivity.
Defined.
