(* ===== verification/Utils.v ===== *)
(** * Small parts of the infrastructure
    ([defw_util.py], parts of [defw.py], [defw_attachments.py] and
    [defw_common_def.py])

    Rounding, time stamps, random names, the module cache, YAML blocks, the
    lazily imported native module, the shutdown flag, the writing of the
    results, and the stack traces of the threads.  The clock, the random
    choices, the importer, the YAML printer and the traces are arguments. *)

From S2P Require Import Prelude PyDict PyVal Results.
From stdpp Require Import pretty.
From Stdlib Require Import Ascii.

Local Open Scope string_scope.
Local Open Scope Z_scope.
Local Open Scope list_scope.
Import PyNotations.
Local Open Scope py_scope.

(** ** Rounding *)

(** [round_to_nearest_power_of_two] of an integer, with an exact logarithm:
    the integer part of log2 n + 1/2 is half of log2 (n * n) + 1. *)
Definition round_to_nearest_power_of_two (number : Z) : Z :=
  if number <=? 0 then 0 else 2 ^ ((Z.log2 (number * number) + 1) / 2).

(** The result is the power of two whose logarithm is nearest: the number is
    within a factor of the square root of two of it. *)
Theorem rounded_power_bounds (n : Z) :
  0 < n → ∃ k, 0 ≤ k ∧ round_to_nearest_power_of_two n = 2 ^ k ∧ 2 ^ (2 * k) ≤ 2 * (n * n) < 4 * 2 ^ (2 * k).
Proof.
  intros Hn. unfold round_to_nearest_power_of_two. rewrite (proj2 (Z.leb_gt n 0)) by done.
  set (l := Z.log2 (n * n)). assert (0 < n * n) as Hnn by nia.
  pose proof (Z.log2_spec (n * n) Hnn) as [Hlo Hhi]. fold l in Hlo, Hhi.
  rewrite Z.pow_succ_r in Hhi by apply Z.log2_nonneg.
  assert (0 ≤ l) as Hl by apply Z.log2_nonneg.
  set (k := (l + 1) / 2). pose proof (Z.div_mod (l + 1) 2 ltac:(lia)) as Hd. fold k in Hd.
  pose proof (Z.mod_pos_bound (l + 1) 2 ltac:(lia)) as Hm.
  exists k. split; [unfold k; apply Z.div_pos; lia|]. split; [done|].
  assert (2 * k = l ∨ 2 * k = l + 1) as [-> | ->] by lia; rewrite ?Z.pow_add_r, ?Z.pow_1_r by lia; lia.
Qed.

Lemma rounded_power_bounds_witness : round_to_nearest_power_of_two 5 = 4 ∧ 16 ≤ 2 * (5 * 5) < 64.
Proof. destruct (rounded_power_bounds 5) as (k & _ & _ & _); [lia|]. vm_compute. repeat split; discriminate. Defined.

(** It is not the nearest power: 23 is nearer to 16. *)
Example rounded_not_nearest :
  round_to_nearest_power_of_two 23 = 32 ∧ Z.abs (23 - 16) < Z.abs (32 - 23).
Proof. vm_compute. split; reflexivity. Qed.

(** ** Time stamps *)

Record localtime := LocalTime { tm_year : Z; tm_mon : Z; tm_mday : Z; tm_hour : Z; tm_min : Z }.

(** [get_today] and [get_now]: numbers are not padded. *)
Definition get_today (t : localtime) : string :=
  (pretty (tm_year t) ++ "-" ++ pretty (tm_mon t) ++ "-" ++ pretty (tm_mday t))%string.
Definition get_now (t : localtime) : string := (pretty (tm_hour t) ++ "." ++ pretty (tm_min t))%string.

(** ** Random names *)

Definition ascii_letters : string := "abcdefghijklmnopqrstuvwxyzABCDEFGHIJKLMNOPQRSTUVWXYZ".
Definition digits : string := "0123456789".
Definition characters : list ascii := String.list_ascii_of_string (ascii_letters ++ digits)%string.

(** [generate_random_string]: the n-th call of [random.choice] takes element
    [choice n] of what it is given. *)
Definition generate_random_string (choice : nat → nat) (length : nat) : string :=
  String.string_of_list_ascii
    (map (λ n, List.nth (choice n mod 62)%nat characters "a"%char) (seq 0 length)).

(** A random name has the length asked for and can be part of a host, file or
    variable name. *)
Lemma random_string_shape choice n :
  String.length (generate_random_string choice n) = n ∧
  ∀ c, c ∈ String.list_ascii_of_string (generate_random_string choice n) → c ∈ characters.
Proof.
  unfold generate_random_string. split.
  - assert (∀ l, String.length (String.string_of_list_ascii l) = length l) as -> by
      (intros l; induction l as [|c l IH]; simpl; [done | by rewrite IH]).
    by rewrite length_map, length_seq.
  - intros c. rewrite String.list_ascii_of_string_of_list_ascii. intros (i & _ & ->)%list_map_In.
    apply list_elem_of_In, nth_In. change (length characters) with 62%nat. by apply Nat.mod_upper_bound.
Qed.

(** ** The module cache *)

(** [clear_module_cache]: the module and its submodules go, nothing else. *)
Definition in_module (name key : string) : bool := String.eqb key name || String.prefix (name ++ ".")%string key.
Definition clear_module_cache {V} (name : string) (modules : odict string V) : odict string V :=
  ddrop (List.filter (in_module name) (dkeys modules)) modules.

Theorem module_cache_cleared {V} (name key : string) (modules : odict string V) :
  dict_ok modules →
  dget (clear_module_cache name modules) key = if in_module name key then None else dget modules key.
Proof.
  intros Hok. unfold clear_module_cache. rewrite dget_ddrop by done. case_decide as Hin.
  - apply list_filter_In in Hin as [_ ->]. done.
  - destruct (in_module name key) eqn:E; [|done]. apply dget_None. intros Hk. apply Hin, list_filter_In. done.
Qed.

Lemma module_cache_cleared_witness :
  let ms := [("svc", 1%nat); ("svc.impl", 2%nat); ("svc_other", 3%nat)] in
  dget (clear_module_cache "svc" ms) "svc.impl" = None ∧ dget (clear_module_cache "svc" ms) "svc_other" = Some 3%nat.
Proof.
  cbv zeta. rewrite !module_cache_cleared by (apply (bool_decide_unpack (NoDup _)); vm_compute; exact I).
  split; reflexivity.
Defined.

(** ** YAML blocks *)

(** The blocks being read: [get_nearest_yaml_block], [get_top_yaml_block] *)
Definition get_nearest_yaml_block (blocks : list val) : res val :=
  match rev blocks with b :: _ => Ok b | [] => Raise (Exc EIndexError "list index out of range") end.
Definition get_top_yaml_block (blocks : list val) : res val :=
  match blocks with b :: _ => Ok b | [] => Raise (Exc EIndexError "list index out of range") end.

(** ** The native module *)

(** [_rma_ops]: imported at the first use; what that gave is kept. *)
Record agent_mod := AgentMod { mod_tried : bool; mod_found : option nat }.
Definition init_agent_mod : agent_mod := AgentMod false None.

Definition rma_ops (import : res nat) (s : agent_mod) : agent_mod * option nat :=
  let s' := if mod_tried s then s
            else AgentMod true (match import with Ok m => Some m | Raise _ => None end) in
  (s', mod_found s').

(** Every use gets the same module, whatever a later import would give. *)
Lemma rma_ops_once i1 i2 s :
  let s1 := (rma_ops i1 s).1 in
  rma_ops i2 s1 = (s1, (rma_ops i1 s).2).
Proof. unfold rma_ops. by destruct (mod_tried s) eqn:E; simpl; rewrite ?E. Qed.

(** ** The shutdown flag *)

(** [system_shutdown] and [is_system_up] on [g_system_shutdown] *)
Definition system_shutdown : M bool unit := modify (λ _, true).
Definition is_system_up : M bool bool := let! down := get in ret (negb down).

(** ** The results as a document *)

(** [YamlGlobalTestResults.__getitem__] *)
Definition get_suite_results (key : string) (ts : list suite) : option (list result) :=
  s_subtests <$> List.find (λ s, String.eqb (s_name s) key) ts.

(** [dumpGlobalTestResults]: where the document and the report go *)
Record dumped := Dumped { to_file : option (string * string); printed : option string; returned : string }.

Definition has_separator (fname : string) : bool := existsb (Ascii.eqb "/") (String.list_ascii_of_string fname).

Section Dump.
Context (yaml_dump : list suite → string) (fmt_duration : Z → string) (tmp_dir : string).

Definition dumpGlobalTestResults (env_mode : option string) (preference : val) (fname status : option string)
    (ts : list suite) : res dumped :=
  let? report := format_report fmt_duration env_mode preference status ts in
  match fname with
  | Some (String c f) =>
      let fname := String c f in
      let fpath := if has_separator fname then fname else path_join tmp_dir fname in
      Ok (Dumped (Some (fpath, yaml_dump ts)) None report)
  | _ => Ok (Dumped None (Some report) report)
  end.

(** A file gets the whole document, whatever status the report is asked for;
    without a file the report is printed; it is returned in any case. *)
Lemma dump_writes_everything env_mode preference fname status ts d :
  dumpGlobalTestResults env_mode preference fname status ts = Ok d →
  format_report fmt_duration env_mode preference status ts = Ok (returned d) ∧
  (∀ p t, to_file d = Some (p, t) → t = yaml_dump ts ∧ printed d = None) ∧
  (to_file d = None → printed d = Some (returned d)).
Proof.
  unfold dumpGlobalTestResults. destruct (format_report _ _ _ _ _) as [report|]; [|done]. simpl.
  destruct fname as [[|c f]|]; intros [= <-]; simpl; naive_solver.
Qed.
End Dump.

(** ** Stack traces *)

(** [print_all_thread_stack_traces_to_logger]: one entry per frame, with the
    name of its thread; [sys.stderr], taken for each trace, ends as the
    process's own. *)
Inductive stderr := ProcessStderr | Redirected (id : nat).

Definition trace_lines (frames : list (Z * string)) (thread_names : list (Z * string)) : list string :=
  map (λ f, ("Thread Name: " ++ default "Unknown Thread" (dget (thread_names : odict Z string) f.1) ++ ", ID: " ++
             pretty f.1 ++ String "010" f.2)%string) frames.

Definition print_all_thread_stack_traces (frames : list (Z * string)) (thread_names : list (Z * string))
    (current : stderr) : list string * stderr :=
  (trace_lines frames thread_names, match frames with [] => current | _ => ProcessStderr end).
