(* ===== verification/Exceptions.v ===== *)
(** * Error objects and result texts ([python/infra/defw_exception.py] and
    [DEFwResult] of [python/infra/defw_remote.py])

    A [DEFwError] carries where it was raised and a normalised stack trace; it
    crosses processes as a YAML mapping, which [representer] makes and
    [constructor] reads.  A [DEFwResult] prints as indented text; how YAML
    prints a scalar is the argument [safe_dump].  Texts are ASCII. *)

From S2P Require Import Prelude PyDict PyVal Results.
From Stdlib Require Import Ascii.

Local Open Scope string_scope.
Local Open Scope Z_scope.
Local Open Scope list_scope.
Import PyNotations.
Local Open Scope py_scope.

(** ** Lines *)

Definition newline : ascii := "010"%char.
Definition carriage : ascii := "013"%char.

(** [s.splitlines()], [cur] the characters of the current line, reversed. *)
Fixpoint splitlines_from (cur : list ascii) (s : list ascii) : list (list ascii) :=
  match s with
  | [] => match cur with [] => [] | _ => [rev cur] end
  | c :: s' =>
      if is_break c then
        match s' with
        | d :: s'' => if Ascii.eqb c carriage && Ascii.eqb d newline
                      then rev cur :: splitlines_from [] s''
                      else rev cur :: splitlines_from [] s'
        | [] => rev cur :: splitlines_from [] s'
        end
      else splitlines_from (c :: cur) s'
  end.

Definition splitlines (s : string) : list (list ascii) :=
  splitlines_from [] (String.list_ascii_of_string s).

(** [line.rstrip()] *)
Definition rstrip_l (l : list ascii) : list ascii := rev (lstrip_l (rev l)).

Definition join_lines (ls : list string) : string := String.concat nl ls.

(** ** [DEFwError] *)

(** The lines of a text that are left after [rstrip()]. *)
Definition kept_lines (s : string) : list string :=
  map String.string_of_list_ascii
    (List.filter (λ l, match l with [] => false | _ => true end) (map rstrip_l (splitlines s))).

(** [_normalize_stacktrace] of a list and of a text *)
Definition normalize_entries (entries : list string) : string :=
  join_lines (flat_map kept_lines entries).
Definition normalize_stacktrace (s : string) : string := join_lines (kept_lines s).

Record frame := Frame {
  f_filename : val;
  f_lineno : val;
  f_function : val;
  f_code_context : val;
  f_index : val
}.

Record defw_error := DefwError {
  e_node_name : val;
  e_msg : val;
  e_arg : val;
  e_halt : val;
  e_frame : frame;
  e_stacktrace : string
}.

(** [exception_list[:-2]] *)
Definition drop_last_two (l : list string) : list string := firstn (length l - 2) l.

(** [DEFwError.__init__]: [me] is the node's own name, [fr] the caller's
    frame, the three lists what [traceback] formats. *)
Definition new_defw_error (me : val) (fr : frame) (stack tb only : list string)
    (msg arg halt nname : val) : defw_error :=
  DefwError (if truthy nname then nname else me) msg arg halt fr
    (normalize_entries (drop_last_two stack ++ tb ++ only)).

(** [str(value)] of the trace a received error carries *)
Definition normalize_value (v : val) : string :=
  match v with
  | VList l => normalize_entries (map py_fmt l)
  | _ => normalize_stacktrace (py_fmt v)
  end.

(** [DEFwError.populate] *)
Definition populate (node msg arg halt : val) (fr : frame) (stacktrace : val) : defw_error :=
  DefwError node msg arg halt fr (normalize_value stacktrace).

(** [DEFwError.__str__] *)
Definition error_lines (e : defw_error) : list string :=
  ["DEFwError:"; "  node-name: " ++ py_fmt (e_node_name e); "  msg: " ++ py_fmt (e_msg e);
   "  arg: " ++ py_fmt (e_arg e); "  file name: " ++ py_fmt (f_filename (e_frame e));
   "  line number: " ++ py_fmt (f_lineno (e_frame e));
   "  function: " ++ py_fmt (f_function (e_frame e)); "  stacktrace:"]%string ++
  (if String.eqb (e_stacktrace e) "" then []
   else map (λ l, ("    " ++ String.string_of_list_ascii l)%string)
          (splitlines (normalize_stacktrace (e_stacktrace e)))).

Definition error_str (e : defw_error) : string := join_lines (error_lines e).

(** [defw_error_representer]: the mapping that is sent. *)
Definition representer (e : defw_error) : pydict :=
  [("node-name", e_node_name e); ("msg", e_msg e); ("arg", e_arg e); ("halt", e_halt e);
   ("filename", f_filename (e_frame e)); ("lineno", f_lineno (e_frame e));
   ("function", f_function (e_frame e)); ("code_context", f_code_context (e_frame e));
   ("index", f_index (e_frame e)); ("stacktrace", VStr (e_stacktrace e))].

(** [defw_error_constructor] *)
Definition constructor (value : pydict) : res defw_error :=
  let? node := vindex value "node-name" in
  let? msg := vindex value "msg" in
  let? arg := vindex value "arg" in
  let? halt := vindex value "halt" in
  let? filename := vindex value "filename" in
  let? lineno := vindex value "lineno" in
  let? function := vindex value "function" in
  let? code_context := vindex value "code_context" in
  let? index := vindex value "index" in
  let? stacktrace := vindex value "stacktrace" in
  Ok (populate node msg arg halt (Frame filename lineno function code_context index) stacktrace).

(** ** [DEFwResult] *)

Definition has_newline (s : string) : bool :=
  existsb (Ascii.eqb newline) (String.list_ascii_of_string s).

Definition spaces (n : nat) : string := repeat_str " " n.

(** [for line in item.splitlines(): lines.append(...)] *)
Definition block_lines (indent : nat) (s : string) : list string :=
  map (λ l, (spaces indent ++ "  " ++ String.string_of_list_ascii l)%string) (splitlines s).

Section ResultText.
(** [yaml.safe_dump(value, sort_keys=False, default_flow_style=True)] *)
Context (safe_dump : val → string).

(** [_format_scalar]: without YAML's end-of-document marker *)
Definition scalar (v : val) : string :=
  let rendered := rev (String.list_ascii_of_string (strip (safe_dump v))) in
  String.string_of_list_ascii
    (rev (match rendered with
          | "."%char :: "."%char :: "."%char :: c :: l' =>
              if Ascii.eqb c newline then l' else rendered
          | ["."%char; "."%char; "."%char] => []
          | _ => rendered
          end)).

(** [_format_result_yaml_like] *)
Fixpoint format_result (indent : nat) (v : val) : string :=
  let prefix := spaces indent in
  match v with
  | VDict d =>
      join_lines
        (flat_map (λ p, match p.2 with
                        | VStr s => if has_newline s
                                    then (prefix ++ p.1 ++ ": |")%string :: block_lines indent s
                                    else [(prefix ++ p.1 ++ ": " ++ scalar (VStr s))%string]
                        | VDict _ | VList _ =>
                            [(prefix ++ p.1 ++ ":")%string; format_result (indent + 2) p.2]
                        | w => [(prefix ++ p.1 ++ ": " ++ scalar w)%string]
                        end) d)
  | VList l =>
      join_lines
        (flat_map (λ x, match x with
                        | VStr s => if has_newline s
                                    then (prefix ++ "- |")%string :: block_lines indent s
                                    else [(prefix ++ "- " ++ scalar (VStr s))%string]
                        | VDict _ | VList _ => [(prefix ++ "-")%string; format_result (indent + 2) x]
                        | w => [(prefix ++ "- " ++ scalar w)%string]
                        end) l)
  | VStr s => if has_newline s then join_lines ((prefix ++ "|")%string :: block_lines indent s)
              else (prefix ++ scalar v)%string
  | _ => (prefix ++ scalar v)%string
  end.

(** [DEFwResult.__str__] *)
Definition result_str (d : pydict) : string := strip (format_result 0 (VDict d)).
End ResultText.

(** ** Normalisation *)

Definition no_break (l : list ascii) : Prop := Forall (λ c, is_break c = false) l.

(** A line a stack trace may contain after normalisation. *)
Definition clean (l : list ascii) : Prop := no_break l ∧ l ≠ [] ∧ rstrip_l l = l.

Lemma splitlines_line cur l s :
  no_break l → splitlines_from cur (l ++ s) = splitlines_from (rev l ++ cur) s.
Proof.
  intros Hl. revert cur. induction Hl as [|c l Hc _ IH]; intros cur; [done|]. simpl.
  rewrite Hc, IH. by rewrite <- app_assoc.
Qed.

Lemma splitlines_newline cur s : splitlines_from cur (newline :: s) = rev cur :: splitlines_from [] s.
Proof. by destruct s. Qed.

Lemma list_ascii_app a b :
  String.list_ascii_of_string (a ++ b)%string =
  String.list_ascii_of_string a ++ String.list_ascii_of_string b.
Proof. induction a as [|c a IH]; simpl; [done | by rewrite IH]. Qed.

Lemma splitlines_join ls :
  Forall (λ l, no_break l ∧ l ≠ []) ls →
  splitlines (join_lines (map String.string_of_list_ascii ls)) = ls.
Proof.
  unfold splitlines, join_lines. induction 1 as [|l ls [Hl Hne] Hls IH]; [done|].
  destruct ls as [|l2 ls].
  - simpl. rewrite String.list_ascii_of_string_of_list_ascii, <- (app_nil_r l), splitlines_line by done.
    simpl. rewrite !app_nil_r. destruct (rev l) eqn:E; [|by rewrite <- E, rev_involutive].
    by apply (f_equal (@rev _)) in E; rewrite rev_involutive in E.
  - change (String.concat nl (map String.string_of_list_ascii (l :: l2 :: ls)))
      with (String.string_of_list_ascii l ++ nl ++
            String.concat nl (map String.string_of_list_ascii (l2 :: ls)))%string.
    rewrite !list_ascii_app, String.list_ascii_of_string_of_list_ascii, splitlines_line by done.
    rewrite app_nil_r. change (String.list_ascii_of_string nl) with [newline]. cbn [app].
    by rewrite splitlines_newline, rev_involutive, IH.
Qed.

Lemma splitlines_no_break cur s : no_break cur → Forall no_break (splitlines_from cur s).
Proof.
  assert (∀ n s cur, (length s ≤ n)%nat → no_break cur → Forall no_break (splitlines_from cur s)) as H.
  { clear. induction n as [|n IH]; intros s cur Hn Hc.
    - destruct s; [|simpl in Hn; lia]. destruct cur; constructor; [|constructor].
      by apply Forall_rev.
    - destruct s as [|c s]; simpl; [destruct cur; constructor; [by apply Forall_rev | constructor]|].
      simpl in Hn. destruct (is_break c) eqn:E; [|apply IH; [lia | by constructor]].
      assert (no_break (rev cur)) as Hr by (by apply Forall_rev).
      destruct s as [|d s]; [by repeat constructor|]. simpl in Hn.
      destruct (_ && _); constructor; try done; apply IH; simpl; try lia; constructor. }
  intros Hc. by apply (H (length s)).
Qed.

Lemma lstrip_suffix l : ∃ l', l = l' ++ lstrip_l l.
Proof.
  induction l as [|c l [l' IH]]; simpl; [by exists []|].
  destruct (is_space c); [|by exists []]. exists (c :: l'). simpl. by rewrite <- IH.
Qed.

Lemma lstrip_idem l : lstrip_l (lstrip_l l) = lstrip_l l.
Proof. induction l as [|c l IH]; simpl; [done|]. destruct (is_space c) eqn:E; [done|]. simpl. by rewrite E. Qed.

Lemma rstrip_idem l : rstrip_l (rstrip_l l) = rstrip_l l.
Proof. unfold rstrip_l. by rewrite rev_involutive, lstrip_idem. Qed.

Lemma rstrip_no_break l : no_break l → no_break (rstrip_l l).
Proof.
  intros H. unfold rstrip_l. apply Forall_rev in H. destruct (lstrip_suffix (rev l)) as [l' E].
  rewrite E in H. apply Forall_app in H as [_ H]. by apply Forall_rev.
Qed.

Lemma kept_lines_clean s :
  ∃ ls, kept_lines s = map String.string_of_list_ascii ls ∧ Forall clean ls.
Proof.
  eexists. split; [reflexivity|]. apply Forall_forall. intros l [Hin Hne]%list_filter_In.
  apply list_map_In in Hin as (l0 & Hl0 & ->). split_and!.
  - apply rstrip_no_break. pose proof (splitlines_no_break [] (String.list_ascii_of_string s)) as H.
    rewrite Forall_forall in H. by apply H; [constructor|].
  - by destruct (rstrip_l l0).
  - apply rstrip_idem.
Qed.

Lemma entries_clean entries :
  ∃ ls, flat_map kept_lines entries = map String.string_of_list_ascii ls ∧ Forall clean ls.
Proof.
  induction entries as [|s entries (ls & IH & Hls)]; [by exists []|]. simpl.
  destruct (kept_lines_clean s) as (ls' & H & Hls'). exists (ls' ++ ls).
  rewrite H, IH, map_app. split; [done | by apply Forall_app].
Qed.

Lemma kept_lines_join ls :
  Forall clean ls → kept_lines (join_lines (map String.string_of_list_ascii ls)) =
                    map String.string_of_list_ascii ls.
Proof.
  intros Hls. unfold kept_lines. rewrite splitlines_join.
  - f_equal. assert (map rstrip_l ls = ls) as ->.
    { induction Hls as [|l ls (_ & _ & Hl) _ IH]; simpl; [done | by rewrite Hl, IH]. }
    apply filter_all_true. intros l Hl. rewrite Forall_forall in Hls.
    destruct (Hls l Hl) as (_ & Hne & _). by destruct l.
  - eapply Forall_impl; [exact Hls|]. intros l (? & ? & _). done.
Qed.

(** A normalised trace is left alone by normalising it again. *)
Definition normalized (s : string) : Prop := normalize_stacktrace s = s.

Lemma normalize_entries_normalized entries : normalized (normalize_entries entries).
Proof.
  unfold normalized, normalize_stacktrace, normalize_entries.
  destruct (entries_clean entries) as (ls & -> & Hls). by rewrite kept_lines_join.
Qed.

Lemma normalize_value_normalized v : normalized (normalize_value v).
Proof.
  assert (∀ s, normalized (normalize_stacktrace s)) as H.
  { intros s. pose proof (normalize_entries_normalized [s]) as H.
    unfold normalize_entries in H. simpl in H. by rewrite app_nil_r in H. }
  destruct v; try apply H. apply normalize_entries_normalized.
Qed.

Lemma sent_and_received (e : defw_error) :
  normalized (e_stacktrace e) → constructor (representer e) = Ok e.
Proof.
  intros H. unfold constructor, representer, vindex. simpl. unfold populate. simpl.
  rewrite H. by destruct e as [? ? ? ? [] ?].
Qed.

Lemma received_normalized d e : constructor d = Ok e → normalized (e_stacktrace e).
Proof.
  unfold constructor. repeat (destruct (vindex d _); simpl; [|done]). intros [= <-].
  apply normalize_value_normalized.
Qed.

(** An error that was raised here, or received from another process. *)
Inductive made : defw_error → Prop :=
  | made_here me fr stack tb only msg arg halt nname :
      made (new_defw_error me fr stack tb only msg arg halt nname)
  | made_remote d e : constructor d = Ok e → made e.

(** An error survives being sent: whether it was raised here or received from
    elsewhere, what a receiver constructs from its mapping is the same error;
    its stack trace, normalised once, does not change however often it
    travels. *)
Theorem error_roundtrip (e : defw_error) : made e → constructor (representer e) = Ok e.
Proof.
  intros [me fr stack tb only msg arg halt nname | d e' Hd]; apply sent_and_received.
  - apply normalize_entries_normalized.
  - by eapply received_normalized.
Qed.

(** ** Examples *)

Definition demo_frame : frame := Frame (VStr "a.py") (VInt 7) (VStr "run") VNone (VInt 0).
Definition demo_error : defw_error :=
  new_defw_error (VStr "node1") demo_frame
    ["dropped"; "also dropped"] [("  File a.py, line 7" ++ nl ++ "    x()" ++ nl)%string] ["ValueError: no"]
    (VStr "failed") VNone (VBool false) (VStr "").

Example demo_error_text :
  error_lines demo_error =
  ["DEFwError:"; "  node-name: node1"; "  msg: failed"; "  arg: None"; "  file name: a.py";
   "  line number: 7"; "  function: run"; "  stacktrace:"; "      File a.py, line 7"; "        x()";
   "    ValueError: no"].
Proof. vm_compute. reflexivity. Qed.

Example demo_result_text :
  splitlines (result_str py_fmt
    [("status", VStr "FAIL"); ("error", VStr ("a" ++ nl ++ "b")); ("args", VList [VInt 1; VDict [("k", VNone)]])]) =
  map String.list_ascii_of_string
    ["status: FAIL"; "error: |"; "  a"; "  b"; "args:"; "  - 1"; "  -"; "    k: None"].
Proof. vm_compute. reflexivity. Qed.

Lemma error_roundtrip_witness : constructor (representer demo_error) = Ok demo_error.
Proof. apply (error_roundtrip demo_error). constructor. Defined.
