(* ===== verification/Session.v ===== *)
(** * A client and a service process, end to end
    ([python/experiments/suite_framework])

    The self-test experiments run in one process and talk to a service in
    another.  [session] is both: the client's host, the server's registry with
    the test services behind the RPC handler, and the handles and request
    uuids the client has drawn.  [remote_call] composes the client and the
    server side of an RPC: the request is populated, handled on the server, and
    the reply is accepted by the caller.  An experiment is the body of its
    [run], the clean-up of its [finally] included; spawning a service gives a
    server with nothing in it, and resolving its name gives the binding the
    service advertises. *)

From S2P Require Import Prelude PyDict PyVal Agent Threads Registry RegistryFacts Metrics Trace Rpc RpcFacts TestServices Connect Exceptions.

Local Open Scope string_scope.
Local Open Scope Z_scope.
Local Open Scope list_scope.
Import PyNotations.
Local Open Scope py_scope.

Section Session.
Context {T T' : Type}.
Local Abbreviation W := (host svc_state T).
Local Abbreviation St := (registry W).
(** The service process. *)
Context (uuid4 : nat → string) (format_tb : pyexc → string) (h : hooks T) (server_ep : Endpoint).
Context (nobody : instance) (transport_rc : rpc_rsp → Z).
(** The experiment's process. *)
Context (uuid1 : nat → string) (h' : hooks T') (client_ep : Endpoint) (blk : val).
Context (uuid_compare : val → val → bool).

Record session := Session {
  client : host unit T';
  server : St;
  handles : nat;
  requests : nat
}.

Local Abbreviation serve :=
  (handle_rpc_req (import_module uuid4) (TestServices.invoke None server_ep) uuid_compare format_tb h
     server_ep nobody transport_rc).

(** The reply to request [uuid], as the worker finds it. *)
Definition reply_to (uuid : nat) (r : St) : awaited :=
  match last (outbox (world r)) with
  | Some (_, rsp) => if Nat.eqb (rsp_uuid rsp) uuid then AwResponse rsp else AwNone
  | None => AwNone
  end.

(** [Agent.send_req] to the service process and back. *)
Definition remote_call (ty module cname mname class_id : string) (args : list val)
    (kwargs : pydict) : M session val :=
  λ s, match populate_rpc_req h' client_ep server_ep ty module cname mname class_id args kwargs
               (requests s) (client s) with
       | (w1, Raise e) => (Session w1 (server s) (handles s) (S (requests s)), Raise e)
       | (_, Ok y) =>
           let r' := (run (serve y blk) (server s)).1 in
           let '(w2, o) := send_req uuid_compare h' (λ _, ret (reply_to (requests s) r'))
                             (requests s) client_ep server_ep ty module cname mname class_id args
                             kwargs (client s) in
           (Session w2 r' (handles s) (S (requests s)), o)
       end.

(** A proxy: the module and class it is bound to and its handle. *)
Record api := Api { api_module : string; api_class : string; api_handle : string }.

(** [BaseRemote.__init__] of a new proxy *)
Definition connect (module cname : string) : M session api :=
  let! s := get in
  let id := uuid1 (handles s) in
  modify (λ s, Session (client s) (server s) (S (handles s)) (requests s)) ;;;
  let! _ := remote_call "instantiate_class" module cname "__init__" id [] [] in
  ret (Api module cname id).

(** A method of the proxy *)
Definition call_api (a : api) (mname : string) : M session val :=
  remote_call "method_call" (api_module a) (api_class a) mname (api_handle a) [] [].

(** The binding [defw_connect_service_by_name] resolves, by service name. *)
Definition service_binding (name : string) : string * string :=
  if String.eqb name "TestCounter" then (COUNTER_MODULE, name) else (ECHO_MODULE, name).

Definition connect_by_name (name : string) : M session api :=
  connect (service_binding name).1 (service_binding name).2.

(** [if api is not None: try: api.shutdown() except Exception: pass] *)
Definition shutdown_api (a : option api) : M session unit :=
  match a with
  | Some a => try_with (call_api a "shutdown" ;;; ret tt) (λ _, ret tt)
  | None => ret tt
  end.

(** ** The experiments *)

(** The locals [first] and [second] of an experiment, with the session. *)
Record locals := Locals { ses : session; first : option api; second : option api }.

Definition on_session {A} (m : M session A) : M locals A :=
  λ l, let '(s', o) := m (ses l) in (Locals s' (first l) (second l), o).
Definition set_first (a : api) : M locals unit := modify (λ l, Locals (ses l) (Some a) (second l)).
Definition set_second (a : api) : M locals unit := modify (λ l, Locals (ses l) (first l) (Some a)).

Definition PASS : Z := 0.
Definition FAIL : Z := -1.

(** [for api in (first, second): ...] *)
Definition shutdown_both : M locals unit :=
  let! l := get in
  on_session (shutdown_api (first l)) ;;;
  let! l := get in
  on_session (shutdown_api (second l)).

(** The part two experiments share: two connections and their instance ids. *)
Definition connect_both (name : string) : M locals (val * val * api) :=
  let! a := on_session (connect_by_name name) in
  set_first a ;;;
  let! b := on_session (connect_by_name name) in
  set_second b ;;;
  let! first_id := on_session (call_api a "get_instance_id") in
  let! second_id := on_session (call_api b "get_instance_id") in
  ret (first_id, second_id, b).

(** [exp_singleton_identity.run] *)
Definition exp_singleton_identity : M locals pydict :=
  finally
    (let! (first_id, second_id, b) := connect_both "TestCounter" in
     let! final_count := on_session (call_api b "increment") in
     ret (defwrc (if py_eqb first_id second_id then PASS else FAIL) []
            [("first_instance_id", first_id); ("second_instance_id", second_id);
             ("count_after_increment", final_count)]))
    shutdown_both.

(** [exp_per_connection_identity.run] *)
Definition exp_per_connection_identity : M locals pydict :=
  finally
    (let! (first_id, second_id, _) := connect_both "TestEcho" in
     ret (defwrc (if negb (py_eqb first_id second_id) then PASS else FAIL) []
            [("first_instance_id", first_id); ("second_instance_id", second_id)]))
    shutdown_both.

(** [exp_singleton_shutdown_recreate.run] *)
Definition exp_singleton_shutdown_recreate : M locals pydict :=
  finally
    (let! a := on_session (connect_by_name "TestCounter") in
     set_first a ;;;
     let! first_id := on_session (call_api a "get_instance_id") in
     on_session (call_api a "shutdown") ;;;
     let! b := on_session (connect_by_name "TestCounter") in
     set_second b ;;;
     let! second_id := on_session (call_api b "get_instance_id") in
     ret (defwrc (if negb (py_eqb first_id second_id) then PASS else FAIL) []
            [("first_instance_id", first_id); ("second_instance_id", second_id)]))
    (let! l := get in on_session (shutdown_api (second l))).

(** [exp_intentional_failure.run] *)
Definition exp_intentional_failure : pydict :=
  defwrc FAIL [] [("msg", VStr "intentional failure for defw_test_runner status handling")].

(** [exp_remote_exception_format.run]: [render] is [str] of an exception and
    [type_name] the name of its class. *)
Definition escaped_newline : string := String (Ascii.ascii_of_nat 92) "n".
Definition exp_remote_exception_format (render : pyexc → string) (type_name : exc_class → string) :
    M locals pydict :=
  finally
    (let! echo := on_session (connect_by_name "TestEcho") in
     set_first echo ;;;
     try_with
       (on_session (call_api echo "raise_error") ;;;
        ret (defwrc FAIL [] [("msg", VStr "remote exception was not raised")]))
       (λ exc,
          let rendered := render exc in
          let has_real_newlines := str_contains (String newline EmptyString) rendered in
          let has_escaped_newlines := str_contains escaped_newline rendered in
          ret (defwrc (if has_real_newlines && negb has_escaped_newlines then PASS else FAIL) []
                 [("has_real_newlines", VBool has_real_newlines);
                  ("has_escaped_newlines", VBool has_escaped_newlines);
                  ("exception_type", VStr (type_name (exc_type exc)));
                  ("rendered_exception", VStr rendered)])))
    (let! l := get in on_session (shutdown_api (first l))).

(** What [defw_spawn_services] gives: the service process with nothing in it. *)
Definition spawned (c : host unit T') (w : W) : locals :=
  Locals (Session c (Reg [] [] [] 0 (set_svc init_svc w)) 0 0) None None.
End Session.
