(* ===== verification/SessionFacts.v ===== *)
(** * The self-test experiments pass

    What an RPC does to the state of the service process, request by request,
    and from it the verdicts of the experiments. *)

From stdpp Require Import pretty.
From S2P Require Import Prelude PyDict PyVal Agent Threads Registry RegistryFacts Metrics Trace Rpc RpcFacts TestServices Connect Exceptions Session.

Local Open Scope string_scope.
Local Open Scope Z_scope.
Local Open Scope list_scope.
Import PyNotations.
Local Open Scope py_scope.

Section SessionFacts.
Context {T T' : Type}.
Local Abbreviation W := (host svc_state T).
Local Abbreviation St := (registry W).
Context (uuid4 : nat → string) (format_tb : pyexc → string) (h : hooks T) (server_ep : Endpoint).
Context (nobody : instance) (transport_rc : rpc_rsp → Z).
Context (uuid1 : nat → string) (h' : hooks T') (client_ep : Endpoint) (blk : val).
Context (uuid_compare : val → val → bool).

Local Abbreviation call :=
  (remote_call uuid4 format_tb h server_ep nobody transport_rc h' client_ep blk uuid_compare).
Local Abbreviation dispatch :=
  (dispatch (T := T) (import_module uuid4) (TestServices.invoke None server_ep) server_ep nobody).

(** Both processes know their own identity. *)
Definition identities_ok : Prop :=
  endpoint_eq uuid_compare client_ep client_ep = true ∧
  endpoint_eq uuid_compare server_ep server_ep = true ∧ is_dirsvc server_ep = false.

Lemma dispatch_start_core y (r : St) : core (dispatch_start h y r) = core r.
Proof.
  unfold dispatch_start, core, on_world, on_tracing, on_metrics, modify. simpl.
  by destruct (attach h (req_carrier y) (tracing (world r))) as [t o].
Qed.

(** A remote call is the dispatch on the server: on any state with the same
    registry and services, a dispatch that gives the outcome [o] and leaves
    the core [c] makes the call give [o] and leave [c]. *)
Lemma remote_call_dispatch ty module cname mname id args kwargs (m : pymodule W)
    (s : session (T := T) (T' := T')) c o :
  identities_ok → known_type ty = true → import_module uuid4 module = Ok m → mname ≠ "" →
  (∀ y r, core r = core (server s) → req_type y = ty → req_module y = module → req_class y = cname →
     req_method y = mname → req_class_id y = id → req_args y = args → req_kwargs y = kwargs →
     core (run (dispatch m y) r).1 = c ∧ (run (dispatch m y) r).2 = o) →
  ∃ s', call ty module cname mname id args kwargs s = (s', transported format_tb o) ∧
        core (server s') = c ∧ handles s' = handles s.
Proof.
  intros (Hc & Hs & _) Hty Hm Hn Hd.
  destruct (exchange_ok (import_module uuid4) (TestServices.invoke None server_ep) uuid_compare format_tb h
              server_ep nobody transport_rc h' client_ep (client s) ty module cname mname id args kwargs
              (requests s) blk m (server s) Hc Hs Hty Hm Hn)
    as (y & w1 & Hp & (H1 & H2 & H3 & H4 & _ & H5 & H6 & H7) & H).
  specialize (Hd y (dispatch_start h y (server s)) (dispatch_start_core y _) H1 H2 H3 H4 H5 H6 H7).
  destruct (run (dispatch m y) _) as [r1 o']. destruct Hd as [Hcore Ho]. simpl in Hcore, Ho. subst o'.
  destruct H as (r' & rsp & rc & Hrun & Hlast & Hu & Hcore' & Hsend).
  unfold remote_call. rewrite Hp, Hrun. simpl. unfold reply_to. rewrite Hlast, Hu, Nat.eqb_refl.
  destruct (send_req _ _ _ _ _ _ _ _ _ _ _ _ _ _) as [w2 o2]. simpl in Hsend. subst.
  eexists. split; [reflexivity|]. done.
Qed.

(** ** What the requests do *)

Definition KEY : string := get_singleton_key COUNTER_MODULE "TestCounter".

Lemma core_eq (r : St) cd sd ad n s :
  core r = (cd, sd, ad, n, s) →
  ∃ w, r = Reg cd sd ad n w ∧ svc w = s.
Proof. destruct r as [? ? ? ? w]. unfold core. simpl. intros [= -> -> -> -> <-]. eauto. Qed.

Definition core_state : Type :=
  odict string instance * odict string instance * odict string string * nat * svc_state.

(** A new object of the counter, or of the echo. *)
Definition new_counter (n : nat) (st : svc_state) : svc_state :=
  SvcState (S (drawn st)) (dset (instance_ids st) n (uuid4 (drawn st))) (dset (counts st) n 0).
Definition new_echo (n : nat) (st : svc_state) : svc_state :=
  SvcState (S (drawn st)) (dset (instance_ids st) n (uuid4 (drawn st))) (counts st).

(** A counter connection finds the counter or creates it; an echo connection
    creates an object. *)
Definition counter_connected (id : string) (c : core_state) : core_state :=
  let '(cd, sd, ad, n, st) := c in
  match dget sd KEY with
  | Some i => (dset cd id i, sd, dset ad id KEY, n, st)
  | None => let i := Instance n COUNTER_MODULE "TestCounter" in
            (dset cd id i, dset sd KEY i, dset ad id KEY, S n, new_counter n st)
  end.
Definition echo_connected (id : string) (c : core_state) : core_state :=
  let '(cd, sd, ad, n, st) := c in
  (dset cd id (Instance n ECHO_MODULE "TestEcho"), sd, ad, S n, new_echo n st).

Definition handle_free (id : string) (c : core_state) : Prop := dget c.1.1.1.1 id = None.

Ltac start_dispatch Hr :=
  let w := fresh "w" in let Hw := fresh "Hw" in
  apply core_eq in Hr as (w & -> & Hw);
  unfold Rpc.dispatch;
  repeat match goal with H : req_type _ = _ |- _ => rewrite H; clear H
    | H : req_module _ = _ |- _ => rewrite H; clear H | H : req_class _ = _ |- _ => rewrite H; clear H
    | H : req_method _ = _ |- _ => rewrite H; clear H | H : req_class_id _ = _ |- _ => rewrite H; clear H
    | H : req_args _ = _ |- _ => rewrite H; clear H | H : req_kwargs _ = _ |- _ => rewrite H; clear H end.

Lemma connect_counter (s : session (T := T) (T' := T')) id :
  identities_ok → handle_free id (core (server s)) →
  ∃ s', call "instantiate_class" COUNTER_MODULE "TestCounter" "__init__" id [] [] s = (s', Ok no_result) ∧
    core (server s') = counter_connected id (core (server s)) ∧ handles s' = handles s.
Proof.
  intros Hok Hid. pose proof Hok as (_ & _ & Hdir).
  eapply (remote_call_dispatch _ _ _ _ _ _ _ _ _ _ (Ok no_result)); [done | done | done | done|].
  intros y r Hr H1 H2 H3 H4 H5 H6 H7. destruct (core (server s)) as [[[[cd sd] ad] n] st].
  unfold handle_free in Hid. simpl in Hid. start_dispatch Hr. unfold instantiate_class. rewrite Hdir. simpl.
  unfold get_or_create_singleton_instance, bind, get. simpl. fold KEY.
  destruct (dget sd KEY) as [i|]; simpl; unfold dmem; rewrite Hid; simpl;
    unfold bind_singleton_alias, bind, get, modify, dmem; simpl; rewrite Hid; simpl; unfold core; simpl; by subst.
Qed.

Lemma connect_echo (s : session (T := T) (T' := T')) id :
  identities_ok → handle_free id (core (server s)) →
  ∃ s', call "instantiate_class" ECHO_MODULE "TestEcho" "__init__" id [] [] s = (s', Ok no_result) ∧
    core (server s') = echo_connected id (core (server s)) ∧ handles s' = handles s.
Proof.
  intros Hok Hid. pose proof Hok as (_ & _ & Hdir).
  eapply (remote_call_dispatch _ _ _ _ _ _ _ _ _ _ (Ok no_result)); [done | done | done | done|].
  intros y r Hr H1 H2 H3 H4 H5 H6 H7. destruct (core (server s)) as [[[[cd sd] ad] n] st].
  unfold handle_free in Hid. simpl in Hid. start_dispatch Hr. unfold instantiate_class. rewrite Hdir. simpl.
  unfold get_class_from_db, bind, get. simpl. rewrite Hid. simpl.
  unfold add_to_class_db, bind, get, modify, dmem. simpl. rewrite Hid. simpl. unfold core. simpl. by subst.
Qed.

(** The methods, on a handle that is bound. *)
Lemma call_get_instance_id (s : session (T := T) (T' := T')) module m cname id cd sd ad n st i u :
  identities_ok → import_module (T := T) uuid4 module = Ok m → core (server s) = (cd, sd, ad, n, st) →
  dget cd id = Some i → inst_class i = cname → dget (instance_ids st) (inst_id i) = Some u →
  ∃ s', call "method_call" module cname "get_instance_id" id [] [] s = (s', Ok (VStr u)) ∧
    core (server s') = core (server s) ∧ handles s' = handles s.
Proof.
  intros Hok Hm Hcore Hid Hcn Hu.
  eapply (remote_call_dispatch _ _ _ _ _ _ _ _ _ _ (Ok (VStr u))); [done | done | done | done|].
  intros y r Hr H1 H2 H3 H4 H5 H6 H7. rewrite Hcore in *. start_dispatch Hr.
  unfold method_call, get_class_from_db, bind, get. simpl. rewrite Hid. simpl. subst cname.
  rewrite String.eqb_refl. simpl. unfold on_svc, on_world, get_instance_id, bind, get. simpl. subst.
  rewrite Hu. done.
Qed.

Lemma call_increment (s : session (T := T) (T' := T')) id cd sd ad n st i k :
  identities_ok → core (server s) = (cd, sd, ad, n, st) →
  dget cd id = Some i → inst_class i = "TestCounter" → dget (counts st) (inst_id i) = Some k →
  ∃ s', call "method_call" COUNTER_MODULE "TestCounter" "increment" id [] [] s = (s', Ok (VInt (k + 1))) ∧
    core (server s') =
      (cd, sd, ad, n, SvcState (drawn st) (instance_ids st) (dset (counts st) (inst_id i) (k + 1))) ∧
    handles s' = handles s.
Proof.
  intros Hok Hcore Hid Hcn Hu.
  eapply (remote_call_dispatch _ _ _ _ _ _ _ _ _ _ (Ok (VInt (k + 1)))); [done | done | done | done|].
  intros y r Hr H1 H2 H3 H4 H5 H6 H7. rewrite Hcore in *. start_dispatch Hr.
  unfold method_call, get_class_from_db, bind, get. simpl. rewrite Hid. simpl. unfold TestServices.invoke. rewrite Hcn. simpl.
  unfold on_svc, on_world, increment, read_count, bind, get. simpl. subst. rewrite Hu. done.
Qed.

Lemma call_shutdown (s : session (T := T) (T' := T')) id cd sd ad n st i :
  identities_ok → core (server s) = (cd, sd, ad, n, st) →
  dget cd id = Some i → inst_class i = "TestCounter" → inst_module i = COUNTER_MODULE →
  ∃ s', call "method_call" COUNTER_MODULE "TestCounter" "shutdown" id [] [] s = (s', Ok (VBool true)) ∧
    core (server s') =
      (ddrop (aliases_of KEY ad) cd, ddel sd KEY, ddrop (aliases_of KEY ad) ad, n, st) ∧
    handles s' = handles s.
Proof.
  intros Hok Hcore Hid Hcn Hmod.
  eapply (remote_call_dispatch _ _ _ _ _ _ _ _ _ _ (Ok (VBool true))); [done | done | done | done|].
  intros y r Hr H1 H2 H3 H4 H5 H6 H7. rewrite Hcore in *. start_dispatch Hr.
  unfold method_call, get_class_from_db, bind, get. simpl. rewrite Hid. simpl. rewrite Hcn. simpl.
  rewrite Hmod, Hcn, evict_run. simpl. unfold core. simpl. by subst.
Qed.

Lemma call_raise_error (s : session (T := T) (T' := T')) id cd sd ad n st i :
  identities_ok → core (server s) = (cd, sd, ad, n, st) →
  dget cd id = Some i → inst_class i = "TestEcho" →
  ∃ s', call "method_call" ECHO_MODULE "TestEcho" "raise_error" id [] [] s =
        (s', Raise (Exc EDEFwError "intentional self-test error")).
Proof.
  intros Hok Hcore Hid Hcn.
  enough (∃ s', call "method_call" ECHO_MODULE "TestEcho" "raise_error" id [] [] s =
            (s', transported format_tb (Raise (Exc EDEFwError "intentional self-test error"))) ∧
          core (server s') = (cd, sd, ad, n, st) ∧ handles s' = handles s) as (s' & E & _) by (by exists s').
  eapply remote_call_dispatch; [done | done | done | done|].
  intros y r Hr H1 H2 H3 H4 H5 H6 H7. rewrite Hcore in *. start_dispatch Hr.
  unfold method_call, get_class_from_db, bind, get. simpl. rewrite Hid. simpl. unfold TestServices.invoke. rewrite Hcn. simpl.
  unfold core. simpl. by subst.
Qed.

(** ** Proxies *)

Local Abbreviation ses_t := (session (T := T) (T' := T')).
Local Abbreviation new_api :=
  (connect uuid4 format_tb h server_ep nobody transport_rc uuid1 h' client_ep blk uuid_compare).
Local Abbreviation method :=
  (call_api uuid4 format_tb h server_ep nobody transport_rc h' client_ep blk uuid_compare).

(** The session after the next handle has been drawn. *)
Definition drew (s : ses_t) : ses_t := Session (client s) (server s) (S (handles s)) (requests s).

Lemma new_counter_api (s : ses_t) :
  identities_ok → handle_free (uuid1 (handles s)) (core (server s)) →
  ∃ s', new_api COUNTER_MODULE "TestCounter" s =
          (s', Ok (Api COUNTER_MODULE "TestCounter" (uuid1 (handles s)))) ∧
    core (server s') = counter_connected (uuid1 (handles s)) (core (server s)) ∧
    handles s' = S (handles s).
Proof.
  intros Hok Hid. destruct (connect_counter (drew s) (uuid1 (handles s)) Hok Hid) as (s' & E & Hc & Hh).
  exists s'. split_and!; [|exact Hc | exact Hh].
  unfold connect, bind, get, modify, ret. fold (drew s). by rewrite E.
Qed.

Lemma new_echo_api (s : ses_t) :
  identities_ok → handle_free (uuid1 (handles s)) (core (server s)) →
  ∃ s', new_api ECHO_MODULE "TestEcho" s =
          (s', Ok (Api ECHO_MODULE "TestEcho" (uuid1 (handles s)))) ∧
    core (server s') = echo_connected (uuid1 (handles s)) (core (server s)) ∧
    handles s' = S (handles s).
Proof.
  intros Hok Hid. destruct (connect_echo (drew s) (uuid1 (handles s)) Hok Hid) as (s' & E & Hc & Hh).
  exists s'. split_and!; [|exact Hc | exact Hh].
  unfold connect, bind, get, modify, ret. fold (drew s). by rewrite E.
Qed.

(** A step of an experiment whose remote part is known. *)
Lemma session_step {A B} (m : M ses_t A) (k : A → M locals B) (l : locals) s' a :
  m (ses l) = (s', Ok a) → bind (on_session m) k l = k a (Locals s' (first l) (second l)).
Proof. intros E. unfold bind, on_session. by rewrite E. Qed.

Local Abbreviation close :=
  (shutdown_api uuid4 format_tb h server_ep nobody transport_rc h' client_ep blk uuid_compare).

(** The clean-up never raises. *)
Lemma close_ok a (s : ses_t) : ∃ s', close a s = (s', Ok tt).
Proof.
  destruct a as [a|]; [|by exists s]. unfold shutdown_api, try_with.
  destruct (bind _ _ s) as [s' [[]|e]]; by exists s'.
Qed.

Lemma close_both_ok l :
  ∃ l', shutdown_both uuid4 format_tb h server_ep nobody transport_rc h' client_ep blk uuid_compare l =
        (l', Ok tt).
Proof.
  unfold shutdown_both, bind at 1, get.
  destruct (close_ok (first l) (ses l)) as [s1 E1]. erewrite session_step by exact E1.
  unfold bind. simpl. unfold on_session. simpl.
  destruct (close_ok (second l) s1) as [s2 ->]. eauto.
Qed.

Lemma finally_ok {A} (m : M (locals (T := T) (T' := T')) A) (f : M locals unit) l l1 a :
  m l = (l1, Ok a) → (∃ l2, f l1 = (l2, Ok tt)) → (finally m f l).2 = Ok a.
Proof. intros E [l2 Ef]. unfold finally. by rewrite E, Ef. Qed.

(** ** The experiments *)

Local Abbreviation singleton_identity :=
  (exp_singleton_identity uuid4 format_tb h server_ep nobody transport_rc uuid1 h' client_ep blk uuid_compare).
Local Abbreviation per_connection_identity :=
  (exp_per_connection_identity uuid4 format_tb h server_ep nobody transport_rc uuid1 h' client_ep blk uuid_compare).
Local Abbreviation shutdown_recreate :=
  (exp_singleton_shutdown_recreate uuid4 format_tb h server_ep nobody transport_rc uuid1 h' client_ep blk uuid_compare).
Local Abbreviation both :=
  (connect_both uuid4 format_tb h server_ep nobody transport_rc uuid1 h' client_ep blk uuid_compare).

Lemma decide_refl {A} `{EqDecision A} {B} (x : A) (a b : B) : (if decide (x = x) then a else b) = a.
Proof. by destruct (decide (x = x)). Qed.

Lemma decide_ne {A} `{EqDecision A} {B} (x y : A) (a b : B) : x ≠ y → (if decide (x = y) then a else b) = b.
Proof. by destruct (decide (x = y)). Qed.

Context (Hids : identities_ok).
Context (Huuid1 : ∀ a b, uuid1 a = uuid1 b → a = b) (Huuid4 : ∀ a b, uuid4 a = uuid4 b → a = b).

Lemma handles_differ : uuid1 1 ≠ uuid1 0.
Proof. by intros H%Huuid1. Qed.

Lemma ids_differ : uuid4 0 ≠ uuid4 1.
Proof. by intros H%Huuid4. Qed.

(** Two connections to the counter, in a service process that just started. *)
Lemma both_counter c w :
  ∃ s b, both "TestCounter" (spawned c w) =
         (Locals s (Some (Api COUNTER_MODULE "TestCounter" (uuid1 0)))
            (Some (Api COUNTER_MODULE "TestCounter" (uuid1 1))), Ok (VStr (uuid4 0), VStr (uuid4 0), b)) ∧
    b = Api COUNTER_MODULE "TestCounter" (uuid1 1) ∧
    core (server s) =
      ([(uuid1 0, Instance 0 COUNTER_MODULE "TestCounter"); (uuid1 1, Instance 0 COUNTER_MODULE "TestCounter")],
       [(KEY, Instance 0 COUNTER_MODULE "TestCounter")], [(uuid1 0, KEY); (uuid1 1, KEY)], 1%nat,
       SvcState 1 [(0%nat, uuid4 0)] [(0%nat, 0)]).
Proof.
  unfold connect_both, spawned.
  destruct (new_counter_api (Session c (Reg [] [] [] 0 (set_svc init_svc w)) 0 0) Hids eq_refl)
    as (s1 & E1 & C1 & H1).
  erewrite session_step by exact E1. simpl in C1, H1.
  unfold set_first, bind at 1, modify.
  destruct (new_counter_api s1 Hids) as (s2 & E2 & C2 & H2).
  { rewrite H1, C1. unfold handle_free. simpl. by rewrite decide_ne by apply handles_differ. }
  erewrite session_step by exact E2. rewrite H1, C1 in *. simpl in C2. rewrite !decide_ne in C2 by apply handles_differ.
  unfold set_second, bind at 1, modify. simpl.
  destruct (call_get_instance_id s2 COUNTER_MODULE _ "TestCounter" (uuid1 0) _ _ _ _ _ (Instance 0 COUNTER_MODULE "TestCounter") (uuid4 0)
              Hids eq_refl C2) as (s3 & E3 & C3 & _);
    [simpl; by rewrite decide_refl | done | done|].
  erewrite session_step by exact E3. rewrite C2 in C3. simpl.
  destruct (call_get_instance_id s3 COUNTER_MODULE _ "TestCounter" (uuid1 1) _ _ _ _ _ (Instance 0 COUNTER_MODULE "TestCounter") (uuid4 0)
              Hids eq_refl C3) as (s4 & E4 & C4 & _);
    [simpl; rewrite decide_ne by apply handles_differ; by rewrite decide_refl | done | done|].
  erewrite session_step by exact E4. rewrite C3 in C4.
  eexists s4, _. split_and!; [reflexivity | done | exact C4].
Qed.

Lemma singleton_identity_passes c w :
  (singleton_identity (spawned c w)).2 =
  Ok (defwrc PASS [] [("first_instance_id", VStr (uuid4 0)); ("second_instance_id", VStr (uuid4 0));
                      ("count_after_increment", VInt 1)]).
Proof.
  destruct (both_counter c w) as (s & b & E & -> & C).
  destruct (call_increment s (uuid1 1) _ _ _ _ _ (Instance 0 COUNTER_MODULE "TestCounter") 0 Hids C) as (s' & E' & _ & _);
    [simpl; rewrite decide_ne by apply handles_differ; by rewrite decide_refl | done | done|].
  eapply finally_ok; [|apply close_both_ok]. unfold bind at 1. rewrite E.
  erewrite session_step by exact E'. unfold ret. simpl. by rewrite String.eqb_refl.
Qed.

(** Two connections to the echo. *)
Lemma per_connection_identity_passes c w :
  (per_connection_identity (spawned c w)).2 =
  Ok (defwrc PASS [] [("first_instance_id", VStr (uuid4 0)); ("second_instance_id", VStr (uuid4 1))]).
Proof.
  unfold exp_per_connection_identity, connect_both, spawned.
  destruct (new_echo_api (Session c (Reg [] [] [] 0 (set_svc init_svc w)) 0 0) Hids eq_refl)
    as (s1 & E1 & C1 & H1).
  simpl in C1, H1. destruct (new_echo_api s1 Hids) as (s2 & E2 & C2 & H2).
  { rewrite H1, C1. unfold handle_free. simpl. by rewrite decide_ne by apply handles_differ. }
  rewrite H1, C1 in *. simpl in C2. rewrite !decide_ne in C2 by apply handles_differ.
  destruct (call_get_instance_id s2 ECHO_MODULE _ "TestEcho" (uuid1 0) _ _ _ _ _ (Instance 0 ECHO_MODULE "TestEcho") (uuid4 0)
              Hids eq_refl C2) as (s3 & E3 & C3 & _);
    [simpl; by rewrite decide_refl | done | done|].
  rewrite C2 in C3.
  destruct (call_get_instance_id s3 ECHO_MODULE _ "TestEcho" (uuid1 1) _ _ _ _ _ (Instance 1 ECHO_MODULE "TestEcho") (uuid4 1)
              Hids eq_refl C3) as (s4 & E4 & C4 & _);
    [simpl; rewrite decide_ne by apply handles_differ; by rewrite decide_refl | done | done|].
  eapply finally_ok; [|apply close_both_ok]. unfold bind at 1.
  erewrite session_step by exact E1. unfold set_first, bind at 1, modify.
  erewrite session_step by exact E2. unfold set_second, bind at 1, modify.
  erewrite session_step by exact E3. erewrite session_step by exact E4. unfold ret. simpl.
  destruct (String.eqb_spec (uuid4 0) (uuid4 1)) as [He|_]; [by destruct ids_differ | done].
Qed.

(** A counter shut down and connected to again. *)
Lemma shutdown_recreate_passes c w :
  (shutdown_recreate (spawned c w)).2 =
  Ok (defwrc PASS [] [("first_instance_id", VStr (uuid4 0)); ("second_instance_id", VStr (uuid4 1))]).
Proof.
  unfold exp_singleton_shutdown_recreate, spawned.
  destruct (new_counter_api (Session c (Reg [] [] [] 0 (set_svc init_svc w)) 0 0) Hids eq_refl)
    as (s1 & E1 & C1 & H1). simpl in C1, H1.
  destruct (call_get_instance_id s1 COUNTER_MODULE _ "TestCounter" (uuid1 0) _ _ _ _ _ (Instance 0 COUNTER_MODULE "TestCounter") (uuid4 0)
              Hids eq_refl C1) as (s2 & E2 & C2 & H2);
    [simpl; by rewrite decide_refl | done | done|]. rewrite C1 in C2.
  destruct (call_shutdown s2 (uuid1 0) _ _ _ _ _ (Instance 0 COUNTER_MODULE "TestCounter") Hids C2)
    as (s3 & E3 & C3 & H3); [simpl; by rewrite decide_refl | done | done|].
  assert (core (server s3) = ([], [], [], 1%nat, new_counter 0 init_svc)) as C3'.
  { rewrite C3. unfold aliases_of. cbn [List.filter snd]. rewrite String.eqb_refl. simpl.
    rewrite !bool_decide_true by (by left). done. }
  destruct (new_counter_api s3 Hids) as (s4 & E4 & C4 & H4); [by rewrite C3'|].
  rewrite C3' in C4. simpl in C4. rewrite H3, H2, H1 in *.
  destruct (call_get_instance_id s4 COUNTER_MODULE _ "TestCounter" (uuid1 1) _ _ _ _ _ (Instance 1 COUNTER_MODULE "TestCounter") (uuid4 1)
              Hids eq_refl C4) as (s5 & E5 & C5 & _);
    [simpl; by rewrite decide_refl | done | done|].
  eapply finally_ok.
  - erewrite session_step by exact E1. unfold set_first, bind at 1, modify.
    erewrite session_step by exact E2. erewrite session_step by exact E3.
    erewrite session_step by exact E4. unfold set_second, bind at 1, modify.
    erewrite session_step by exact E5. unfold ret. simpl.
    destruct (String.eqb_spec (uuid4 0) (uuid4 1)) as [He|_]; [by destruct ids_differ | done].
  - unfold bind, get, on_session. cbn [ses second].
    destruct (close_ok (Some (Api COUNTER_MODULE "TestCounter" (uuid1 1))) s5) as [s6 ->]. eauto.
Qed.

(** The text of a DEFw error has more than one line. *)
Lemma substring_append (a t b : string) :
  String.substring (String.length a) (String.length t) (a +:+ (t +:+ b)) = t.
Proof.
  induction a as [|x a IH]; [|exact IH]. change ("" +:+ (t +:+ b)) with (t +:+ b).
  induction t as [|y t IH]; [by destruct b|]. exact (f_equal (String y) IH).
Qed.

Lemma contains_append (a t b : string) : t ≠ "" → str_contains t (a +:+ (t +:+ b)) = true.
Proof.
  intros Ht. unfold str_contains. destruct (String.index 0 t _) eqn:E; [done|].
  by destruct (String.index_correct3 _ (String.length a) _ _ E Ht (Nat.le_0_l _) (substring_append a t b)).
Qed.

Lemma error_str_lines err : str_contains (String newline EmptyString) (error_str err) = true.
Proof. apply (contains_append "DEFwError:" (String newline EmptyString)). done. Qed.

Local Abbreviation remote_exception_format :=
  (exp_remote_exception_format uuid4 format_tb h server_ep nobody transport_rc uuid1 h' client_ep blk uuid_compare).

(** The verdict on the text of a remote exception. *)
Lemma remote_exception_verdict c w render type_name err :
  render (Exc EDEFwError "intentional self-test error") = error_str err →
  str_contains escaped_newline (error_str err) = false →
  (remote_exception_format render type_name (spawned c w)).2 =
  Ok (defwrc PASS [] [("has_real_newlines", VBool true); ("has_escaped_newlines", VBool false);
                      ("exception_type", VStr (type_name EDEFwError)); ("rendered_exception", VStr (error_str err))]).
Proof.
  intros Hr He. unfold exp_remote_exception_format, spawned.
  destruct (new_echo_api (Session c (Reg [] [] [] 0 (set_svc init_svc w)) 0 0) Hids eq_refl)
    as (s1 & E1 & C1 & H1). simpl in C1.
  destruct (call_raise_error s1 (uuid1 0) _ _ _ _ _ (Instance 0 ECHO_MODULE "TestEcho") Hids C1)
    as (s2 & E2); [simpl; by rewrite decide_refl | done|].
  eapply finally_ok.
  - erewrite session_step by exact E1. unfold set_first, bind at 1, modify.
    unfold try_with, bind, on_session. cbn [ses]. unfold call_api. cbn [api_module api_class api_handle].
    cbn [handles]. rewrite E2. cbn [exc_type]. rewrite Hr, error_str_lines, He. reflexivity.
  - unfold bind, get, on_session. cbn [ses first].
    destruct (close_ok (Some (Api ECHO_MODULE "TestEcho" (uuid1 0))) s2) as [s3 ->]. eauto.
Qed.

End SessionFacts.

