(* ===== verification/Logging.v ===== *)
(** * Log levels and preferences ([python/infra/defw_common_def.py], 262-548)

    DEFw adds its own log levels between WARNING and ERROR, and selects what
    reaches the log file by a comma-separated text of level and group names.
    [settings] is the module's state: the registered levels and groups, the
    levels of the root logger and of the file handler with its filter, and the
    preferences.  [global_pref] starts as the very dict [GLOBAL_PREF_DEF], so
    that updating one updates the other: [own_pref = None] stands for that
    sharing. *)

From S2P Require Import Prelude PyDict PyVal.
From Stdlib Require Import Ascii.

Local Open Scope string_scope.
Local Open Scope Z_scope.
Local Open Scope list_scope.
Import PyNotations.
Local Open Scope py_scope.

Definition CRITICAL : Z := 50.
Definition DEFW_LOG_LEVEL_CORE : Z := 30.
Definition DEFW_LOG_LEVEL_WORKER : Z := 31.
Definition DEFW_LOG_LEVEL_SERVICE : Z := 32.
Definition DEFW_LOG_LEVEL_APP : Z := 33.
Definition DEFW_LOG_LEVEL_RPC : Z := 34.
Definition DEFW_LOG_LEVEL_STACKTRACE : Z := 35.

Record settings := Settings {
  custom_levels : odict string Z;
  custom_nos : list Z;
  groups : odict string (list Z);
  root_level : Z;
  file_level : Z;
  file_filter : option (list Z * list Z);
  default_pref : pydict;
  own_pref : option pydict
}.

Definition set_levels (root file : Z) (f : option (list Z * list Z)) (s : settings) : settings :=
  Settings (custom_levels s) (custom_nos s) (groups s) root file f (default_pref s) (own_pref s).

(** [global_pref] and the assignment [global_pref[k] = v]. *)
Definition global_pref (s : settings) : pydict := default (default_pref s) (own_pref s).
Definition pref_set (k : string) (v : val) (s : settings) : settings :=
  match own_pref s with
  | Some d => Settings (custom_levels s) (custom_nos s) (groups s) (root_level s) (file_level s)
                (file_filter s) (default_pref s) (Some (dset d k v))
  | None => Settings (custom_levels s) (custom_nos s) (groups s) (root_level s) (file_level s)
              (file_filter s) (dset (default_pref s) k v) None
  end.
Definition set_own (p : option pydict) (s : settings) : settings :=
  Settings (custom_levels s) (custom_nos s) (groups s) (root_level s) (file_level s)
    (file_filter s) (default_pref s) p.

(** ** Levels *)

(** [add_logging_level] *)
Definition add_logging_level (log_level : Z) (level_name : string) (s : settings) : settings :=
  Settings (dset (custom_levels s) (upper level_name) log_level)
    (if decide (log_level ∈ custom_nos s) then custom_nos s else custom_nos s ++ [log_level])
    (groups s) (root_level s) (file_level s) (file_filter s) (default_pref s) (own_pref s).

(** [add_logging_group] *)
Definition add_logging_group (group_name : string) (level_names : list string) (s : settings) :
    res settings :=
  let? nos := rmapM (λ n, match dget (custom_levels s) (upper n) with
                          | Some l => Ok l
                          | None => Raise (Exc EKeyError (upper n))
                          end) level_names in
  Ok (Settings (custom_levels s) (custom_nos s) (dset (groups s) (upper group_name) nos)
        (root_level s) (file_level s) (file_filter s) (default_pref s) (own_pref s)).

(** [setup_log_levels] *)
Definition setup_log_levels (s : settings) : res settings :=
  let s := add_logging_level DEFW_LOG_LEVEL_CORE "DEFW_CORE" s in
  let s := add_logging_level DEFW_LOG_LEVEL_WORKER "DEFW_WORKER" s in
  let s := add_logging_level DEFW_LOG_LEVEL_SERVICE "DEFW_SERVICE" s in
  let s := add_logging_level DEFW_LOG_LEVEL_APP "DEFW_APP" s in
  let s := add_logging_level DEFW_LOG_LEVEL_RPC "DEFW_RPC" s in
  let s := add_logging_level DEFW_LOG_LEVEL_STACKTRACE "DEFW_STACKTRACE" s in
  add_logging_group "DEFW_ALL"
    ["DEFW_CORE"; "DEFW_WORKER"; "DEFW_SERVICE"; "DEFW_APP"; "DEFW_RPC"; "DEFW_STACKTRACE"] s.

(** [getattr(logging, name)] for the upper-case level names. *)
Definition standard_levels : odict string Z :=
  [("CRITICAL", 50); ("FATAL", 50); ("ERROR", 40); ("WARNING", 30); ("WARN", 30); ("INFO", 20);
   ("DEBUG", 10); ("NOTSET", 0)].

(** The levels one token stands for. *)
Definition token_levels (s : settings) (name : string) : res (list Z) :=
  let name := upper name in
  match dget (groups s) name with
  | Some ls => Ok ls
  | None =>
      match dget (custom_levels s) name with
      | Some l => Ok [l]
      | None =>
          match dget standard_levels name with
          | Some l => Ok [l]
          | None => Raise (Exc EAttributeError ("module 'logging' has no attribute '" ++ name ++ "'"))
          end
      end
  end.

(** [if l not in seen: resolved.append(l)] *)
Definition add_unseen (resolved : list Z) (l : Z) : list Z :=
  if decide (l ∈ resolved) then resolved else resolved ++ [l].

Fixpoint resolve_tokens (s : settings) (tokens : list string) (resolved : list Z) : res (list Z) :=
  match tokens with
  | [] => Ok resolved
  | t :: ts =>
      let name := strip t in
      if String.eqb name "" then resolve_tokens s ts resolved
      else let? ls := token_levels s name in
           resolve_tokens s ts (fold_left add_unseen ls resolved)
  end.

(** [_resolve_log_levels] *)
Definition resolve_log_levels (s : settings) (level : val) : res (list Z) :=
  match level with
  | VInt n => Ok [n]
  | VBool b => Ok [b2z b]
  | VStr text =>
      let? resolved := resolve_tokens s (split_on "," "" text) [] in
      match resolved with
      | [] => Raise (Exc EValueError "At least one log level must be provided")
      | _ => Ok resolved
      end
  | _ => Raise (Exc EValueError ("Unsupported log level specification: " ++ py_fmt level))
  end.

(** [min] of a non-empty list *)
Definition min_of (d : Z) (l : list Z) : Z :=
  match l with [] => d | x :: l' => fold_left Z.min l' x end.

(** [set_logging_level_helper]: the file handler is the only one left. *)
Definition set_logging_level_helper (levelnos : list Z) (s : settings) : settings :=
  let standard := List.filter (λ n, negb (bool_decide (n ∈ custom_nos s))) levelnos in
  let custom := List.filter (λ n, bool_decide (n ∈ custom_nos s)) levelnos in
  let m := min_of CRITICAL levelnos in
  set_levels m m (match custom with [] => None | _ => Some (custom, standard) end) s.

(** [SelectedLevelsFilter.filter] *)
Definition filter_record (s : settings) (f : list Z * list Z) (levelno : Z) : bool :=
  if bool_decide (levelno ∈ f.1) then true
  else if bool_decide (levelno ∈ custom_nos s) then false
  else match f.2 with
       | [] => levelno =? CRITICAL
       | _ => min_of CRITICAL f.2 <=? levelno
       end.

(** Whether a record of that level reaches the log file: the root logger, the
    handler and the filter all let it through. *)
Definition written (s : settings) (levelno : Z) : bool :=
  (root_level s <=? levelno) && (file_level s <=? levelno) &&
  match file_filter s with None => true | Some f => filter_record s f levelno end.

(** ** Preferences *)

(** [set_logging_level(level, save=False)]: an error is only logged. *)
Definition apply_logging_level (level : val) (s : settings) : settings :=
  match resolve_log_levels s level with
  | Ok levels => set_logging_level_helper levels s
  | Raise _ => s
  end.

(** [save_pref] *)
Definition save_pref (s : settings) : res settings :=
  match dget (global_pref s) "py_loglevel" with
  | Some level => Ok (apply_logging_level level s)
  | None => Raise (Exc EKeyError "py_loglevel")
  end.

(** [set_logging_level] *)
Definition set_logging_level (level : val) (save : bool) (s : settings) : res settings :=
  if save then
    save_pref (match resolve_log_levels s level with
               | Ok levels => pref_set "py_loglevel" level (set_logging_level_helper levels s)
               | Raise _ => s
               end)
  else Ok (apply_logging_level level s).

(** The setters: each stores its preference and applies them all. *)
Definition set_editor (which : option string) (s : settings) : res settings :=
  save_pref (match which with Some p => pref_set "editor" (VStr p) s | None => s end).
Definition set_halt_on_exception (exc : val) (s : settings) : res settings :=
  match exc with
  | VBool _ => save_pref (pref_set "halt_on_exception" exc s)
  | _ => Ok (pref_set "halt_on_exception" (VBool false) s)
  end.
Definition set_rpc_timeout (timeout : val) (s : settings) : res settings :=
  save_pref (pref_set "RPC timeout" timeout s).
Definition set_debug_module_reload (enable : val) (s : settings) : res settings :=
  save_pref (pref_set "debug module reload" (VBool (truthy enable)) s).
Definition set_cmd_verbosity (value : string) (s : settings) : res settings :=
  save_pref (pref_set "cmd verbosity" (VBool (String.eqb (upper value) "ON")) s).

(** The getters. *)
Definition get_pref (k : string) (s : settings) : res val := vindex (global_pref s) k.
Definition get_rpc_timeout : settings → res val := get_pref "RPC timeout".
Definition get_debug_module_reload : settings → res val := get_pref "debug module reload".
Definition is_cmd_verbosity : settings → res val := get_pref "cmd verbosity".

(** [load_pref]: [file] is what YAML reads from the preference file, [None]
    when there is no file; [env] is [DEFW_PY_LOGLEVEL]. *)
Definition load_pref (file : option val) (env : option string) (s : settings) : res settings :=
  let? s :=
    match file with
    | None => Ok s
    | Some v =>
        if truthy v then
          match v with
          | VDict d => Ok (set_own (Some (fold_left (λ d p, dsetdefault d p.1 p.2)
                                            (default_pref s) d)) s)
          | _ => Raise (Exc ETypeError "object does not support item assignment")
          end
        else Ok (set_own None s)
    end in
  let s := match env with Some l => pref_set "py_loglevel" (VStr l) s | None => s end in
  let? level := vindex (global_pref s) "py_loglevel" in
  set_logging_level level false s.

(** [GLOBAL_PREF_DEF]; [vim] is where the editor was found. *)
Definition GLOBAL_PREF_DEF (vim : val) : pydict :=
  [("editor", vim); ("py_loglevel", VStr "critical"); ("halt_on_exception", VBool false);
   ("RPC timeout", VInt 300); ("num_intfs", VInt 3); ("cmd verbosity", VBool true);
   ("debug module reload", VBool false)].

Definition init_settings (vim : val) : settings :=
  Settings [] [] [] 30 0 None (GLOBAL_PREF_DEF vim) None.

(** ** Selection *)

Lemma add_unseen_all ls resolved :
  NoDup resolved →
  NoDup (fold_left add_unseen ls resolved) ∧
  ∀ l, l ∈ fold_left add_unseen ls resolved ↔ l ∈ resolved ∨ l ∈ ls.
Proof.
  revert resolved. induction ls as [|x ls IH]; intros resolved Hnd; simpl.
  { split; [done|]. set_solver. }
  destruct (IH (add_unseen resolved x)) as [H1 H2].
  - unfold add_unseen. case_decide; [done|]. apply NoDup_app.
    split_and!; [done | set_solver | apply NoDup_singleton].
  - split; [done|]. intros l. rewrite H2. unfold add_unseen. case_decide; set_solver.
Qed.

(** The levels a list of tokens names. *)
Definition named (s : settings) (tokens : list string) (l : Z) : Prop :=
  ∃ t ls, t ∈ tokens ∧ strip t ≠ "" ∧ token_levels s (strip t) = Ok ls ∧ l ∈ ls.

Lemma named_cons s t ts l :
  named s (t :: ts) l ↔
  (strip t ≠ "" ∧ ∃ ls, token_levels s (strip t) = Ok ls ∧ l ∈ ls) ∨ named s ts l.
Proof.
  split.
  - intros (t' & ls & [->|Hin]%elem_of_cons & H1 & H2 & H3).
    + left. split; [done|]. by exists ls.
    + right. by exists t', ls.
  - intros [(H1 & ls & H2 & H3)|(t' & ls & Hin & H)].
    + exists t, ls. split_and!; [by left | done..].
    + exists t', ls. split; [by right | done].
Qed.

Lemma resolve_tokens_spec s tokens resolved levels :
  NoDup resolved → resolve_tokens s tokens resolved = Ok levels →
  NoDup levels ∧ ∀ l, l ∈ levels ↔ l ∈ resolved ∨ named s tokens l.
Proof.
  revert resolved. induction tokens as [|t tokens IH]; intros resolved Hnd; cbn [resolve_tokens].
  { intros [= <-]. split; [done|]. intros l. split; [by left|].
    intros [?|(t & ls & Hin & _)]; [done | by apply not_elem_of_nil in Hin]. }
  destruct (String.eqb_spec (strip t) "") as [He|He].
  - intros [H1 H2]%IH; [|done]. split; [done|]. intros l. rewrite H2, named_cons. tauto.
  - destruct (token_levels s (strip t)) as [ls|] eqn:El; [|done]. cbn [rbind].
    destruct (add_unseen_all ls resolved Hnd) as [Hnd' Hin].
    intros [H1 H2]%IH; [|done]. split; [done|]. intros l. rewrite H2, Hin, named_cons, El.
    assert ((∃ ls', Ok ls = Ok ls' ∧ l ∈ ls') ↔ l ∈ ls) as ->
      by (split; [by intros (? & [= <-] & ?) | by exists ls]).
    tauto.
Qed.

Lemma min_of_le d l n : l ≠ [] → min_of d l <= n ↔ ∃ x, x ∈ l ∧ x <= n.
Proof.
  destruct l as [|x l]; [done|]. intros _. simpl. revert x.
  induction l as [|y l IH]; intros x; simpl.
  - split; [intros H; exists x; split; [by left | done]|].
    by intros (z & ->%list_elem_of_singleton & ?).
  - rewrite IH. split.
    + intros (z & [->|Hz]%elem_of_cons & Hle).
      * destruct (Z.min_spec x y) as [[_ E]|[_ E]]; rewrite E in Hle; eexists; (split; [|exact Hle]).
        -- by left.
        -- right. by left.
      * exists z. split; [by do 2 right | done].
    + intros (z & [->|[->|Hz]%elem_of_cons]%elem_of_cons & Hle).
      * exists (Z.min x y). split; [by left | lia].
      * exists (Z.min x y). split; [by left | lia].
      * exists z. split; [by right | done].
Qed.

(** What a selection of levels lets through: without DEFw levels, everything
    from the lowest one up; with some, exactly those of the DEFw levels, and
    the other records from the lowest standard level up (only CRITICAL ones
    when no standard level is selected). *)
Definition selects (s : settings) (levels : list Z) (n : Z) : Prop :=
  ((∀ l, l ∈ levels → l ∉ custom_nos s) ∧ ∃ l, l ∈ levels ∧ l <= n) ∨
  ((∃ l, l ∈ levels ∧ l ∈ custom_nos s) ∧
   ((n ∈ levels ∧ n ∈ custom_nos s) ∨
    (n ∉ custom_nos s ∧ (∃ l, l ∈ levels ∧ l <= n) ∧
     ((∃ l, l ∈ levels ∧ l ∉ custom_nos s ∧ l <= n) ∨
      ((∀ l, l ∈ levels → l ∈ custom_nos s) ∧ n = CRITICAL))))).

(** The last line of the filter, on the standard levels selected. *)
Lemma filter_standard (P : Z → Prop) (levels std : list Z) (n : Z) :
  (∀ l, l ∈ std ↔ l ∈ levels ∧ ¬ P l) → (∀ l, P l ∨ ¬ P l) →
  match std with [] => n =? CRITICAL | _ :: _ => min_of CRITICAL std <=? n end = true ↔
  (∃ l, l ∈ levels ∧ ¬ P l ∧ l <= n) ∨ ((∀ l, l ∈ levels → P l) ∧ n = CRITICAL).
Proof.
  intros Hstd Hdec. destruct (decide (std = [])) as [->|Hne].
  - assert (∀ l, l ∈ levels → P l) as Hall.
    { intros l Hl. destruct (Hdec l) as [|Hn]; [done|]. exfalso.
      by apply (not_elem_of_nil l), Hstd. }
    rewrite Z.eqb_eq. split; [by right|]. intros [(l & Hl & Hn & _)|[_ ?]]; [|done].
    by destruct (Hn (Hall l Hl)).
  - transitivity (min_of CRITICAL std <= n); [by destruct std; rewrite ?Z.leb_le|].
    rewrite min_of_le by done. split.
    + intros (l & [Hl1 Hl2]%Hstd & Hle). left. by exists l.
    + intros [(l & Hl1 & Hl2 & Hle)|[Hall _]].
      * exists l. split; [by apply Hstd | done].
      * destruct std as [|l ?]; [done|]. destruct (proj1 (Hstd l)) as [H1 H2]; [by left|].
        by destruct (H2 (Hall l H1)).
Qed.

Lemma written_selected levels s n :
  levels ≠ [] → written (set_logging_level_helper levels s) n = true ↔ selects s levels n.
Proof.
  intros Hne. unfold written, set_logging_level_helper. simpl.
  set (std := List.filter (λ n, negb (bool_decide (n ∈ custom_nos s))) levels).
  set (cus := List.filter (λ n, bool_decide (n ∈ custom_nos s)) levels).
  assert (∀ l, l ∈ std ↔ l ∈ levels ∧ l ∉ custom_nos s) as Hstd.
  { intros l. unfold std. rewrite list_filter_In, negb_true_iff, bool_decide_eq_false. done. }
  assert (∀ l, l ∈ cus ↔ l ∈ levels ∧ l ∈ custom_nos s) as Hcus.
  { intros l. unfold cus. by rewrite list_filter_In, bool_decide_eq_true. }
  rewrite !andb_true_iff, Z.leb_le, min_of_le by done.
  destruct cus as [|c cus'] eqn:Ecus.
  - assert (∀ l, l ∈ levels → l ∉ custom_nos s) as Hno
      by (intros l Hl Hc; by apply (not_elem_of_nil l), Hcus).
    split; [intros [[Hx _] _]; left; by split|].
    intros [[_ Hx]|[(l & Hl & Hc) _]]; [done|]. by destruct (Hno l Hl).
  - destruct (proj1 (Hcus c)) as [Hc1 Hc2]; [by left|].
    assert (selects s levels n ↔
      ((n ∈ levels ∧ n ∈ custom_nos s) ∨
       (n ∉ custom_nos s ∧ (∃ l, l ∈ levels ∧ l <= n) ∧
        ((∃ l, l ∈ levels ∧ l ∉ custom_nos s ∧ l <= n) ∨
         ((∀ l, l ∈ levels → l ∈ custom_nos s) ∧ n = CRITICAL))))) as ->.
    { split; [intros [[Hno _]|[_ H]]; [by destruct (Hno c Hc1) | done]|].
      intros H. right. split; [by exists c | done]. }
    unfold filter_record. simpl.
    destruct (bool_decide_reflect (n ∈ c :: cus')) as [Hn|Hn]; rewrite Hcus in Hn.
    { split; [by left|]. intros _. split_and!; [| |done]; exists n; (split; [apply Hn | lia]). }
    destruct (bool_decide_reflect (n ∈ custom_nos s)) as [Hnc|Hnc]; [naive_solver|].
    rewrite (filter_standard (λ l, l ∈ custom_nos s) levels std n Hstd)
      by (intros l; destruct (decide (l ∈ custom_nos s)); auto).
    tauto.
Qed.

(** Selecting log levels by name does exactly what the names say: the text
    resolves to the levels its tokens name, each once, and afterwards a record
    reaches the log file if and only if that selection covers its level; in
    particular a DEFw level that was not selected stays silent as soon as
    another one is. *)
Theorem log_selection_exact (s : settings) (spec : string) (levels : list Z) (n : Z) :
  resolve_log_levels s (VStr spec) = Ok levels →
  NoDup levels ∧ levels ≠ [] ∧
  (∀ l, l ∈ levels ↔ named s (split_on "," "" spec) l) ∧
  (written (apply_logging_level (VStr spec) s) n = true ↔ selects s levels n).
Proof.
  intros Hr. unfold apply_logging_level. rewrite Hr. revert Hr. unfold resolve_log_levels.
  destruct (resolve_tokens s (split_on "," "" spec) []) as [r|] eqn:E; [|done]. cbn [rbind].
  apply resolve_tokens_spec in E as [Hnd Hin]; [|constructor].
  destruct r as [|x r]; [done|]. intros [= <-]. split_and!; [done..| |by apply written_selected].
  intros l. rewrite Hin, elem_of_nil. naive_solver.
Qed.

(** ** Preferences *)

Lemma pref_set_get k v s : dget (global_pref (pref_set k v s)) k = Some v.
Proof. unfold pref_set, global_pref. destruct (own_pref s); simpl; by rewrite dget_dset_eq. Qed.

Lemma apply_level_pref level s :
  global_pref (apply_logging_level level s) = global_pref s ∧
  default_pref (apply_logging_level level s) = default_pref s ∧
  own_pref (apply_logging_level level s) = own_pref s.
Proof. unfold apply_logging_level. by destruct (resolve_log_levels s level). Qed.

Lemma setdefault_all (defs d : pydict) k :
  dget (fold_left (λ d p, dsetdefault d p.1 p.2) defs d) k =
  match dget d k with Some v => Some v | None => dget defs k end.
Proof.
  revert d. induction defs as [|[k' v] defs IH]; intros d; simpl; [by destruct (dget d k)|].
  rewrite IH, dget_dsetdefault. destruct (decide (k' = k)) as [->|Hne].
  - simpl. destruct (dget d k); simpl; [done|]. by rewrite decide_True.
  - destruct (dget d k); [done|]. by rewrite decide_False by congruence.
Qed.

(** Loading preferences completes them: a setting of the file wins, the
    environment's log level wins over both, and every other setting has its
    default; the log level is applied at once. *)
Theorem load_pref_complete (d : pydict) (env : option string) (s s' : settings) (k : string) :
  d ≠ [] → load_pref (Some (VDict d)) env s = Ok s' →
  dget (global_pref s') k =
    (if decide (k = "py_loglevel" ∧ env ≠ None) then VStr <$> env
     else match dget d k with Some v => Some v | None => dget (default_pref s) k end) ∧
  default_pref s' = default_pref s.
Proof.
  intros Hd. unfold load_pref. assert (truthy (VDict d) = true) as -> by by destruct d.
  cbn [rbind]. set (s1 := set_own _ s). set (s2 := match env with Some l => _ | None => s1 end).
  destruct (vindex (global_pref s2) "py_loglevel") as [lv|]; [|done]. cbn [rbind set_logging_level].
  intros [= <-]. destruct (apply_level_pref lv s2) as (-> & -> & _).
  unfold s2, s1. destruct env as [l|]; cbn [fmap option_fmap option_map]; simpl.
  - split; [|done]. unfold global_pref. simpl. rewrite dget_dset, setdefault_all.
    destruct (decide (k = "py_loglevel")) as [->|Hk].
    + rewrite decide_True by done. by rewrite decide_True.
    + rewrite decide_False by congruence. by rewrite decide_False by naive_solver.
  - split; [|done]. unfold global_pref. simpl. rewrite setdefault_all.
    by rewrite decide_False by naive_solver.
Qed.

(** The defaults are shared with the preferences until a file replaces them:
    a timeout that was set stays in force when an empty preference file is
    loaded, although such a file is meant to give the defaults. *)
Theorem defaults_are_shared (t : val) (s s1 s2 : settings) :
  own_pref s = None → set_rpc_timeout t s = Ok s1 →
  load_pref (Some VNone) None s1 = Ok s2 → get_rpc_timeout s2 = Ok t.
Proof.
  intros Hown. unfold set_rpc_timeout, save_pref.
  destruct (dget (global_pref (pref_set "RPC timeout" t s)) "py_loglevel") as [lv|]; [|done].
  intros [= <-]. destruct (apply_level_pref lv (pref_set "RPC timeout" t s)) as (_ & Hd & _).
  unfold load_pref. cbn [truthy rbind]. set (s3 := set_own None _).
  destruct (vindex (global_pref s3) "py_loglevel") as [lv'|]; [|done]. cbn [rbind set_logging_level].
  intros [= <-]. destruct (apply_level_pref lv' s3) as (Hg & _ & _).
  unfold get_rpc_timeout, get_pref, vindex. rewrite Hg. unfold s3, global_pref, set_own. simpl.
  rewrite Hd. unfold pref_set. rewrite Hown. simpl. by rewrite dget_dset_eq.
Qed.

(** ** Examples *)

Definition demo_settings : settings :=
  match setup_log_levels (init_settings (VStr "/usr/bin/vim")) with
  | Ok s => s
  | Raise _ => init_settings VNone
  end.

Example demo_levels :
  resolve_log_levels demo_settings (VStr " defw_core, error,DEFW_CORE,") = Ok [30; 40] ∧
  map (written (apply_logging_level (VStr "defw_core,error") demo_settings))
    [10; 30; 31; 35; 40; 50] = [false; true; false; false; true; true].
Proof. split; reflexivity. Qed.

Lemma log_selection_exact_witness :
  resolve_log_levels demo_settings (VStr "defw_core,error") = Ok [30; 40] ∧
  selects demo_settings [30; 40] 30 ∧
  ¬ selects demo_settings [30; 40] 31.
Proof.
  assert (resolve_log_levels demo_settings (VStr "defw_core,error") = Ok [30; 40]) as E
    by (vm_compute; reflexivity).
  split; [exact E|]. split.
  - apply (log_selection_exact demo_settings "defw_core,error" [30; 40] 30 E). vm_compute. reflexivity.
  - intros H. apply (log_selection_exact demo_settings "defw_core,error" [30; 40] 31 E) in H.
    vm_compute in H. discriminate H.
Defined.

Lemma load_pref_complete_witness :
  ∃ s', load_pref (Some (VDict [("RPC timeout", VInt 10)])) (Some "debug") demo_settings = Ok s' ∧
    dget (global_pref s') "RPC timeout" = Some (VInt 10) ∧
    dget (global_pref s') "py_loglevel" = Some (VStr "debug") ∧
    dget (global_pref s') "num_intfs" = Some (VInt 3).
Proof.
  destruct (load_pref (Some (VDict [("RPC timeout", VInt 10)])) (Some "debug") demo_settings)
    as [s'|] eqn:E; [|vm_compute in E; discriminate E].
  exists s'. split; [reflexivity|].
  assert ([("RPC timeout", VInt 10)] ≠ []) as Hne by discriminate.
  split_and!; (rewrite (proj1 (load_pref_complete _ _ _ _ _ Hne E)); vm_compute; reflexivity).
Defined.

Lemma defaults_are_shared_witness :
  ∃ s1 s2, set_rpc_timeout (VInt 5) demo_settings = Ok s1 ∧
    load_pref (Some VNone) None s1 = Ok s2 ∧ get_rpc_timeout s2 = Ok (VInt 5).
Proof.
  destruct (set_rpc_timeout (VInt 5) demo_settings) as [s1|] eqn:E1; [|vm_compute in E1; discriminate E1].
  destruct (load_pref (Some VNone) None s1) as [s2|] eqn:E2.
  2: { vm_compute in E1. injection E1 as <-. vm_compute in E2. discriminate E2. }
  exists s1, s2. split; [reflexivity|]. split; [exact E2|].
  exact (defaults_are_shared (VInt 5) demo_settings s1 s2 eq_refl E1 E2).
Defined.
