(* ===== verification/Config.v ===== *)
(** * Process configuration ([python/infra/defw.py], 20-60 and 1185-1440)

    The configuration is a YAML dict whose texts may refer to environment
    variables and to four keywords as [${NAME}]; its [environment] block sets
    variables first.  The module search path, the defaults of the generic
    configuration and [configure_defw], which hands the settings to the native
    runtime, are modelled too.  The date, the file system, the host name and
    random choices are arguments. *)

From S2P Require Import Prelude PyDict PyVal.
From Stdlib Require Import Ascii.

Local Open Scope string_scope.
Local Open Scope Z_scope.
Local Open Scope list_scope.
Import PyNotations.
Local Open Scope py_scope.

Abbreviation env_dict := (odict string string).

(** ** Variables in texts *)

Definition push_char (c : ascii) (ws : list (list ascii)) : list (list ascii) :=
  match ws with [] => [[c]] | w :: ws' => (c :: w) :: ws' end.

Definition is_char (a b : ascii) : bool := Ascii.eqb a b.

(** [s.split("${")] *)
Fixpoint split_vars (s : list ascii) : list (list ascii) :=
  match s with
  | [] => [[]]
  | c :: s' =>
      match s' with
      | d :: s'' => if is_char c "$" && is_char d "{" then [] :: split_vars s''
                    else push_char c (split_vars s')
      | [] => [[c]]
      end
  end.

(** The text up to the first closing brace, and the rest. *)
Fixpoint cut_brace (s : list ascii) : option (list ascii * list ascii) :=
  match s with
  | [] => None
  | c :: s' => if is_char c "}" then Some ([], s')
               else match cut_brace s' with
                    | Some (a, b) => Some (c :: a, b)
                    | None => None
                    end
  end.

(** What [${var}] stands for: a keyword, or a variable of the environment. *)
Record keywords := Keywords { kw_today : string; kw_now : string }.

Definition lookup_var (kw : keywords) (blocks : list string) (environ : env_dict) (var : string) :
    option string :=
  if String.eqb var "DATE" then Some (kw_today kw)
  else if String.eqb var "TIME" then Some (kw_now kw)
  else if String.eqb var "YNEAR" then last blocks
  else if String.eqb var "YTOP" then head blocks
  else dget environ var.

Definition resolve_segment (lookup : string → option string) (seg : list ascii) : list ascii :=
  match cut_brace seg with
  | None => seg
  | Some (var, rest) =>
      match lookup (String.string_of_list_ascii var) with
      | Some x => String.list_ascii_of_string x ++ rest
      | None => []
      end
  end.

Definition resolve_text (lookup : string → option string) (s : list ascii) : list ascii :=
  match split_vars s with
  | [_] => s
  | segs => List.concat (map (resolve_segment lookup) segs)
  end.

(** [resolve_env_var] *)
Definition resolve_env_var (lookup : string → option string) (s : string) : string :=
  String.string_of_list_ascii (resolve_text lookup (String.list_ascii_of_string s)).

(** [recurse_dictionary] with [resolve_env_var]: every text of the nested
    dicts, and of lists directly below a dict key; [blocks] are the keys on
    the way, for the block keywords. *)
Fixpoint recurse_dictionary (cb : list string → string → string) (blocks : list string) (v : val) :
    val :=
  match v with
  | VDict d => VDict (map (λ p, (p.1, recurse_dictionary cb (blocks ++ [p.1]) p.2)) d)
  | VList l => VList (map (λ x, match x with
                                | VDict _ => recurse_dictionary cb blocks x
                                | VStr s => VStr (cb blocks s)
                                | _ => x
                                end) l)
  | VStr s => VStr (cb blocks s)
  | _ => v
  end.

Definition resolve_in (kw : keywords) (environ : env_dict) (blocks : list string) (s : string) :
    string :=
  resolve_env_var (lookup_var kw blocks environ) s.

(** One assignment of the [environment] block. *)
Definition set_env_var (kw : keywords) (environ : env_dict) (k : string) (v : val) : res env_dict :=
  let x := resolve_in kw environ [] (py_fmt v) in
  if String.eqb k "PATH" || (String.eqb k "LD_LIBRARY_PATH" && dmem environ k) then
    match dget environ k with
    | Some old => Ok (dset environ k (old ++ ":" ++ x)%string)
    | None => Raise (Exc EKeyError k)
    end
  else Ok (dset environ k x).

Fixpoint set_env_items (kw : keywords) (environ : env_dict) (items : pydict) : res env_dict :=
  match items with
  | [] => Ok environ
  | (k, v) :: items' =>
      let? environ := set_env_var kw environ k v in
      set_env_items kw environ items'
  end.

(** [set_env_vars]: the block is resolved in place, then set. *)
Definition set_env_vars (kw : keywords) (environ : env_dict) (block : val) :
    res (env_dict * val) :=
  let block := recurse_dictionary (resolve_in kw environ) [] block in
  match block with
  | VDict d => let? environ := set_env_items kw environ d in Ok (environ, block)
  | _ => Raise (Exc ETypeError "the environment block is no mapping")
  end.

(** [resolve_environment_vars] *)
Definition resolve_environment_vars (kw : keywords) (environ : env_dict) (config : pydict) :
    res (env_dict * pydict) :=
  let? (environ, config) :=
    match dget config "environment" with
    | Some block =>
        let? (environ, block) := set_env_vars kw environ block in
        Ok (environ, dset config "environment" block)
    | None => Ok (environ, config)
    end in
  match recurse_dictionary (resolve_in kw environ) [] (VDict config) with
  | VDict config => Ok (environ, config)
  | _ => Ok (environ, config)
  end.

(** ** Search path *)

(** [split_external_paths] *)
Definition split_external_paths (value : string) : list string :=
  if String.eqb value "" then []
  else List.filter (λ p, negb (String.eqb p "")) (split_on ":" "" value).

Fixpoint remove_path (p : string) (l : list string) : list string :=
  match l with
  | [] => []
  | x :: l' => if String.eqb x p then l' else x :: remove_path p l'
  end.

Definition prepend_path (sys_path : list string) (p : string) : list string :=
  p :: (if bool_decide (p ∈ sys_path) then remove_path p sys_path else sys_path).
Definition append_path (sys_path : list string) (p : string) : list string :=
  if bool_decide (p ∈ sys_path) then sys_path else sys_path ++ [p].

(** [setup_external_paths] *)
Definition setup_external_paths (paths : list string) (prepend : bool) (sys_path : list string) :
    list string :=
  if prepend then fold_left prepend_path (rev paths) sys_path
  else fold_left append_path paths sys_path.

Definition DEFW_SCRIPT_PATHS : list string :=
  ["src/"; "python/"; "python/service-apis"; "python/service-apis/util"; "python/services";
   "python/services/util"; "python/infra"; "python/config"; "python/experiments"].

(** [setup_paths] *)
Definition setup_paths (defw_path : string) (environ : env_dict) (sys_path : list string) :
    list string :=
  let sys_path := fold_left append_path (map (path_join defw_path) DEFW_SCRIPT_PATHS) sys_path in
  fold_left (λ sp var, setup_external_paths (split_external_paths (dget_or environ var "")) true sp)
    ["DEFW_EXTERNAL_SERVICE_APIS_PATH"; "DEFW_EXTERNAL_SERVICES_PATH";
     "DEFW_EXTERNAL_EXPERIMENTS_PATH"] sys_path.

(** ** Defaults *)

(** [os.environ.get(name)] as a condition *)
Definition env_set (environ : env_dict) (name : string) : bool :=
  match dget environ name with Some (String _ _) => true | _ => false end.

(** [set_default_env] *)
Definition set_default_env (environ : env_dict) (p : string * string) : env_dict :=
  if env_set environ p.1 then environ else dset environ p.1 p.2.

Definition parent_vars : list string :=
  ["DEFW_PARENT_ADDR"; "DEFW_PARENT_HOSTNAME"; "DEFW_PARENT_NAME"; "DEFW_PARENT_PORT"].

Definition generic_defaults (agent_name defw_path : string) : list (string * string) :=
  [("DEFW_AGENT_NAME", agent_name); ("DEFW_AGENT_TYPE", "agent"); ("DEFW_SHELL_TYPE", "cmdline");
   ("DEFW_LISTEN_PORT", "0"); ("DEFW_TELNET_PORT", "0"); ("DEFW_PARENT_ADDR", "0.0.0.0");
   ("DEFW_PARENT_HOSTNAME", "None"); ("DEFW_PARENT_NAME", "None"); ("DEFW_PARENT_PORT", "0");
   ("DEFW_PATH", defw_path); ("DEFW_LOG_DIR", path_join "/tmp" agent_name);
   ("DEFW_LOG_LEVEL", "error"); ("DEFW_EXTERNAL_SERVICES_PATH", "");
   ("DEFW_EXTERNAL_SERVICE_APIS_PATH", ""); ("DEFW_EXTERNAL_EXPERIMENTS_PATH", "")].

(** [setup_generic_config_defaults]; [uuid8] is the random suffix. *)
Definition setup_generic_config_defaults (uuid8 defw_path : string) (environ : env_dict) : env_dict :=
  let agent_name := match dget environ "DEFW_AGENT_NAME" with
                    | Some (String _ _ as n) => n
                    | _ => ("defw_python_" ++ uuid8)%string
                    end in
  let environ := if existsb (env_set environ) parent_vars then environ
                 else set_default_env environ ("DEFW_DISABLE_DIRSVC", "yes") in
  fold_left set_default_env (generic_defaults agent_name defw_path) environ.

(** ** [configure_defw] *)

(** The settings of the native runtime. *)
Record native := Native {
  n_defw_path : string;
  n_parent_name : string;
  n_parent_port : Z;
  n_parent_address : option string;
  n_parent_hostname : option string;
  n_hostname : string;
  n_mode : string;
  n_type : string;
  n_tmp : option string;
  n_listen_address : string;
  n_listen_port : Z;
  n_telnet_port : Z;
  n_node_name : string;
  n_log_level : string;
  n_safe_shutdown : bool;
  n_dirsvc_disabled : bool
}.

(** What the module keeps besides. *)
Record configured := Configured {
  only_load : list string;
  noinit_load : list string;
  cfg_environ : env_dict;
  cfg_yaml : pydict;
  cfg_native : native
}.

(** [cy['defw'][key]], and the same passed to a native setter that takes a
    text or a number. *)
Definition section (config : pydict) : res pydict :=
  let? d := vindex config "defw" in
  match d with VDict d => Ok d | _ => Raise (Exc ETypeError "'defw' is no mapping") end.
Definition text_of (v : val) : res string :=
  match v with VStr s => Ok s | _ => Raise (Exc ETypeError "argument of type char * expected") end.
Definition setting (d : pydict) (key : string) : res string :=
  let? v := vindex d key in text_of v.
Definition number (d : pydict) (key : string) : res Z :=
  let? v := vindex d key in py_int v.

(** [try: native(...) except: fallback] *)
Definition or_else {A} (r : res A) (fallback : A) : A :=
  match r with Ok a => a | Raise _ => fallback end.

(** [try: set(cy['defw'][key]) except: pass] *)
Definition optional (r : res string) : option string :=
  match r with Ok s => Some s | Raise _ => None end.

(** [os.environ[name].split(',')], or nothing *)
Definition name_list (environ : env_dict) (name : string) : list string :=
  match dget environ name with Some v => split_on "," "" v | None => [] end.

Definition log_level_name (level : string) : string :=
  let l := upper level in
  if String.eqb l "ERROR" then "EN_LOG_LEVEL_ERROR"
  else if String.eqb l "DEBUG" then "EN_LOG_LEVEL_DEBUG"
  else if String.eqb l "MESSAGE" then "EN_LOG_LEVEL_MSG"
  else if String.eqb l "ALL" then "EN_LOG_LEVEL_ALL"
  else "EN_LOG_LEVEL_ERROR".

(** [os.path.basename] *)
Definition basename (path : string) : string :=
  String.string_of_list_ascii
    (rev ((fix go l := match l with
                       | [] => []
                       | c :: l' => if is_char c "/" then [] else c :: go l'
                       end) (rev (String.list_ascii_of_string path)))).

Record surroundings := Surroundings {
  cwd : string;
  gethostname : string;
  random_port : Z;
  random_name : string;
  random_suffix : string;
  date_words : keywords;
  (** [os.path.isfile], and what YAML reads from a file *)
  yaml_file : string → option val
}.

Section Configure.
Context (w : surroundings).

Definition choose_config (environ : env_dict) (defw_path : string) : string :=
  match dget environ "DEFW_CONFIG_PATH" with
  | Some c => c
  | None =>
      let installed := path_join (path_join (path_join (path_join defw_path "share") "defw")
                                    "config") "defw_generic.yaml" in
      match yaml_file w installed with
      | Some _ => installed
      | None => path_join (path_join (path_join defw_path "python") "config") "defw_generic.yaml"
      end
  end.

(** The parent of this process. *)
Definition configure_parent (disabled : bool) (d : pydict) :
    res (string * Z * option string * option string * string) :=
  if disabled then Ok ("None", 0, Some "0.0.0.0", Some "None", "None")
  else
    let? parent_name := setting d "parent-name" in
    let? parent_port := number d "parent-port" in
    if negb (dmem d "parent-address") && negb (dmem d "parent-hostname") then
      Raise (Exc EDEFwError "No Parent configured for this process. Can not proceed")
    else Ok (parent_name, parent_port, optional (setting d "parent-address"),
             optional (setting d "parent-hostname"), gethostname w).

(** The port to listen on: the one configured, or that of the role. *)
Definition listen_port_of (d : pydict) (ty : string) : Z :=
  or_else (number d "listen-port") (if String.eqb (upper ty) "AGENT" then 8091 else 8090).

(** [set_listen_address(int(...))]: the setter takes a text, so that an
    address never survives. *)
Definition listen_address_of (d : pydict) : string :=
  or_else (let? n := number d "listen-address" in text_of (VInt n)) "".

Definition configure_native (disabled : bool) (config : pydict) : res native :=
  let? d := section config in
  let? path := setting d "path" in
  let? (pname, pport, paddr, phost, host) := configure_parent disabled d in
  let? mode := setting d "shell" in
  let? ty := setting d "type" in
  Ok (Native path pname pport paddr phost host mode ty
        (optional (setting d "tmp"))
        (listen_address_of d)
        (listen_port_of d ty)
        (or_else (number d "telnet-port") (random_port w))
        (or_else (setting d "name") (random_name w))
        (or_else (res_map log_level_name (setting d "loglevel")) "EN_LOG_LEVEL_ERROR")
        (py_eqb (vget d "shutdown") (VStr "SAFE"))
        disabled).

(** [configure_defw] *)
Definition configure_defw (environ : env_dict) : res configured :=
  let only := name_list environ "DEFW_ONLY_LOAD_MODULE" in
  let noinit := name_list environ "DEFW_LOAD_NO_INIT" in
  let defw_path := dget_or environ "DEFW_PATH" (cwd w) in
  let config := choose_config environ defw_path in
  let environ := if String.eqb (basename config) "defw_generic.yaml"
                 then setup_generic_config_defaults (random_suffix w) defw_path environ
                 else environ in
  let disabled := String.eqb (upper (dget_or environ "DEFW_DISABLE_DIRSVC" "")) "YES" in
  match yaml_file w config with
  | None => Raise (Exc EDEFwError ("Failed to find a configuration (" ++ config ++ ") file. Aborting"))
  | Some (VDict cy) =>
      let? (environ, cy) := resolve_environment_vars (date_words w) environ cy in
      let? n := configure_native disabled cy in
      Ok (Configured only noinit environ cy n)
  | Some _ => Raise (Exc ETypeError "the configuration is no mapping")
  end.
End Configure.
