(* ===== verification/ConfigFacts.v ===== *)
(** * Properties of the configuration *)

From S2P Require Import Prelude PyDict PyVal Config.
From Stdlib Require Import Ascii.

Local Open Scope string_scope.
Local Open Scope Z_scope.
Local Open Scope list_scope.
Import PyNotations.
Local Open Scope py_scope.

Abbreviation text := (list ascii).

Definition chars : string → text := String.list_ascii_of_string.
Definition of_chars : text → string := String.string_of_list_ascii.

Lemma of_chars_chars s : of_chars (chars s) = s.
Proof. apply String.string_of_list_ascii_of_string. Qed.

Lemma chars_of_chars l : chars (of_chars l) = l.
Proof. apply String.list_ascii_of_string_of_list_ascii. Qed.

(** ** Templates

    A text with references: a literal, then variables each followed by a
    literal. *)

Record template := Template { t_start : text; t_parts : list (text * text) }.

Definition render_part (p : text * text) : text :=
  "$"%char :: "{"%char :: p.1 ++ "}"%char :: p.2.
Definition render (t : template) : text := t_start t ++ flat_map render_part (t_parts t).

(** A stretch of text without the special characters. *)
Definition literal (s : text) : Prop := "$"%char ∉ s ∧ "}"%char ∉ s.

Definition template_ok (t : template) : Prop :=
  literal (t_start t) ∧ Forall (λ p, literal p.1 ∧ literal p.2) (t_parts t).

#[export] Instance literal_dec s : Decision (literal s).
Proof. unfold literal. apply _. Defined.

#[export] Instance template_ok_dec t : Decision (template_ok t).
Proof. unfold template_ok. apply _. Defined.

(** Substitution; a reference to nothing takes the literal after it along. *)
Definition substitute (lookup : string → option string) (t : template) : text :=
  t_start t ++ flat_map (λ p, match lookup (of_chars p.1) with
                              | Some x => chars x ++ p.2
                              | None => []
                              end) (t_parts t).

Lemma split_vars_nonempty s : split_vars s ≠ [].
Proof.
  assert (∀ n s, (length s ≤ n)%nat → split_vars s ≠ []) as H; [|by eapply (H (length s))].
  clear s. intros n. induction n as [|n IH]; intros [|c [|d s]] Hn; simpl in *; try done; try lia.
  destruct (is_char c "$" && is_char d "{"); [done|].
  assert (split_vars (d :: s) ≠ []) as Hne by (apply IH; simpl; lia). simpl in Hne.
  by destruct (match s with [] => _ | _ => _ end).
Qed.

Lemma split_vars_step c s :
  c ≠ "$"%char → split_vars (c :: s) = push_char c (split_vars s).
Proof.
  intros Hc. destruct s as [|d s]; [done|]. cbn [split_vars]. unfold is_char at 1.
  by rewrite (proj2 (Ascii.eqb_neq c "$") Hc).
Qed.

Lemma push_all (w : text) ws v : "$"%char ∉ w → split_vars v = ws →
  split_vars (w ++ v) = match ws with [] => [] | x :: ws' => (w ++ x) :: ws' end.
Proof.
  intros Hw <-. pose proof (split_vars_nonempty v) as Hne.
  induction w as [|c w IH]; [cbn [app]; by destruct (split_vars v)|].
  apply not_elem_of_cons in Hw as [Hc Hw]. rewrite <- app_comm_cons, split_vars_step by congruence.
  rewrite IH by done. by destruct (split_vars v).
Qed.

Lemma cut_brace_none s : "}"%char ∉ s → cut_brace s = None.
Proof.
  induction s as [|c s IH]; intros H; [done|]. apply not_elem_of_cons in H as [Hc H]. simpl.
  unfold is_char. rewrite (proj2 (Ascii.eqb_neq c "}")) by congruence. by rewrite IH.
Qed.

Lemma cut_brace_at v l : "}"%char ∉ v → cut_brace (v ++ "}"%char :: l) = Some (v, l).
Proof.
  induction v as [|c v IH]; intros H; [done|]. apply not_elem_of_cons in H as [Hc H]. simpl.
  unfold is_char. rewrite (proj2 (Ascii.eqb_neq c "}")) by congruence. by rewrite IH.
Qed.

(** The segments of a template. *)
Lemma split_vars_parts parts :
  Forall (λ p, literal p.1 ∧ literal p.2) parts →
  ∀ start, "$"%char ∉ start →
  split_vars (start ++ flat_map render_part parts) =
  start :: map (λ p, p.1 ++ "}"%char :: p.2) parts.
Proof.
  induction 1 as [|p parts [[H1 _] [H2 _]] Hparts IH]; intros start Hs; simpl.
  - rewrite app_nil_r. rewrite <- (app_nil_r start) at 1. rewrite (push_all start [[]] []) by done.
    by rewrite app_nil_r.
  - set (rest := flat_map render_part parts) in *.
    rewrite (push_all start ([] :: split_vars ((p.1 ++ "}"%char :: p.2) ++ rest))) by done.
    rewrite app_nil_r. f_equal. apply IH. rewrite not_elem_of_app, not_elem_of_cons. done.
Qed.

Lemma resolve_template lookup t :
  template_ok t → resolve_text lookup (render t) = substitute lookup t.
Proof.
  intros [[Hs Hb] Hp]. unfold resolve_text, render, substitute.
  rewrite split_vars_parts by done. destruct (t_parts t) as [|p parts]; [done|].
  cbn [map List.concat]. unfold resolve_segment at 1. rewrite cut_brace_none by done. f_equal.
  change (resolve_segment lookup (p.1 ++ "}"%char :: p.2) ++
          List.concat (map (resolve_segment lookup) (map (λ p, p.1 ++ "}"%char :: p.2) parts)))
    with (List.concat (map (resolve_segment lookup) (map (λ p, p.1 ++ "}"%char :: p.2) (p :: parts)))).
  rewrite map_map, flat_map_concat_map. f_equal. apply map_ext_in. intros q Hq.
  rewrite Forall_forall in Hp. destruct (Hp q) as [[_ Hq1] _]; [by apply list_elem_of_In|].
  unfold resolve_segment. by rewrite cut_brace_at.
Qed.

(** References are substituted: a text made of literals and references
    resolves to the literals with the values in place, whatever the variables
    hold; a reference to an unknown variable disappears together with the
    literal that follows it. *)
Theorem resolve_env_var_substitutes (lookup : string → option string) (t : template) :
  template_ok t → resolve_env_var lookup (of_chars (render t)) = of_chars (substitute lookup t).
Proof.
  intros Ht. unfold resolve_env_var. fold chars. fold of_chars.
  rewrite chars_of_chars. by rewrite resolve_template.
Qed.

(** A text without references is left alone. *)
Lemma resolve_plain lookup s : "$"%char ∉ chars s → resolve_env_var lookup s = s.
Proof.
  intros H. unfold resolve_env_var, resolve_text. fold chars.
  assert (split_vars (chars s) = [chars s]) as ->; [|apply of_chars_chars].
  rewrite <- (app_nil_r (chars s)) at 1. rewrite (push_all _ [[]]) by done. by rewrite app_nil_r.
Qed.

(** ** The environment block *)

Lemma dget_map_key {V W} (f : string → V → W) (d : odict string V) k :
  dget (map (λ p, (p.1, f p.1 p.2)) d) k = f k <$> dget d k.
Proof.
  induction d as [|[k' v] d IH]; [done|]. simpl. case_decide; [by subst | done].
Qed.

Lemma dkeys_map_key {V W} (f : string → V → W) (d : odict string V) :
  dkeys (map (λ p, (p.1, f p.1 p.2)) d) = dkeys d.
Proof. unfold dkeys. by rewrite map_map. Qed.

Lemma set_env_var_other kw environ environ' k v k' :
  set_env_var kw environ k v = Ok environ' → k ≠ k' → dget environ' k' = dget environ k'.
Proof.
  unfold set_env_var. intros H Hne. repeat case_match; simplify_eq; by rewrite dget_dset_ne.
Qed.

(** A variable that is assigned, not extended. *)
Definition assigned (k : string) : Prop := k ≠ "PATH" ∧ k ≠ "LD_LIBRARY_PATH".

Lemma set_env_var_plain kw environ k v :
  assigned k → "$"%char ∉ chars v → set_env_var kw environ k (VStr v) = Ok (dset environ k v).
Proof.
  intros [H1 H2] Hv. unfold set_env_var. rewrite (proj2 (String.eqb_neq _ _) H1).
  rewrite (proj2 (String.eqb_neq _ _) H2). simpl. unfold resolve_in. by rewrite resolve_plain.
Qed.

Lemma set_env_items_other kw environ environ' items k :
  set_env_items kw environ items = Ok environ' → k ∉ dkeys items →
  dget environ' k = dget environ k.
Proof.
  revert environ. induction items as [|[k' v] items IH]; intros environ; simpl; [by intros [= <-]|].
  destruct (set_env_var kw environ k' v) as [environ1|] eqn:E; [|done]. cbn [rbind].
  intros H Hk. apply not_elem_of_cons in Hk as [Hne Hk]. rewrite (IH _ H Hk).
  by apply (set_env_var_other _ _ _ _ _ _ E).
Qed.

Lemma set_env_items_get kw environ environ' items k v :
  dict_ok items → set_env_items kw environ items = Ok environ' →
  dget items k = Some (VStr v) → assigned k → "$"%char ∉ chars v → dget environ' k = Some v.
Proof.
  unfold dict_ok. revert environ. induction items as [|[k' v'] items IH]; intros environ Hok; simpl; [done|].
  apply NoDup_cons in Hok as [Hnin Hok]. intros H Hg Ha Hv. destruct (decide (k = k')) as [<-|Hne].
  - injection Hg as ->. rewrite set_env_var_plain in H by done. cbn [rbind] in H.
    rewrite (set_env_items_other _ _ _ _ k H Hnin). apply dget_dset_eq.
  - destruct (set_env_var kw environ k' v') as [environ1|]; [|done]. by apply (IH environ1).
Qed.

(** The environment block is set before the rest is resolved: each plain
    value it assigns is in the environment afterwards, and every other setting
    is resolved in that new environment, at any depth. *)
Theorem config_sees_environment (kw : keywords) (environ environ' : env_dict)
    (config config' block : pydict) (k v : string) :
  dget config "environment" = Some (VDict block) → dict_ok block →
  resolve_environment_vars kw environ config = Ok (environ', config') →
  dget block k = Some (VStr v) → assigned k → "$"%char ∉ chars v →
  dget environ' k = Some v ∧
  ∀ c, c ≠ "environment" →
    dget config' c = recurse_dictionary (resolve_in kw environ') [c] <$> dget config c.
Proof.
  intros Hc Hok. unfold resolve_environment_vars. rewrite Hc. unfold set_env_vars.
  set (f := λ k, recurse_dictionary (resolve_in kw environ) [k]).
  change (recurse_dictionary (resolve_in kw environ) [] (VDict block))
    with (VDict (map (λ p, (p.1, f p.1 p.2)) block)).
  cbv zeta iota.
  destruct (set_env_items kw environ (map (λ p, (p.1, f p.1 p.2)) block)) as [environ1|] eqn:E;
    [|done]. cbn [rbind].
  intros Hr Hg Ha Hv.
  set (config1 := dset config _ _) in Hr.
  change (recurse_dictionary (resolve_in kw environ1) [] (VDict config1))
    with (VDict (map (λ p, (p.1, recurse_dictionary (resolve_in kw environ1) [p.1] p.2)) config1)) in Hr.
  injection Hr as <- <-. split.
  - eapply set_env_items_get; [| exact E | | exact Ha | exact Hv].
    + unfold dict_ok. by rewrite dkeys_map_key.
    + rewrite dget_map_key, Hg. unfold f. cbn. unfold resolve_in. by rewrite resolve_plain.
  - intros c Hne.
    rewrite (dget_map_key (λ k, recurse_dictionary (resolve_in kw environ1) [k])).
    unfold config1. by rewrite dget_dset_ne by congruence.
Qed.

(** ** The search path *)

Lemma remove_path_filter p l :
  NoDup l → remove_path p l = List.filter (λ x, negb (String.eqb x p)) l.
Proof.
  induction l as [|x l IH]; intros Hnd; [done|]. apply NoDup_cons in Hnd as [Hx Hnd]. simpl.
  destruct (String.eqb_spec x p) as [->|Hne]; simpl; [|by rewrite IH].
  symmetry. apply filter_all_true. intros y Hy. apply negb_true_iff, String.eqb_neq. by intros ->.
Qed.

Lemma prepend_path_spec l p :
  NoDup l → prepend_path l p = p :: List.filter (λ x, negb (String.eqb x p)) l.
Proof.
  intros Hnd. unfold prepend_path. destruct (bool_decide_reflect (p ∈ l)) as [Hin|Hin].
  - by rewrite remove_path_filter.
  - f_equal. symmetry. apply filter_all_true. intros y Hy. apply negb_true_iff, String.eqb_neq.
    by intros ->.
Qed.

Lemma bool_filter_filter {A} (f g : A → bool) l :
  List.filter f (List.filter g l) = List.filter (λ x, f x && g x) l.
Proof.
  induction l as [|x l IH]; [done|]. simpl. destruct (g x); simpl; rewrite ?andb_false_r, ?IH; [|done].
  by destruct (f x); simpl; rewrite ?IH.
Qed.

Definition not_in (paths : list string) (x : string) : bool := negb (bool_decide (x ∈ paths)).

Lemma front_nodup paths l :
  NoDup paths → NoDup l → NoDup (paths ++ List.filter (not_in paths) l).
Proof.
  intros Hp Hl. apply NoDup_app. split_and!; [done| |].
  - intros x Hx Hf. apply list_filter_In in Hf as [_ Hf]. unfold not_in in Hf.
    by rewrite bool_decide_true in Hf.
  - by apply NoDup_ListNoDup, List.NoDup_filter, NoDup_ListNoDup.
Qed.

Lemma prepend_all paths l :
  NoDup paths → NoDup l →
  fold_right (λ p sp, prepend_path sp p) l paths = paths ++ List.filter (not_in paths) l.
Proof.
  intros Hp Hl. induction Hp as [|p paths Hnin Hp IH]; simpl.
  { symmetry. apply filter_all_true. intros x _. unfold not_in.
    by rewrite bool_decide_false by apply not_elem_of_nil. }
  rewrite IH, prepend_path_spec.
  - f_equal. rewrite List.filter_app. f_equal.
    + apply filter_all_true. intros y Hy. apply negb_true_iff, String.eqb_neq. by intros ->.
    + rewrite bool_filter_filter. apply filter_ext. intros x. unfold not_in.
      destruct (String.eqb_spec x p) as [->|Hne]; simpl.
      * by rewrite bool_decide_true by left.
      * f_equal. apply bool_decide_ext. rewrite elem_of_cons. naive_solver.
  - by apply front_nodup.
Qed.

(** Configured directories take precedence: prepending a list of directories
    puts them at the front of the search path, in the order given, keeps the
    order of the others and leaves no directory twice. *)
Theorem external_paths_first (paths sys_path : list string) :
  NoDup paths → NoDup sys_path →
  let sp := setup_external_paths paths true sys_path in
  sp = paths ++ List.filter (not_in paths) sys_path ∧ NoDup sp ∧
  ∀ p, p ∈ sp ↔ p ∈ paths ∨ p ∈ sys_path.
Proof.
  intros Hp Hl. simpl. rewrite <- fold_left_rev_right, rev_involutive, prepend_all by done.
  split_and!; [done| |].
  - by apply front_nodup.
  - intros p. rewrite elem_of_app, list_filter_In. unfold not_in.
    destruct (bool_decide_reflect (p ∈ paths)); naive_solver.
Qed.

(** ** Defaults *)

Lemma set_default_get environ p name :
  dget (set_default_env environ p) name =
  if decide (name = p.1 ∧ env_set environ p.1 = false) then Some p.2 else dget environ name.
Proof.
  unfold set_default_env. destruct (env_set environ p.1) eqn:E.
  - by rewrite decide_False by naive_solver.
  - rewrite dget_dset. destruct (decide (p.1 = name)) as [<-|Hne].
    + by rewrite decide_True.
    + by rewrite decide_False by naive_solver.
Qed.

Lemma set_default_keeps environ p name :
  env_set environ name = true →
  env_set (set_default_env environ p) name = true ∧
  dget (set_default_env environ p) name = dget environ name.
Proof.
  intros H. unfold env_set at 1. rewrite set_default_get.
  rewrite decide_False by (intros [-> ?]; congruence). split; [exact H | done].
Qed.

Lemma set_defaults_keep ps environ name :
  env_set environ name = true →
  dget (fold_left set_default_env ps environ) name = dget environ name.
Proof.
  revert environ. induction ps as [|p ps IH]; intros environ H; [done|]. simpl.
  destruct (set_default_keeps environ p name H) as [H1 H2]. by rewrite IH, H2.
Qed.

Lemma set_defaults_present ps environ name :
  name ∈ map fst ps ∨ is_Some (dget environ name) →
  is_Some (dget (fold_left set_default_env ps environ) name).
Proof.
  revert environ. induction ps as [|p ps IH]; intros environ H; simpl.
  { destruct H as [H|H]; [by apply not_elem_of_nil in H | done]. }
  apply IH. simpl in H. rewrite elem_of_cons in H.
  destruct (decide (name ∈ map fst ps)) as [Hin|Hnin]; [by left|]. right.
  rewrite set_default_get. case_decide as Hd; [by eexists|].
  destruct H as [[->|?]|?]; [|done|done].
  destruct (env_set environ p.1) eqn:E; [|by destruct Hd].
  unfold env_set in E. by destruct (dget environ p.1).
Qed.

Lemma set_defaults_other ps environ name :
  name ∉ map fst ps → dget (fold_left set_default_env ps environ) name = dget environ name.
Proof.
  revert environ. induction ps as [|p ps IH]; intros environ H; [done|]. simpl in *.
  apply not_elem_of_cons in H as [Hne H]. rewrite IH by done. rewrite set_default_get.
  by rewrite decide_False by naive_solver.
Qed.

(** The generic defaults only fill gaps: a variable that has a value keeps
    it, every variable of the generic configuration has one afterwards, the
    directory is switched off exactly when no parent is configured and the
    user did not decide, and no other variable is touched. *)
Theorem generic_defaults_fill (uuid8 path : string) (environ : env_dict) (name : string) :
  let e := setup_generic_config_defaults uuid8 path environ in
  (env_set environ name = true → dget e name = dget environ name) ∧
  (name ∈ map fst (generic_defaults "" "") → is_Some (dget e name)) ∧
  (name ∉ map fst (generic_defaults "" "") → name ≠ "DEFW_DISABLE_DIRSVC" →
     dget e name = dget environ name) ∧
  dget e "DEFW_DISABLE_DIRSVC" =
    (if existsb (env_set environ) parent_vars || env_set environ "DEFW_DISABLE_DIRSVC"
     then dget environ "DEFW_DISABLE_DIRSVC" else Some "yes").
Proof.
  unfold setup_generic_config_defaults.
  match goal with |- context [generic_defaults ?x path] => set (n := x) end.
  change (map fst (generic_defaults "" "")) with (map fst (generic_defaults n path)).
  set (e0 := if existsb (env_set environ) parent_vars then environ else _).
  split_and!.
  - intros H. assert (env_set e0 name = true ∧ dget e0 name = dget environ name) as [H1 H2].
    { unfold e0. case_match; [by split | by apply set_default_keeps]. }
    by rewrite set_defaults_keep, H2.
  - intros H. apply set_defaults_present. by left.
  - intros H Hne. rewrite set_defaults_other by done. unfold e0. case_match; [done|].
    rewrite set_default_get. by rewrite decide_False by (intros [-> _]; done).
  - rewrite set_defaults_other by (apply (bool_decide_unpack (_ ∉ _)); vm_compute; done).
    unfold e0. destruct (existsb (env_set environ) parent_vars); [done|].
    rewrite set_default_get. simpl. destruct (env_set environ "DEFW_DISABLE_DIRSVC"); [|done].
    by rewrite decide_False by naive_solver.
Qed.

(** ** The native settings *)

Definition numeric (d : pydict) (key : string) : Prop := ∃ n, number d key = Ok n.
Definition textual (d : pydict) (key : string) : Prop := ∃ s, setting d key = Ok s.

(** A configuration that names its path, shell, type and (unless the directory
    is switched off) its parent is accepted whatever the other settings are:
    each one that is missing or malformed falls back to its default.  The
    listen address always falls back. *)
Theorem configure_fallbacks (w : surroundings) (disabled : bool) (config d : pydict) (ty : string) :
  dget config "defw" = Some (VDict d) →
  textual d "path" → textual d "shell" → setting d "type" = Ok ty →
  (disabled = false → textual d "parent-name" ∧ numeric d "parent-port" ∧
                      (textual d "parent-address" ∨ textual d "parent-hostname")) →
  ∃ n, configure_native w disabled config = Ok n ∧
    n_listen_address n = "" ∧
    (¬ numeric d "listen-port" →
       n_listen_port n = if String.eqb (upper ty) "AGENT" then 8091 else 8090) ∧
    (∀ p, number d "listen-port" = Ok p → n_listen_port n = p) ∧
    (¬ numeric d "telnet-port" → n_telnet_port n = random_port w) ∧
    (¬ textual d "name" → n_node_name n = random_name w) ∧
    (∀ s, setting d "name" = Ok s → n_node_name n = s) ∧
    (¬ textual d "loglevel" → n_log_level n = "EN_LOG_LEVEL_ERROR") ∧
    (disabled = true → n_parent_name n = "None" ∧ n_parent_port n = 0).
Proof.
  intros Hd [path Hpath] [mode Hmode] Hty Hpar. unfold configure_native, section, vindex at 1.
  rewrite Hd. cbn [rbind]. rewrite Hpath. cbn [rbind].
  assert (∃ p, configure_parent w disabled d = Ok p ∧ (disabled = true → p.1.1.1.1 = "None" ∧ p.1.1.1.2 = 0))
    as ([[[[pn pp] pa] ph] hn] & -> & Hp).
  { unfold configure_parent. destruct disabled; [by eexists|].
    destruct Hpar as ([pn Hn] & [pp Hpp] & Hor); [done|]. rewrite Hn, Hpp. cbn [rbind].
    assert (negb (dmem d "parent-address") && negb (dmem d "parent-hostname") = false) as ->; [|by eexists].
    apply andb_false_iff. destruct Hor as [[s Hs]|[s Hs]]; [left | right];
      unfold setting, vindex in Hs; unfold dmem; by destruct (dget d _). }
  cbn [rbind]. rewrite Hmode. cbn [rbind]. rewrite Hty. cbn [rbind]. eexists. split; [reflexivity|].
  cbn [n_listen_address n_listen_port n_telnet_port n_node_name n_log_level n_parent_name n_parent_port].
  assert (∀ {A} (r : res A) (x : A), ¬ (∃ a, r = Ok a) → or_else r x = x) as Hel
    by (intros A [a|] x Hn; [by destruct Hn; exists a | done]).
  split_and!.
  - unfold listen_address_of. by destruct (number d "listen-address").
  - intros Hn. unfold listen_port_of. by apply Hel.
  - intros p Hn. unfold listen_port_of. by rewrite Hn.
  - by apply Hel.
  - by apply Hel.
  - intros s Hs. by rewrite Hs.
  - intros Hn. apply Hel. intros [a Ha]. apply Hn. unfold textual.
    destruct (setting d "loglevel") as [s|]; [by exists s | done].
  - exact Hp.
Qed.

(** ** Examples *)

Definition demo_kw : keywords := Keywords "2026-1-1" "10.30".

Example resolve_mixed :
  resolve_env_var (lookup_var demo_kw ["defw"; "tmp"] [("HOME", "/root")])
    "${HOME}/x/${YNEAR}-${DATE}" = "/root/x/tmp-2026-1-1" ∧
  resolve_env_var (lookup_var demo_kw [] [("HOME", "/root")]) "a/${NOPE}/bin:${HOME}" = "a//root".
Proof. split; reflexivity. Qed.

Definition demo_template : template :=
  Template (chars "lib:") [(chars "HOME", chars "/lib:"); (chars "NOPE", chars "/bin")].

Lemma resolve_env_var_substitutes_witness :
  template_ok demo_template ∧
  resolve_env_var (lookup_var demo_kw [] [("HOME", "/root")]) "lib:${HOME}/lib:${NOPE}/bin" =
  "lib:/root/lib:".
Proof.
  assert (template_ok demo_template) as H
    by (apply (bool_decide_unpack (template_ok _)); vm_compute; exact I).
  split; [exact H|].
  exact (resolve_env_var_substitutes (lookup_var demo_kw [] [("HOME", "/root")]) demo_template H).
Defined.

Definition demo_config : pydict :=
  [("environment", VDict [("ROOT", VStr "/opt/x")]);
   ("defw", VDict [("path", VStr "${ROOT}/defw"); ("shell", VStr "daemon"); ("type", VStr "agent");
                   ("listen-address", VStr "10.0.0.7")])].

Lemma config_sees_environment_witness :
  ∃ environ' config', resolve_environment_vars demo_kw [] demo_config = Ok (environ', config') ∧
    dget environ' "ROOT" = Some "/opt/x" ∧
    (vget_or (match dget config' "defw" with Some (VDict d) => d | _ => [] end) "path" VNone =
     VStr "/opt/x/defw").
Proof.
  destruct (resolve_environment_vars demo_kw [] demo_config) as [[environ' config']|] eqn:E;
    [|vm_compute in E; discriminate E].
  destruct (config_sees_environment demo_kw [] environ' demo_config config' [("ROOT", VStr "/opt/x")]
              "ROOT" "/opt/x") as [H1 H2]; try reflexivity; try exact E.
  - apply NoDup_singleton.
  - split; discriminate.
  - apply (bool_decide_unpack (_ ∉ _)). vm_compute. exact I.
  - exists environ', config'. split; [reflexivity|]. split; [exact H1|].
    rewrite (H2 "defw") by discriminate. vm_compute in E. injection E as <- _. reflexivity.
Defined.

Lemma external_paths_first_witness :
  setup_external_paths ["/a"; "/b"] true ["/x"; "/b"; "/y"] = ["/a"; "/b"; "/x"; "/y"].
Proof.
  assert (NoDup ["/a"; "/b"]) as H1 by (apply (bool_decide_unpack (NoDup _)); vm_compute; exact I).
  assert (NoDup ["/x"; "/b"; "/y"]) as H2 by (apply (bool_decide_unpack (NoDup _)); vm_compute; exact I).
  exact (proj1 (external_paths_first ["/a"; "/b"] ["/x"; "/b"; "/y"] H1 H2)).
Defined.

Definition demo_world : surroundings :=
  Surroundings "/cwd" "node1" 12345 "abcde" "0a1b2c3d" demo_kw (λ _, None).

Lemma configure_fallbacks_witness :
  ∃ n, configure_native demo_world true demo_config = Ok n ∧
    n_listen_address n = "" ∧ n_listen_port n = 8091 ∧ n_telnet_port n = 12345.
Proof.
  destruct (configure_fallbacks demo_world true demo_config
              [("path", VStr "${ROOT}/defw"); ("shell", VStr "daemon"); ("type", VStr "agent");
               ("listen-address", VStr "10.0.0.7")] "agent")
    as (n & H & H1 & H2 & _ & H3 & _); try reflexivity; try (by eexists); try discriminate.
  exists n. split; [exact H|]. split; [exact H1|]. split.
  - apply H2. intros [p Hp]. discriminate Hp.
  - apply H3. intros [p Hp]. discriminate Hp.
Defined.
