(* ===== verification/Docs.v ===== *)
(** * Requirement documents ([Documentation] and [Script.create_docs] of
    [python/infra/defw.py], 322-475)

    The comment block at the top of an experiment script is cut into five
    tagged sections, which become one row in each of three CSV files.  The
    files are a dict from path to rows. *)

From S2P Require Import Prelude PyDict PyVal.
From Stdlib Require Import Ascii.

Local Open Scope string_scope.
Local Open Scope list_scope.

(** ** The comment block *)

Inductive tag := Prim | PrimDesc | Sec | Design | TestCase.

#[export] Instance tag_eq_dec : EqDecision tag.
Proof. solve_decision. Defined.

(** The line that opens and closes the block: three double quotes. *)
Definition fence : string := String dquote (String dquote (String dquote EmptyString)).

(** The stripped lines between the first two fences (or up to the end). *)
Fixpoint extract_doc (start : bool) (lines : list string) : list string :=
  match lines with
  | [] => []
  | l :: lines' =>
      if String.eqb (strip l) fence then if start then [] else extract_doc true lines'
      else if start then strip l :: extract_doc start lines'
      else extract_doc start lines'
  end.

Definition contains (needle s : string) : bool :=
  match String.index 0 needle s with Some _ => true | None => false end.

Definition drop_str (n : nat) (s : string) : string :=
  String.substring n (String.length s - n) s.

(** [s.split(needle)[1]] *)
Definition split_second (needle s : string) : string :=
  match String.index 0 needle s with
  | None => ""
  | Some i =>
      let rest := drop_str (i + String.length needle) s in
      match String.index 0 needle rest with
      | Some j => String.substring 0 j rest
      | None => rest
      end
  end.

Definition tags : list (string * tag) :=
  [("@PRIMARY:", Prim); ("@PRIMARY_DESC:", PrimDesc); ("@SECONDARY:", Sec); ("@DESIGN:", Design);
   ("@TESTCASE:", TestCase)].

(** The section a line opens, with the text after the tag. *)
Definition classify (l : string) : option (tag * string) :=
  match List.find (λ p, contains p.1 l) tags with
  | Some (word, t) => Some (t, strip (split_second word l))
  | None => None
  end.

(** [meta]: the text of each section, and the one being read. *)
Record meta := Meta {
  m_txt : tag → list string;
  m_open : option tag
}.

Definition new_meta : meta := Meta (λ _, []) None.

Definition append_txt (t : tag) (s : string) (m : meta) : tag → list string :=
  λ u, if decide (u = t) then m_txt m u ++ [s] else m_txt m u.

Definition nl : string := String "010"%char EmptyString.

Definition meta_step (m : meta) (l : string) : meta :=
  match classify l with
  | Some (t, s) => Meta (append_txt t s m) (Some t)
  | None =>
      match m_open m with
      | Some t => Meta (append_txt t (nl ++ l)%string m) (m_open m)
      | None => m
      end
  end.

Definition parse_doc (doc : list string) : meta := fold_left meta_step doc new_meta.

(** The pieces of a section, joined. *)
Definition section_text (m : meta) (t : tag) : string := String.concat "" (m_txt m t).

(** ** The files *)

Definition csv_files : Type := odict string (list (list string)).

Record documentation := Documentation { req_path : string; hld_path : string; tp_path : string }.

(** [os.path.splitext(name)[0]]: what precedes the last dot of the last path
    component, leading dots apart. *)
Fixpoint split_at_dot (l : list ascii) : option (list ascii) :=
  match l with
  | [] => None
  | c :: l' => if Ascii.eqb c "/" then None
               else if Ascii.eqb c "." then Some l'
               else split_at_dot l'
  end.

Definition stem (name : string) : string :=
  match split_at_dot (rev (String.list_ascii_of_string name)) with
  | Some before =>
      match before with
      | [] => name
      | c :: _ => if forallb (Ascii.eqb ".") before || Ascii.eqb c "/" then name
                  else String.string_of_list_ascii (rev before)
      end
  | None => name
  end.

Definition doc_paths (defw_path base_name : string) : documentation :=
  let dir := path_join defw_path "documentation" in
  Documentation (path_join dir (stem base_name ++ "_req.csv"))
    (path_join dir (stem base_name ++ "_hld.csv")) (path_join dir (stem base_name ++ "_tp.csv")).

(** [open(path, 'w')] and a row; [open(path, 'a+')] and a row. *)
Definition write_new (path : string) (row : list string) (fs : csv_files) : csv_files :=
  dset fs path [row].
Definition append_row (path : string) (row : list string) (fs : csv_files) : csv_files :=
  dset fs path (dget_or fs path [] ++ [row]).

Definition req_header : list string := ["Test Case ID"; "Requirement Id"; "Requirement Description"].
Definition hld_header : list string := ["Test Case ID"; "Requirement Id"; "Design Notes"].
Definition tp_header : list string :=
  ["Test Case ID"; "Primary Requirement Id"; "Secondary Requirement Id"; "Test Case"].

(** The three header writers; each looks at the requirements file. *)
Definition req_writeheader (d : documentation) (fs : csv_files) : csv_files :=
  if dmem fs (req_path d) then fs else write_new (req_path d) req_header fs.
Definition hld_writeheader (d : documentation) (fs : csv_files) : csv_files :=
  if dmem fs (req_path d) then fs else write_new (hld_path d) hld_header fs.
Definition tp_writeheader (d : documentation) (fs : csv_files) : csv_files :=
  if dmem fs (req_path d) then fs else write_new (tp_path d) tp_header fs.

(** [Documentation.__init__] *)
Definition new_documentation (defw_path base_name : string) (fs : csv_files) :
    documentation * csv_files :=
  let d := doc_paths defw_path base_name in
  (d, tp_writeheader d (hld_writeheader d (req_writeheader d fs))).

Definition req_writerow (d : documentation) (req_id req_desc fname : string) : csv_files → csv_files :=
  append_row (req_path d) [fname; req_id; req_desc].
Definition hld_writerow (d : documentation) (req_id design fname : string) : csv_files → csv_files :=
  append_row (hld_path d) [fname; req_id; design].
Definition tp_writerow (d : documentation) (preq_id sreq_id tc fname : string) :
    csv_files → csv_files :=
  append_row (tp_path d) [fname; preq_id; sreq_id; tc].

(** [Script.create_docs] on the lines of the script *)
Definition create_docs (defw_path csvfile name : string) (lines : list string) (fs : csv_files) :
    csv_files :=
  match extract_doc false lines with
  | [] => fs
  | doc =>
      let m := parse_doc doc in
      let (d, fs) := new_documentation defw_path csvfile fs in
      let fs := req_writerow d (section_text m Prim) (section_text m PrimDesc) name fs in
      let fs := hld_writerow d (section_text m Prim) (section_text m Design) name fs in
      tp_writerow d (section_text m Prim) (section_text m Sec) (section_text m TestCase) name fs
  end.

(** ** Parsing *)

(** A section: the line that opens it and the lines that continue it. *)
Record section := DocSection { s_tag : tag; s_first : string; s_line : string; s_rest : list string }.

Definition section_ok (s : section) : Prop :=
  classify (s_line s) = Some (s_tag s, s_first s) ∧ Forall (λ l, classify l = None) (s_rest s).

Definition section_lines (s : section) : list string := s_line s :: s_rest s.

(** The pieces of text a section contributes. *)
Definition section_pieces (s : section) : list string :=
  s_first s :: map (λ l, (nl ++ l)%string) (s_rest s).

Definition pieces_of (t : tag) (ss : list section) : list string :=
  flat_map (λ s, if decide (s_tag s = t) then section_pieces s else []) ss.

Lemma continue_section ls t m :
  Forall (λ l, classify l = None) ls → m_open m = Some t →
  m_open (fold_left meta_step ls m) = Some t ∧
  ∀ u, m_txt (fold_left meta_step ls m) u =
       m_txt m u ++ (if decide (t = u) then map (λ l, (nl ++ l)%string) ls else []).
Proof.
  intros Hls. revert m. induction Hls as [|l ls Hl Hls IH]; intros m Ho; simpl.
  { split; [done|]. intros u. case_decide; by rewrite app_nil_r. }
  unfold meta_step at 2 4. rewrite Hl, Ho.
  destruct (IH (Meta (append_txt t (nl ++ l)%string m) (Some t)) eq_refl) as [H1 H2].
  split; [done|]. intros u. rewrite H2. simpl. unfold append_txt.
  destruct (decide (u = t)) as [->|Hne].
  - rewrite !decide_True by done. by rewrite <- app_assoc.
  - by rewrite !decide_False by congruence.
Qed.

Lemma parse_sections ss m :
  Forall section_ok ss →
  ∀ u, m_txt (fold_left meta_step (flat_map section_lines ss) m) u = m_txt m u ++ pieces_of u ss.
Proof.
  intros Hss. revert m. induction Hss as [|s ss [Hl Hr] Hss IH]; intros m u; simpl.
  { by rewrite app_nil_r. }
  rewrite fold_left_app, IH. unfold meta_step at 2. rewrite Hl.
  destruct (continue_section (s_rest s) (s_tag s) (Meta (append_txt (s_tag s) (s_first s) m) (Some (s_tag s)))
              Hr eq_refl) as [_ H2].
  rewrite H2. simpl. unfold append_txt. destruct (decide (u = s_tag s)) as [->|Hne].
  - rewrite !decide_True by done. by rewrite <- !app_assoc.
  - rewrite !decide_False by congruence. by rewrite app_nil_r.
Qed.

Lemma preamble_ignored pre : Forall (λ l, classify l = None) pre → fold_left meta_step pre new_meta = new_meta.
Proof. induction 1 as [|l pre Hl Hpre IH]; [done|]. simpl. unfold meta_step at 2. by rewrite Hl. Qed.

(** The document parser finds the sections: text before the first tag is
    ignored, and the text of a tag is that of its sections, in order, with the
    continuation lines kept on lines of their own, wherever the sections
    stand. *)
Theorem doc_sections_found (pre : list string) (ss : list section) (t : tag) :
  Forall (λ l, classify l = None) pre → Forall section_ok ss →
  section_text (parse_doc (pre ++ flat_map section_lines ss)) t = String.concat "" (pieces_of t ss).
Proof.
  intros Hpre Hss. unfold section_text, parse_doc.
  by rewrite fold_left_app, preamble_ignored, parse_sections.
Qed.

(** The header of the design and test-plan files is never written: the
    requirements file, which their writers look at, has just been created. *)
Theorem headers_never_written (defw_path base_name : string) (fs : csv_files) :
  let '(d, fs') := new_documentation defw_path base_name fs in
  req_path d ≠ hld_path d → req_path d ≠ tp_path d →
  dget fs' (hld_path d) = dget fs (hld_path d) ∧ dget fs' (tp_path d) = dget fs (tp_path d) ∧
  dget fs' (req_path d) = (match dget fs (req_path d) with
                           | Some rows => Some rows
                           | None => Some [req_header]
                           end).
Proof.
  unfold new_documentation. set (d := doc_paths defw_path base_name). intros H1 H2.
  assert (dmem (req_writeheader d fs) (req_path d) = true) as Hm.
  { unfold req_writeheader. destruct (dmem fs (req_path d)) eqn:E; [done|].
    unfold write_new, dmem. by rewrite dget_dset_eq. }
  unfold hld_writeheader. rewrite Hm. unfold tp_writeheader. rewrite Hm.
  unfold req_writeheader, dmem. destruct (dget fs (req_path d)) eqn:E; [done|].
  unfold write_new. by rewrite dget_dset_eq, !dget_dset_ne.
Qed.

(** ** Examples *)

Definition demo_doc : list string :=
  [fence; "A test."; "@PRIMARY: REQ-1"; "@PRIMARY_DESC: connects"; "and reconnects";
   "@TESTCASE: start, stop"; fence; "import x"].

Example demo_docs :
  dvals (create_docs "/d" "out.csv" "exp_a" demo_doc []) =
  [[req_header; ["exp_a"; "REQ-1"; ("connects" ++ nl ++ "and reconnects")%string]];
   [["exp_a"; "REQ-1"; ""]]; [["exp_a"; "REQ-1"; ""; "start, stop"]]].
Proof. vm_compute. reflexivity. Qed.

Lemma doc_sections_found_witness :
  section_text (parse_doc ["A test."; "@PRIMARY: REQ-1"; "@PRIMARY_DESC: connects"; "and reconnects"])
    PrimDesc = ("connects" ++ nl ++ "and reconnects")%string.
Proof.
  apply (doc_sections_found ["A test."]
           [DocSection Prim "REQ-1" "@PRIMARY: REQ-1" [];
            DocSection PrimDesc "connects" "@PRIMARY_DESC: connects" ["and reconnects"]] PrimDesc);
    repeat constructor.
Defined.

Lemma headers_never_written_witness :
  let '(d, fs') := new_documentation "/d" "out.csv" [] in
  dget fs' (hld_path d) = None ∧ dget fs' (req_path d) = Some [req_header].
Proof.
  assert (req_path (doc_paths "/d" "out.csv") ≠ hld_path (doc_paths "/d" "out.csv")) as H1
    by (vm_compute; discriminate).
  assert (req_path (doc_paths "/d" "out.csv") ≠ tp_path (doc_paths "/d" "out.csv")) as H2
    by (vm_compute; discriminate).
  destruct (headers_never_written "/d" "out.csv" [] H1 H2) as (H3 & _ & H4).
  split; [exact H3 | exact H4].
Defined.
