(* ===== verification/Glob.v ===== *)
(** * Shell patterns and [sorted]

    [fnmatch.fnmatch] decides which experiment scripts and suites an operation
    applies to ([python/infra/defw.py], [Collection] and [Suites]).  The
    pattern is read into tokens the way the standard library translates it to
    a regular expression; [tmatch] is the matcher and [denotes] the set of
    texts a pattern stands for. *)

From S2P Require Import Prelude PyDict PyVal.
From stdpp Require Import sorting.
From Stdlib Require Import Ascii.

Local Open Scope string_scope.
Local Open Scope list_scope.

(** ** Tokens *)

(** An element of a bracket: a range of characters, a single one included. *)
Record crange := CRange { c_from : ascii; c_to : ascii }.

Inductive token :=
  | TStar
  | TAny
  | TChar (c : ascii)
  | TSet (negated : bool) (ranges : list crange).

Definition in_range (c : ascii) (r : crange) : bool :=
  Nat.leb (nat_of_ascii (c_from r)) (nat_of_ascii c) &&
  Nat.leb (nat_of_ascii c) (nat_of_ascii (c_to r)).

(** The ranges of a bracket: [a-b] is a range, any other character, a hyphen
    at either end included, stands for itself. *)
Fixpoint set_ranges (skip : nat) (l : list ascii) : list crange :=
  match l with
  | [] => []
  | c :: l' =>
      match skip with
      | S k => set_ranges k l'
      | O =>
          match l' with
          | h :: e :: _ => if Ascii.eqb h "-" then CRange c e :: set_ranges 2 l'
                           else CRange c c :: set_ranges 0 l'
          | _ => CRange c c :: set_ranges 0 l'
          end
      end
  end.

(** The characters before the next closing bracket. *)
Fixpoint until_close (l : list ascii) : option (list ascii) :=
  match l with
  | [] => None
  | c :: l' => if Ascii.eqb c "]" then Some [] else cons c <$> until_close l'
  end.

(** What follows an opening bracket: an optional [!], then the elements, of
    which the first may be a closing bracket. *)
Definition bracket_body (l : list ascii) : option (list ascii) :=
  match l with
  | "]"%char :: l' => cons "]"%char <$> until_close l'
  | _ => until_close l
  end.

(** The token of a bracket and how many characters it takes after the opening
    one; [None] when it is not closed. *)
Definition bracket (l : list ascii) : option (token * nat) :=
  match l with
  | "!"%char :: l' =>
      (λ body, (TSet true (set_ranges 0 body), 2 + length body)) <$> bracket_body l'
  | _ => (λ body, (TSet false (set_ranges 0 body), 1 + length body)) <$> bracket_body l
  end.

Fixpoint pattern_tokens (skip : nat) (l : list ascii) : list token :=
  match l with
  | [] => []
  | c :: l' =>
      match skip with
      | S k => pattern_tokens k l'
      | O =>
          if Ascii.eqb c "*" then TStar :: pattern_tokens 0 l'
          else if Ascii.eqb c "?" then TAny :: pattern_tokens 0 l'
          else if Ascii.eqb c "[" then
            match bracket l' with
            | Some (t, n) => t :: pattern_tokens n l'
            | None => TChar c :: pattern_tokens 0 l'
            end
          else TChar c :: pattern_tokens 0 l'
      end
  end.

(** ** Matching *)

(** Whether one character is what a token other than the star asks for. *)
Definition token_char (t : token) (c : ascii) : bool :=
  match t with
  | TStar => false
  | TAny => true
  | TChar d => Ascii.eqb c d
  | TSet negated ranges => xorb negated (existsb (in_range c) ranges)
  end.

Definition is_empty (s : list ascii) : bool := match s with [] => true | _ => false end.

Fixpoint tmatch (p : list token) : list ascii → bool :=
  match p with
  | [] => is_empty
  | TStar :: p' =>
      fix star (s : list ascii) : bool :=
        tmatch p' s || match s with [] => false | _ :: s' => star s' end
  | t :: p' =>
      λ s, match s with [] => false | c :: s' => token_char t c && tmatch p' s' end
  end.

(** [fnmatch.fnmatch(name, pat)] on a POSIX system *)
Definition fnmatch (name pat : string) : bool :=
  tmatch (pattern_tokens 0 (String.list_ascii_of_string pat)) (String.list_ascii_of_string name).

(** The texts a pattern stands for: the star takes any text, another token
    one character. *)
Inductive denotes : list token → list ascii → Prop :=
  | denotes_nil : denotes [] []
  | denotes_star p s s' : denotes p s' → denotes (TStar :: p) (s ++ s')
  | denotes_char t p c s : token_char t c = true → denotes p s → denotes (t :: p) (c :: s).

Lemma star_matches p s s' : tmatch p s' = true → tmatch (TStar :: p) (s ++ s') = true.
Proof.
  intros H. induction s as [|c s IH]; simpl; [destruct s'; by rewrite H|].
  apply orb_true_iff. by right.
Qed.

Lemma star_inv p s : tmatch (TStar :: p) s = true → ∃ s1 s2, s = s1 ++ s2 ∧ tmatch p s2 = true.
Proof.
  induction s as [|c s IH]; simpl.
  - intros [H|?]%orb_true_iff; [|done]. by exists [], [].
  - intros [H|H]%orb_true_iff; [by exists [], (c :: s)|].
    destruct (IH H) as (s1 & s2 & -> & ?). by exists (c :: s1), s2.
Qed.

Lemma tmatch_cons t p c s :
  token_char t c = true → tmatch p s = true → tmatch (t :: p) (c :: s) = true.
Proof. intros H1 H2. destruct t; [done|..]; cbn [tmatch]; by rewrite H1, H2. Qed.

Lemma tmatch_denotes p s : tmatch p s = true ↔ denotes p s.
Proof.
  split.
  - revert s. induction p as [|t p IH]; intros s.
    + destruct s; [constructor | done].
    + destruct t as [| |d|ng rs].
      * intros (s1 & s2 & -> & H)%star_inv. constructor. auto.
      * destruct s as [|c s]; [done|]. intros [? ?]%andb_true_iff. by constructor; auto.
      * destruct s as [|c s]; [done|]. intros [? ?]%andb_true_iff. by constructor; auto.
      * destruct s as [|c s]; [done|]. intros [? ?]%andb_true_iff. by constructor; auto.
  - induction 1; [done | by apply star_matches | by apply tmatch_cons].
Qed.

Lemma fnmatch_all name : fnmatch name "*" = true.
Proof.
  unfold fnmatch. apply tmatch_denotes.
  rewrite <- (app_nil_r (String.list_ascii_of_string name)). repeat constructor.
Qed.

(** A pattern without special characters matches its own text only. *)
Definition plain_char (c : ascii) : bool :=
  negb (Ascii.eqb c "*" || Ascii.eqb c "?" || Ascii.eqb c "[").

Lemma plain_tokens l : forallb plain_char l = true → pattern_tokens 0 l = map TChar l.
Proof.
  induction l as [|c l IH]; [done|]. simpl. intros [Hc Hl]%andb_true_iff.
  apply negb_true_iff in Hc. apply orb_false_iff in Hc as [[H1 H2]%orb_false_iff H3].
  by rewrite H1, H2, H3, IH.
Qed.

Lemma tmatch_chars l s : tmatch (map TChar l) s = true ↔ s = l.
Proof.
  revert s. induction l as [|c l IH]; intros [|d s]; simpl; try done.
  rewrite andb_true_iff, Ascii.eqb_eq, IH. naive_solver.
Qed.

(** The matcher of script and suite names accepts exactly the texts its
    pattern denotes: a star any text, a question mark any character, a bracket
    the characters of its ranges or, negated, all others, and everything else
    itself; so that a pattern free of these selects one name. *)
Theorem fnmatch_exact (name pat : string) :
  (fnmatch name pat = true ↔
   denotes (pattern_tokens 0 (String.list_ascii_of_string pat)) (String.list_ascii_of_string name)) ∧
  fnmatch name "*" = true ∧
  (forallb plain_char (String.list_ascii_of_string pat) = true → (fnmatch name pat = true ↔ name = pat)).
Proof.
  split_and!; [apply tmatch_denotes | apply fnmatch_all|]. intros Hp. unfold fnmatch.
  rewrite plain_tokens, tmatch_chars by done. split; [|by intros ->]. intros H.
  rewrite <- (String.string_of_list_ascii_of_string name), H.
  apply String.string_of_list_ascii_of_string.
Qed.

(** ** [sorted] on texts *)

Definition str_le (a b : string) : Prop := String.leb a b = true.

#[export] Instance str_le_dec : RelDecision str_le.
Proof. intros a b. unfold str_le. apply _. Defined.

#[export] Instance str_le_total : Total str_le.
Proof.
  intros a b. unfold str_le, String.leb. rewrite (String.compare_antisym b a).
  destruct (String.compare a b); simpl; auto.
Qed.

(** [sorted(keys)] *)
Definition sorted (l : list string) : list string := merge_sort str_le l.

Lemma sorted_perm l : sorted l ≡ₚ l.
Proof. apply merge_sort_Permutation. Qed.

Lemma sorted_sorted l : Sorted str_le (sorted l).
Proof. apply (Sorted_merge_sort str_le). Qed.

Example fnmatch_examples :
  map (λ p, fnmatch (fst p) (snd p))
    [("exp_12", "exp_*"); ("exp_12", "*_1?"); ("exp_12", "exp_[0-3][!0-1]"); ("exp_12", "exp_[!0-3]*");
     ("a-b", "a[x-]b"); ("a]b", "a[]]b"); ("a[b", "a[b"); ("ab", "a[b-a]")] =
  [true; true; true; false; true; true; true; false].
Proof. reflexivity. Qed.
