(* ===== verification/Suites.v ===== *)
(** * Experiment scripts, suites and service modules
    ([python/infra/defw.py], 44-56, 372-397 and 480-960)

    A suite directory holds scripts; [Collection] finds them, [ASuite] adds
    the skip and expected-failure lists, [Suites] holds the suites below the
    search paths, and [ServiceSuitesBase] loads service packages instead.
    Running a script imports it, calls a function of it and records the
    result.

    The file system, the imported modules, the clock and the files are the
    arguments of the section.  What a module does may depend on everything
    done before it, which is the log [acts] of the state; the module cache
    [sys.modules] is part of that outside.  Of the names
    [MethodInterceptor] can disable, the model covers the operations below,
    not the helpers they call on themselves. *)

From S2P Require Import Prelude PyDict PyVal Results Config Docs Glob.
From Stdlib Require Import Ascii SpecFloat.

Local Open Scope string_scope.
Local Open Scope Z_scope.
Local Open Scope list_scope.
Import PyNotations.
Local Open Scope py_scope.

(** ** Texts and paths *)

Fixpoint starts_with (p s : list ascii) : bool :=
  match p, s with
  | [], _ => true
  | c :: p', d :: s' => Ascii.eqb c d && starts_with p' s'
  | _ :: _, [] => false
  end.

Fixpoint remove_chars (p : list ascii) (skip : nat) (s : list ascii) : list ascii :=
  match s with
  | [] => []
  | c :: s' =>
      match skip with
      | S k => remove_chars p k s'
      | O => if starts_with p s then remove_chars p (length p - 1) s'
             else c :: remove_chars p 0 s'
      end
  end.

(** [s.replace(p, '')] *)
Definition str_remove (p s : string) : string :=
  if String.eqb p "" then s
  else String.string_of_list_ascii
         (remove_chars (String.list_ascii_of_string p) 0 (String.list_ascii_of_string s)).

(** [os.path.splitext(f)[1]] *)
Definition extension (f : string) : string := drop_str (String.length (stem f)) f.

(** ** Data *)

Record script := Script {
  sc_name : string;
  sc_path : string;
  sc_prefix : string;
  sc_suite : string;
  sc_disabled : list string
}.

Record collection := Collection {
  co_suite : string;
  co_path : string;
  co_prefix : string;
  co_skip : list val;
  co_expected : val;
  co_disabled : list string;
  co_db : odict string script
}.

Record asuite := ASuite {
  as_name : string;
  as_base : string;
  as_prefix : string;
  as_disabled : list string;
  as_skip : list val;
  as_expected : val;
  as_scripts : collection
}.

Record suites := Suites {
  su_paths : list string;
  su_suite_prefix : string;
  su_prefix : string;
  su_disabled : list string;
  su_db : odict string asuite
}.

(** What is done to the outside. *)
Inductive act :=
  | AImport (name : string)
  | ACall (name method : string)
  | ANoop (method : string)
  | AHeader (text : string)
  | ALoad (path name : string)
  | AInit (path name : string)
  | AUninit (path name : string).

Record world := World {
  sys_path : list string;
  global_test_results : list suite;
  csv : csv_files;
  acts : list act
}.

Definition log (a : act) (w : world) : world :=
  World (sys_path w) (global_test_results w) (csv w) (acts w ++ [a]).
Definition set_sys_path (p : list string) (w : world) : world :=
  World p (global_test_results w) (csv w) (acts w).
Definition set_results (r : list suite) (w : world) : world :=
  World (sys_path w) r (csv w) (acts w).
Definition set_csv (f : csv_files) (w : world) : world :=
  World (sys_path w) (global_test_results w) f (acts w).

(** What calling a function of a script gives: a value, or an exception with
    its [halt] flag and the text of [traceback.format_exc()]. *)
Inductive outcome :=
  | Returned (r : raw_result)
  | Raised (e : pyexc) (halt : bool) (trace : string).

(** A [skip] module: its two attributes. *)
Record skip_module := SkipModule { skip_list : option val; expected_failures : option val }.

(** A loaded service package. *)
Record service_module := ServiceModule { sm_path : string; sm_dir : string }.

Inductive method := Run | Initialize.

Definition method_name (m : method) : string :=
  match m with Run => "run" | Initialize => "initialize" end.

(** ** Progress: [int((executed / num_scripts) * 100)] in binary64 *)

Definition float_of (n : Z) : spec_float := binary_normalize 53 1024 n 0 false.

(** [int(f)] of a finite float *)
Definition truncate (f : spec_float) : Z :=
  match f with
  | S754_finite neg m e =>
      let a := if 0 <=? e then Z.pos m * 2 ^ e else Z.pos m / 2 ^ (- e) in
      if neg then - a else a
  | _ => 0
  end.

Definition progress_of (executed num_scripts : Z) : res Z :=
  if num_scripts =? 0 then Raise (Exc EZeroDivisionError "division by zero")
  else Ok (truncate (SFmul 53 1024 (SFdiv 53 1024 (float_of executed) (float_of num_scripts))
                       (float_of 100))).

Section Suites.
(** [os.walk]: the directories visited with their subdirectories and files;
    nothing for a path that is no directory. *)
Context (walk : string → list (string * list string * list string)).
(** Importing and reloading a script; calling a function of it, [None] when
    the module has no such attribute. *)
Context (import_script : list act → string → res unit).
Context (call_script : list act → string → string → option outcome).
(** The [skip] module of a suite. *)
Context (import_skip : string → res skip_module).
(** Importing a service package: its [svc_info['name']]. *)
Context (import_service : list act → string → string → res string).
Context (read_lines : string → res (list string)).
Context (now : list act → Z).
Context (halt_on_exception : val).
Context (defw_path : string).

Definition do_act (a : act) : M world unit := modify (log a).

(** [MethodInterceptor.__getattribute__] on a method, then its call: a
    disabled one only says so. *)
Definition intercept {A} (disabled : list string) (name : string) (refused : A) (m : M world A) :
    M world A :=
  if bool_decide (name ∈ disabled) then do_act (ANoop name) ;;; ret refused else m.

(** ** [Script] *)

Definition new_script (abs_path : string) (suite prefix : string) (disabled : list string) : script :=
  Script (stem (basename abs_path)) abs_path prefix (str_remove "suite_" suite) disabled.

(** The result of a failed call, unless it halts the run. *)
Definition failed_call (e : pyexc) (halt : bool) (trace : string) : M world raw_result :=
  if truthy halt_on_exception then rethrow e
  else if bool_decide (exc_type e = EDEFwError) && halt then rethrow e
  else ret (RawStatus (Result "" "FAIL" 0 (Some (VStr trace)) [] [])).

(** What [global_test_results] gets for a script. *)
Definition recorded (name : string) (duration : Z) (rc : raw_result) : result :=
  let r := normalize_experiment_result rc in
  Result name (r_status r) duration (r_error r) (r_kwargs r) (r_args r).

(** [Script.execute_method_by_name] *)
Definition script_execute (sc : script) (m : method) : M world (option raw_result) :=
  let name := str_remove (sc_prefix sc) (sc_name sc) in
  let! w := get in
  let start_time := now (acts w) in
  do_act (AImport (sc_name sc)) ;;;
  let! w := get in
  lift_res (import_script (acts w) (sc_name sc)) ;;;
  match call_script (acts w) (sc_name sc) (method_name m) with
  | None => ret None
  | Some out =>
      do_act (ACall (sc_name sc) (method_name m)) ;;;
      let! rc := match out with
                 | Returned r => ret r
                 | Raised e halt trace => failed_call e halt trace
                 end in
      let! w := get in
      let duration := now (acts w) - start_time in
      match m with
      | Run =>
          modify (λ w, set_results
                         (set_global (sc_suite sc) (recorded name duration rc) (global_test_results w)) w)
      | Initialize => ret tt
      end ;;;
      ret (Some rc)
  end.

(** [Script.run] and [Script.initialize] as [Collection] calls them. *)
Definition script_method (sc : script) (m : method) : M world unit :=
  intercept (sc_disabled sc) (method_name m) tt (script_execute sc m ;;; ret tt).

(** [Script.create_docs] *)
Definition script_create_docs (sc : script) (csvfile : string) : M world unit :=
  intercept (sc_disabled sc) "create_docs" tt
    (let! lines := lift_res (read_lines (sc_path sc)) in
     modify (λ w, set_csv (create_docs defw_path csvfile (sc_name sc) lines (csv w)) w)).

(** ** [Collection] *)

(** A file that is a script of the collection. *)
Definition is_script (prefix f : string) : bool :=
  String.prefix prefix f && String.eqb (extension f) ".py".

Definition script_key (prefix f : string) : string := stem (str_remove prefix f).

(** The files of one directory; [added] says whether it is on the path. *)
Fixpoint add_files (co : collection) (subdir : string) (files : list string) (added : bool)
    (db : odict string script) (path : list string) : odict string script * list string :=
  match files with
  | [] => (db, path)
  | f :: files' =>
      if is_script (co_prefix co) f then
        let path := if negb (String.eqb subdir ".") && negb added then append_path path subdir
                    else path in
        let sc := new_script (path_join subdir f) (co_suite co) (co_prefix co) (co_disabled co) in
        add_files co subdir files' true (dset db (script_key (co_prefix co) f) sc) path
      else add_files co subdir files' added db path
  end.

Fixpoint add_dirs (co : collection) (entries : list (string * list string * list string))
    (db : odict string script) (path : list string) : odict string script * list string :=
  match entries with
  | [] => (db, path)
  | (subdir, _, files) :: entries' =>
      let (db, path) := add_files co subdir files false db path in
      add_dirs co entries' db path
  end.

(** [Collection.reload] *)
Definition collection_reload (co : collection) : M world collection :=
  let! w := get in
  let (db, path) := add_dirs co (walk (co_path co)) [] (sys_path w) in
  modify (set_sys_path path) ;;;
  ret (Collection (co_suite co) (co_path co) (co_prefix co) (co_skip co) (co_expected co)
         (co_disabled co) db).

(** [Collection.__init__] *)
Definition new_collection (base name : string) (skips : list val) (expected : val) (prefix : string)
    (disabled : list string) : M world collection :=
  collection_reload (Collection name (path_join base name) prefix skips expected disabled []).

Definition in_skip_list (co : collection) (name : string) : bool := py_in_list (VStr name) (co_skip co).

(** The scripts an operation applies to, in the order of their names. *)
Definition chosen (co : collection) (pat : string) : list string :=
  List.filter (λ k, fnmatch k pat && negb (in_skip_list co k)) (sorted (dkeys (co_db co))).

(** [Collection.get_num_scripts] *)
Definition get_num_scripts (co : collection) (pat : string) : Z :=
  fold_left (λ n k, if fnmatch k pat && negb (in_skip_list co k) then n + 1 else n)
    (sorted (dkeys (co_db co))) 0.

(** [Collection.__getitem__] *)
Definition collection_getitem (co : collection) (key : string) : res script :=
  match dget (co_db co) key with
  | Some sc => Ok sc
  | None => Raise (Exc EDEFwError ("no entry for " ++ key))
  end.

(** The loop of [Collection.execute_method_by_name]. *)
Fixpoint execute_keys (co : collection) (m : method) (pat : string) (num executed : Z)
    (keys : list string) : M world unit :=
  match keys with
  | [] => ret tt
  | key :: keys' =>
      if fnmatch key pat && negb (in_skip_list co key) then
        let executed := executed + 1 in
        lift_res (progress_of executed num) ;;;
        let! sc := lift_res (match dget (co_db co) key with
                             | Some sc => Ok sc
                             | None => Raise (Exc EKeyError key)
                             end) in
        script_method sc m ;;;
        execute_keys co m pat num executed keys'
      else execute_keys co m pat num executed keys'
  end.

(** [Collection.execute_method_by_name] *)
Definition collection_execute (co : collection) (m : method) (pat : string) (num_scripts : Z) :
    M world unit :=
  let num := if num_scripts =? 0 then get_num_scripts co pat else num_scripts in
  do_act (AHeader ("-----============= defw-" ++ str_remove "suite_" (co_suite co) ++ nl)) ;;;
  execute_keys co m pat num 0 (sorted (dkeys (co_db co))).

(** [Collection.create_docs] *)
Definition collection_create_docs (co : collection) (csvfile pat : string) : M world unit :=
  for_each (λ p, if fnmatch p.1 pat then script_create_docs p.2 csvfile else ret tt) (co_db co).

(** [name in expected_failures] *)
Definition in_value (name : string) (v : val) : res bool :=
  match v with
  | VList l => Ok (py_in_list (VStr name) l)
  | VDict d => Ok (dmem d name)
  | VStr s => Ok (contains name s)
  | _ => Raise (Exc ETypeError "argument is not iterable")
  end.

(** What [Collection.dump] lists for a script. *)
Definition dump_label (co : collection) (k : string) : res string :=
  let? expected := in_value k (co_expected co) in
  Ok (if expected then (k ++ " (expected failure)")%string
      else if in_skip_list co k then (k ++ " (skip)")%string
      else k).

Definition collection_dump (co : collection) (pat : string) : res (list string) :=
  let? labels := rmapM (dump_label co) (List.filter (λ k, fnmatch k pat) (dkeys (co_db co))) in
  Ok (sorted labels).

(** ** [ASuite] *)

(** What one file contributes to the lists. *)
Definition read_control (name f : string) (lists : list val * val) : res (list val * val) :=
  if String.eqb f "skip.py" then
    let? sm := import_skip (name ++ ".skip") in
    match skip_list sm with
    | Some (VList l) => Ok (l, default lists.2 (expected_failures sm))
    | _ => Ok lists
    end
  else Ok lists.

Fixpoint read_controls (name : string) (files : list string) (lists : list val * val) :
    res (list val * val) :=
  match files with
  | [] => Ok lists
  | f :: files' =>
      let? lists := read_control name f lists in
      read_controls name files' lists
  end.

(** [ASuite.__load_suite_controls]: without a directory, [files] is unbound. *)
Definition load_suite_controls (name path : string) (lists : list val * val) : res (list val * val) :=
  match walk path with
  | [] => Raise (Exc ENameError "cannot access local variable 'files'")
  | (_, _, files) :: _ => read_controls name files lists
  end.

(** [ASuite.reload] *)
Definition suite_reload (base name prefix : string) (disabled : list string) (lists : list val * val) :
    M world asuite :=
  let! (skips, expected) := lift_res (load_suite_controls name (path_join base name) lists) in
  let! co := new_collection base name skips expected prefix disabled in
  ret (ASuite name base prefix disabled skips expected co).

(** [ASuite.__init__] *)
Definition new_asuite (base name prefix : string) (disabled : list string) : M world asuite :=
  modify (λ w, set_sys_path (append_path (sys_path w) (path_join base name)) w) ;;;
  suite_reload base name prefix disabled ([], VList []).

(** [ASuite.run] and [ASuite.initialize] *)
Definition suite_method (s : asuite) (m : method) (pat : string) (num_scripts : Z) : M world unit :=
  intercept (as_disabled s) (method_name m) tt
    (intercept (co_disabled (as_scripts s)) (method_name m) tt
       (collection_execute (as_scripts s) m pat num_scripts)).

(** ** [Suites] *)

(** [for subdir, dirs, files in os.walk(path): break]: the names keep what
    they were bound to when there is nothing to walk. *)
Definition walk_dirs (path : string) (before : option (list string)) : option (list string) :=
  match walk path with
  | [] => before
  | (_, dirs, _) :: _ => Some dirs
  end.

(** [for d in dirs] with [dirs] possibly unbound *)
Definition bound_dirs (dirs : option (list string)) : res (list string) :=
  match dirs with
  | Some l => Ok l
  | None => Raise (Exc ENameError "cannot access local variable 'dirs'")
  end.

Fixpoint add_suites (su : suites) (path : string) (dirs : list string) (db : odict string asuite) :
    M world (odict string asuite) :=
  match dirs with
  | [] => ret db
  | d :: dirs' =>
      if String.prefix (su_suite_prefix su) d then
        let! s := new_asuite path d (su_prefix su) (su_disabled su) in
        add_suites su path dirs' (dset db (str_remove (su_suite_prefix su) d) s)
      else add_suites su path dirs' db
  end.

Fixpoint add_suite_paths (su : suites) (paths : list string) (before : option (list string))
    (db : odict string asuite) : M world (odict string asuite) :=
  match paths with
  | [] => ret db
  | path :: paths' =>
      let now_dirs := walk_dirs path before in
      let! dirs := lift_res (bound_dirs now_dirs) in
      let! db := add_suites su path dirs db in
      add_suite_paths su paths' now_dirs db
  end.

(** [Suites.reload], also the last step of [Suites.__init__] *)
Definition suites_reload (su : suites) : M world suites :=
  let! db := add_suite_paths su (su_paths su) None [] in
  ret (Suites (su_paths su) (su_suite_prefix su) (su_prefix su) (su_disabled su) db).

Definition new_suites (paths : list string) (suite_prefix prefix : string) (disabled : list string) :
    M world suites :=
  suites_reload (Suites paths suite_prefix prefix disabled []).

(** [re.split(',| ', s)] *)
Definition split_names (s : string) : list string := flat_map (split_on " " "") (split_on "," "" s).

(** The suites a list names. *)
Definition suite_names (su : suites) (suite_list : string) : list string :=
  if String.eqb suite_list "*" then dkeys (su_db su)
  else List.filter (λ i, negb (String.eqb (strip i) "")) (split_names suite_list).

(** [Suites.execute_method_by_name]: [match] is not looked at. *)
Definition suites_execute (su : suites) (m : method) (suite_list pat : string) : M world unit :=
  let sl := suite_names su suite_list in
  let numscripts := map (λ p, (p.1, get_num_scripts (as_scripts p.2) "*"))
                      (List.filter (λ p, bool_decide (p.1 ∈ sl)) (su_db su)) in
  for_each (λ p, if bool_decide (p.1 ∈ sl)
                 then suite_method p.2 m "*" (dget_or numscripts p.1 0)
                 else ret tt) (su_db su).

(** [Suites.create_docs] *)
Definition suites_create_docs (su : suites) (csvfile pat : string) : M world unit :=
  for_each (λ p, if fnmatch p.1 pat
                 then intercept (as_disabled p.2) "create_docs" tt
                        (collection_create_docs (as_scripts p.2) csvfile "*")
                 else ret tt) (su_db su).

Definition suites_getitem (su : suites) (key : string) : res asuite :=
  match dget (su_db su) key with
  | Some s => Ok s
  | None => Raise (Exc EDEFwError ("no entry for " ++ key))
  end.

(** [__next__] of a collection or of the suites: [n] is the position, [max]
    the number of entries when they were generated. *)
Definition next_item {A} (db : odict string A) (max n : nat) : res (string * A * nat) :=
  if Nat.ltb n max then
    match db !! n with
    | Some e => Ok (e, S n)
    | None => Raise (Exc EIndexError "list index out of range")
    end
  else Raise (Exc EStopIteration "").

(** [Suites.dump] *)
Definition suites_dump (su : suites) (pat : string) : list string :=
  sorted (List.filter (λ k, fnmatch k pat) (dkeys (su_db su))).

(** ** [ServiceSuitesBase] *)

Record service_config := ServiceConfig {
  sv_prefix : string;
  sv_noinit : list string;
  sv_only : list string;
  sv_is_dirsvc : bool;
  sv_noload_dirsvc : bool
}.

(** What happens to one directory. *)
Inductive decision := Ignore | AppendOnly | LoadModule.

Definition decide_dir (cfg : service_config) (d : string) : decision :=
  if String.prefix (sv_prefix cfg) d then
    let name := str_remove (sv_prefix cfg) d in
    if bool_decide (d ∈ sv_noinit cfg) then AppendOnly
    else if negb (bool_decide (sv_only cfg = [])) && negb (bool_decide (d ∈ sv_only cfg)) &&
            negb (String.eqb name "dirsvc") then Ignore
    else if negb (sv_is_dirsvc cfg) && String.eqb name "dirsvc" && sv_noload_dirsvc cfg then Ignore
    else LoadModule
  else Ignore.

(** [import_module_from_path] *)
Definition import_module_from_path (name path : string) : M world string :=
  modify (λ w, set_sys_path (prepend_path (sys_path w) path) w) ;;;
  do_act (ALoad path name) ;;;
  let! w := get in
  lift_res (import_service (acts w) path name).

(** One directory of a service path. *)
Definition add_service (cfg : service_config) (path d : string) (db : odict string service_module) :
    M world (odict string service_module) :=
  match decide_dir cfg d with
  | Ignore => ret db
  | AppendOnly => modify (λ w, set_sys_path (sys_path w ++ [d]) w) ;;; ret db
  | LoadModule =>
      let! mname := import_module_from_path d path in
      let db := dset db mname (ServiceModule path d) in
      do_act (AInit path d) ;;;
      ret db
  end.

Fixpoint add_services (cfg : service_config) (path : string) (dirs : list string)
    (db : odict string service_module) : M world (odict string service_module) :=
  match dirs with
  | [] => ret db
  | d :: dirs' =>
      let! db := add_service cfg path d db in
      add_services cfg path dirs' db
  end.

(** [ServiceSuitesBase.generate_test_db] *)
Fixpoint generate_services (cfg : service_config) (paths : list string) (before : option (list string))
    (db : odict string service_module) : M world (odict string service_module) :=
  match paths with
  | [] => ret db
  | path :: paths' =>
      let now_dirs := walk_dirs path before in
      let! dirs := lift_res (bound_dirs now_dirs) in
      let! db := add_services cfg path dirs db in
      generate_services cfg paths' now_dirs db
  end.

(** [Suites.finalize] on service modules: [uninitialize] of each; what it
    raises is dropped. *)
Definition finalize_services (db : odict string service_module) : M world unit :=
  for_each (λ p, do_act (AUninit (sm_path p.2) (sm_dir p.2))) db.

(** ** The three collections of a process *)

(** [defw_config_yaml['defw'][key]] as search paths; whatever is wrong with
    it leaves the paths as they are. *)
Definition external_paths (config : pydict) (key : string) : M world (list string) :=
  match (let? d := Config.section config in vindex d key) with
  | Ok (VStr v) =>
      let paths := split_external_paths v in
      modify (λ w, set_sys_path (setup_external_paths paths false (sys_path w)) w) ;;;
      ret paths
  | _ => ret []
  end.

(** [ServiceSuites.__init__] *)
Definition service_suites (config : pydict) (only noinit : list string) (is_dirsvc : bool) :
    M world (odict string service_module) :=
  let! more := external_paths config "external-services" in
  generate_services (ServiceConfig "svc_" noinit only is_dirsvc true)
    (path_join (path_join defw_path "python") "services" :: more) None [].

(** [ServiceSuiteAPIs.__init__] *)
Definition service_suite_apis (config : pydict) (only noinit : list string) (is_dirsvc : bool) :
    M world (odict string service_module) :=
  let! more := external_paths config "external-service-apis" in
  generate_services (ServiceConfig "api_" noinit only is_dirsvc false)
    (path_join (path_join defw_path "python") "service-apis" :: more) None [].

(** [ExpSuites.__init__] *)
Definition exp_suites (config : pydict) : M world suites :=
  let! more := external_paths config "external-experiments" in
  new_suites (path_join (path_join defw_path "python") "experiments" :: more) "suite_" "exp_" [].
End Suites.
