(* ===== verification/SuitesFacts.v ===== *)
(** * Properties of scripts, suites and service modules

    What a run executes, what it records, which files and packages are found,
    and the progress values ([Suites]). *)

From S2P Require Import Prelude PyDict PyVal Results Config Docs Glob Suites.
From stdpp Require Import sorting.
From Stdlib Require Import Ascii.

Local Open Scope string_scope.
Local Open Scope Z_scope.
Local Open Scope list_scope.
Import PyNotations.
Local Open Scope py_scope.

(** ** What a run executes *)

Definition import_name (a : act) : list string :=
  match a with AImport n => [n] | _ => [] end.

(** The scripts imported so far, in order. *)
Definition started (w : world) : list string := flat_map import_name (acts w).

(** The scripts a collection runs: those selected, sorted by their key. *)
Definition planned (co : collection) (pat : string) : list string :=
  flat_map (λ k, match dget (co_db co) k with Some sc => [sc_name sc] | None => [] end)
    (chosen co pat).

Definition planned_all (su : suites) (suite_list : string) : list string :=
  flat_map (λ p, if bool_decide (p.1 ∈ suite_names su suite_list)
                 then planned (as_scripts p.2) "*" else []) (su_db su).

(** Nothing that runs scripts is disabled. *)
Definition enabled (m : method) (disabled : list string) : Prop := method_name m ∉ disabled.

Definition collection_enabled (m : method) (co : collection) : Prop :=
  enabled m (co_disabled co) ∧ Forall (λ p, enabled m (sc_disabled p.2)) (co_db co).

Definition suite_enabled (m : method) (s : asuite) : Prop :=
  enabled m (as_disabled s) ∧ collection_enabled m (as_scripts s).

#[export] Instance enabled_dec m l : Decision (enabled m l).
Proof. unfold enabled. apply _. Defined.
#[export] Instance suite_enabled_dec m s : Decision (suite_enabled m s).
Proof. unfold suite_enabled, collection_enabled. apply _. Defined.
#[export] Instance dict_ok_dec {V} (d : odict string V) : Decision (dict_ok d).
Proof. unfold dict_ok. apply _. Defined.

Lemma started_log a w : started (log a w) = started w ++ import_name a.
Proof. unfold started. simpl. rewrite flat_map_app. simpl. by rewrite app_nil_r. Qed.

Lemma get_num_aux (f : string → bool) l n :
  fold_left (λ n k, if f k then n + 1 else n) l n = n + Z.of_nat (length (List.filter f l)).
Proof.
  revert n. induction l as [|k l IH]; intros n; simpl; [lia|]. rewrite IH.
  destruct (f k); simpl; lia.
Qed.

Lemma get_num_scripts_length co pat : get_num_scripts co pat = Z.of_nat (length (chosen co pat)).
Proof. unfold get_num_scripts, chosen. rewrite get_num_aux. lia. Qed.

(** The number of scripts a run divides by is zero only if none is chosen. *)
Lemma no_division co pat num :
  num = 0 ∨ num = get_num_scripts co pat →
  (if num =? 0 then get_num_scripts co pat else num) = 0 → chosen co pat = [].
Proof.
  intros Hnum. rewrite get_num_scripts_length in *. intros H0. apply nil_length_inv.
  destruct (Z.eqb_spec num 0); lia.
Qed.

Lemma keys_known co : Forall (λ k, k ∈ dkeys (co_db co)) (sorted (dkeys (co_db co))).
Proof. apply Forall_forall. intros k. by rewrite sorted_perm. Qed.

Lemma progress_ok a n : n ≠ 0 → ∃ p, progress_of a n = Ok p.
Proof. intros Hn. unfold progress_of. apply Z.eqb_neq in Hn. rewrite Hn. eauto. Qed.

Section Running.
Context (import_script : list act → string → res unit).
Context (call_script : list act → string → string → option outcome).
Context (now : list act → Z).
Context (halt_on_exception : val).

Abbreviation execute := (script_execute import_script call_script now halt_on_exception).
Abbreviation run_script := (script_method import_script call_script now halt_on_exception).
Abbreviation run_keys := (execute_keys import_script call_script now halt_on_exception).
Abbreviation run_collection := (collection_execute import_script call_script now halt_on_exception).
Abbreviation run_suite := (suite_method import_script call_script now halt_on_exception).
Abbreviation run_suites := (suites_execute import_script call_script now halt_on_exception).

Lemma started_execute sc m w : started (execute sc m w).1 = started w ++ [sc_name sc].
Proof.
  unfold script_execute, bind, get, do_act, modify, lift_res, failed_call, ret, rethrow.
  repeat (case_match; simplify_eq/=; try done);
    rewrite ?started_log; simpl; rewrite ?app_nil_r; try done;
    unfold started; simpl; rewrite ?flat_map_app; simpl; by rewrite ?app_nil_r.
Qed.

Lemma intercept_enabled {A} m disabled (x : A) act :
  enabled m disabled → intercept disabled (method_name m) x act = act.
Proof. intros H. unfold intercept. by rewrite bool_decide_false. Qed.

(** A computation that starts the scripts [l]: some of them if it raises, all
    if it returns. *)
Definition starts {A} (c : M world A) (l : list string) : Prop :=
  ∀ w, ∃ done, started (c w).1 = started w ++ done ∧ done `prefix_of` l ∧
               (is_ok (c w).2 = true → done = l).

Lemma starts_ret {A} (a : A) : starts (ret a) [].
Proof. intros w. exists []. by rewrite app_nil_r. Qed.

Lemma starts_bind {A B} (c : M world A) (k : A → M world B) l1 l2 :
  starts c l1 → (∀ a, starts (k a) l2) → starts (bind c k) (l1 ++ l2).
Proof.
  intros Hc Hk w. unfold bind. destruct (Hc w) as (d1 & H1 & P1 & E1).
  destruct (c w) as [w' [a|e]]; simpl in *.
  - rewrite (E1 eq_refl) in H1. destruct (Hk a w') as (d2 & H2 & P2 & E2).
    exists (l1 ++ d2). rewrite H2, H1, app_assoc. split_and!; [done | by apply prefix_app|].
    intros Hok. by rewrite (E2 Hok).
  - exists d1. split_and!; [done | by apply prefix_app_r | done].
Qed.

Lemma starts_for_each {A} (f : A → M world unit) (g : A → list string) (l : list A) :
  (∀ x, x ∈ l → starts (f x) (g x)) → starts (for_each f l) (flat_map g l).
Proof.
  induction l as [|x l IH]; intros H; simpl; [apply starts_ret|].
  apply starts_bind; [apply H; by left|]. intros []. apply IH. intros y Hy. apply H. by right.
Qed.

Lemma starts_lift_ok {A B} (a : A) (k : A → M world B) l :
  starts (k a) l → starts (bind (lift_res (Ok a)) k) l.
Proof. intros H w. apply (H w). Qed.

Lemma starts_script sc m : enabled m (sc_disabled sc) → starts (run_script sc m) [sc_name sc].
Proof.
  intros He. unfold script_method. rewrite intercept_enabled by done.
  rewrite <- (app_nil_r [sc_name sc]). apply starts_bind; [|intros; apply starts_ret].
  intros w. exists [sc_name sc]. by rewrite started_execute.
Qed.

Lemma starts_keys co m pat num ex keys :
  Forall (λ k, k ∈ dkeys (co_db co)) keys → collection_enabled m co →
  (num = 0 → List.filter (λ k, fnmatch k pat && negb (in_skip_list co k)) keys = []) →
  starts (run_keys co m pat num ex keys)
    (flat_map (λ k, match dget (co_db co) k with Some sc => [sc_name sc] | None => [] end)
       (List.filter (λ k, fnmatch k pat && negb (in_skip_list co k)) keys)).
Proof.
  intros Hk [_ He]. revert ex. induction Hk as [|k keys Hk _ IH]; intros ex Hn; simpl;
    [apply starts_ret|]. simpl in Hn.
  destruct (fnmatch k pat && negb (in_skip_list co k)); [|by apply IH]. simpl.
  destruct (progress_ok (ex + 1) num) as [p Hp]; [by intros ->; discriminate Hn|]. rewrite Hp.
  apply dget_is_Some in Hk as [sc Hsc]. rewrite Hsc. simpl.
  apply starts_lift_ok, starts_lift_ok.
  apply (starts_bind _ _ [sc_name sc]).
  - apply starts_script. rewrite Forall_forall in He. by apply (He (k, sc)), dget_Some_In.
  - intros []. apply IH. by intros ->; discriminate (Hn eq_refl).
Qed.

Lemma starts_collection co m pat num :
  collection_enabled m co → (num = 0 ∨ num = get_num_scripts co pat) →
  starts (run_collection co m pat num) (planned co pat).
Proof.
  intros He Hnum. unfold collection_execute, planned.
  apply (starts_bind _ _ []).
  - intros w. exists []. unfold do_act, modify. simpl. by rewrite started_log.
  - intros _. unfold chosen. apply starts_keys; [apply keys_known | done|].
    by apply no_division.
Qed.

(** The script count [Suites.execute_method_by_name] passes on. *)
Lemma counted su (sl : list string) k s :
  dict_ok (su_db su) → (k, s) ∈ su_db su → k ∈ sl →
  dget_or (map (λ p, (p.1, get_num_scripts (as_scripts p.2) "*"))
             (List.filter (λ p, bool_decide (p.1 ∈ sl)) (su_db su))) k 0 =
  get_num_scripts (as_scripts s) "*".
Proof.
  intros Hd Hin Hk. unfold dget_or.
  fold (dmap (K := string) (λ s, get_num_scripts (as_scripts s) "*")
          (List.filter (λ p, bool_decide (p.1 ∈ sl)) (su_db su))).
  rewrite dget_dmap, dget_filter, (dget_In _ _ s) by done. simpl. by rewrite bool_decide_true.
Qed.

Lemma starts_suites su m suite_list pat :
  dict_ok (su_db su) → Forall (λ p, suite_enabled m p.2) (su_db su) →
  starts (run_suites su m suite_list pat) (planned_all su suite_list).
Proof.
  intros Hd He. apply starts_for_each. intros [k s] Hin. simpl.
  destruct (bool_decide_reflect (k ∈ suite_names su suite_list)) as [Hk|Hk];
    [|apply starts_ret].
  rewrite Forall_forall in He. destruct (He _ Hin) as (H1 & H2 & H3). simpl in *.
  unfold suite_method. rewrite !intercept_enabled by done. apply starts_collection; [done|].
  right. by apply counted.
Qed.

Lemma chosen_spec co pat k :
  k ∈ chosen co pat ↔ k ∈ dkeys (co_db co) ∧ fnmatch k pat = true ∧ in_skip_list co k = false.
Proof.
  unfold chosen. rewrite list_filter_In, sorted_perm, andb_true_iff, negb_true_iff. done.
Qed.

Lemma chosen_nodup co pat : dict_ok (co_db co) → NoDup (chosen co pat).
Proof.
  intros Hd. unfold chosen. apply NoDup_ListNoDup, List.NoDup_filter, NoDup_ListNoDup.
  by rewrite sorted_perm.
Qed.

(** ** Containing failures *)

(** An exception that ends the whole run. *)
Definition halts (out : outcome) : bool :=
  match out with
  | Returned _ => false
  | Raised e halt _ => truthy halt_on_exception || (bool_decide (exc_type e = EDEFwError) && halt)
  end.

(** Every script can be imported and no call asks to halt. *)
Definition calm : Prop :=
  (∀ h n, import_script h n = Ok tt) ∧
  ∀ h n m out, call_script h n m = Some out → halts out = false.

Definition safe {A} (c : M world A) : Prop := ∀ w, is_ok (c w).2 = true.

Lemma safe_ret {A} (a : A) : safe (ret a).
Proof. by intros w. Qed.

Lemma safe_bind {A B} (c : M world A) (k : A → M world B) :
  safe c → (∀ a, safe (k a)) → safe (bind c k).
Proof.
  intros Hc Hk w. unfold bind. specialize (Hc w). destruct (c w) as [w' [a|e]]; [|done]. apply Hk.
Qed.

Lemma safe_for_each {A} (f : A → M world unit) l : (∀ x, x ∈ l → safe (f x)) → safe (for_each f l).
Proof.
  induction l as [|x l IH]; intros H; simpl; [apply safe_ret|].
  apply safe_bind; [apply H; by left|]. intros _. apply IH. intros y Hy. apply H. by right.
Qed.

Lemma safe_execute sc m : calm → safe (execute sc m).
Proof.
  intros [Hi Hc] w. unfold script_execute, bind, get, do_act, modify, lift_res, ret. simpl.
  rewrite Hi. destruct (call_script _ _ _) as [out|] eqn:E; [|done]. specialize (Hc _ _ _ _ E).
  destruct out as [r|e h tr]; simpl in *; [by destruct m|].
  unfold failed_call. apply orb_false_iff in Hc as [-> ->]. simpl. by destruct m.
Qed.

Lemma safe_intercept {A} disabled name (x : A) c : safe c → safe (intercept disabled name x c).
Proof. intros Hc. unfold intercept. by case_bool_decide. Qed.

Lemma safe_keys co m pat num ex keys :
  calm → Forall (λ k, k ∈ dkeys (co_db co)) keys →
  (num = 0 → List.filter (λ k, fnmatch k pat && negb (in_skip_list co k)) keys = []) →
  safe (run_keys co m pat num ex keys).
Proof.
  intros Hcalm Hk. revert ex. induction Hk as [|k keys Hk _ IH]; intros ex Hn; simpl;
    [apply safe_ret|]. simpl in Hn.
  destruct (fnmatch k pat && negb (in_skip_list co k)); [|by apply IH].
  destruct (progress_ok (ex + 1) num) as [p Hp]; [by intros ->; discriminate Hn|]. rewrite Hp.
  apply dget_is_Some in Hk as [sc ->].
  repeat (apply safe_bind; [|intros ?]); try done.
  - apply safe_intercept, safe_bind; [by apply safe_execute | intros; apply safe_ret].
  - apply IH. by intros ->; discriminate (Hn eq_refl).
Qed.

Lemma safe_suites su m suite_list pat :
  calm → dict_ok (su_db su) → safe (run_suites su m suite_list pat).
Proof.
  intros Hc Hd. apply safe_for_each. intros [k s] Hin. simpl.
  destruct (bool_decide_reflect (k ∈ suite_names su suite_list)) as [Hk|Hk]; [|apply safe_ret].
  rewrite (counted _ _ _ s) by done. apply safe_intercept, safe_intercept, safe_bind; [done|].
  intros _. apply safe_keys; [done | apply keys_known|]. apply no_division. auto.
Qed.


(** ** What a script leaves in the results *)

(** The results of a suite. *)
Definition subtests (name : string) (ts : list suite) : list result :=
  match List.find (λ s, String.eqb (s_name s) name) ts with
  | Some s => s_subtests s
  | None => []
  end.

Lemma subtests_finalize name key ts : subtests name (finalize key ts) = subtests name ts.
Proof.
  unfold subtests, finalize. induction ts as [|s ts IH]; [done|]. simpl.
  assert (∀ s, s_name (finalize_suite s) = s_name s) as Hn
    by (intros s0; unfold finalize_suite; by destruct (fold_left _ _ _)).
  assert (s_subtests (finalize_suite s) = s_subtests s) as Hs by apply finalize_suite_spec.
  destruct (String.eqb (s_name s) key); rewrite ?Hn; destruct (String.eqb (s_name s) name); auto.
Qed.

Lemma subtests_set_in key v ts :
  match set_in_suite key v ts with
  | Some ts' => subtests key ts' = set_result (r_name v) v (subtests key ts)
  | None => subtests key ts = []
  end.
Proof.
  unfold subtests. induction ts as [|s ts IH]; simpl; [done|].
  destruct (String.eqb (s_name s) key) eqn:E; simpl; [by rewrite E|].
  destruct (set_in_suite key v ts); simpl; by rewrite ?E.
Qed.

Lemma subtests_app_fresh name (ts : list suite) s :
  s_name s = name → name ∉ map s_name ts → subtests name (ts ++ [s]) = s_subtests s.
Proof.
  intros <- Hn. unfold subtests. induction ts as [|t ts IH]; simpl; [by rewrite String.eqb_refl|].
  simpl in Hn. apply not_elem_of_cons in Hn as [Hne Hn].
  destruct (String.eqb_spec (s_name t) (s_name s)); [congruence | by apply IH].
Qed.

Lemma subtests_set_global key v ts :
  subtests key (set_global key v ts) = set_result (r_name v) v (subtests key ts).
Proof.
  unfold set_global. pose proof (subtests_set_in key v ts) as H.
  pose proof (set_in_suite_spec key v ts) as H'.
  destruct (set_in_suite key v ts) as [ts'|]; rewrite subtests_finalize; [done|].
  rewrite H. by rewrite subtests_app_fresh.
Qed.

(** What a call counts as. *)
Definition result_of (out : outcome) : raw_result :=
  match out with
  | Returned r => r
  | Raised _ _ trace => RawStatus (Result "" "FAIL" 0 (Some (VStr trace)) [] [])
  end.

(** What running one script does: a module that cannot be imported raises, a
    module without the function is passed over, an exception that halts is
    raised again without a result; otherwise the outcome is recorded under the
    script's suite and name, replacing an earlier one, a failure as FAIL with
    its traceback, with the time taken. *)
Theorem script_outcome_recorded sc w :
  let h := acts w ++ [AImport (sc_name sc)] in
  let '(w', r) := execute sc Run w in
  match import_script h (sc_name sc) with
  | Raise e => r = Raise e ∧ global_test_results w' = global_test_results w
  | Ok _ =>
      match call_script h (sc_name sc) "run" with
      | None => r = Ok None ∧ global_test_results w' = global_test_results w
      | Some out =>
          if halts out then is_ok r = false ∧ global_test_results w' = global_test_results w
          else r = Ok (Some (result_of out)) ∧
               let name := str_remove (sc_prefix sc) (sc_name sc) in
               let v := normalize_experiment_result (result_of out) in
               get_result name (subtests (sc_suite sc) (global_test_results w')) =
               Some (Result name (r_status v) (now (acts w') - now (acts w)) (r_error v)
                       (r_kwargs v) (r_args v))
      end
  end.
Proof.
  unfold script_execute, bind, get, do_act, modify, lift_res, ret. simpl.
  destruct (import_script _ _) as [u|e]; [|done]. destruct (call_script _ _ _) as [out|]; [|done].
  assert (∀ out, get_result (str_remove (sc_prefix sc) (sc_name sc))
                   (subtests (sc_suite sc)
                      (set_global (sc_suite sc)
                         (recorded (str_remove (sc_prefix sc) (sc_name sc)) out.1 out.2)
                         (global_test_results w))) =
                 Some (recorded (str_remove (sc_prefix sc) (sc_name sc)) out.1 out.2)) as Hrec.
  { intros [d rc]. rewrite subtests_set_global. simpl. by rewrite get_set_result. }
  destruct out as [rc|e hl tr]; simpl.
  - split; [done|]. apply (Hrec (_, rc)).
  - unfold failed_call, rethrow. destruct (truthy halt_on_exception); [done|]. simpl.
    destruct (bool_decide (exc_type e = EDEFwError) && hl); [done|]. split; [done|].
    apply (Hrec (_, RawStatus (Result "" "FAIL" 0 (Some (VStr tr)) [] []))).
Qed.
End Running.

(** ** Which service packages are loaded *)

Definition is_load (cfg : service_config) (d : string) : bool :=
  match decide_dir cfg d with LoadModule => true | _ => false end.

Lemma is_load_spec cfg d :
  is_load cfg d = true ↔
  String.prefix (sv_prefix cfg) d = true ∧ d ∉ sv_noinit cfg ∧
  (sv_only cfg = [] ∨ d ∈ sv_only cfg ∨ str_remove (sv_prefix cfg) d = "dirsvc") ∧
  (str_remove (sv_prefix cfg) d = "dirsvc" → sv_is_dirsvc cfg = true ∨ sv_noload_dirsvc cfg = false).
Proof.
  unfold is_load, decide_dir.
  destruct (String.prefix (sv_prefix cfg) d); [|naive_solver].
  destruct (bool_decide_reflect (d ∈ sv_noinit cfg)); [naive_solver|].
  destruct (bool_decide_reflect (sv_only cfg = [])), (bool_decide_reflect (d ∈ sv_only cfg)),
    (String.eqb_spec (str_remove (sv_prefix cfg) d) "dirsvc"), (sv_is_dirsvc cfg),
    (sv_noload_dirsvc cfg); simpl; naive_solver.
Qed.

Section Loading.
Context (walk : string → list (string * list string * list string)).
Context (import_service : list act → string → string → res string).
(** What a package says it is called. *)
Context (svc : string → string → string).

Abbreviation load_services := (generate_services walk import_service).

Definition dirs_of (path : string) : list string :=
  match walk path with (_, dirs, _) :: _ => dirs | [] => [] end.

(** The packages to load, in the order they are. *)
Definition loads (cfg : service_config) (paths : list string) : list (string * string) :=
  flat_map (λ p, map (pair p) (List.filter (is_load cfg) (dirs_of p))) paths.

Definition add_loaded (db : odict string service_module) (pd : string * string) :
    odict string service_module :=
  dset db (svc pd.1 pd.2) (ServiceModule pd.1 pd.2).

Definition load_acts (pd : string * string) : list act := [ALoad pd.1 pd.2; AInit pd.1 pd.2].

Lemma add_services_loads cfg path dirs db w :
  (∀ h p d, import_service h p d = Ok (svc p d)) →
  ∃ w', add_services import_service cfg path dirs db w =
          (w', Ok (fold_left add_loaded (map (pair path) (List.filter (is_load cfg) dirs)) db)) ∧
        acts w' = acts w ++ flat_map load_acts (map (pair path) (List.filter (is_load cfg) dirs)).
Proof.
  intros Hi. revert db w. induction dirs as [|d dirs IH]; intros db w; simpl.
  { exists w. by rewrite app_nil_r. }
  change (is_load cfg d) with (match decide_dir cfg d with LoadModule => true | _ => false end).
  unfold bind at 1, add_service. destruct (decide_dir cfg d); simpl.
  - apply IH.
  - destruct (IH db (set_sys_path (sys_path w ++ [d]) w)) as (w' & H1 & H2). by exists w'.
  - unfold import_module_from_path, do_act, modify, get, lift_res, bind, ret. simpl. rewrite Hi.
    match goal with |- context [add_services _ _ _ _ ?db' ?w1] =>
      destruct (IH db' w1) as (w' & H1 & H2) end.
    exists w'. split; [exact H1|]. rewrite H2. simpl. by rewrite <- !app_assoc.
Qed.

Lemma generate_services_loads cfg paths before db w :
  (∀ h p d, import_service h p d = Ok (svc p d)) → Forall (λ p, walk p ≠ []) paths →
  ∃ w', load_services cfg paths before db w = (w', Ok (fold_left add_loaded (loads cfg paths) db)) ∧
        acts w' = acts w ++ flat_map load_acts (loads cfg paths).
Proof.
  intros Hi Hp. revert before db w. induction Hp as [|p paths Hp _ IH]; intros before db w; simpl.
  { exists w. by rewrite app_nil_r. }
  assert (∃ r, walk_dirs walk p before = Some (dirs_of p) ∧ r = walk p) as (r & Hd & _).
  { unfold walk_dirs, dirs_of. destruct (walk p) as [|[[? ?] ?] ?]; [done|]. eauto. }
  unfold bind, lift_res. rewrite Hd. simpl.
  destruct (add_services_loads cfg p (dirs_of p) db w Hi) as (w1 & -> & Ha1).
  destruct (IH (Some (dirs_of p)) (fold_left add_loaded (map (pair p) (List.filter (is_load cfg) (dirs_of p))) db) w1)
    as (w2 & H2 & Ha2).
  exists w2. rewrite H2, fold_left_app. split; [done|].
  by rewrite Ha2, Ha1, flat_map_app, app_assoc.
Qed.

(** C38. The service packages of existing search paths are loaded by the rules of
    the configuration: exactly those with the prefix that are not on the
    no-init list, and are on the only-load list if there is one, the directory
    service counting as listed but being left to the directory process where
    that is asked for; each is imported and then initialised, in path order,
    and a name that occurs again refers to the last package of that name. *)
Theorem services_loaded_exactly cfg paths w :
  (∀ h p d, import_service h p d = Ok (svc p d)) → Forall (λ p, walk p ≠ []) paths →
  ∃ w' db, load_services cfg paths None [] w = (w', Ok db) ∧ dict_ok db ∧
    acts w' = acts w ++ flat_map load_acts (loads cfg paths) ∧
    (∀ n, dget db n = (λ pd, ServiceModule pd.1 pd.2) <$>
                      (last (List.filter (λ pd, bool_decide (svc pd.1 pd.2 = n)) (loads cfg paths)))) ∧
    ∀ p d, (p, d) ∈ loads cfg paths ↔
      p ∈ paths ∧ d ∈ dirs_of p ∧
      String.prefix (sv_prefix cfg) d = true ∧ d ∉ sv_noinit cfg ∧
      (sv_only cfg = [] ∨ d ∈ sv_only cfg ∨ str_remove (sv_prefix cfg) d = "dirsvc") ∧
      (str_remove (sv_prefix cfg) d = "dirsvc" →
       sv_is_dirsvc cfg = true ∨ sv_noload_dirsvc cfg = false).
Proof.
  intros Hi Hp. destruct (generate_services_loads cfg paths None [] w Hi Hp) as (w' & H1 & H2).
  eexists w', _. split_and!; [exact H1 | by apply dict_ok_fold_dset, dict_ok_nil | exact H2 | |].
  - intros n. unfold add_loaded. rewrite (dget_fold_dset (λ pd, svc pd.1 pd.2)). by destruct (last _).
  - intros p d. unfold loads. rewrite list_elem_of_In, in_flat_map. setoid_rewrite <- list_elem_of_In.
    setoid_rewrite list_map_In. setoid_rewrite list_filter_In. setoid_rewrite is_load_spec.
    naive_solver.
Qed.
End Loading.

(** ** Which scripts a collection finds *)

Section Finding.
Context (walk : string → list (string * list string * list string)).
Context (import_skip : string → res skip_module).

(** The script files below a directory, with the directory each is in. *)
Definition script_files (prefix : string) (entries : list (string * list string * list string)) :
    list (string * string) :=
  flat_map (λ e, map (pair e.1.1) (List.filter (is_script prefix) e.2)) entries.

Definition script_of (co : collection) (sf : string * string) : script :=
  new_script (path_join sf.1 sf.2) (co_suite co) (co_prefix co) (co_disabled co).

Definition add_script (co : collection) (db : odict string script) (sf : string * string) :
    odict string script :=
  dset db (script_key (co_prefix co) sf.2) (script_of co sf).

Lemma add_files_db co subdir files added db path :
  (add_files co subdir files added db path).1 =
  fold_left (add_script co) (map (pair subdir) (List.filter (is_script (co_prefix co)) files)) db.
Proof.
  revert added db path. induction files as [|f files IH]; intros added db path; simpl; [done|].
  destruct (is_script (co_prefix co) f); simpl; by rewrite IH.
Qed.

Lemma add_dirs_db co entries db path :
  (add_dirs co entries db path).1 =
  fold_left (add_script co) (script_files (co_prefix co) entries) db.
Proof.
  revert db path. induction entries as [|[[subdir ds] files] entries IH]; intros db path; simpl; [done|].
  rewrite fold_left_app. simpl. pose proof (add_files_db co subdir files false db path) as H.
  destruct (add_files co subdir files false db path) as [db' path']. simpl in H. by rewrite IH, H.
Qed.

(** A collection holds exactly the Python files with its prefix at or below
    its directory, under their name without prefix and extension; of two files
    that share that name the one visited last is held. *)
Theorem collection_finds_scripts co w :
  ∃ w' co', collection_reload walk co w = (w', Ok co') ∧ dict_ok (co_db co') ∧
    ∀ k, dget (co_db co') k =
         script_of co <$> last (List.filter (λ sf, bool_decide (script_key (co_prefix co) sf.2 = k))
                                  (script_files (co_prefix co) (walk (co_path co)))).
Proof.
  unfold collection_reload, bind, get, modify, ret. simpl.
  pose proof (add_dirs_db co (walk (co_path co)) [] (sys_path w)) as H.
  destruct (add_dirs co _ _ _) as [db path]. simpl in H. eexists _, _. split_and!; [done| |]; simpl;
    rewrite H; unfold add_script.
  - by apply (dict_ok_fold_dset (λ sf, script_key (co_prefix co) sf.2)), dict_ok_nil.
  - intros k. rewrite (dget_fold_dset (λ sf, script_key (co_prefix co) sf.2)). by destruct (last _).
Qed.

(** ** Search paths that do not exist *)

(** A first search path that does not exist ends the search with a NameError. *)
Lemma first_path_missing su p paths w :
  walk p = [] →
  raises ENameError (add_suite_paths walk import_skip su (p :: paths) None [] w).2 = true.
Proof. intros Hp. simpl. unfold walk_dirs. by rewrite Hp. Qed.

(** A later one is searched with the directories of the path before it: the
    first of them that is named like a suite is opened below the missing path,
    and ends the search too. *)
Lemma later_path_missing su p paths d dirs db w :
  walk p = [] → walk (path_join p d) = [] → String.prefix (su_suite_prefix su) d = true →
  raises ENameError
    (add_suite_paths walk import_skip su (p :: paths) (Some (d :: dirs)) db w).2 = true.
Proof.
  intros Hp Hd Hpre. simpl. unfold walk_dirs. rewrite Hp. unfold bind, lift_res. simpl.
  rewrite Hpre. unfold bind, new_asuite, suite_reload, lift_res, bind, modify, load_suite_controls. simpl.
  by rewrite Hd.
Qed.
End Finding.

(** ** Iteration *)

(** Iterating over generated entries visits each once, in order, and stops. *)
Lemma iteration_visits_all {A} (db : odict string A) (n : nat) :
  match next_item db (length db) n with
  | Ok (e, n') => db !! n = Some e ∧ n' = S n
  | Raise e => (length db ≤ n)%nat ∧ exc_type e = EStopIteration
  end.
Proof.
  unfold next_item. destruct (Nat.ltb_spec n (length db)) as [Hn|Hn]; [|done].
  apply lookup_lt_is_Some_2 in Hn as [e He]. by rewrite He.
Qed.

(** ** Progress *)

Definition progress_close (a n : Z) : bool :=
  match progress_of a n with
  | Ok p => (100 * a / n - 1 <=? p) && (p <=? 100 * a / n) && ((a <? n) || (p =? 100))
  | Raise _ => false
  end.

Lemma progress_table :
  forallb (λ n, forallb (λ a, progress_close a n) (zrange 1 (Z.to_nat n))) (zrange 1 100) = true.
Proof. vm_compute. reflexivity. Qed.

Lemma zrange_In start count x : start ≤ x < start + Z.of_nat count → x ∈ zrange start count.
Proof.
  revert start. induction count as [|c IH]; intros start H; simpl; [lia|].
  destruct (decide (x = start)) as [->|]; [by left|]. right. apply IH. lia.
Qed.

(** Within a run of at most a hundred scripts the progress handed to a script
    is the percentage rounded down, or one less where the division rounds; the
    last script gets 100. *)
Theorem progress_bounds a n :
  1 ≤ a ≤ n → n ≤ 100 →
  ∃ p, progress_of a n = Ok p ∧ 100 * a / n - 1 ≤ p ≤ 100 * a / n ∧ (a = n → p = 100).
Proof.
  intros Ha Hn. pose proof progress_table as H. rewrite forallb_forall in H.
  assert (List.In n (zrange 1 100)) as Hi by (apply list_elem_of_In, zrange_In; lia).
  specialize (H n Hi). simpl in H. rewrite forallb_forall in H.
  assert (List.In a (zrange 1 (Z.to_nat n))) as Hi2 by (apply list_elem_of_In, zrange_In; lia).
  specialize (H a Hi2). unfold progress_close in H. destruct (progress_of a n) as [p|]; [|done].
  exists p. split; [done|]. apply andb_true_iff in H as [H H3].
  apply andb_true_iff in H as [H1 H2]. split; [lia|]. intros ->.
  apply orb_true_iff in H3 as [?|?]; lia.
Qed.

(** ** Examples *)

Definition demo_walk (p : string) : list (string * list string * list string) :=
  if String.eqb p "/e" then [("/e", ["suite_a"; "docs"; "suite_b"], [])]
  else if String.eqb p "/e/suite_a" then
    [("/e/suite_a", ["sub"], ["exp_one.py"; "skip.py"; "exp_bad.py"; "note.txt"]);
     ("/e/suite_a/sub", [], ["exp_two.py"])]
  else if String.eqb p "/e/suite_b" then [("/e/suite_b", [], ["exp_x.py"])]
  else if String.eqb p "/s" then [("/s", ["svc_a"; "svc_dirsvc"; "svc_b"; "util"], [])]
  else if String.eqb p "/t" then [("/t", ["svc_a"], [])]
  else [].

Definition demo_import (h : list act) (n : string) : res unit := Ok tt.
Definition demo_call (h : list act) (n m : string) : option outcome :=
  if String.eqb n "exp_bad" then Some (Raised (Exc EValueError "boom") false "Traceback: boom")
  else Some (Returned (RawBool true)).
Definition demo_skip (n : string) : res skip_module := Ok (SkipModule (Some (VList [VStr "one"])) None).
Definition demo_now (h : list act) : Z := Z.of_nat (length h).

Definition w0 : world := World [] [] [] [].

Definition demo_su : suites :=
  match (new_suites demo_walk demo_skip ["/e"] "suite_" "exp_" [] w0).2 with
  | Ok su => su
  | Raise _ => Suites [] "" "" [] []
  end.

Abbreviation demo_run := (suites_execute demo_import demo_call demo_now (VBool false)).

Example demo_results :
  map (λ s, (s_name s, s_status s, map (λ r, (r_name r, r_status r)) (s_subtests s)))
    (global_test_results (demo_run demo_su Run "*" "*" w0).1) =
  [("a", "FAIL", [("bad", "FAIL"); ("two", "PASS")]); ("b", "PASS", [("x", "PASS")])].
Proof. vm_compute. reflexivity. Qed.

(** The pattern of a run over suites is not looked at. *)
Example match_ignored :
  started (demo_run demo_su Run "*" "two" w0).1 = ["exp_bad"; "exp_two"; "exp_x"].
Proof. vm_compute. reflexivity. Qed.

Lemma demo_calm : calm demo_import demo_call (VBool false).
Proof.
  split; [done|]. intros h n m out. unfold demo_call.
  destruct (String.eqb n "exp_bad"); by intros [= <-].
Qed.


Definition demo_cfg : service_config := ServiceConfig "svc_" ["svc_b"] [] false true.

Lemma services_loaded_exactly_witness :
  ∃ w' db, generate_services demo_walk (λ _ _ d, Ok d) demo_cfg ["/s"; "/t"] None [] w0 = (w', Ok db) ∧
    acts w' = [ALoad "/s" "svc_a"; AInit "/s" "svc_a"; ALoad "/t" "svc_a"; AInit "/t" "svc_a"] ∧
    dget db "svc_a" = Some (ServiceModule "/t" "svc_a").
Proof.
  destruct (services_loaded_exactly demo_walk (λ _ _ d, Ok d) (λ _ d, d) demo_cfg ["/s"; "/t"] w0)
    as (w' & db & H1 & _ & H2 & H3 & _); [done | repeat constructor; done|].
  exists w', db. split_and!; [exact H1 | rewrite H2; reflexivity | rewrite H3; reflexivity].
Defined.

Lemma progress_bounds_witness : ∃ p, progress_of 29 100 = Ok p ∧ 28 ≤ p ≤ 29.
Proof. destruct (progress_bounds 29 100) as (p & H1 & H2 & _); [lia | lia|]. exact (ex_intro _ p (conj H1 H2)). Defined.

Lemma fnmatch_exact_witness :
  fnmatch "exp_one" "exp_one" = true ∧ forallb plain_char (String.list_ascii_of_string "exp_one") = true.
Proof.
  split; [|reflexivity]. destruct (fnmatch_exact "exp_one" "exp_one") as (_ & _ & H).
  by apply H.
Defined.
