(* ===== verification/TestRunner.v ===== *)
(** * The experiment runner ([python/tests/defw_test_runner.py])

    The runner reads a configuration, writes a small Python program that runs
    the configured scripts in the directory process, starts that process, and
    follows its output.  The program is a text: [build_python_command] is the
    text, [read_program] is how Python reads it, and [exec] is what running it
    does to the suites of [Suites] and the results of [Results].  The file
    system, the YAML reader, the environment and what the scripts print are
    arguments. *)

From Stdlib Require Import Ascii.
From S2P Require Import Prelude PyDict PyVal Results Suites SuitesFacts.

Local Open Scope string_scope.
Local Open Scope Z_scope.
Local Open Scope list_scope.
Import PyNotations.
Local Open Scope py_scope.

(** ** The program as a text *)

Definition PROGRESS_PREFIX : string := "__DEFW_PROGRESS__:".
Definition LF : string := String "010"%char EmptyString.
Definition dq : string := String dquote EmptyString.
Definition bs : string := String "\"%char EmptyString.

(** [build_failure_check_command], line by line *)
Definition failure_check_lines : list string :=
  ["failures = []";
   "for suite_result in defw.global_test_results.get()['Tests']:";
   "    suite_name = suite_result['name']";
   "    for result in suite_result['SubTests']:";
   "        if result.get('status') == 'FAIL':";
   "            failures.append(f" ++ dq ++ "{suite_name}::{result['name']}" ++ dq ++ ")";
   "if failures:";
   "    print('DEFw experiment failures: ' + ', '.join(failures), flush=True)";
   "    raise SystemExit(1)"]%string.

Definition suite_line (suite : string) : string := ("suite = defw.experiments[" ++ repr_str suite ++ "].scripts")%string.
Definition run_line (script : string) : string := ("suite[" ++ repr_str script ++ "].run()")%string.
Definition print_line (text : string) : string := ("print(" ++ repr_str text ++ ", flush=True)")%string.
Definition dump_line : string := "defw.dumpGlobalTestResults()".

(** The lines of [build_python_command] *)
Definition program_lines (suite : string) (scripts : list string) : list string :=
  ["import defw"; suite_line suite] ++
  flat_map (λ s, [run_line s; print_line (PROGRESS_PREFIX ++ s)%string]) scripts ++
  [dump_line] ++ failure_check_lines.

Definition program_text (suite : string) (scripts : list string) : string :=
  String.concat LF (program_lines suite scripts).

(** ** The program as Python reads it *)

Inductive stmt :=
  | SImport
  | SSuite (suite : string)
  | SRun (script : string)
  | SPrint (text : string)
  | SDump
  | SCheck.

Definition hex_value (c : ascii) : option nat :=
  let n := nat_of_ascii c in
  if (Nat.leb 48 n && Nat.leb n 57)%bool then Some (n - 48)%nat
  else if (Nat.leb 97 n && Nat.leb n 102)%bool then Some (n - 87)%nat else None.

(** The rest of a string literal, up to the quote [q]: its value and what
    follows; an escape Python keeps as it is is not read. *)
Fixpoint read_body (q : ascii) (l : list ascii) : option (list ascii * list ascii) :=
  match l with
  | [] => None
  | c :: l1 =>
      if Ascii.eqb c q then Some ([], l1)
      else if Ascii.eqb c "\" then
        match l1 with
        | [] => None
        | e :: l2 =>
            let keep c' l' := match read_body q l' with Some (v, rest) => Some (c' :: v, rest) | None => None end in
            if (Ascii.eqb e "\" || Ascii.eqb e "'" || Ascii.eqb e dquote)%bool then keep e l2
            else if Ascii.eqb e "t" then keep "009"%char l2
            else if Ascii.eqb e "n" then keep "010"%char l2
            else if Ascii.eqb e "r" then keep "013"%char l2
            else if Ascii.eqb e "x" then
              match l2 with
              | h1 :: h2 :: l3 =>
                  match hex_value h1, hex_value h2 with
                  | Some a, Some b => keep (ascii_of_nat (16 * a + b)) l3
                  | _, _ => None
                  end
              | _ => None
              end
            else None
        end
      else match read_body q l1 with Some (v, rest) => Some (c :: v, rest) | None => None end
  end.

Definition read_literal (l : list ascii) : option (list ascii * list ascii) :=
  match l with
  | q :: l' => if (Ascii.eqb q "'" || Ascii.eqb q dquote)%bool then read_body q l' else None
  | [] => None
  end.

Fixpoint strip_prefix (p l : list ascii) : option (list ascii) :=
  match p, l with
  | [], _ => Some l
  | a :: p', b :: l' => if Ascii.eqb a b then strip_prefix p' l' else None
  | _ :: _, [] => None
  end.

Definition chars (s : string) : list ascii := String.list_ascii_of_string s.
Definition text_of (l : list ascii) : string := String.string_of_list_ascii l.

(** A line that is [before], a literal, [after] *)
Definition read_call (before after : string) (l : list ascii) : option string :=
  match strip_prefix (chars before) l with
  | Some l1 => match read_literal l1 with
               | Some (v, rest) => if bool_decide (rest = chars after) then Some (text_of v) else None
               | None => None
               end
  | None => None
  end.

Definition read_line (s : string) : option stmt :=
  let l := chars s in
  if String.eqb s "import defw" then Some SImport
  else if String.eqb s dump_line then Some SDump
  else match read_call "suite = defw.experiments[" "].scripts" l with
       | Some v => Some (SSuite v)
       | None =>
           match read_call "suite[" "].run()" l with
           | Some v => Some (SRun v)
           | None => SPrint <$> read_call "print(" ", flush=True)" l
           end
       end.

(** The lines of a program, the check being its last block *)
Fixpoint read_lines_of (ls : list string) : option (list stmt) :=
  if bool_decide (ls = failure_check_lines) then Some [SCheck]
  else match ls with
       | [] => Some []
       | l :: ls' => match read_line l, read_lines_of ls' with Some s, Some p => Some (s :: p) | _, _ => None end
       end.

Definition read_program (t : string) : option (list stmt) := read_lines_of (split_on "010" "" t).

(** The program the runner means *)
Definition program (suite : string) (scripts : list string) : list stmt :=
  [SImport; SSuite suite] ++ flat_map (λ s, [SRun s; SPrint (PROGRESS_PREFIX ++ s)%string]) scripts ++ [SDump; SCheck].

(** *** Reading back what was written *)

Lemma read_body_char q c l :
  q = "'"%char ∨ q = dquote →
  read_body q (repr_char q c ++ l) = match read_body q l with Some (v, rest) => Some (c :: v, rest) | None => None end.
Proof. intros [-> | ->]; destruct c as [[] [] [] [] [] [] [] []]; reflexivity. Qed.

Lemma read_body_repr q s rest :
  q = "'"%char ∨ q = dquote → read_body q (flat_map (repr_char q) s ++ q :: rest) = Some (s, rest).
Proof.
  intros Hq. induction s as [|c s IH]; simpl.
  - by rewrite Ascii.eqb_refl.
  - rewrite <- app_assoc, (read_body_char q c _ Hq), IH. done.
Qed.

Lemma chars_app a b : chars (a ++ b)%string = chars a ++ chars b.
Proof. induction a as [|c a IH]; simpl; [done|]. unfold chars in *. simpl. by rewrite IH. Qed.

Lemma chars_text l : chars (text_of l) = l.
Proof. apply String.list_ascii_of_string_of_list_ascii. Qed.
Lemma text_chars s : text_of (chars s) = s.
Proof. apply String.string_of_list_ascii_of_string. Qed.

Lemma read_literal_repr s rest : read_literal (chars (repr_str s) ++ rest) = Some (chars s, rest).
Proof.
  unfold repr_str. cbv zeta. set (q := if _ : bool then dquote else "'"%char).
  assert (q = "'"%char ∨ q = dquote) as Hq by (unfold q; destruct (_ && _)%bool; auto).
  change (chars (String.string_of_list_ascii ?l)) with (chars (text_of l)). rewrite chars_text. simpl.
  replace (Ascii.eqb q "'" || Ascii.eqb q dquote)%bool with true by (by destruct Hq as [-> | ->]).
  rewrite <- app_assoc. simpl. by rewrite read_body_repr.
Qed.

Lemma strip_prefix_app p l : strip_prefix p (p ++ l) = Some l.
Proof. induction p as [|c p IH]; simpl; [done|]. by rewrite Ascii.eqb_refl. Qed.

Lemma read_call_written before after s :
  read_call before after (chars (before ++ repr_str s ++ after)%string) = Some s.
Proof.
  unfold read_call. rewrite !chars_app, strip_prefix_app, read_literal_repr, bool_decide_true by done.
  by rewrite text_chars.
Qed.

Lemma read_suite_line s : read_line (suite_line s) = Some (SSuite s).
Proof. unfold read_line, suite_line. rewrite read_call_written. done. Qed.
Lemma read_run_line s : read_line (run_line s) = Some (SRun s).
Proof. unfold read_line, run_line. rewrite read_call_written. done. Qed.
Lemma read_print_line s : read_line (print_line s) = Some (SPrint s).
Proof. unfold read_line, print_line. rewrite read_call_written. done. Qed.

(** No line of the program contains a line break. *)
Definition one_line (s : string) : Prop := "010"%char ∉ chars s.

Lemma repr_char_one_line q c : q = "'"%char ∨ q = dquote → "010"%char ∉ repr_char q c.
Proof.
  intros Hq. apply (bool_decide_unpack _).
  destruct Hq as [-> | ->]; destruct c as [[] [] [] [] [] [] [] []]; exact I.
Qed.

Lemma repr_one_line s : one_line (repr_str s).
Proof.
  unfold one_line, repr_str. cbv zeta. set (q := if _ : bool then dquote else "'"%char).
  assert (q = "'"%char ∨ q = dquote) as Hq by (unfold q; destruct (_ && _)%bool; auto).
  assert ("010"%char ≠ q) as Hne by (by destruct Hq as [-> | ->]).
  change (chars (String.string_of_list_ascii ?l)) with (chars (text_of l)). rewrite chars_text.
  rewrite elem_of_cons, elem_of_app, list_elem_of_singleton. intros [?|[Hin|?]]; try done.
  apply list_elem_of_In, in_flat_map in Hin as (c & _ & Hc%list_elem_of_In). by eapply repr_char_one_line.
Qed.

Lemma one_line_app a b : one_line a → one_line b → one_line (a ++ b)%string.
Proof. unfold one_line. rewrite chars_app, elem_of_app. tauto. Qed.

Lemma one_line_closed s : bool_decide ("010"%char ∈ chars s) = false → one_line s.
Proof. apply bool_decide_eq_false. Qed.

Lemma program_one_line suite scripts : Forall one_line (program_lines suite scripts).
Proof.
  assert (∀ a s b, one_line a → one_line b → one_line (a ++ repr_str s ++ b)%string) as H
    by (intros; auto using one_line_app, repr_one_line).
  unfold program_lines, suite_line. rewrite !Forall_app. split_and!.
  - repeat constructor; [|apply H]; by apply one_line_closed.
  - apply Forall_forall. intros l Hl%list_elem_of_In%in_flat_map. destruct Hl as (s & _ & [<-|[<-|[]]]);
      apply H; by apply one_line_closed.
  - repeat constructor; by apply one_line_closed.
  - repeat constructor; by apply one_line_closed.
Qed.

(** Splitting at line breaks undoes joining. *)
Lemma split_line cur l rest :
  one_line l → split_on "010" cur (l ++ String "010" rest)%string = (cur ++ l)%string :: split_on "010" "" rest.
Proof.
  revert cur. induction l as [|c l IH]; intros cur Hl; simpl; [by rewrite append_nil_r|].
  unfold one_line in Hl. simpl in Hl. apply not_elem_of_cons in Hl as [Hc Hl].
  destruct (Ascii.eqb_spec c "010") as [->|_]; [done|]. rewrite IH by done.
  f_equal. by rewrite <- append_assoc.
Qed.

Lemma split_last cur l : one_line l → split_on "010" cur l = [(cur ++ l)%string].
Proof.
  revert cur. induction l as [|c l IH]; intros cur Hl; simpl; [by rewrite append_nil_r|].
  unfold one_line in Hl. simpl in Hl. apply not_elem_of_cons in Hl as [Hc Hl].
  destruct (Ascii.eqb_spec c "010") as [->|_]; [done|]. rewrite IH by done.
  f_equal. by rewrite <- append_assoc.
Qed.

Lemma split_joined ls : Forall one_line ls → ls ≠ [] → split_on "010" "" (String.concat LF ls) = ls.
Proof.
  induction 1 as [|l ls Hl Hls IH]; [done|]. intros _. destruct ls as [|l2 ls].
  - simpl. by rewrite split_last.
  - change (String.concat LF (l :: l2 :: ls)) with (l ++ String "010" (String.concat LF (l2 :: ls)))%string.
    rewrite split_line by done. by rewrite IH.
Qed.

(** A program is read line by line up to its check. *)
Lemma read_lines_step l ls st :
  hd "" failure_check_lines ≠ l → read_line l = Some st →
  read_lines_of (l :: ls) = match read_lines_of ls with Some p => Some (st :: p) | None => None end.
Proof.
  intros Hne Hl. change (read_lines_of (l :: ls)) with
    (if bool_decide (l :: ls = failure_check_lines) then Some [SCheck]
     else match read_line l, read_lines_of ls with Some s, Some p => Some (s :: p) | _, _ => None end).
  rewrite bool_decide_false, Hl; [done|]. intros H. apply Hne. by rewrite <- H.
Qed.

Lemma read_scripts scripts ls :
  read_lines_of (flat_map (λ s, [run_line s; print_line (PROGRESS_PREFIX ++ s)%string]) scripts ++ ls) =
  match read_lines_of ls with
  | Some p => Some (flat_map (λ s, [SRun s; SPrint (PROGRESS_PREFIX ++ s)%string]) scripts ++ p)
  | None => None
  end.
Proof.
  induction scripts as [|s scripts IH]; cbn [flat_map app]; [by destruct (read_lines_of ls)|].
  rewrite (read_lines_step (run_line s) _ _) by (done || apply read_run_line).
  rewrite (read_lines_step (print_line _) _ _) by (done || apply read_print_line). rewrite IH.
  by destruct (read_lines_of ls).
Qed.

(** Python reads the text as the program that is meant, whatever characters
    the names are made of. *)
Lemma program_read_back suite scripts : read_program (program_text suite scripts) = Some (program suite scripts).
Proof.
  unfold read_program, program_text. rewrite split_joined; [|apply program_one_line | done].
  unfold program_lines. cbn [app].
  rewrite (read_lines_step "import defw" _ SImport) by done.
  rewrite (read_lines_step (suite_line suite) _ (SSuite suite)) by (done || apply read_suite_line).
  rewrite read_scripts, (read_lines_step dump_line _ SDump) by done. done.
Qed.

(** ** Running the program *)

(** The interpreter of the started process: the world of the suites and what
    was printed *)
Record interp := Interp { py_world : world; py_out : string }.

Section Exec.
Context (import_script : list act → string → res unit).
Context (call_script : list act → string → string → option outcome).
Context (now : list act → Z) (halt_on_exception : val).
(** What a script prints when it is run *)
Context (script_prints : list act → string → string).
Context (fmt_duration : Z → string) (env_mode : option string) (preference : val).
Context (experiments : suites).

Definition in_world {A} (m : M world A) : M interp A :=
  λ s, let '(w', o) := m (py_world s) in (Interp w' (py_out s), o).

(** [print(t)] *)
Definition print_text (t : string) : M interp unit :=
  modify (λ s, Interp (py_world s) (py_out s ++ t ++ LF)%string).

(** [suite[key].run()] *)
Definition run_script_of (co : collection) (key : string) : M interp unit :=
  let! sc := lift_res (collection_getitem co key) in
  modify (λ s, Interp (py_world s) (py_out s ++ script_prints (acts (py_world s)) (sc_name sc))%string) ;;;
  in_world (script_method import_script call_script now halt_on_exception sc Run).

(** [dumpGlobalTestResults()] without a file name *)
Definition dump_results : M interp unit :=
  let! s := get in
  let! report := lift_res (format_report fmt_duration env_mode preference None (global_test_results (py_world s))) in
  print_text report.

(** The failures the check collects *)
Definition failures (ts : list suite) : list string :=
  flat_map (λ s, map (λ r, (s_name s ++ "::" ++ r_name r)%string)
                   (List.filter (λ r, String.eqb (r_status r) "FAIL") (s_subtests s))) ts.

(** The statements in turn; the value is the exit status so far, [Some] once
    [SystemExit] was raised. *)
Fixpoint exec (co : option collection) (p : list stmt) : M interp (option Z) :=
  match p with
  | [] => ret None
  | SImport :: p' => exec co p'
  | SSuite name :: p' =>
      let! su := lift_res (suites_getitem experiments name) in exec (Some (as_scripts su)) p'
  | SRun key :: p' =>
      match co with
      | Some c => run_script_of c key ;;; exec co p'
      | None => throw ENameError "name 'suite' is not defined"
      end
  | SPrint t :: p' => print_text t ;;; exec co p'
  | SDump :: p' => dump_results ;;; exec co p'
  | SCheck :: p' =>
      let! s := get in
      match failures (global_test_results (py_world s)) with
      | [] => exec co p'
      | fs => print_text ("DEFw experiment failures: " ++ String.concat ", " fs)%string ;;; ret (Some 1)
      end
  end.

(** The exit status of the interpreter: an uncaught exception is 1. *)
Definition status_of (o : res (option Z)) : Z :=
  match o with Ok None => 0 | Ok (Some n) => n | Raise _ => 1 end.

(** [defwp -c text] *)
Definition run_text (t : string) (s : interp) : interp * Z :=
  match read_program t with
  | Some p => let '(s', o) := exec None p s in (s', status_of o)
  | None => (s, 1)
  end.

(** *** What it does *)

Lemma failures_In f ts :
  f ∈ failures ts ↔ ∃ t r, t ∈ ts ∧ r ∈ s_subtests t ∧ r_status r = "FAIL" ∧ f = (s_name t ++ "::" ++ r_name r)%string.
Proof.
  unfold failures. rewrite list_elem_of_In, in_flat_map. setoid_rewrite <- list_elem_of_In.
  setoid_rewrite list_map_In. setoid_rewrite list_filter_In. setoid_rewrite String.eqb_eq. naive_solver.
Qed.

Lemma set_result_other key key' v l : key ≠ key' → get_result key (set_result key' v l) = get_result key l.
Proof.
  intros Hne. unfold get_result. revert v. induction l as [|e l IH]; intros v; simpl.
  - by rewrite (proj2 (String.eqb_neq key' key)).
  - destruct (String.eqb_spec (r_name e) key') as [->|]; simpl.
    + by rewrite !(proj2 (String.eqb_neq key' key)).
    + destruct (String.eqb (r_name e) key); [done|]. apply IH.
Qed.

Lemma subtests_other name key v ts : name ≠ key → subtests name (set_global key v ts) = subtests name ts.
Proof.
  intros Hne. assert (match set_in_suite key v ts with
                      | Some ts' => subtests name ts' = subtests name ts
                      | None => subtests name (ts ++ [Suite key (set_result (r_name v) v []) 0 ""]) = subtests name ts
                      end) as H.
  { unfold subtests. induction ts as [|s ts IH]; simpl; [by rewrite (proj2 (String.eqb_neq key name))|].
    destruct (String.eqb_spec (s_name s) key) as [->|]; simpl; [by rewrite (proj2 (String.eqb_neq key name))|].
    destruct (set_in_suite key v ts); simpl; by destruct (String.eqb (s_name s) name). }
  unfold set_global. destruct (set_in_suite key v ts); by rewrite subtests_finalize.
Qed.

(** A result that was recorded may be replaced, but is not lost. *)
Definition has_result (group name : string) (ts : list suite) : Prop := is_Some (get_result name (subtests group ts)).

Lemma has_result_set group name key v ts : has_result group name ts → has_result group name (set_global key v ts).
Proof.
  unfold has_result. destruct (decide (group = key)) as [->|Hne]; [|by rewrite subtests_other].
  rewrite subtests_set_global. destruct (decide (name = r_name v)) as [->|Hn].
  - rewrite get_set_result. by eexists.
  - by rewrite set_result_other.
Qed.

(** A script that is there, may be run and does not halt the run *)
Definition runs (co : collection) (key : string) : Prop :=
  ∃ sc, dget (co_db co) key = Some sc ∧ enabled Run (sc_disabled sc) ∧
    ∀ h, import_script h (sc_name sc) = Ok tt ∧
      ∃ out, call_script h (sc_name sc) "run" = Some out ∧ halts halt_on_exception out = false.

(** Its result, by suite and name *)
Definition recorded_for (co : collection) (key : string) (ts : list suite) : Prop :=
  ∀ sc, dget (co_db co) key = Some sc → has_result (sc_suite sc) (str_remove (sc_prefix sc) (sc_name sc)) ts.

Lemma script_runs sc w :
  enabled Run (sc_disabled sc) → import_script (acts w ++ [AImport (sc_name sc)]) (sc_name sc) = Ok tt →
  (∃ out, call_script (acts w ++ [AImport (sc_name sc)]) (sc_name sc) "run" = Some out ∧
          halts halt_on_exception out = false) →
  ∃ w' v, script_method import_script call_script now halt_on_exception sc Run w = (w', Ok tt) ∧
    r_name v = str_remove (sc_prefix sc) (sc_name sc) ∧
    global_test_results w' = set_global (sc_suite sc) v (global_test_results w).
Proof.
  intros He Hi (out & Hc & Hh). unfold script_method, intercept. rewrite bool_decide_false by exact He.
  unfold script_execute, bind, get, do_act, modify, lift_res, ret. simpl in *. rewrite Hi, Hc.
  destruct out as [r|e halt tr]; simpl.
  - eexists _, _. split; [reflexivity|]. split; [|reflexivity]. done.
  - unfold halts in Hh. unfold failed_call, rethrow, ret. simpl.
    destruct (truthy halt_on_exception); [done|]. simpl in *.
    destruct (bool_decide (exc_type e = EDEFwError) && halt); [done|].
    eexists _, _. split; [reflexivity|]. split; [|reflexivity]. done.
Qed.

(** Running one script prints what it prints and adds its result. *)
Lemma run_script_effect co key s :
  runs co key →
  ∃ s' sc, run_script_of co key s = (s', Ok tt) ∧ dget (co_db co) key = Some sc ∧
    py_out s' = (py_out s ++ script_prints (acts (py_world s)) (sc_name sc))%string ∧
    recorded_for co key (global_test_results (py_world s')) ∧
    ∀ key', recorded_for co key' (global_test_results (py_world s)) →
      recorded_for co key' (global_test_results (py_world s')).
Proof.
  intros (sc & Hsc & He & Hall). unfold run_script_of, collection_getitem, bind, lift_res. rewrite Hsc.
  unfold modify at 1, in_world. cbn [py_world py_out].
  destruct (Hall (acts (py_world s) ++ [AImport (sc_name sc)])) as [Hi Ho].
  destruct (script_runs sc (py_world s) He Hi Ho) as (w' & v & -> & Hv & Hr).
  eexists _, sc. split; [reflexivity|]. split; [done|]. split; [done|]. cbn [py_world]. rewrite Hr. split.
  - intros sc'. rewrite Hsc. intros [= <-]. unfold has_result. rewrite subtests_set_global, <- Hv, get_set_result.
    by eexists.
  - intros key' H sc' Hsc'. apply has_result_set, H, Hsc'.
Qed.

(** All the scripts: every one has its result afterwards. *)
Lemma exec_scripts co scripts p s :
  Forall (runs co) scripts →
  ∃ s', exec (Some co) (flat_map (λ k, [SRun k; SPrint (PROGRESS_PREFIX ++ k)%string]) scripts ++ p) s =
          exec (Some co) p s' ∧
    (∀ key, key ∈ scripts → recorded_for co key (global_test_results (py_world s'))) ∧
    (∀ key, recorded_for co key (global_test_results (py_world s)) →
       recorded_for co key (global_test_results (py_world s'))).
Proof.
  intros H. revert s. induction H as [|k scripts Hk _ IH]; intros s.
  { exists s. split; [done|]. split; [by intros key ?%elem_of_nil | done]. }
  destruct (run_script_effect co k s Hk) as (s1 & sc & E1 & _ & _ & Hrec & Hkeep).
  cbn [flat_map app exec]. unfold bind at 1. rewrite E1. unfold bind at 1, print_text at 1, modify at 1.
  destruct (IH (Interp (py_world s1) (py_out s1 ++ (PROGRESS_PREFIX ++ k) ++ LF)%string)) as (s' & -> & Hall & Hkeep').
  exists s'. split; [done|]. cbn [py_world] in Hkeep'. split; [|auto].
  intros key [->|Hin]%elem_of_cons; [|by apply Hall]. apply Hkeep', Hrec.
Qed.

End Exec.

(** ** Following the output *)

(** The lines of a text, each with its line break *)
Fixpoint lines_from (cur : list ascii) (l : list ascii) : list string :=
  match l with
  | [] => match cur with [] => [] | _ => [text_of (rev cur)] end
  | c :: l' => if Ascii.eqb c "010" then text_of (rev (c :: cur)) :: lines_from [] l' else lines_from (c :: cur) l'
  end.
Definition lines_of (t : string) : list string := lines_from [] (chars t).

(** What the progress display and the terminal get *)
Record display := Display { advanced : nat; description : string; shown : list string }.

(** [line[len(PROGRESS_PREFIX):].strip() or 'test'] *)
Definition completed_name (line : string) : string :=
  let n := strip (text_of (drop (String.length PROGRESS_PREFIX) (chars line))) in
  if String.eqb n "" then "test" else n.

Definition follow_line (d : display) (line : string) : display :=
  if String.prefix PROGRESS_PREFIX line
  then Display (S (advanced d)) ("Completed " ++ completed_name line)%string (shown d)
  else Display (advanced d) (description d) (shown d ++ [line]).

(** The loop of [stream_runner_output] over [process.stdout] *)
Definition follow (output : string) : display := fold_left follow_line (lines_of output) (Display 0 "Running DEFw tests" []).

(** [stream_runner_output]: without the progress library the output is not
    read; either way the status of the process is the value. *)
Definition stream_runner_output (progress : bool) (output : string) (status : Z) : option display * Z :=
  if progress then (Some (follow output), status) else (None, status).

Lemma lines_break cur l rest :
  "010"%char ∉ l → lines_from cur (l ++ "010"%char :: rest) = text_of (rev cur ++ l ++ ["010"%char]) :: lines_from [] rest.
Proof.
  revert cur. induction l as [|c l IH]; intros cur Hl; simpl; [done|].
  apply not_elem_of_cons in Hl as [Hc Hl]. destruct (Ascii.eqb_spec c "010") as [->|_]; [done|].
  rewrite IH by done. simpl. by rewrite <- app_assoc.
Qed.

(** A text that ends its last line *)
Definition ended (t : string) : Prop := t = "" ∨ ∃ l, chars t = l ++ ["010"%char].

Lemma lines_from_app cur l r : lines_from cur (l ++ "010"%char :: r) = lines_from cur (l ++ ["010"%char]) ++ lines_from [] r.
Proof.
  revert cur. induction l as [|c l IH]; intros cur; simpl; [done|]. destruct (Ascii.eqb c "010"); simpl; by rewrite IH.
Qed.

Lemma lines_app a b : ended a → lines_of (a ++ b)%string = lines_of a ++ lines_of b.
Proof.
  unfold lines_of. rewrite chars_app. intros [->|[l Hl]]; [done|]. rewrite Hl, <- app_assoc. apply lines_from_app.
Qed.

Lemma lines_one t : one_line t → lines_of (t ++ LF)%string = [(t ++ LF)%string].
Proof.
  intros Ht. unfold lines_of. rewrite chars_app. change (chars LF) with ["010"%char].
  rewrite (lines_break [] (chars t) [] Ht). simpl. f_equal. rewrite <- (text_chars (t ++ LF)%string), chars_app. done.
Qed.

(** A text without a progress line of its own *)
Definition unmarked (t : string) : Prop := ended t ∧ Forall (λ l, String.prefix PROGRESS_PREFIX l = false) (lines_of t).

Lemma follow_unmarked d ls :
  Forall (λ l, String.prefix PROGRESS_PREFIX l = false) ls → advanced (fold_left follow_line ls d) = advanced d.
Proof.
  intros H. revert d. induction H as [|l ls Hl _ IH]; intros d; simpl; [done|]. rewrite IH. unfold follow_line. by rewrite Hl.
Qed.

Lemma prefix_app p t : String.prefix p (p ++ t)%string = true.
Proof. induction p as [|c p IH]; [by destruct t|]. simpl. destruct (ascii_dec c c); [exact IH | done]. Qed.

Lemma follow_marker d k : one_line k →
  advanced (fold_left follow_line (lines_of ((PROGRESS_PREFIX ++ k) ++ LF)%string) d) = S (advanced d).
Proof.
  intros Hk. rewrite lines_one by (apply one_line_app; [by apply one_line_closed | done]). cbn [fold_left].
  unfold follow_line. by rewrite <- append_assoc, prefix_app.
Qed.

(** The output of a run: what each script prints, its progress line, and the
    rest *)
Definition script_output (prints : list (string * string)) (last : string) : string :=
  (String.concat "" (map (λ p, p.2 ++ (PROGRESS_PREFIX ++ p.1) ++ LF) prints) ++ last)%string.

(** The display advances once per script that has run. *)
Lemma progress_counts_scripts prints last :
  Forall (λ p, one_line p.1 ∧ unmarked p.2) prints → unmarked last →
  advanced (follow (script_output prints last)) = length prints.
Proof.
  intros H [Hend Hlast]. unfold follow, script_output.
  assert (∀ d, advanced (fold_left follow_line
            (lines_of (String.concat "" (map (λ p, p.2 ++ (PROGRESS_PREFIX ++ p.1) ++ LF) prints) ++ last)%string) d) =
          (length prints + advanced d)%nat) as Hgen; [|by rewrite Hgen, Nat.add_0_r].
  induction H as [|[k t] prints [Hk [Ht Htl]] _ IH]; intros d.
  { simpl. by apply follow_unmarked. }
  assert (String.concat "" (map (λ p, p.2 ++ (PROGRESS_PREFIX ++ p.1) ++ LF) ((k, t) :: prints)) =
          t ++ ((PROGRESS_PREFIX ++ k) ++ LF) ++ String.concat "" (map (λ p, p.2 ++ (PROGRESS_PREFIX ++ p.1) ++ LF) prints))%string as ->.
  { destruct prints; simpl; rewrite ?append_nil_r, <- ?append_assoc; done. }
  rewrite <- !append_assoc, lines_app, append_assoc, append_assoc, lines_app by
    (done || (right; eexists; rewrite chars_app; reflexivity)).
  rewrite !fold_left_app. rewrite IH, follow_marker, follow_unmarked by done. simpl. lia.
Qed.

(** ** The configuration *)

(** [Config must define a non-empty scripts list] *)
Definition script_entry (v : val) : res string :=
  match v with
  | VStr s => if String.eqb (strip s) "" then Raise (Exc EValueError "Each script entry must be a non-empty string")
              else Ok s
  | _ => Raise (Exc EValueError "Each script entry must be a non-empty string")
  end.

Definition normalize_scripts (config : pydict) : res (list string) :=
  match vget_or config "scripts" (VList []) with
  | VList [] => Raise (Exc EValueError "Config must define a non-empty scripts list")
  | VList l => rmapM script_entry l
  | _ => Raise (Exc EValueError "Config must define a non-empty scripts list")
  end.

(** [selector.split("::", 1)], when it contains the separator *)
Fixpoint split_selector (cur l : list ascii) : option (list ascii * list ascii) :=
  match l with
  | ":"%char :: (":"%char :: l') => Some (rev cur, l')
  | c :: l' => split_selector (c :: cur) l'
  | [] => None
  end.

Definition select_script (config : pydict) (script : string) : pydict := dset config "scripts" (VList [VStr script]).

(** [apply_script_selector]; no selector is the empty text *)
Definition apply_script_selector (config : pydict) (selector : string) : res pydict :=
  if String.eqb selector "" then Ok config
  else match split_selector [] (chars selector) with
       | Some (a, b) =>
           let suite_name := strip (text_of a) in
           let script_name := strip (text_of b) in
           if String.eqb suite_name "" || String.eqb script_name "" then
             Raise (Exc EValueError "Script selector must be suite::script")
           else if negb (py_eqb (vget config "suite") (VStr suite_name)) then
             Raise (Exc EValueError "Selector suite does not match config suite")
           else Ok (select_script config script_name)
       | None =>
           let script_name := strip selector in
           if String.eqb script_name "" then Raise (Exc EValueError "Script selector must not be empty")
           else Ok (select_script config script_name)
       end.

Definition DEFAULT_MODULES : list string := ["svc_dirsvc"; "api_dirsvc"].

(** [",".join] of texts *)
Definition as_text (v : val) : res string :=
  match v with VStr s => Ok s | _ => Raise (Exc ETypeError "sequence item: expected str instance") end.

(** [join_modules] *)
Definition join_modules (config : pydict) : res string :=
  let? extra := py_iter (vget_or config "modules" (VList [])) in
  let modules := fold_left (λ ms m, if py_in_list m ms then ms else ms ++ [m]) extra (map VStr DEFAULT_MODULES) in
  let? names := rmapM as_text modules in
  Ok (String.concat "," names).

(** [build_python_command] *)
Definition build_python_command (config : pydict) : res string :=
  match vget config "suite" with
  | VStr suite =>
      if String.eqb (strip suite) "" then Raise (Exc EValueError "Config must define a suite name")
      else let? scripts := normalize_scripts config in Ok (program_text suite scripts)
  | _ => Raise (Exc EValueError "Config must define a suite name")
  end.

Section Files.
(** The file system as the runner sees it, the environment and the YAML
    reader; [root] is [DEFW_ROOT]. *)
Context (is_file executable : string → bool) (resolve : string → string).
Context (safe_load : string → res val) (environ : odict string val).
Context (root : string) (vim : val).

Definition PYTHON_DIR : string := path_join root "python".
Definition DEFAULT_CONFIG_DIR : string := path_join (path_join PYTHON_DIR "tests") "configs".
Definition DEFAULT_CONFIG_PATH : string := path_join (path_join PYTHON_DIR "config") "defw_generic.yaml".

(** [resolve_defwp] *)
Definition candidates : list string :=
  [path_join root "src/defwp"; path_join root "bin/defwp"; path_join root "src/defwp-wrapper";
   path_join root "bin/defwp-wrapper"].

Definition resolve_defwp : res string :=
  match dget environ "DEFW_EXECUTABLE" with
  | Some (VStr (String c s)) => Ok (resolve (String c s))
  | _ => match List.find (λ c, is_file c && executable c) candidates with
         | Some c => Ok c
         | None => Raise (Exc EOSError "Unable to find defwp")
         end
  end.

(** The last component of a path, and its suffix *)
Definition path_name (p : string) : string :=
  List.last (List.filter (λ s, negb (String.eqb s "" || String.eqb s ".")) (split_on "/" "" p)) "".
Definition path_suffix (p : string) : string :=
  match rev (split_on "." "" (path_name p)) with
  | [] | [_] | "" :: _ | [_; ""] => ""
  | ext :: _ => ("." ++ ext)%string
  end.

(** [resolve_config_path] *)
Definition resolve_config_path (config_name : string) : res string :=
  if is_file config_name then Ok (resolve config_name)
  else let path := if negb (String.eqb (path_suffix config_name) ".yaml")
                   then path_join DEFAULT_CONFIG_DIR (config_name ++ ".yaml")%string
                   else path_join DEFAULT_CONFIG_DIR (path_name config_name) in
       if is_file path then Ok (resolve path) else Raise (Exc EOSError "Unable to find config").

(** [load_config] *)
Definition load_config (path : string) : res pydict :=
  let? v := safe_load path in
  match py_or v (VDict []) with
  | VDict config => Ok config
  | _ => Raise (Exc EValueError "Config must be a YAML mapping")
  end.

Definition DEFAULT_PREF : pydict :=
  [("editor", vim); ("py_loglevel", VStr "critical"); ("halt_on_exception", VBool false);
   ("RPC timeout", VInt 300); ("num_intfs", VInt 3); ("cmd verbosity", VBool true);
   ("debug module reload", VBool false)].

(** What the runner does to the files and to the terminal *)
Inductive runner_act :=
  | WritePref (path : string) (pref : pydict)
  | StartProcess (cmd : list string) (env : odict string val)
  | RemoveTree (path : string)
  | CopyTree (src dst : string)
  | Say (line : string).

Definition act_of (a : runner_act) : M (list runner_act) unit := modify (λ l, l ++ [a]).

(** [write_pref_file] *)
Definition write_pref_file (config : pydict) (log_dir : string) : M (list runner_act) string :=
  let! master := lift_res (as_dict (vget_or config "master" (VDict []))) in
  let pref_path := path_join log_dir "defw_pref.yaml" in
  act_of (WritePref pref_path
            (dset DEFAULT_PREF "py_loglevel" (VStr (py_fmt (vget_or master "py_loglevel" (VStr "critical")))))) ;;;
  ret pref_path.

(** The assignments [env[...] = ...] in turn *)
Definition set_all (env : odict string val) (l : list (string * val)) : odict string val :=
  fold_left (λ e p, dset e p.1 p.2) l env.

Definition library_path (env : odict string val) : val :=
  let runtime_libs := (path_join root "lib" ++ ":" ++ path_join root "src")%string in
  match dget env "LD_LIBRARY_PATH" with
  | Some (VStr (String c s)) => VStr (runtime_libs ++ ":" ++ String c s)%string
  | _ => VStr runtime_libs
  end.

(** [build_environment] *)
Definition build_environment (config : pydict) : M (list runner_act) (odict string val) :=
  let! master := lift_res (as_dict (vget_or config "master" (VDict []))) in
  let agent_name := vget_or master "agent_name" (VStr "master-dirsvc") in
  let listen_port := py_fmt (vget_or master "listen_port" (VInt 25100)) in
  let telnet_port := py_fmt (vget_or master "telnet_port" (VInt 25101)) in
  let log_dir := py_fmt (vget_or master "log_dir"
                   (VStr ("/tmp/defw-" ++ py_fmt (vget_or config "suite" (VStr "suite")) ++ "-runner")%string)) in
  let report_mode := py_fmt (vget_or master "report_mode" (VStr "both")) in
  let log_level := py_fmt (vget_or master "log_level" (VStr "DEBUG")) in
  let! port := lift_res (py_int (VStr listen_port)) in
  let experiment_port_base := py_fmt (vget_or master "experiment_port_base" (VInt (port + 10))) in
  let! pref_path := write_pref_file config log_dir in
  let! config_path := lift_res (as_text (vget_or master "config_path" (VStr DEFAULT_CONFIG_PATH))) in
  let! modules := lift_res (join_modules config) in
  let env := set_all environ
    [("LD_LIBRARY_PATH", library_path environ); ("DEFW_PATH", VStr root);
     ("DEFW_CONFIG_PATH", VStr (resolve config_path)); ("DEFW_AGENT_NAME", agent_name);
     ("DEFW_AGENT_TYPE", VStr "dirsvc"); ("DEFW_SHELL_TYPE", VStr "cmdline");
     ("DEFW_LISTEN_PORT", VStr listen_port); ("DEFW_TELNET_PORT", VStr telnet_port);
     ("DEFW_PARENT_NAME", agent_name);
     ("DEFW_PARENT_HOSTNAME", vget_or master "parent_hostname" (VStr "127.0.0.1"));
     ("DEFW_PARENT_ADDR", vget_or master "parent_addr" (VStr "127.0.0.1"));
     ("DEFW_PARENT_PORT", VStr listen_port); ("DEFW_LOG_DIR", VStr log_dir); ("DEFW_PREF_PATH", VStr pref_path);
     ("DEFW_LOG_LEVEL", VStr log_level); ("DEFW_REPORT_MODE", VStr report_mode);
     ("DEFW_EXPERIMENT_PORT_BASE", VStr experiment_port_base); ("DEFW_ONLY_LOAD_MODULE", VStr modules)] in
  let! extra := lift_res (as_dict (vget_or config "env" (VDict []))) in
  ret (set_all env (map (λ p, (p.1, VStr (py_fmt p.2))) extra)).

(** [build_command] *)
Definition build_command (config : pydict) : res (list string) :=
  let? exe := resolve_defwp in
  let? text := build_python_command config in
  Ok [exe; "-c"; text].

(** An entry of [/tmp]: its name, whether it is a directory, its resolved
    path, its time of change unless it is gone, the files it has *)
Record tmp_entry := TmpEntry {
  te_name : string; te_is_dir : bool; te_resolved : string; te_mtime : option Z; te_has : string → bool
}.

Definition log_files : list string := ["defw_out.log"; "defw_py.log"; "pid"].

(** [path == root or root in path.parents] *)
Definition under (dir path : string) : bool :=
  String.eqb path dir || String.prefix (if String.eqb dir "/" then "/" else dir ++ "/")%string path.

Definition is_log_dir (start_time : Z) (excluded : list string) (e : tmp_entry) : bool :=
  te_is_dir e && negb (existsb (λ r, under r (te_resolved e)) excluded) &&
  match te_mtime e with Some t => negb (t <? start_time - 1) | None => false end &&
  existsb (te_has e) log_files.

(** [find_process_log_dirs] of [/tmp], by name *)
Definition find_process_log_dirs (entries : list tmp_entry) (start_time : Z) (excluded : list string) : list string :=
  Glob.sorted (map te_name (List.filter (is_log_dir start_time excluded) entries)).

(** [collect_process_logs]; [exists_dst] tells which copies are there already. *)
Definition collect_process_logs (exists_dst : string → bool) (entries : list tmp_entry) (log_dir : string)
    (start_time : Z) : M (list runner_act) unit :=
  let log_root := resolve log_dir in
  let collection_dir := path_join log_root "process_logs" in
  for_each (λ n,
    let dst := path_join collection_dir n in
    (if exists_dst dst then act_of (RemoveTree dst) else ret tt) ;;;
    act_of (CopyTree (path_join "/tmp" n) dst))
    (find_process_log_dirs entries start_time [log_root]).

Definition shown_keys : list string :=
  ["DEFW_PATH"; "DEFW_CONFIG_PATH"; "DEFW_AGENT_NAME"; "DEFW_AGENT_TYPE"; "DEFW_SHELL_TYPE"; "DEFW_LISTEN_PORT";
   "DEFW_TELNET_PORT"; "DEFW_PARENT_NAME"; "DEFW_PARENT_HOSTNAME"; "DEFW_PARENT_ADDR"; "DEFW_PARENT_PORT";
   "DEFW_LOG_DIR"; "DEFW_PREF_PATH"; "DEFW_LOG_LEVEL"; "DEFW_REPORT_MODE"; "DEFW_EXPERIMENT_PORT_BASE";
   "DEFW_ONLY_LOAD_MODULE"].

(** The command line *)
Record arguments := Arguments_ {
  arg_config : string; arg_list_configs : bool; arg_dry_run : bool; arg_script : string
}.

(** [list_configs]: the names of the files in the directory *)
Definition list_configs (names : list string) : list string :=
  Glob.sorted (List.filter (λ n, Glob.fnmatch n "*.yaml") names).

(** [main]; [started] is what starting the command gives: the status of the
    process, or an exception. *)
Definition main (config_names : list string) (started : list string → odict string val → res Z)
    (exists_dst : string → bool) (entries : list tmp_entry) (start_time : Z) (a : arguments) :
    M (list runner_act) Z :=
  if arg_list_configs a then for_each (λ n, act_of (Say n)) (list_configs config_names) ;;; ret 0
  else if String.eqb (arg_config a) "" then act_of (Say "A config name or path is required") ;;; ret 1
  else
    let! config_path := lift_res (resolve_config_path (arg_config a)) in
    let! config := lift_res (load_config config_path) in
    let! config := lift_res (apply_script_selector config (arg_script a)) in
    let! scripts := lift_res (normalize_scripts config) in
    let! env := build_environment config in
    let! cmd := lift_res (build_command config) in
    if arg_dry_run a then
      act_of (Say ("config: " ++ config_path)%string) ;;; act_of (Say "command:") ;;;
      act_of (Say ("  " ++ String.concat " " (take 2 cmd) ++ " <embedded-python>")%string) ;;;
      act_of (Say "environment:") ;;;
      for_each (λ k, let! v := lift_res (vindex env k) in act_of (Say ("  " ++ k ++ "=" ++ py_fmt v)%string)) shown_keys ;;;
      ret 0
    else
      let! log_dir := lift_res (vindex env "DEFW_LOG_DIR") in
      finally
        (act_of (StartProcess cmd env) ;;; lift_res (started cmd env))
        (collect_process_logs exists_dst entries (py_fmt log_dir) start_time).

(** *** What the runner starts *)

Lemma set_all_keeps env l k : is_Some (dget env k) → is_Some (dget (set_all env l) k).
Proof.
  unfold set_all. revert env. induction l as [|p l IH]; intros env H; simpl; [done|]. apply IH.
  rewrite dget_dset. case_decide; [by eexists | done].
Qed.

Lemma set_all_sets env l k : k ∈ map fst l → is_Some (dget (set_all env l) k).
Proof.
  unfold set_all. revert env. induction l as [|p l IH]; intros env H; simpl in *; [by apply elem_of_nil in H|].
  apply elem_of_cons in H as [->|H]; [|by apply IH]. apply set_all_keeps. rewrite dget_dset_eq. by eexists.
Qed.

Lemma pair_ok_inj {A B} (a a' : A) (x y : B) : (a, Ok x) = (a', Ok y) → x = y.
Proof. congruence. Qed.

Lemma environment_log_dir config acts acts' env :
  build_environment config acts = (acts', Ok env) → ∃ v, vindex env "DEFW_LOG_DIR" = Ok v.
Proof.
  unfold build_environment, write_pref_file, bind, lift_res, act_of, modify, ret.
  destruct (as_dict (vget_or config "master" _)) as [master|]; [|done].
  destruct (py_int _) as [port|]; [|done]. destruct (as_text _) as [cp|]; [|done].
  destruct (join_modules config) as [ms|]; [|done]. destruct (as_dict (vget_or config "env" _)) as [extra|]; [|done].
  intros <-%pair_ok_inj. unfold vindex. edestruct set_all_keeps as [v Hv]; [|rewrite Hv; by eexists].
  apply set_all_sets. repeat first [left; reflexivity | right].
Qed.

Lemma collect_never_fails ex entries dir t acts : (collect_process_logs ex entries dir t acts).2 = Ok tt.
Proof.
  unfold collect_process_logs. revert acts. induction (find_process_log_dirs _ _ _) as [|n ns IH]; intros acts; [done|].
  simpl. unfold bind, act_of, modify, ret. destruct (ex _); apply IH.
Qed.

Lemma finally_cleanup {S A} (m : M S A) f s : (∀ s, (f s).2 = Ok tt) → finally m f s = ((f (m s).1).1, (m s).2).
Proof. intros Hf. unfold finally. destruct (m s) as [s1 r]. specialize (Hf s1). simpl. by destruct (f s1) as [s2 [[]|e]]. Qed.

(** What the runner starts is what it was asked for.  For a configuration
    that can be read, with the selection of the command line applied, the
    runner starts the executable once, with the environment it built and a
    program that Python reads as: run these scripts of this suite, in order,
    report, and fail if one failed.  Whether the process ran, failed or could
    not even be started, its outcome is the runner's, and the logs are
    collected. *)
Theorem runner_starts_configured names started ex entries t a path config0 config suite scripts exe acts acts1 env :
  arg_list_configs a = false → arg_dry_run a = false → arg_config a ≠ "" →
  resolve_config_path (arg_config a) = Ok path → load_config path = Ok config0 →
  apply_script_selector config0 (arg_script a) = Ok config →
  vget config "suite" = VStr suite → strip suite ≠ "" → normalize_scripts config = Ok scripts →
  build_environment config acts = (acts1, Ok env) → resolve_defwp = Ok exe →
  ∃ text log_dir, read_program text = Some (program suite scripts) ∧
    main names started ex entries t a acts =
    ((collect_process_logs ex entries log_dir t (acts1 ++ [StartProcess [exe; "-c"; text] env])).1,
     started [exe; "-c"; text] env).
Proof.
  intros Hl Hd Hc Hp Hlc Hs Hsuite Hne Hsc He Hx. destruct (environment_log_dir _ _ _ _ He) as [v Hv].
  exists (program_text suite scripts), (py_fmt v). split; [apply program_read_back|].
  unfold main. rewrite Hl, (proj2 (String.eqb_neq _ _) Hc), Hd.
  unfold bind at 1, lift_res at 1. rewrite Hp. unfold bind at 1, lift_res at 1. rewrite Hlc.
  unfold bind at 1, lift_res at 1. rewrite Hs. unfold bind at 1, lift_res at 1. rewrite Hsc.
  unfold bind at 1. rewrite He. unfold bind at 1, lift_res at 1, build_command, build_python_command.
  rewrite Hx. cbn [rbind]. rewrite Hsuite, (proj2 (String.eqb_neq _ _) Hne), Hsc. cbn [rbind].
  unfold bind at 1, lift_res at 1. rewrite Hv. rewrite finally_cleanup by (intros s; apply collect_never_fails). done.
Qed.
End Files.

(** ** The configuration of the repository, run *)
Module RunnerDemo.
Definition files (p : string) : bool := String.eqb p "/defw/python/tests/configs/smoke.yaml" || String.eqb p "/defw/bin/defwp".
Definition smoke : val :=
  VDict [("suite", VStr "framework"); ("scripts", VList [VStr "remote_exception_format"; VStr "it's"]);
         ("master", VDict [("listen_port", VInt 25300)])].
Definition args : arguments := Arguments_ "smoke" false false "framework:: it's".
Definition started (cmd : list string) (env : odict string val) : res Z := Raise (Exc EOSError "no such file").
Definition tmp : list tmp_entry :=
  [TmpEntry "svc" true "/tmp/svc" (Some 100) (String.eqb "pid"); TmpEntry "old" true "/tmp/old" (Some 10) (String.eqb "pid")].
Definition run_main := main files (λ _, true) id (λ _, Ok smoke) [] "/defw" (VStr "/usr/bin/vim") [] started (λ _, false) tmp 100 args [].

Lemma runner_starts_configured_witness :
  ∃ text log_dir env acts1, read_program text = Some (program "framework" ["it's"]) ∧
    run_main = ((collect_process_logs id (λ _, false) tmp log_dir 100
                   (acts1 ++ [StartProcess ["/defw/bin/defwp"; "-c"; text] env])).1, Raise (Exc EOSError "no such file")).
Proof.
  set (config := [("suite", VStr "framework"); ("scripts", VList [VStr "it's"]);
                  ("master", VDict [("listen_port", VInt 25300)])] : pydict).
  destruct (build_environment id [] "/defw" (VStr "/usr/bin/vim") config []) as [acts1 [env|]] eqn:He;
    [|vm_compute in He; discriminate].
  destruct (runner_starts_configured files (λ _, true) id (λ _, Ok smoke) [] "/defw" (VStr "/usr/bin/vim") []
              started (λ _, false) tmp 100 args "/defw/python/tests/configs/smoke.yaml"
              [("suite", VStr "framework"); ("scripts", VList [VStr "remote_exception_format"; VStr "it's"]);
               ("master", VDict [("listen_port", VInt 25300)])] config "framework" ["it's"] "/defw/bin/defwp" [] acts1 env)
    as (text & log_dir & Hr & Hm); [reflexivity | reflexivity | discriminate | reflexivity | reflexivity |
      vm_compute; reflexivity | reflexivity | discriminate | reflexivity | exact He | reflexivity |].
  exists text, log_dir, env, acts1. split; [exact Hr | exact Hm].
Defined.

(** A suite with a script that fails *)
Definition demo_scripts : collection :=
  Collection "framework" "/x" "exp_" [] VNone []
    [("good", Script "exp_good" "/x/exp_good.py" "exp_" "framework" []);
     ("it's", Script "exp_it's" "/x/exp_it's.py" "exp_" "framework" [])].
Definition demo_experiments : suites :=
  Suites ["/x"] "suite_" "exp_" [] [("framework", ASuite "framework" "/x" "exp_" [] [] VNone demo_scripts)].
Definition demo_import (h : list act) (n : string) : res unit := Ok tt.
Definition demo_call (h : list act) (n m : string) : option outcome :=
  Some (Returned (if String.eqb n "exp_it's" then RawBool false else RawNone)).
Definition demo_run (scripts : list string) : interp * Z :=
  run_text demo_import demo_call (λ _, 0) (VBool false) (λ _ n, (n ++ LF)%string) (λ _, "0") None (VStr "summary") demo_experiments
    (program_text "framework" scripts) (Interp (World [] [] [] []) "").


(** A script that does not end its last line hides its progress line. *)
Example unended_line_hides_progress :
  advanced (follow (script_output [("a", ("ok" ++ LF)%string); ("b", ("ok" ++ LF)%string)] "")) = 2%nat ∧
  advanced (follow (script_output [("a", "ok"); ("b", ("ok" ++ LF)%string)] "")) = 1%nat.
Proof. vm_compute. split; reflexivity. Qed.
End RunnerDemo.
