(* ===== verification/Process.v ===== *)
(** * The process ([Myself] and the start-up code of [python/infra/defw.py],
    970-1160 and 1573-1610; [get_lscpu] of [python/infra/defw_util.py])

    [Myself] describes the running process; start-up configures it, sets up
    logging and the search path, finds the experiments, loads the service
    packages and their APIs and, in the directory process, creates the
    directory service.  What the native runtime reports once it is configured
    is the argument [view]; what creating the service object gives is
    [create_service]. *)

From S2P Require Import Prelude PyDict PyVal Agent Exceptions Results Logging Config Docs Glob Suites SuitesFacts.
From Stdlib Require Import Ascii.

Local Open Scope string_scope.
Local Open Scope Z_scope.
Local Open Scope list_scope.
Import PyNotations.
Local Open Scope py_scope.

(** ** [get_lscpu] *)

(** [line.split(sep, 1)] when [sep] occurs *)
Fixpoint cut_at (sep : ascii) (l : list ascii) : option (list ascii * list ascii) :=
  match l with
  | [] => None
  | c :: l' => if Ascii.eqb c sep then Some ([], l')
               else match cut_at sep l' with
                    | Some (a, b) => Some (c :: a, b)
                    | None => None
                    end
  end.

Definition add_cpu_line (info : odict string string) (line : list ascii) : odict string string :=
  match cut_at ":" line with
  | Some (k, v) => dset info (String.string_of_list_ascii (strip_l k))
                     (String.string_of_list_ascii (strip_l v))
  | None => info
  end.

(** [get_lscpu] on the output of the command *)
Definition get_lscpu (out : string) : odict string string := fold_left add_cpu_line (splitlines out) [].

(** ** [Myself] *)

(** What the native runtime reports. *)
Record native_view := NativeView {
  v_address : string;
  v_port : val;
  v_name : val;
  v_type : val;
  v_uuid : val;
  v_path : string;
  v_tmp_dir : string
}.

(** The host as the process sees it. *)
Record host_info := HostInfo {
  h_pid : Z;
  h_hostname : string;
  h_address : string;
  h_lscpu : string
}.

Record myself := Myself {
  cpuinfo : odict string string;
  defw_cfg : pydict;
  endpoint : Endpoint;
  pid_file : string * string
}.

(** [Myself.__init__]; the pid file is its path and content. *)
Definition new_myself (v : native_view) (h : host_info) (cfg : pydict) : res myself :=
  let address := if String.eqb (v_address v) "0.0.0.0" then h_address h else v_address v in
  let? e := new_endpoint (VStr address) (v_port v) (v_port v) (VInt (h_pid h)) (v_name v)
              (VStr (h_hostname h)) (v_type v) (v_uuid v) (VStr ZERO_UUID) in
  Ok (Myself (get_lscpu (h_lscpu h)) cfg e (path_join (v_tmp_dir v) "pid", py_fmt (VInt (h_pid h)))).

(** [s.upper()] of an attribute *)
Definition upper_of (v : val) : res string :=
  match v with
  | VStr s => Ok (upper s)
  | _ => Raise (Exc EAttributeError "object has no attribute 'upper'")
  end.

Definition my_name (m : myself) : val := name (endpoint m).
Definition my_hostname (m : myself) : val := hostname (endpoint m).
(** [my_type] computes the name of the role and returns nothing. *)
Definition my_type (m : myself) : res val := let? _ := node_type2str (endpoint m) in Ok VNone.

(** [is_self], each conjunct evaluated only if those before it hold *)
Definition is_self (m : myself) (target : Endpoint) (getpid : Z) : res bool :=
  let? n1 := upper_of (name target) in
  let? n2 := upper_of (my_name m) in
  if negb (String.eqb n1 n2) then Ok false
  else
    let? h1 := upper_of (hostname target) in
    let? h2 := upper_of (my_hostname m) in
    if negb (String.eqb h1 h2) then Ok false
    else
      let? t := my_type m in
      Ok (py_eqb (node_type target) t && py_eqb (VInt getpid) (pid target) &&
          py_eqb (addr target) (addr (endpoint m)) && py_eqb (port target) (port (endpoint m))).

(** [get_test_progress_path] *)
Definition get_test_progress_path (v : native_view) (m : myself) : res val :=
  let? d := Config.section (defw_cfg m) in
  Ok (match dget d "test-progress" with
      | Some p => p
      | None => VStr (path_join (v_tmp_dir v) "defw_test_progress.out")
      end).

(** [get_num_cpus] and [get_num_numa_nodes] *)
Definition cpu_number (key : string) (m : myself) : res Z :=
  match dget (cpuinfo m) key with
  | Some s => py_int (VStr s)
  | None => Raise (Exc EKeyError key)
  end.
Definition get_num_cpus : myself → res Z := cpu_number "CPU(s)".
Definition get_num_numa_nodes : myself → res Z := cpu_number "NUMA node(s)".

(** [list_intfs]: an interface without an IPv4 address is left out. *)
Record intf := Intf { i_ip : string; i_netmask : string; i_broadcast : string }.

Definition list_intfs (interfaces : list string) (ifaddress : string → string → res string) :
    odict string intf :=
  fold_left (λ d i,
    match (let? ip := ifaddress i "addr" in
           let? nm := ifaddress i "netmask" in
           let? bc := ifaddress i "broadcast" in Ok (Intf ip nm bc)) with
    | Ok x => dset d i x
    | Raise _ => d
    end) interfaces [].

(** [import_env_vars]: one line; the value is stripped of blanks, then of
    double quotes *)
Fixpoint drop_char (c : ascii) (l : list ascii) : list ascii :=
  match l with d :: l' => if Ascii.eqb d c then drop_char c l' else l | [] => [] end.

Definition strip_char (c : ascii) (s : string) : string :=
  String.string_of_list_ascii
    (rev (drop_char c (rev (drop_char c (String.list_ascii_of_string s))))).

Definition import_env_line (environ : env_dict) (line : string) : res env_dict :=
  if contains "export " line then
    match split_on "=" "" (str_remove "export " line) with
    | k :: v :: _ => Ok (dset environ (strip k) (strip_char dquote (strip v)))
    | _ => Raise (Exc EIndexError "list index out of range")
    end
  else Ok environ.

Fixpoint import_env_vars (lines : list string) (environ : env_dict) : res env_dict :=
  match lines with
  | [] => Ok environ
  | l :: lines' => let? environ := import_env_line environ l in import_env_vars lines' environ
  end.

(** The steps of [Myself.exit] besides finalising the modules. *)
Inductive exit_step :=
  | DumpMetrics
  | Uninitialize (m : service_module)
  | SystemShutdown
  | PutShutdown
  | JoinUpdater
  | DumpStacks
  | OriginalExit.

Definition exit_steps (services apis : odict string service_module) : list exit_step :=
  [DumpMetrics] ++ map Uninitialize (dvals services) ++ map Uninitialize (dvals apis) ++
  [SystemShutdown; PutShutdown; JoinUpdater; DumpStacks; OriginalExit].

(** ** Start-up *)

Record process := Process {
  p_config : configured;
  p_settings : settings;
  p_me : myself;
  p_experiments : suites;
  p_services : odict string service_module;
  p_apis : odict string service_module;
  p_dirsvc : option nat
}.

Section StartUp.
Context (sur : surroundings).
Context (view : native → native_view).
Context (host : host_info).
Context (vim : val).
Context (pref_file : option val).
Context (create_service : service_module → res nat).
Context (walk : string → list (string * list string * list string)).
Context (import_skip : string → res skip_module).
Context (import_service : list act → string → string → res string).

(** The object of the directory service, in the directory process. *)
Definition create_dirsvc (m : myself) (services : odict string service_module) : res (option nat) :=
  if is_dirsvc (endpoint m) then
    match dget services "Directory Service" with
    | Some s => res_map Some (create_service s)
    | None => Ok None
    end
  else Ok None.

(** The module-level code of [defw.py] *)
Definition start_up (environ : env_dict) : M world process :=
  let! cfg := lift_res (configure_defw sur environ) in
  let v := view (cfg_native cfg) in
  let! st := lift_res (setup_log_levels (init_settings vim)) in
  modify (λ w, set_sys_path (setup_paths (v_path v) (cfg_environ cfg) (sys_path w)) w) ;;;
  let! me := lift_res (new_myself v host (cfg_yaml cfg)) in
  let defw_path := dget_or environ "DEFW_PATH" (cwd sur) in
  let! experiments := exp_suites walk import_skip defw_path (cfg_yaml cfg) in
  let! services := service_suites walk import_service defw_path (cfg_yaml cfg) (only_load cfg)
                     (noinit_load cfg) (is_dirsvc (endpoint me)) in
  let! apis := service_suite_apis walk import_service defw_path (cfg_yaml cfg) (only_load cfg)
                 (noinit_load cfg) (is_dirsvc (endpoint me)) in
  let! dirsvc := lift_res (create_dirsvc me services) in
  let! st := lift_res (load_pref pref_file (dget (cfg_environ cfg) "DEFW_PY_LOGLEVEL") st) in
  ret (Process cfg st me experiments services apis dirsvc).
End StartUp.

(** ** Who this process is *)

(** [is_self] never recognises the process itself, nor any other endpoint:
    [my_type] returns nothing, and no endpoint has such a role. *)
Theorem is_self_never (m : myself) (target : Endpoint) (getpid : Z)
    (a p l i n h t r b : val) :
  new_endpoint a p l i n h t r b = Ok target → is_self m target getpid ≠ Ok true.
Proof.
  unfold new_endpoint. case_match eqn:E; [|done]. intros [= <-]. unfold is_self, my_type. simpl.
  assert (py_eqb t VNone = false) as Ht by (by destruct t).
  destruct (upper_of n); [|done]. cbn [rbind]. destruct (upper_of (my_name m)); [|done]. cbn [rbind].
  destruct (negb _); [done|]. destruct (upper_of h); [|done]. cbn [rbind].
  destruct (upper_of (my_hostname m)); [|done]. cbn [rbind].
  destruct (negb _); [done|]. destruct (node_type2str _); [|done]. cbn [rbind]. by rewrite Ht.
Qed.

(** ** What start-up loads *)

(** A computation that only loads packages [P] accepts. *)
Definition loads_only {A} (P : string → Prop) (c : M world A) : Prop :=
  ∀ w, ∃ new, acts (c w).1 = acts w ++ new ∧ ∀ path d, ALoad path d ∈ new → P d.

Section LoadsOnly.
Context (P : string → Prop).

Lemma lo_ret {A} (a : A) : loads_only P (ret a).
Proof. intros w. exists []. rewrite app_nil_r. split; [done|]. by intros ? ? ?%elem_of_nil. Qed.

Lemma lo_lift {A} (r : res A) : loads_only P (lift_res r).
Proof. intros w. exists []. rewrite app_nil_r. split; [done|]. by intros ? ? ?%elem_of_nil. Qed.

Lemma lo_lift_ok {A B} (a : A) (k : A → M world B) :
  loads_only P (k a) → loads_only P (bind (lift_res (Ok a)) k).
Proof. intros H w. apply (H w). Qed.

Lemma lo_path (f : world → list string) : loads_only P (modify (λ w, set_sys_path (f w) w)).
Proof. intros w. exists []. rewrite app_nil_r. split; [done|]. by intros ? ? ?%elem_of_nil. Qed.

Lemma lo_act a : (∀ path d, a = ALoad path d → P d) → loads_only P (do_act a).
Proof.
  intros Ha w. exists [a]. split; [done|]. intros path d H%list_elem_of_singleton. by apply (Ha path).
Qed.

Lemma lo_bind {A B} (c : M world A) (k : A → M world B) :
  loads_only P c → (∀ a, loads_only P (k a)) → loads_only P (bind c k).
Proof.
  intros Hc Hk w. unfold bind. destruct (Hc w) as (n1 & E1 & H1).
  destruct (c w) as [w' [a|e]]; simpl in *; [|by exists n1].
  destruct (Hk a w') as (n2 & E2 & H2). exists (n1 ++ n2). rewrite E2, E1, app_assoc.
  split; [done|]. intros path d [?|?]%elem_of_app; eauto.
Qed.

Lemma lo_get {B} (k : world → M world B) : (∀ x, loads_only P (k x)) → loads_only P (bind get k).
Proof. intros Hk w. apply (Hk w w). Qed.

Context (walk : string → list (string * list string * list string)).
Context (import_skip : string → res skip_module).
Context (import_service : list act → string → string → res string).

Lemma lo_new_asuite base n prefix disabled :
  loads_only P (new_asuite walk import_skip base n prefix disabled).
Proof.
  unfold new_asuite, suite_reload, new_collection, collection_reload.
  apply lo_bind; [apply lo_path|]. intros _. apply lo_bind; [apply lo_lift|]. intros [skips expected].
  apply lo_bind; [|intros; apply lo_ret]. apply lo_get. intros x.
  destruct (add_dirs _ _ _ _) as [db path]. apply lo_bind; [apply (lo_path (λ _, path)) | intros; apply lo_ret].
Qed.

Lemma lo_add_suites su path dirs db : loads_only P (add_suites walk import_skip su path dirs db).
Proof.
  revert db. induction dirs as [|d dirs IH]; intros db; simpl; [apply lo_ret|].
  destruct (String.prefix _ d); [|apply IH]. apply lo_bind; [apply lo_new_asuite | intros; apply IH].
Qed.

Lemma lo_add_suite_paths su paths before db :
  loads_only P (add_suite_paths walk import_skip su paths before db).
Proof.
  revert before db. induction paths as [|p paths IH]; intros before db; simpl; [apply lo_ret|].
  apply lo_bind; [apply lo_lift|]. intros dirs.
  apply lo_bind; [apply lo_add_suites | intros; apply IH].
Qed.

Lemma lo_external config key : loads_only P (external_paths config key).
Proof.
  unfold external_paths. destruct (let? d := Config.section config in vindex d key) as [[]|];
    try apply lo_ret. apply lo_bind; [apply lo_path | intros; apply lo_ret].
Qed.

Lemma lo_exp_suites defw_path config : loads_only P (exp_suites walk import_skip defw_path config).
Proof.
  apply lo_bind; [apply lo_external|]. intros more. unfold new_suites, suites_reload.
  apply lo_bind; [apply lo_add_suite_paths | intros; apply lo_ret].
Qed.

Lemma lo_add_services cfg path dirs db :
  (∀ d, is_load cfg d = true → P d) → loads_only P (add_services import_service cfg path dirs db).
Proof.
  intros HP. revert db. induction dirs as [|d dirs IH]; intros db; simpl; [apply lo_ret|].
  apply lo_bind; [|intros; apply IH]. unfold add_service.
  destruct (decide_dir cfg d) eqn:E; [apply lo_ret | |].
  - apply lo_bind; [apply lo_path | intros; apply lo_ret].
  - apply lo_bind; [|intros; apply lo_bind; [by apply lo_act | intros; apply lo_ret]].
    apply lo_bind; [apply lo_path|]. intros _. apply lo_bind.
    + apply lo_act. intros path' d' [= _ <-]. apply HP. unfold is_load. by rewrite E.
    + intros _. apply lo_get. intros x. apply lo_lift.
Qed.

Lemma lo_generate cfg paths before db :
  (∀ d, is_load cfg d = true → P d) →
  loads_only P (generate_services walk import_service cfg paths before db).
Proof.
  intros HP. revert before db. induction paths as [|p paths IH]; intros before db; simpl;
    [apply lo_ret|]. apply lo_bind; [apply lo_lift|]. intros dirs.
  apply lo_bind; [by apply lo_add_services | intros; apply IH].
Qed.
End LoadsOnly.

(** The rule for the packages of a process with that role. *)
Definition load_rule (is_dir : bool) (only noinit : list string) (d : string) : Prop :=
  is_load (ServiceConfig "svc_" noinit only is_dir true) d = true ∨
  is_load (ServiceConfig "api_" noinit only is_dir false) d = true.

Lemma prefix_head a p c d : String.prefix (String a p) (String c d) = true → a = c.
Proof. simpl. by destruct (ascii_dec a c). Qed.

Lemma load_rule_spec is_dir only noinit d :
  load_rule is_dir only noinit d →
  d ∉ noinit ∧
  (only = [] ∨ d ∈ only ∨ str_remove "svc_" d = "dirsvc" ∨ str_remove "api_" d = "dirsvc") ∧
  (String.prefix "svc_" d = true → str_remove "svc_" d = "dirsvc" → is_dir = true).
Proof.
  intros [H|H]; apply is_load_spec in H as (H1 & H2 & H3 & H4); simpl in H1, H2, H3, H4.
  - split_and!; [done | tauto|]. intros _ Hd. by destruct (H4 Hd).
  - split_and!; [done | tauto|]. intros Hp. exfalso. destruct d as [|c d]; [done|].
    pose proof (prefix_head "s" "vc_" c d Hp) as Hs. pose proof (prefix_head "a" "pi_" c d H1) as Ha.
    by rewrite <- Hs in Ha.
Qed.

(** What a computation that returned went through. *)
Lemma bind_result {A B} (c : M world A) (k : A → M world B) w b :
  (bind c k w).2 = Ok b → ∃ w' a, c w = (w', Ok a) ∧ (k a w').2 = Ok b.
Proof. unfold bind. destruct (c w) as [w' [a|e]]; [eauto | done]. Qed.

Section StartUpFacts.
Context (sur : surroundings).
Context (view : native → native_view).
Context (host : host_info).
Context (vim : val).
Context (pref_file : option val).
Context (create_service : service_module → res nat).
Context (walk : string → list (string * list string * list string)).
Context (import_skip : string → res skip_module).
Context (import_service : list act → string → string → res string).

Abbreviation start :=
  (start_up sur view host vim pref_file create_service walk import_skip import_service).

End StartUpFacts.

(** ** Examples *)

Definition demo_surroundings : surroundings :=
  Surroundings "/d" "host" 10001 "abcde" "00000000" (Keywords "2024-1-1" "1.2")
    (λ f, if String.eqb f "/c.yaml"
          then Some (VDict [("defw", VDict [("path", VStr "/d"); ("shell", VStr "daemon");
                                            ("type", VStr "agent")])])
          else None).

Definition demo_environ : env_dict :=
  [("DEFW_CONFIG_PATH", "/c.yaml"); ("DEFW_DISABLE_DIRSVC", "yes"); ("DEFW_PATH", "/d");
   ("DEFW_LOAD_NO_INIT", "svc_b")].

Definition demo_view (n : native) : native_view :=
  NativeView (n_listen_address n) (VInt (n_listen_port n)) (VStr (n_node_name n))
    (VInt EN_DEFW_AGENT) (VStr "u1") (n_defw_path n) "/tmp".

Definition demo_host : host_info :=
  HostInfo 42 "host" "10.0.0.1" ("CPU(s):   8" ++ nl ++ "NUMA node(s): 2" ++ nl)%string.

Definition start_walk (p : string) : list (string * list string * list string) :=
  if String.eqb p "/d/python/experiments" then [("/d/python/experiments", [], [])]
  else if String.eqb p "/d/python/services"
       then [("/d/python/services", ["svc_dirsvc"; "svc_b"; "svc_launcher"], [])]
  else if String.eqb p "/d/python/service-apis" then [("/d/python/service-apis", ["api_dirsvc"], [])]
  else [].

Abbreviation demo_start :=
  (start_up demo_surroundings demo_view demo_host VNone None (λ _, Ok 1%nat) start_walk demo_skip
     (λ _ _ d, Ok d)).

Example start_up_acts :
  acts (demo_start demo_environ w0).1 =
  [ALoad "/d/python/services" "svc_launcher"; AInit "/d/python/services" "svc_launcher";
   ALoad "/d/python/service-apis" "api_dirsvc"; AInit "/d/python/service-apis" "api_dirsvc"] ∧
  is_ok (demo_start demo_environ w0).2 = true.
Proof. vm_compute. split; reflexivity. Qed.

Example cpu_counts :
  match new_myself (NativeView "0.0.0.0" (VInt 1) (VStr "n") (VInt 2) (VStr "u") "/d" "/tmp") demo_host [] with
  | Ok m => (get_num_cpus m, get_num_numa_nodes m, addr (endpoint m)) = (Ok 8, Ok 2, VStr "10.0.0.1")
  | Raise _ => False
  end.
Proof. vm_compute. reflexivity. Qed.

(** A value that contains an equals sign is cut there. *)
Example import_env_cuts :
  import_env_vars [("export A=x" ++ nl)%string; "# no"; "export B=k=v"] [] = Ok [("A", "x"); ("B", "k")].
Proof. vm_compute. reflexivity. Qed.


Lemma is_self_never_witness :
  ∃ e m, new_endpoint (VStr "a") (VInt 1) (VInt 1) (VInt 42) (VStr "n") (VStr "h") (VInt 2) (VStr "u")
           (VStr ZERO_UUID) = Ok e ∧ endpoint m = e ∧ is_self m e 42 ≠ Ok true.
Proof.
  eexists _, (Myself [] [] _ ("", "")). split_and!; [reflexivity | reflexivity|].
  exact (is_self_never (Myself [] [] _ ("", "")) _ 42 (VStr "a") (VInt 1) (VInt 1) (VInt 42) (VStr "n")
           (VStr "h") (VInt 2) (VStr "u") (VStr ZERO_UUID) eq_refl).
Defined.
