(* ===== verification/AppUtil.v ===== *)
(** * Spawned services ([python/infra/defw_app_util.py])

    An experiment starts services as daemons, waits for them to connect,
    registers them with the directory and shuts them down again.  [app] is the
    module's state: the next free port, the [DEFwServiceProcess] objects (a
    store indexed by [nat], because the objects are shared and mutated) and
    the list of spawned ones.  Every call to the operating system or to the
    directory is an [oscall]: it is appended to the log and answered by the
    argument [os], which sees all calls made before, so that any behaviour of
    the outside is covered.  A loop that polls until a timeout makes as many
    looks as the corresponding argument says. *)

From S2P Require Import Prelude PyDict PyVal Agent Peers.

Local Open Scope string_scope.
Local Open Scope Z_scope.
Local Open Scope list_scope.
Import PyNotations.
Local Open Scope py_scope.

Definition SYSTEM_UP_TIMEOUT : Z := 40.
Definition SIGKILL : Z := 9.
Definition SIGTERM : Z := 15.

(** ** State *)

(** [DEFwServiceProcess]; [h_rc] is the return code the [Popen] object has
    cached, [h_open] whether its output files are open. *)
Record handle := Handle {
  h_module : val;
  h_agent : val;
  h_listen : Z;
  h_telnet : Z;
  h_log_dir : string;
  h_pid : Z;
  h_process : nat;
  h_rc : option val;
  h_open : bool;
  h_endpoint : option Endpoint;
  h_records : val
}.

Definition with_pid (p : Z) (h : handle) : handle :=
  Handle (h_module h) (h_agent h) (h_listen h) (h_telnet h) (h_log_dir h) p (h_process h)
    (h_rc h) (h_open h) (h_endpoint h) (h_records h).
Definition with_records (e : option Endpoint) (r : val) (h : handle) : handle :=
  Handle (h_module h) (h_agent h) (h_listen h) (h_telnet h) (h_log_dir h) (h_pid h) (h_process h)
    (h_rc h) (h_open h) e r.
Definition with_closed (h : handle) : handle :=
  Handle (h_module h) (h_agent h) (h_listen h) (h_telnet h) (h_log_dir h) (h_pid h) (h_process h)
    (h_rc h) false (h_endpoint h) (h_records h).

(** Calls that leave the process. *)
Inductive oscall :=
  | Mkdir (path : string)
  | OpenFile (path : string)
  | CloseFile (path : string)
  | Popen (exe : string) (env : pydict)
  | PollProcess (p : nat)
  | WaitProcess (p : nat)
  | ReadPid (path : string)
  | Kill (pid sig : Z)
  | WaitDirsvc (timeout : Z)
  | Deregister (service_id runtime_id generation : val)
  | RegisterService (ep : Endpoint)
  | Resolve (filters : pydict).

Record app := App {
  next_port : option Z;
  handles : list handle;
  spawned : list nat;
  calls : list oscall
}.

Definition init_app : app := App None [] [] [].

Definition set_port (p : Z) (s : app) : app := App (Some p) (handles s) (spawned s) (calls s).
Definition set_spawned (l : list nat) (s : app) : app := App (next_port s) (handles s) l (calls s).
Definition upd_handle (i : nat) (f : handle → handle) (s : app) : app :=
  App (next_port s) (alter f i (handles s)) (spawned s) (calls s).
Definition add_handle (h : handle) (s : app) : app :=
  App (next_port s) (handles s ++ [h]) (spawned s) (calls s).
Definition log_call (c : oscall) (s : app) : app :=
  App (next_port s) (handles s) (spawned s) (calls s ++ [c]).

Definition handle_at (i : nat) : M app handle :=
  λ s, match handles s !! i with
       | Some h => (s, Ok h)
       | None => (s, Raise (Exc EIndexError "no such object"))
       end.

(** [_normalize_service_specs] *)
Definition normalize_entry (v : val) : res pydict :=
  match v with
  | VStr _ => Ok [("module", v)]
  | VDict d => Ok d
  | _ => Raise (Exc EDEFwError ("Unsupported service entry: " ++ py_fmt v))
  end.

Definition normalize_service_specs (services : val) : res (list pydict) :=
  match services with
  | VStr _ => Ok [[("module", services)]]
  | VDict d => Ok [d]
  | VList l => rmapM normalize_entry l
  | _ => Raise (Exc EDEFwError ("Unsupported service specification: " ++ py_fmt services))
  end.

(** The process's own identity and paths ([defw.me], [cdefw_global]). *)
Record own := Own {
  my_name : string;
  my_hostname : string;
  my_listenaddress : string;
  my_listenport : Z;
  own_defw_path : string;
  own_tmp_dir : string
}.

(** [l.remove(i)] when [i in l] *)
Fixpoint remove_spawned (i : nat) (l : list nat) : list nat :=
  match l with
  | [] => []
  | j :: l' => if Nat.eqb j i then l' else j :: remove_spawned i l'
  end.

Section AppUtil.
Context (me : own) (environ : odict string string).
(** [str(uuid.uuid4())[:8]], fresh per call. *)
Context (uuid8 : list oscall → string).
(** [Path.resolve], and whether a path is an executable file. *)
Context (resolve_path : string → string) (executable : string → bool).
Context (os : list oscall → oscall → res val).
(** Looks before a timeout: for the pid file, at the peer table, and for the
    process to be gone. *)
Context (pid_looks : nat) (peer_looks : list oscall → list peer_table) (gone_looks : nat).

Definition sys (c : oscall) : M app val := λ s, (log_call c s, os (calls s) c).

Definition environ_get (k : string) : option string := dget environ k.

(** [_allocate_ports] *)
Definition allocate_ports (count : nat) : M app (list Z) :=
  let! s := get in
  let! start :=
    match next_port s with
    | Some p => ret p
    | None =>
        lift_res (py_int (VStr (default (py_fmt (VInt (my_listenport me + 10)))
                                  (environ_get "DEFW_EXPERIMENT_PORT_BASE"))))
    end in
  modify (set_port (start + Z.of_nat count)) ;;;
  ret (zrange start count).

(** [os.path.join] refuses a name that is no text. *)
Definition as_path (v : val) : res string :=
  match v with
  | VStr s => Ok s
  | _ => Raise (Exc ETypeError "join() argument must be str")
  end.

Record service_env := ServiceEnv {
  sv_env : pydict;
  sv_agent : val;
  sv_listen : Z;
  sv_telnet : Z;
  sv_log_dir : string
}.

Definition config_path : string :=
  match environ_get "DEFW_CONFIG_PATH" with
  | Some p => if String.eqb p ""
              then path_join (path_join (path_join (path_join (own_defw_path me) "share") "defw")
                                "config") "defw_generic.yaml"
              else p
  | None => path_join (path_join (path_join (path_join (own_defw_path me) "share") "defw")
                         "config") "defw_generic.yaml"
  end.

(** The variables a spawned service gets on top of the environment. *)
Definition service_vars (module agent : val) (lp tp : Z) (log_dir : string) : pydict :=
  [("DEFW_PATH", VStr (own_defw_path me)); ("DEFW_CONFIG_PATH", VStr config_path);
   ("DEFW_AGENT_NAME", agent); ("DEFW_AGENT_TYPE", VStr "service");
   ("DEFW_SHELL_TYPE", VStr "daemon"); ("DEFW_LISTEN_PORT", VStr (py_fmt (VInt lp)));
   ("DEFW_TELNET_PORT", VStr (py_fmt (VInt tp))); ("DEFW_PARENT_NAME", VStr (my_name me));
   ("DEFW_PARENT_HOSTNAME", VStr (my_hostname me));
   ("DEFW_PARENT_ADDR", VStr (my_listenaddress me));
   ("DEFW_PARENT_PORT", VStr (py_fmt (VInt (my_listenport me))));
   ("DEFW_ONLY_LOAD_MODULE", module); ("DEFW_LOG_DIR", VStr log_dir)].

Definition own_environ : pydict := map (λ p, (p.1, VStr p.2)) environ.

(** [_build_service_env], once the ports are allocated. *)
Definition finish_service_env (spec : pydict) (module agent : val) (lp tp : Z) :
    M app service_env :=
  let! agent_path := lift_res (as_path agent) in
  let log_dir := path_join (own_tmp_dir me) agent_path in
  let! _ := sys (Mkdir log_dir) in
  let env := dupdate own_environ (service_vars module agent lp tp log_dir) in
  let! extra :=
    (if truthy (vget spec "env") then lift_res (as_dict (vget spec "env")) else ret []) in
  ret (ServiceEnv (dupdate env (map (λ p, (p.1, VStr (py_fmt p.2))) extra)) agent lp tp log_dir).

(** [_build_service_env] *)
Definition build_service_env (spec : pydict) : M app service_env :=
  let! module := lift_res (vindex spec "module") in
  let! s := get in
  let agent := vget_or spec "agent_name" (VStr (py_fmt module ++ "-" ++ uuid8 (calls s))) in
  let! ports := allocate_ports 2 in
  match ports with
  | [lp; tp] => finish_service_env spec module agent lp tp
  | _ => throw EValueError "not enough values to unpack"
  end.

(** [_wait_for_daemon_pid]: a look at the pid file gives its text, or
    nothing while it does not exist. *)
Fixpoint daemon_pid_loop (looks : nat) (log_dir : string) : M app Z :=
  match looks with
  | O => throw EDEFwError ("Timed out waiting for daemon pid in " ++ log_dir)
  | S n =>
      let! t := sys (ReadPid (path_join log_dir "pid")) in
      match t with
      | VNone => daemon_pid_loop n log_dir
      | t => lift_res (py_int t)
      end
  end.

(** [_resolve_defwp] *)
Definition resolve_defwp : res string :=
  let p := own_defw_path me in
  match environ_get "DEFW_EXECUTABLE" with
  | Some (String _ _ as override) =>
      let path := resolve_path override in
      if executable path then Ok path
      else Raise (Exc EDEFwError ("DEFW_EXECUTABLE is not executable: " ++ path))
  | _ =>
      match List.find executable
              [path_join (path_join p "src") "defwp"; path_join (path_join p "bin") "defwp";
               path_join (path_join p "src") "defwp-wrapper";
               path_join (path_join p "bin") "defwp-wrapper"] with
      | Some c => Ok c
      | None => Raise (Exc EDEFwError ("Unable to find defwp under " ++ p))
      end
  end.

(** [_endpoint_from_peer_record] *)
Definition endpoint_from_peer_record (r : peer_record) (agent : val) (lp : Z) :
    res (option Endpoint) :=
  if negb (callable r) then Ok None
  else
    let ep := endpoint r in
    if negb (py_eqb (vget ep "node_name") agent) then Ok None
    else
      match py_int (vget_or ep "listen_port" (VInt 0)) with
      | Raise _ => Ok None
      | Ok n =>
          if negb (n =? lp) then Ok None
          else
            let rid := py_or (runtime_id r) (vget ep "runtime_id") in
            if negb (truthy rid && truthy (peer_handle r)) then Ok None
            else
              res_map Some
                (new_endpoint (vget_or ep "address" (VStr "")) (vget_or ep "port" (VInt 0))
                   (vget_or ep "listen_port" (VInt 0)) (vget_or ep "pid" (VInt 0))
                   (vget_or ep "node_name" agent) (vget_or ep "hostname" (VStr ""))
                   (py_or (py_or (vget ep "node_type") (peer_node_type r))
                      (VInt EN_DEFW_SERVICE))
                   rid (peer_handle r))
      end.

Fixpoint first_endpoint (rs : list peer_record) (agent : val) (lp : Z) : res (option Endpoint) :=
  match rs with
  | [] => Ok None
  | r :: rs' =>
      let? e := endpoint_from_peer_record r agent lp in
      match e with Some e => Ok (Some e) | None => first_endpoint rs' agent lp end
  end.

(** [_wait_for_service_endpoint] *)
Fixpoint wait_for_service_endpoint (looks : list peer_table) (agent : val) (lp : Z) :
    res Endpoint :=
  match looks with
  | [] => Raise (Exc EDEFwReserveError
                   ("Timed out waiting for service " ++ py_fmt agent ++ " to connect"))
  | t :: looks' =>
      let? e := first_endpoint (dvals (snapshot t)) agent lp in
      match e with
      | Some e => Ok e
      | None => wait_for_service_endpoint looks' agent lp
      end
  end.

(** [defw_get_directory_service]: the directory is reached through [os]. *)
Definition defw_get_directory_service (timeout : Z) : M app unit :=
  let! up := sys (WaitDirsvc timeout) in
  if truthy up then ret tt
  else throw EDEFwReserveError "Couldn't find a directory service".

(** [_register_spawned_service] *)
Definition register_spawned_service (agent : val) (lp : Z) : M app (Endpoint * val) :=
  let! s := get in
  let! ep := lift_res (wait_for_service_endpoint (peer_looks (calls s)) agent lp) in
  defw_get_directory_service SYSTEM_UP_TIMEOUT ;;;
  let! records := sys (RegisterService ep) in
  ret (ep, records).

(** ** [DEFwServiceProcess] *)

Definition as_record (v : val) : res pydict :=
  match v with VDict d => Ok d | _ => Raise (Exc ETypeError "string indices must be integers") end.

Definition deregister_record (v : val) : M app unit :=
  let! r := lift_res (as_record v) in
  let! sid := lift_res (vindex r "service_id") in
  let! rid := lift_res (vindex r "runtime_id") in
  let! gen := lift_res (vindex r "generation") in
  let! _ := sys (Deregister sid rid gen) in
  ret tt.

Definition as_list (v : val) : res (list val) :=
  match v with VList l => Ok l | _ => Raise (Exc ETypeError "not a list of records") end.

(** [deregister]: whatever fails is only logged, the records are dropped. *)
Definition deregister (i : nat) : M app unit :=
  let! h := handle_at i in
  if negb (truthy (h_records h)) then ret tt
  else
    finally
      (try_with
         (defw_get_directory_service 1 ;;;
          let! rs := lift_res (as_list (h_records h)) in
          for_each deregister_record rs)
         (λ _, ret tt))
      (modify (upd_handle i (λ h, with_records (h_endpoint h) (VList []) h))).

(** [try: os.kill(pid, sig) except ProcessLookupError: gone] *)
Definition kill_or (pid sig : Z) (gone : M app bool) : M app bool :=
  try_with (let! _ := sys (Kill pid sig) in ret true)
    (λ e, if bool_decide (exc_type e = EProcessLookupError) then gone else rethrow e).

Definition forget_pid (i : nat) : M app bool :=
  modify (upd_handle i (with_pid 0)) ;;; ret false.

(** The loop that waits for the process to be gone. *)
Fixpoint wait_gone (looks : nat) (i : nat) : M app unit :=
  match looks with
  | O => ret tt
  | S n =>
      let! h := handle_at i in
      if 0 <? h_pid h then
        let! there := kill_or (h_pid h) 0 (forget_pid i) in
        if there then wait_gone n i else ret tt
      else ret tt
  end.

Definition final_kill (i : nat) : M app unit :=
  let! h := handle_at i in
  if 0 <? h_pid h then
    let! _ := kill_or (h_pid h) SIGKILL (ret false) in
    modify (upd_handle i (with_pid 0))
  else ret tt.

(** Stop the daemon: SIGTERM, wait, then SIGKILL. *)
Definition stop_daemon (i : nat) : M app unit :=
  let! h := handle_at i in
  if 0 <? h_pid h then
    let! _ := kill_or (h_pid h) SIGTERM (forget_pid i) in
    wait_gone gone_looks i ;;;
    final_kill i
  else ret tt.

(** [Popen.poll] and [Popen.wait]: a cached return code answers. *)
Definition reap_process (h : handle) : M app unit :=
  match h_rc h with
  | Some _ => ret tt
  | None =>
      let! rc := sys (PollProcess (h_process h)) in
      match rc with
      | VNone => let! _ := sys (WaitProcess (h_process h)) in ret tt
      | _ => ret tt
      end
  end.

Definition stdout_path (log_dir : string) : string := path_join log_dir "stdout.log".
Definition stderr_path (log_dir : string) : string := path_join log_dir "stderr.log".

Definition close_files (log_dir : string) : M app unit :=
  let! _ := sys (CloseFile (stdout_path log_dir)) in
  let! _ := sys (CloseFile (stderr_path log_dir)) in
  ret tt.

(** [shutdown] *)
Definition shutdown (i : nat) : M app unit :=
  deregister i ;;;
  stop_daemon i ;;;
  let! h := handle_at i in
  reap_process h ;;;
  close_files (h_log_dir h) ;;;
  modify (upd_handle i with_closed).

(** ** Spawning *)

(** Start the daemon and wait for its pid; a launcher process that gives
    none is waited for and its files are closed. *)
Definition start_daemon (defwp : string) (spec : pydict) (v : service_env) :
    M app (Z * nat * val) :=
  let dir := sv_log_dir v in
  let! _ := sys (OpenFile (stdout_path dir)) in
  let! _ := sys (OpenFile (stderr_path dir)) in
  let! s := get in
  let p := length (calls s) in
  let! _ := sys (Popen defwp (sv_env v)) in
  let! pid :=
    try_with (daemon_pid_loop pid_looks dir)
      (λ _, let! rc := sys (WaitProcess p) in
            close_files dir ;;;
            throw EDEFwError ("Service " ++ py_fmt (vget spec "module") ++
                              " exited early with rc=" ++ py_fmt rc)) in
  let! rc := sys (WaitProcess p) in
  ret (pid, p, rc).

(** Register the new service, or shut it down again. *)
Definition enlist (i : nat) (agent : val) (lp : Z) : M app unit :=
  try_with
    (let! (ep, records) := register_spawned_service agent lp in
     modify (upd_handle i (with_records (Some ep) records)))
    (λ e, shutdown i ;;; rethrow e).

(** One round of the loop of [defw_spawn_services]. *)
Definition spawn_one (defwp : string) (spec : pydict) : M app nat :=
  let! v := build_service_env spec in
  let! (pid, p, rc) := start_daemon defwp spec v in
  let! s := get in
  let i := length (handles s) in
  modify (add_handle (Handle (vget spec "module") (sv_agent v) (sv_listen v) (sv_telnet v)
                        (sv_log_dir v) pid p (Some rc) true None VNone)) ;;;
  enlist i (sv_agent v) (sv_listen v) ;;;
  modify (λ s, set_spawned (spawned s ++ [i]) s) ;;;
  ret i.

Fixpoint spawn_all (defwp : string) (specs : list pydict) : M app (list nat) :=
  match specs with
  | [] => ret []
  | spec :: specs' =>
      let! i := spawn_one defwp spec in
      let! rest := spawn_all defwp specs' in
      ret (i :: rest)
  end.

Definition defw_spawn_services (services : val) : M app (list nat) :=
  let! specs := lift_res (normalize_service_specs services) in
  let! defwp := lift_res resolve_defwp in
  spawn_all defwp specs.

Definition forget_spawned (i : nat) : M app unit :=
  modify (λ s, set_spawned (remove_spawned i (spawned s)) s).

(** [defw_shutdown_services]: [None] stands for all spawned services. *)
Definition defw_shutdown_services (services : option (list nat)) : M app unit :=
  let! s := get in
  for_each (λ i, finally (shutdown i) (forget_spawned i))
    (rev (default (spawned s) services)).

(** [_shutdown_spawned_services], run at exit. *)
Definition shutdown_spawned_services : M app unit :=
  try_with (defw_shutdown_services None) (λ _, ret tt).

(** ** Connecting by name *)

Definition by_name_filters (service_name : val) (optional : list (string * val)) : pydict :=
  fold_left (λ f p, if truthy p.2 then dset f p.1 p.2 else f) optional
    [("service_name", service_name)].

(** The resolve loop: [last] is what the previous round was answered. *)
Fixpoint resolve_loop (rounds : nat) (filters : pydict) (last : val) : M app val :=
  match rounds with
  | O => ret last
  | S n =>
      let! bs := sys (Resolve filters) in
      if truthy bs then ret bs else resolve_loop n filters bs
  end.

Fixpoint connect_each (connect : val → M app val) (bs : list val) : M app (list val) :=
  match bs with
  | [] => ret []
  | b :: bs' =>
      let! c := connect b in
      let! cs := connect_each connect bs' in
      ret (c :: cs)
  end.

(** [defw_connect_service_by_name]; [connect] is [defw.connect_to_binding]. *)
Definition defw_connect_service_by_name (connect : val → M app val) (service_name : val)
    (timeout : Z) (optional : list (string * val)) : M app (list val) :=
  let filters := by_name_filters service_name optional in
  let! bindings := resolve_loop (Z.to_nat timeout) filters (VList []) in
  match bindings with
  | VList [] => throw EDEFwReserveError ("Couldn't connect to a " ++ py_fmt service_name)
  | VList bs => connect_each connect bs
  | _ => throw ETypeError "bindings are no list"
  end.
End AppUtil.
