(* ===== verification/AppUtilFacts.v ===== *)
(** * Properties of spawned services

    What [AppUtil.v] guarantees whatever the operating system and the
    directory answer, as long as signalling one's own children fails only
    because they are gone and closing a file succeeds ([benign]). *)

From S2P Require Import Prelude PyDict PyVal Agent Peers AppUtil.

Local Open Scope string_scope.
Local Open Scope Z_scope.
Local Open Scope list_scope.
Import PyNotations.
Local Open Scope py_scope.

Record benign (os : list oscall → oscall → res val) : Prop := Benign {
  kill_only_gone : ∀ l p sg e, os l (Kill p sg) = Raise e → exc_type e = EProcessLookupError;
  close_succeeds : ∀ l p, is_ok (os l (CloseFile p)) = true
}.

Definition is_kill (c : oscall) : bool := match c with Kill _ _ => true | _ => false end.
Definition kills (cs : list oscall) : list oscall := List.filter is_kill cs.

Lemma kills_app l k : kills (l ++ k) = kills l ++ kills k.
Proof. apply List.filter_app. Qed.

(** [acts m s hs r cs]: from [s], [m] leaves the handles [hs], ends with [r]
    and makes the calls [cs]. *)
Definition acts {A} (m : M app A) (s : app) (hs : list handle) (r : res A) (cs : list oscall) : Prop :=
  m s = (App (next_port s) hs (spawned s) (calls s ++ cs), r).

Definition after (s : app) (hs : list handle) (cs : list oscall) : app :=
  App (next_port s) hs (spawned s) (calls s ++ cs).

Lemma after_after s hs hs' cs cs' : after (after s hs cs) hs' cs' = after s hs' (cs ++ cs').
Proof. unfold after. simpl. by rewrite <- app_assoc. Qed.

Lemma after_nil s : after s (handles s) [] = s.
Proof. unfold after. rewrite app_nil_r. by destruct s. Qed.

Lemma acts_ret {A} (a : A) s : acts (ret a) s (handles s) (Ok a) [].
Proof. unfold acts, ret. by rewrite <- (after_nil s) at 1. Qed.

Lemma acts_lift {A} (r : res A) s : acts (lift_res r) s (handles s) r [].
Proof. unfold acts, lift_res. by rewrite <- (after_nil s) at 1. Qed.

Lemma acts_bind {A B} (m : M app A) (k : A → M app B) s hs1 a cs1 hs2 r cs2 :
  acts m s hs1 (Ok a) cs1 → acts (k a) (after s hs1 cs1) hs2 r cs2 →
  acts (bind m k) s hs2 r (cs1 ++ cs2).
Proof.
  unfold acts, bind. intros -> H. unfold after in H. rewrite H. simpl. by rewrite app_assoc.
Qed.

Lemma acts_bind_raise {A B} (m : M app A) (k : A → M app B) s hs e cs :
  acts m s hs (Raise e) cs → acts (bind m k) s hs (Raise e) cs.
Proof. unfold acts, bind. by intros ->. Qed.

Lemma acts_modify i f s : acts (modify (upd_handle i f)) s (alter f i (handles s)) (Ok tt) [].
Proof. unfold acts, modify, upd_handle. by rewrite app_nil_r. Qed.

Lemma acts_handle_at i h s :
  handles s !! i = Some h → acts (handle_at i) s (handles s) (Ok h) [].
Proof. intros H. unfold acts, handle_at. rewrite H. by rewrite <- (after_nil s) at 1. Qed.

Lemma alter_at {A} (f g : A → A) i (l : list A) x :
  l !! i = Some x → f x = g x → alter f i l = alter g i l.
Proof.
  intros Hx Hfg. apply list_eq. intros j. destruct (decide (i = j)) as [<-|].
  - by rewrite !list_lookup_alter_eq, Hx; simpl; rewrite Hfg.
  - by rewrite !list_lookup_alter_ne.
Qed.

Lemma alter_at_id {A} (f : A → A) i (l : list A) x :
  l !! i = Some x → f x = x → alter f i l = l.
Proof.
  intros Hx Hf. apply list_eq. intros j. destruct (decide (i = j)) as [<-|].
  - by rewrite list_lookup_alter_eq, Hx; simpl; rewrite Hf.
  - by rewrite list_lookup_alter_ne.
Qed.

Lemma alter_alter {A} (f g : A → A) i (l : list A) :
  alter g i (alter f i l) = alter (λ x, g (f x)) i l.
Proof. revert i. induction l as [|x l IH]; intros [|i]; simpl; try done. f_equal. apply IH. Qed.

Lemma alter_last {A} (f : A → A) (l : list A) x :
  alter f (length l) (l ++ [x]) = l ++ [f x].
Proof. induction l as [|y l IH]; simpl; [done|]. f_equal. apply IH. Qed.

Create HintDb quiet.

(** What a service is left with by [shutdown]. *)
Definition drop_records (h : handle) : handle :=
  if truthy (h_records h) then with_records (h_endpoint h) (VList []) h else h.
Definition drop_pid (h : handle) : handle := if 0 <? h_pid h then with_pid 0 h else h.
Definition stop (h : handle) : handle := with_closed (drop_pid (drop_records h)).

Definition stopped (h : handle) : Prop :=
  h_pid h <= 0 ∧ h_open h = false ∧ truthy (h_records h) = false.

Lemma stop_stopped h : stopped (stop h).
Proof.
  unfold stopped, stop, drop_pid, drop_records.
  destruct (truthy (h_records h)) eqn:Er; simpl; destruct (Z.ltb_spec 0 (h_pid h)); simpl;
    rewrite ?Er; split_and!; auto; lia.
Qed.

Section Facts.
Context (me : own) (environ : odict string string) (uuid8 : list oscall → string).
Context (resolve_path : string → string) (executable : string → bool).
Context (os : list oscall → oscall → res val).
Context (pid_looks : nat) (peer_looks : list oscall → list peer_table) (gone_looks : nat).

Lemma acts_sys_ok c s v :
  os (calls s) c = Ok v → acts (sys os c) s (handles s) (Ok v) [c].
Proof. intros H. unfold acts, sys. by rewrite H. Qed.

(** ** Shutdown *)

(** A computation that only talks to the directory. *)
Definition quiet {A} (m : M app A) : Prop :=
  ∀ s, ∃ r cs, acts m s (handles s) r cs ∧ kills cs = [].

Lemma quiet_bind {A B} (m : M app A) (k : A → M app B) :
  quiet m → (∀ a, quiet (k a)) → quiet (bind m k).
Proof.
  intros Hm Hk s. destruct (Hm s) as ([a|e] & cs & H1 & Hc1).
  - destruct (Hk a (after s (handles s) cs)) as (r & cs' & H2 & Hc2).
    exists r, (cs ++ cs'). split; [by eapply acts_bind|]. by rewrite kills_app, Hc1, Hc2.
  - exists (Raise e), cs. split; [by apply acts_bind_raise | done].
Qed.

Lemma quiet_sys c : is_kill c = false → quiet (sys os c).
Proof. intros Hc s. exists (os (calls s) c), [c]. split; [done|]. unfold kills. simpl. by rewrite Hc. Qed.

Lemma quiet_ret {A} (a : A) : quiet (ret a).
Proof. intros s. exists (Ok a), []. split; [apply acts_ret | done]. Qed.

Lemma quiet_lift {A} (r : res A) : quiet (lift_res r).
Proof. intros s. exists r, []. split; [apply acts_lift | done]. Qed.

Lemma quiet_throw {A} c msg : quiet (@throw app A c msg).
Proof. intros s. exists (Raise (Exc c msg)), []. split; [apply (acts_lift (Raise _)) | done]. Qed.

Lemma quiet_for_each {A} (f : A → M app unit) l : (∀ x, quiet (f x)) → quiet (for_each f l).
Proof. intros Hf. induction l; [apply quiet_ret | by apply quiet_bind]. Qed.

Hint Resolve quiet_bind quiet_ret quiet_lift quiet_throw quiet_for_each : quiet.

Lemma quiet_directory timeout : quiet (defw_get_directory_service os timeout).
Proof.
  apply quiet_bind; [by apply quiet_sys|]. intros up.
  destruct (truthy up); auto with quiet.
Qed.

Lemma quiet_deregister_record v : quiet (deregister_record os v).
Proof.
  repeat (apply quiet_bind; [by auto with quiet | intros]).
  apply quiet_bind; [by apply quiet_sys | auto with quiet].
Qed.

Lemma deregister_spec i h s :
  handles s !! i = Some h →
  ∃ cs, acts (deregister os i) s (alter drop_records i (handles s)) (Ok tt) cs ∧ kills cs = [].
Proof.
  intros Hh. unfold deregister. unfold acts, bind at 1, handle_at. rewrite Hh.
  destruct (truthy (h_records h)) eqn:Er; simpl.
  - match goal with |- context [try_with ?m _] => assert (quiet m) as Hq end.
    { apply quiet_bind; [apply quiet_directory|]. intros _.
      apply quiet_bind; [apply quiet_lift|]. intros rs.
      apply quiet_for_each, quiet_deregister_record. }
    destruct (Hq s) as (r & cs & H1 & Hc). exists cs. split; [|done].
    unfold finally, try_with. rewrite H1. unfold ret.
    rewrite (alter_at drop_records (λ h, with_records (h_endpoint h) (VList []) h) _ _ h Hh)
      by (unfold drop_records; by rewrite Er).
    by destruct r as [[]|e].
  - exists []. split; [|done]. rewrite app_nil_r.
    erewrite (alter_at_id drop_records); [by destruct s | exact Hh |].
    unfold drop_records. by rewrite Er.
Qed.

Context (Hos : benign os).

(** A signal is sent, or the process is gone. *)
Lemma kill_or_spec p sg gone s hs b :
  acts gone (after s (handles s) [Kill p sg]) hs (Ok b) [] →
  acts (kill_or os p sg gone) s (handles s) (Ok true) [Kill p sg] ∨
  acts (kill_or os p sg gone) s hs (Ok b) [Kill p sg].
Proof.
  intros Hg. unfold kill_or, try_with, acts, bind, ret, sys in *.
  destruct (os (calls s) (Kill p sg)) as [v|e] eqn:E; [by left|]. right.
  rewrite bool_decide_true by (eapply kill_only_gone; eauto).
  change (log_call (Kill p sg) s) with (after s (handles s) [Kill p sg]). rewrite Hg.
  simpl. by rewrite app_nil_r.
Qed.

Lemma forget_pid_acts i s : acts (forget_pid i) s (alter (with_pid 0) i (handles s)) (Ok false) [].
Proof. unfold forget_pid, acts, bind, modify, ret, upd_handle. by rewrite app_nil_r. Qed.

(** Waiting for the process: either it is found gone, or it survives every
    look. *)
Lemma wait_gone_spec n i h s :
  handles s !! i = Some h → 0 < h_pid h →
  ∃ k, (k ≤ n)%nat ∧
    (acts (wait_gone os n i) s (alter (with_pid 0) i (handles s)) (Ok tt)
       (repeat (Kill (h_pid h) 0) k) ∨
     k = n ∧ acts (wait_gone os n i) s (handles s) (Ok tt) (repeat (Kill (h_pid h) 0) k)).
Proof.
  intros Hh Hp. revert s Hh. induction n as [|n IH]; intros s Hh.
  { exists 0%nat. split; [done|]. right. split; [done|]. apply acts_ret. }
  cbn [wait_gone].
  destruct (kill_or_spec (h_pid h) 0 (forget_pid i) s _ _ (forget_pid_acts i _)) as [Hk|Hk].
  - destruct (IH (after s (handles s) [Kill (h_pid h) 0])) as (k & Hkn & Hc); [done|].
    exists (S k). split; [lia|]. change (repeat (Kill (h_pid h) 0) (S k))
      with ([] ++ [Kill (h_pid h) 0] ++ repeat (Kill (h_pid h) 0) k).
    assert (∀ hs, acts (wait_gone os n i) (after s (handles s) [Kill (h_pid h) 0]) hs (Ok tt)
                    (repeat (Kill (h_pid h) 0) k) →
                  acts (wait_gone os (S n) i) s hs (Ok tt)
                    ([] ++ [Kill (h_pid h) 0] ++ repeat (Kill (h_pid h) 0) k)) as Hstep.
    { intros hs Hacts. eapply acts_bind; [by apply acts_handle_at|].
      rewrite after_nil.
      rewrite (proj2 (Z.ltb_lt _ _) Hp). eapply acts_bind; [exact Hk | exact Hacts]. }
    destruct Hc as [Hc|[-> Hc]]; [left | right; split; [done|]]; by apply Hstep.
  - exists 1%nat. split; [lia|]. left.
    change (repeat (Kill (h_pid h) 0) 1) with ([] ++ [Kill (h_pid h) 0] ++ @nil oscall).
    eapply acts_bind; [by apply acts_handle_at|]. rewrite after_nil.
    rewrite (proj2 (Z.ltb_lt _ _) Hp). eapply acts_bind; [exact Hk | apply acts_ret].
Qed.

Lemma wait_gone_done n i h s :
  handles s !! i = Some h → h_pid h <= 0 → acts (wait_gone os n i) s (handles s) (Ok tt) [].
Proof.
  intros Hh Hp. destruct n as [|n]; [apply acts_ret|]. change (@nil oscall) with ([] ++ @nil oscall).
  eapply acts_bind; [by apply acts_handle_at|]. rewrite after_nil, (proj2 (Z.ltb_ge _ _) Hp).
  apply acts_ret.
Qed.

Lemma final_kill_spec i h s :
  handles s !! i = Some h →
  acts (final_kill os i) s (alter drop_pid i (handles s)) (Ok tt)
    (if 0 <? h_pid h then [Kill (h_pid h) SIGKILL] else []).
Proof.
  intros Hh. change (if 0 <? h_pid h then [Kill (h_pid h) SIGKILL] else [])
    with ([] ++ if 0 <? h_pid h then [Kill (h_pid h) SIGKILL] else []).
  eapply acts_bind; [by apply acts_handle_at|]. rewrite after_nil.
  destruct (0 <? h_pid h) eqn:Hp.
  - rewrite (alter_at drop_pid (with_pid 0) _ _ h Hh) by (unfold drop_pid; by rewrite Hp).
    change [Kill (h_pid h) SIGKILL] with ([Kill (h_pid h) SIGKILL] ++ []).
    destruct (kill_or_spec (h_pid h) SIGKILL (ret false) s _ _ (acts_ret false _)) as [Hk|Hk];
      (eapply acts_bind; [exact Hk | exact (acts_modify i (with_pid 0) (after _ _ _))]).
  - rewrite (alter_at_id drop_pid _ _ h Hh) by (unfold drop_pid; by rewrite Hp). apply acts_ret.
Qed.

(** The signals a shutdown sends to a live daemon: one SIGTERM, looks until
    it is gone, and a SIGKILL only after it survived all of them. *)
Definition kill_protocol (p : Z) (cs : list oscall) : Prop :=
  ∃ k tail, cs = [Kill p SIGTERM] ++ repeat (Kill p 0) k ++ tail ∧ (k ≤ gone_looks)%nat ∧
    (tail = [] ∨ (tail = [Kill p SIGKILL] ∧ k = gone_looks)).

(** The part of [stop_daemon] for a live daemon. *)
Lemma stop_live_spec i h s :
  handles s !! i = Some h → 0 < h_pid h →
  ∃ cs, acts (let! _ := kill_or os (h_pid h) SIGTERM (forget_pid i) in
              wait_gone os gone_looks i ;;; final_kill os i)
          s (alter (with_pid 0) i (handles s)) (Ok tt) cs ∧ kill_protocol (h_pid h) cs.
Proof.
  intros Hh Hp.
  assert (∀ s, handles s !! i = Some (with_pid 0 h) →
    acts (final_kill os i) s (handles s) (Ok tt) []) as Hfin.
  { intros s' Hs'. pose proof (final_kill_spec i (with_pid 0 h) s' Hs') as Hf.
    by rewrite (alter_at_id drop_pid _ _ _ Hs') in Hf. }
  assert (∀ hs : list handle, hs !! i = Some h →
    alter (with_pid 0) i hs !! i = Some (with_pid 0 h)) as Hlk
    by (intros hs Hhs; by rewrite list_lookup_alter_eq, Hhs).
  destruct (kill_or_spec (h_pid h) SIGTERM (forget_pid i) s _ _ (forget_pid_acts i _))
    as [Hk|Hk].
  - destruct (wait_gone_spec gone_looks i h (after s (handles s) [Kill (h_pid h) SIGTERM]))
      as (k & Hkn & [Hw|[-> Hw]]); [done | done | |].
    + exists ([Kill (h_pid h) SIGTERM] ++ repeat (Kill (h_pid h) 0) k ++ []). split.
      * eapply acts_bind; [exact Hk|]. eapply acts_bind; [exact Hw|].
        apply (Hfin (after (after _ _ _) _ _)). by apply Hlk.
      * exists k, []. auto.
    + exists ([Kill (h_pid h) SIGTERM] ++ repeat (Kill (h_pid h) 0) gone_looks ++
              [Kill (h_pid h) SIGKILL]). split.
      * eapply acts_bind; [exact Hk|]. eapply acts_bind; [exact Hw|].
        pose proof (final_kill_spec i h
          (after (after s (handles s) [Kill (h_pid h) SIGTERM]) (handles s)
             (repeat (Kill (h_pid h) 0) gone_looks)) Hh) as Hf.
        rewrite (proj2 (Z.ltb_lt _ _) Hp) in Hf. simpl in Hf.
        rewrite (alter_at drop_pid (with_pid 0) _ _ h Hh) in Hf
          by (unfold drop_pid; by rewrite (proj2 (Z.ltb_lt _ _) Hp)).
        exact Hf.
      * exists gone_looks, [Kill (h_pid h) SIGKILL]. auto.
  - exists ([Kill (h_pid h) SIGTERM] ++ [] ++ []). split.
    + eapply acts_bind; [exact Hk|].
      eapply acts_bind;
        [apply (wait_gone_done _ _ (with_pid 0 h) (after _ _ _)); [by apply Hlk | simpl; lia]|].
      apply (Hfin (after (after _ _ _) _ _)). by apply Hlk.
    + exists 0%nat, []. split_and!; [done | lia | by left].
Qed.

Lemma kills_protocol p cs : kill_protocol p cs → kills cs = cs.
Proof.
  intros (k & tail & -> & _ & Ht). apply filter_all_true. intros c.
  rewrite !elem_of_app, list_elem_of_singleton. intros [-> | [Hc|Hc]]; [done| |].
  - apply list_elem_of_In, repeat_spec in Hc. by subst.
  - destruct Ht as [-> | [-> _]]; [by apply not_elem_of_nil in Hc|].
    apply list_elem_of_singleton in Hc. by subst.
Qed.

Lemma stop_daemon_spec i h s :
  handles s !! i = Some h →
  ∃ cs, acts (stop_daemon os gone_looks i) s (alter drop_pid i (handles s)) (Ok tt) cs ∧
    if 0 <? h_pid h then kill_protocol (h_pid h) cs else cs = [].
Proof.
  intros Hh. destruct (0 <? h_pid h) eqn:Ep.
  - destruct (stop_live_spec i h s Hh) as (cs & Hcs & Hpr); [by apply Z.ltb_lt|].
    exists ([] ++ cs). split; [|done]. eapply acts_bind; [by apply acts_handle_at|].
    rewrite after_nil, Ep.
    by rewrite (alter_at drop_pid (with_pid 0) _ _ h Hh) by (unfold drop_pid; by rewrite Ep).
  - exists ([] ++ []). split; [|done]. eapply acts_bind; [by apply acts_handle_at|].
    rewrite after_nil, Ep. rewrite (alter_at_id drop_pid _ _ h Hh); [apply acts_ret|].
    unfold drop_pid. by rewrite Ep.
Qed.

Lemma close_files_spec dir s :
  ∃ cs, acts (close_files os dir) s (handles s) (Ok tt) cs ∧ kills cs = [].
Proof.
  pose proof (close_succeeds os Hos (calls s) (stdout_path dir)) as H1.
  destruct (os (calls s) (CloseFile (stdout_path dir))) as [v1|] eqn:E1; [|done].
  set (s1 := after s (handles s) [CloseFile (stdout_path dir)]).
  pose proof (close_succeeds os Hos (calls s1) (stderr_path dir)) as H2.
  destruct (os (calls s1) (CloseFile (stderr_path dir))) as [v2|] eqn:E2; [|done].
  exists ([CloseFile (stdout_path dir)] ++ [CloseFile (stderr_path dir)] ++ []). split; [|done].
  eapply acts_bind; [exact (acts_sys_ok _ s v1 E1)|].
  eapply acts_bind; [exact (acts_sys_ok _ s1 v2 E2)|]. exact (acts_ret tt (after s1 _ _)).
Qed.

(** Shutting down a spawned service never raises and leaves it stopped. *)
Lemma shutdown_spec i h s :
  handles s !! i = Some h → is_Some (h_rc h) →
  ∃ cs, acts (shutdown os gone_looks i) s (alter stop i (handles s)) (Ok tt) cs ∧
    if 0 <? h_pid h then kill_protocol (h_pid h) (kills cs) else kills cs = [].
Proof.
  intros Hh [rc Hrc]. destruct (deregister_spec i h s Hh) as (cs1 & H1 & Hc1).
  set (s1 := after s (alter drop_records i (handles s)) cs1).
  assert (handles s1 !! i = Some (drop_records h)) as Hh1
    by (simpl; by rewrite list_lookup_alter_eq, Hh).
  destruct (stop_daemon_spec i _ s1 Hh1) as (cs2 & H2 & Hc2).
  set (s2 := after s1 (alter drop_pid i (handles s1)) cs2).
  assert (handles s2 !! i = Some (drop_pid (drop_records h))) as Hh2
    by (simpl; simpl in Hh1; by rewrite list_lookup_alter_eq, Hh1).
  destruct (close_files_spec (h_log_dir (drop_pid (drop_records h))) s2) as (cs3 & H3 & Hc3).
  exists (cs1 ++ cs2 ++ [] ++ [] ++ cs3 ++ []). split.
  - assert (alter stop i (handles s) = alter with_closed i (handles s2)) as ->
      by (simpl; by rewrite !alter_alter).
    eapply acts_bind; [exact H1|]. eapply acts_bind; [exact H2|].
    eapply acts_bind; [by apply acts_handle_at|]. rewrite after_nil. fold s1 s2.
    eapply acts_bind; [|rewrite after_nil; eapply acts_bind; [exact H3 | exact (acts_modify i with_closed (after _ _ _))]].
    unfold reap_process. assert (h_rc (drop_pid (drop_records h)) = Some rc) as ->
      by (unfold drop_pid, drop_records; repeat case_match; done).
    apply acts_ret.
  - rewrite !kills_app, Hc1, Hc3. simpl. rewrite app_nil_r.
    replace (h_pid (drop_records h)) with (h_pid h) in Hc2
      by (unfold drop_records; by destruct (truthy (h_records h))).
    destruct (0 <? h_pid h); [by rewrite (kills_protocol _ _ Hc2) | by rewrite Hc2].
Qed.

(** ** Spawning *)

Lemma quiet_get : quiet (@get app).
Proof. intros s. exists (Ok s), []. split; [apply (acts_lift (Ok s)) | done]. Qed.

Lemma quiet_try {A} (m : M app A) (k : pyexc → M app A) :
  quiet m → (∀ e, quiet (k e)) → quiet (try_with m k).
Proof.
  intros Hm Hk s. destruct (Hm s) as ([a|e] & cs & H1 & Hc1).
  - exists (Ok a), cs. split; [|done]. unfold acts, try_with in *. by rewrite H1.
  - destruct (Hk e (after s (handles s) cs)) as (r & cs' & H2 & Hc2).
    exists r, (cs ++ cs'). split; [|by rewrite kills_app, Hc1, Hc2].
    unfold acts, try_with in *. rewrite H1. unfold after in H2. rewrite H2. simpl.
    by rewrite app_assoc.
Qed.

Hint Resolve quiet_get quiet_try : quiet.

Lemma quiet_pid_loop n dir : quiet (daemon_pid_loop os n dir).
Proof.
  induction n as [|n IH]; [apply quiet_throw|]. apply quiet_bind; [by apply quiet_sys|].
  intros t. destruct t; auto with quiet.
Qed.

Lemma quiet_close dir : quiet (close_files os dir).
Proof. repeat (apply quiet_bind; [by apply quiet_sys | intros]). apply quiet_ret. Qed.

Lemma quiet_start_daemon defwp spec v : quiet (start_daemon os pid_looks defwp spec v).
Proof.
  repeat (apply quiet_bind; [first [by apply quiet_sys | apply quiet_get] | intros]).
  apply quiet_bind; [|intros; apply quiet_bind; [by apply quiet_sys | intros; apply quiet_ret]].
  apply quiet_try; [apply quiet_pid_loop|]. intros _.
  apply quiet_bind; [by apply quiet_sys|]. intros rc.
  apply quiet_bind; [apply quiet_close | intros; apply quiet_throw].
Qed.

Lemma quiet_register agent lp : quiet (register_spawned_service os peer_looks agent lp).
Proof.
  repeat (apply quiet_bind; [by auto using quiet_get, quiet_lift, quiet_directory, quiet_sys | intros]).
  apply quiet_ret.
Qed.

(** Ports move forward only, two at a time. *)
Definition ports_from (before : option Z) (start : Z) (now : option Z) : Prop :=
  (∀ p, before = Some p → start = p) ∧ now = Some (start + 2).

Lemma finish_service_env_spec spec module agent lp tp :
  quiet (finish_service_env me environ os spec module agent lp tp) ∧
  ∀ s s' v, finish_service_env me environ os spec module agent lp tp s = (s', Ok v) →
    sv_listen v = lp ∧ sv_telnet v = tp.
Proof.
  split.
  - repeat (apply quiet_bind; [first [by apply quiet_lift | by apply quiet_sys] | intros]).
    apply quiet_bind; [|intros; apply quiet_ret].
    destruct (truthy (vget spec "env")); [apply quiet_lift | apply quiet_ret].
  - intros s s' v. unfold finish_service_env, bind, lift_res, ret.
    intros H. repeat case_match; by simplify_eq.
Qed.

Lemma allocate_ports_spec s :
  (∃ e, allocate_ports me environ 2 s = (s, Raise e)) ∨
  ∃ start, (∀ p, next_port s = Some p → start = p) ∧
    allocate_ports me environ 2 s = (set_port (start + 2) s, Ok [start; start + 1]).
Proof.
  unfold allocate_ports, bind, get, ret, lift_res, modify.
  destruct (next_port s) as [p|] eqn:Ep.
  - right. exists p. split; [by intros ? [= ->] | done].
  - destruct (py_int _) as [p|e]; [right; exists p; by split | left; by exists e].
Qed.

Lemma build_service_env_spec spec s :
  ∃ np cs r, build_service_env me environ uuid8 os spec s =
               (App np (handles s) (spawned s) (calls s ++ cs), r) ∧
    (np = next_port s ∨ ∃ start, ports_from (next_port s) start np) ∧
    ∀ v, r = Ok v → ports_from (next_port s) (sv_listen v) np ∧ sv_telnet v = sv_listen v + 1.
Proof.
  assert (∀ e : pyexc, ∃ np cs (r : res service_env),
    (s, Raise e) = (App np (handles s) (spawned s) (calls s ++ cs), r) ∧
    (np = next_port s ∨ ∃ start, ports_from (next_port s) start np) ∧
    ∀ v, r = Ok v → ports_from (next_port s) (sv_listen v) np ∧ sv_telnet v = sv_listen v + 1)
    as Hraise.
  { intros e. exists (next_port s), [], (Raise e). rewrite app_nil_r. split; [by destruct s|].
    split; [by left | done]. }
  unfold build_service_env, bind at 1, lift_res at 1.
  destruct (vindex spec "module") as [module|e]; [|apply Hraise].
  unfold bind at 1, get at 1, bind at 1.
  destruct (allocate_ports_spec s) as [[e ->]|(start & Hst & ->)]; [apply Hraise|].
  match goal with |- context [finish_service_env _ _ _ _ _ ?a _ _] =>
    destruct (finish_service_env_spec spec module a start (start + 1)) as [Hq Hports] end.
  destruct (Hq (set_port (start + 2) s)) as (r & cs & H & _).
  exists (Some (start + 2)), cs, r. split; [exact H|].
  split; [right; by exists start|]. intros v ->. apply Hports in H as [-> ->]. by split.
Qed.

(** The new service of a round: fresh ports, and what it was asked for. *)
Definition new_service (spec : pydict) (before now : option Z) (h : handle) : Prop :=
  ports_from before (h_listen h) now ∧ h_telnet h = h_listen h + 1 ∧ is_Some (h_rc h) ∧
  h_module h = vget spec "module".

Lemma enlist_spec i h s agent lp :
  handles s !! i = Some h → is_Some (h_rc h) →
  (∃ ep records cs, acts (enlist os peer_looks gone_looks i agent lp) s
     (alter (with_records (Some ep) records) i (handles s)) (Ok tt) cs) ∨
  ∃ e cs, acts (enlist os peer_looks gone_looks i agent lp) s
    (alter stop i (handles s)) (Raise e) cs.
Proof.
  intros Hh Hrc. destruct (quiet_register agent lp s) as ([[ep records]|e] & cs & H & _).
  - left. exists ep, records, cs. unfold acts, enlist, try_with, bind in *. by rewrite H.
  - right. destruct (shutdown_spec i h (after s (handles s) cs) Hh Hrc) as (cs' & H' & _).
    exists e, (cs ++ cs'). unfold acts, enlist, try_with, bind in *. rewrite H.
    unfold after in H'. rewrite H'. simpl. by rewrite app_assoc.
Qed.

Lemma spawn_one_spec defwp spec s :
  let '(s', r) := spawn_one me environ uuid8 os pid_looks peer_looks gone_looks defwp spec s in
  (next_port s' = next_port s ∨ ∃ start, ports_from (next_port s) start (next_port s')) ∧
  ((∃ e, r = Raise e ∧ handles s' = handles s ∧ spawned s' = spawned s) ∨
   (∃ e h, r = Raise e ∧ new_service spec (next_port s) (next_port s') h ∧
      handles s' = handles s ++ [stop h] ∧ spawned s' = spawned s) ∨
   (∃ h, r = Ok (length (handles s)) ∧ new_service spec (next_port s) (next_port s') h ∧
      h_open h = true ∧
      handles s' = handles s ++ [h] ∧ spawned s' = spawned s ++ [length (handles s)])).
Proof.
  unfold spawn_one, bind at 1.
  destruct (build_service_env_spec spec s) as (np & cs & [v|e] & -> & Hnp & Hv);
    [|split; [done|]; left; by exists e].
  destruct (Hv v eq_refl) as [Hports Htel]. set (s1 := App np (handles s) (spawned s) _).
  unfold bind at 1.
  destruct (quiet_start_daemon defwp spec v s1) as ([[[pid p] rc]|e] & cs2 & -> & _);
    [|split; [done|]; left; by exists e].
  unfold bind at 1, get, bind at 1, modify at 1.
  set (h := Handle _ _ _ _ _ _ _ _ _ _ _).
  set (s2 := add_handle h _).
  assert (handles s2 !! length (handles s) = Some h) as Hh
    by (by apply (list_lookup_middle (handles s) [] h)).
  unfold bind at 1. simpl (handles _) in *.
  destruct (enlist_spec _ h s2 (sv_agent v) (sv_listen v) Hh (mk_is_Some _ _ eq_refl))
    as [(ep & records & cs3 & ->)|(e & cs3 & ->)].
  - split; [done|]. right; right. exists (with_records (Some ep) records h).
    split_and!; try done. simpl. apply alter_last.
  - split; [done|]. right; left. exists e, h. split_and!; try done. simpl. apply alter_last.
Qed.

(** ** Accounting *)

Definition ports (hs : list handle) : list Z := flat_map (λ h, [h_listen h; h_telnet h]) hs.

Record app_ok (s : app) : Prop := AppOk {
  ok_nodup : NoDup (spawned s);
  ok_range : ∀ i, i ∈ spawned s → (i < length (handles s))%nat;
  ok_handles : ∀ i h, handles s !! i = Some h → is_Some (h_rc h) ∧ (i ∈ spawned s ∨ stopped h);
  ok_ports : NoDup (ports (handles s)) ∧
             match next_port s with
             | None => handles s = []
             | Some q => ∀ p, p ∈ ports (handles s) → p < q
             end
}.

Lemma init_app_ok : app_ok init_app.
Proof.
  split; simpl; [constructor | by intros i ?%elem_of_nil | done|]. split; [constructor | done].
Qed.

Lemma ports_app hs h : ports (hs ++ [h]) = ports hs ++ [h_listen h; h_telnet h].
Proof. unfold ports. by rewrite flat_map_app. Qed.

Lemma ports_alter f i hs :
  (∀ h, h_listen (f h) = h_listen h ∧ h_telnet (f h) = h_telnet h) →
  ports (alter f i hs) = ports hs.
Proof.
  intros Hf. revert i. induction hs as [|h hs IH]; intros [|i]; simpl; try done.
  - by destruct (Hf h) as [-> ->].
  - f_equal. f_equal. apply IH.
Qed.

Lemma stop_keeps h :
  h_listen (stop h) = h_listen h ∧ h_telnet (stop h) = h_telnet h ∧ h_rc (stop h) = h_rc h.
Proof. unfold stop, drop_pid, drop_records. by repeat case_match. Qed.

Lemma new_ports_ok s now h :
  app_ok s → ports_from (next_port s) (h_listen h) now → h_telnet h = h_listen h + 1 →
  NoDup (ports (handles s ++ [h])) ∧
  match now with
  | None => handles s ++ [h] = []
  | Some q => ∀ p, p ∈ ports (handles s ++ [h]) → p < q
  end.
Proof.
  intros [_ _ _ [Hnd Hlt]] [Hst ->] Htel. rewrite ports_app.
  assert (∀ p, p ∈ ports (handles s) → p < h_listen h) as Hbelow.
  { intros p Hp. destruct (next_port s) as [q|]; [rewrite (Hst q eq_refl); by apply Hlt|].
    rewrite Hlt in Hp. by apply not_elem_of_nil in Hp. }
  split.
  - apply NoDup_app. split_and!; [done| |].
    + intros p Hp%Hbelow. rewrite !elem_of_cons, elem_of_nil. lia.
    + apply NoDup_cons. split; [rewrite list_elem_of_singleton; lia | apply NoDup_singleton].
  - intros p. rewrite elem_of_app, !elem_of_cons, elem_of_nil.
    intros [Hp%Hbelow | [-> | [-> | []]]]; lia.
Qed.

Lemma spawn_one_ok defwp spec s :
  app_ok s →
  app_ok (spawn_one me environ uuid8 os pid_looks peer_looks gone_looks defwp spec s).1.
Proof.
  intros Hok. pose proof (spawn_one_spec defwp spec s) as Hs.
  destruct (spawn_one _ _ _ _ _ _ _ _ _ _) as [s' r]. destruct Hs as [Hnp Hs]. simpl.
  destruct Hs as [(e & _ & Hh & Hsp)|[(e & h & _ & (Hp & Ht & Hrc & _) & Hh & Hsp)|
                  (h & _ & (Hp & Ht & Hrc & _) & _ & Hh & Hsp)]].
  - destruct Hok as [H1 H2 H3 [H4 H5]]. split; rewrite ?Hh, ?Hsp; try done. split; [done|].
    destruct Hnp as [->|[start [Hst ->]]]; [done|].
    destruct (next_port s) as [q|]; [|intros p Hin; rewrite H5 in Hin; by apply not_elem_of_nil in Hin].
    rewrite (Hst q eq_refl). intros p Hin%H5. lia.
  - destruct (stop_keeps h) as (El & Et & Er).
    assert (NoDup (ports (handles s ++ [stop h])) ∧ _) as Hports
      by (apply (new_ports_ok s (next_port s') (stop h)); rewrite ?El, ?Et; done).
    destruct Hok as [H1 H2 H3 _]. split; rewrite ?Hh, ?Hsp; try done.
    + intros i Hi%H2. rewrite length_app. lia.
    + intros i h' [Hi|[Hi Hx]]%lookup_app_Some; [by apply H3|].
      apply list_lookup_singleton_Some in Hx as [_ <-]. rewrite Er.
      split; [done|]. right. apply stop_stopped.
  - assert (NoDup (ports (handles s ++ [h])) ∧ _) as Hports
      by (apply (new_ports_ok s (next_port s') h); done).
    destruct Hok as [H1 H2 H3 _]. split; rewrite ?Hh, ?Hsp; try done.
    + apply NoDup_app. split_and!; [done | | apply NoDup_singleton].
      intros i Hi%H2. rewrite list_elem_of_singleton. lia.
    + intros i. rewrite length_app, elem_of_app, list_elem_of_singleton. simpl.
      intros [Hi%H2| ->]; lia.
    + intros i h' [Hi|[Hi Hx]]%lookup_app_Some.
      * destruct (H3 _ _ Hi) as [? [?|?]]; split; auto. left. by apply elem_of_app; left.
      * apply list_lookup_singleton_Some in Hx as [Hz <-]. split; [done|].
        left. apply elem_of_app. right. apply list_elem_of_singleton. lia.
Qed.

Lemma spawn_all_ok defwp specs s :
  app_ok s →
  app_ok (spawn_all me environ uuid8 os pid_looks peer_looks gone_looks defwp specs s).1.
Proof.
  revert s. induction specs as [|spec specs IH]; intros s Hok; [done|]. cbn [spawn_all].
  pose proof (spawn_one_ok defwp spec s Hok) as H1. unfold bind at 1.
  destruct (spawn_one _ _ _ _ _ _ _ defwp spec s) as [s1 [i|e]]; [|done]. simpl in H1.
  specialize (IH s1 H1). unfold bind, ret.
  by destruct (spawn_all _ _ _ _ _ _ _ defwp specs s1) as [s2 [l|e]].
Qed.

Lemma spawn_services_ok services s :
  app_ok s →
  app_ok (defw_spawn_services me environ uuid8 resolve_path executable os pid_looks peer_looks
            gone_looks services s).1.
Proof.
  intros Hok. unfold defw_spawn_services, bind, lift_res.
  destruct (normalize_service_specs services); [|done].
  destruct (resolve_defwp _ _ _ _); [|done]. by apply spawn_all_ok.
Qed.

Lemma remove_spawned_nodup i l :
  NoDup l → NoDup (remove_spawned i l) ∧ ∀ j, j ∈ remove_spawned i l ↔ j ∈ l ∧ j ≠ i.
Proof.
  induction l as [|k l IH]; intros Hnd; simpl.
  { split; [done|]. intros j. rewrite elem_of_nil. naive_solver. }
  apply NoDup_cons in Hnd as [Hk Hnd]. destruct (IH Hnd) as [H1 H2].
  destruct (Nat.eqb_spec k i) as [->|Hne].
  - split; [done|]. intros j. rewrite elem_of_cons. split; [|naive_solver].
    intros Hj. split; [by right|]. by intros ->.
  - split; [apply NoDup_cons; rewrite H2; naive_solver|].
    intros j. rewrite !elem_of_cons, H2. naive_solver.
Qed.

Definition stop_one (i : nat) : M app unit :=
  finally (shutdown os gone_looks i) (forget_spawned i).

Lemma stop_one_spec i s :
  app_ok s →
  (∃ cs e, stop_one i s = (App (next_port s) (handles s) (remove_spawned i (spawned s))
                             (calls s ++ cs), Raise e) ∧ handles s !! i = None) ∨
  (∃ cs, stop_one i s = (App (next_port s) (alter stop i (handles s))
                           (remove_spawned i (spawned s)) (calls s ++ cs), Ok tt) ∧
         (i < length (handles s))%nat).
Proof.
  intros Hok. destruct (handles s !! i) as [h|] eqn:Hh.
  - right. destruct (shutdown_spec i h s Hh) as (cs & H & _); [by apply (ok_handles s Hok i)|].
    exists cs. split; [unfold stop_one, finally; by rewrite H|].
    by apply lookup_lt_Some in Hh.
  - left. exists [], (Exc EIndexError "no such object"). split; [|done].
    rewrite app_nil_r. unfold stop_one, finally, shutdown, deregister, bind, handle_at.
    by rewrite Hh.
Qed.

Lemma stop_one_ok i s : app_ok s → app_ok (stop_one i s).1.
Proof.
  intros Hok. destruct (remove_spawned_nodup i _ (ok_nodup s Hok)) as [Hnd Hin].
  destruct (stop_one_spec i s Hok) as [(cs & e & -> & Hh)|(cs & -> & Hi)];
    destruct Hok as [H1 H2 H3 [H4 H5]]; split; simpl; try done.
  - intros j [Hj _]%Hin. by apply H2.
  - intros j h Hj. destruct (H3 _ _ Hj) as [? [?|?]]; [|by auto]. split; [done|].
    left. apply Hin. split; [done|]. intros ->. congruence.
  - intros j [Hj _]%Hin. rewrite length_alter. by apply H2.
  - intros j h. rewrite list_lookup_alter. case_decide as Hd.
    + subst. intros (h' & Hh' & ->)%fmap_Some. destruct (stop_keeps h') as (_ & _ & ->).
      split; [by apply (H3 j h')|]. right. apply stop_stopped.
    + intros Hj. destruct (H3 _ _ Hj) as [? [?|?]]; [|by auto]. split; [done|].
      left. apply Hin. auto.
  - rewrite ports_alter by (intros h; destruct (stop_keeps h) as (-> & -> & _); done).
    split; [done|]. destruct (next_port s); [done|]. by rewrite H5.
Qed.

Lemma shutdown_services_ok services s :
  app_ok s → app_ok (defw_shutdown_services os gone_looks services s).1.
Proof.
  intros Hok. unfold defw_shutdown_services, bind, get.
  apply (for_each_inv app_ok); [intros; by apply stop_one_ok | done].
Qed.

(** Stopping a list that covers the spawned services stops them all. *)
Lemma stop_each_all l s :
  app_ok s → (∀ i, i ∈ l → (i < length (handles s))%nat) → (∀ i, i ∈ spawned s → i ∈ l) →
  ∃ s', for_each stop_one l s = (s', Ok tt) ∧ app_ok s' ∧ spawned s' = [].
Proof.
  revert s. induction l as [|i l IH]; intros s Hok Hr Hsp; cbn [for_each].
  { exists s. split_and!; [done..|]. destruct (spawned s) as [|j k]; [done|].
    exfalso. apply (not_elem_of_nil j). apply Hsp. by left. }
  pose proof (stop_one_ok i s Hok) as Hok'.
  destruct (remove_spawned_nodup i _ (ok_nodup s Hok)) as [_ Hin].
  destruct (stop_one_spec i s Hok) as [(cs & e & _ & Hh)|(cs & E & _)].
  { apply lookup_ge_None in Hh. specialize (Hr i ltac:(by left)). lia. }
  unfold bind. rewrite E in *. simpl in Hok'. apply IH; [done| |].
  - simpl. intros j Hj. rewrite length_alter. apply Hr. by right.
  - simpl. intros j [Hj Hne]%Hin. apply Hsp in Hj. by apply elem_of_cons in Hj as [|].
Qed.

(** What an experiment can do with services, in any order. *)
Inductive app_op :=
  | OpSpawn (services : val)
  | OpShutdown (services : option (list nat)).

Definition run_op (s : app) (o : app_op) : app :=
  match o with
  | OpSpawn services =>
      (defw_spawn_services me environ uuid8 resolve_path executable os pid_looks peer_looks
         gone_looks services s).1
  | OpShutdown services => (defw_shutdown_services os gone_looks services s).1
  end.

Lemma run_ops_ok ops s : app_ok s → app_ok (fold_left run_op ops s).
Proof.
  revert s. induction ops as [|o ops IH]; intros s Hok; [done|]. simpl. apply IH.
  destruct o; [by apply spawn_services_ok | by apply shutdown_services_ok].
Qed.

Lemma shutdown_all_stops s :
  app_ok s →
  ∃ s', defw_shutdown_services os gone_looks None s = (s', Ok tt) ∧ app_ok s' ∧ spawned s' = [].
Proof.
  intros Hok. unfold defw_shutdown_services, bind, get.
  destruct (stop_each_all (rev (spawned s)) s Hok) as (s' & H & ? & ?); [| |by exists s'].
  - intros i. rewrite list_elem_of_In, <- in_rev, <- list_elem_of_In. apply (ok_range s Hok).
  - intros i. by rewrite !list_elem_of_In, <- in_rev.
Qed.
End Facts.


(** Shutting down a spawned service never raises and follows the kill
    protocol: its records are withdrawn, a live daemon gets exactly one
    SIGTERM and is watched until it is gone, SIGKILL is sent only when it
    survived every look, and no process is signalled when there is no pid;
    afterwards the service is stopped. *)
Theorem shutdown_protocol (os : list oscall → oscall → res val) (gone_looks i : nat) (h : handle)
    (s : app) :
  benign os → handles s !! i = Some h → is_Some (h_rc h) →
  ∃ s' cs, shutdown os gone_looks i s = (s', Ok tt) ∧ calls s' = calls s ++ cs ∧
    handles s' = alter stop i (handles s) ∧ spawned s' = spawned s ∧ stopped (stop h) ∧
    if 0 <? h_pid h then kill_protocol gone_looks (h_pid h) (kills cs) else kills cs = [].
Proof.
  intros Hos Hh Hrc. destruct (shutdown_spec os gone_looks Hos i h s Hh Hrc) as (cs & H & Hk).
  exists (after s (alter stop i (handles s)) cs), cs. split_and!; try done. apply stop_stopped.
Qed.

(** ** Examples *)

(** An outside where daemons start with pid 42, SIGTERM works at once and the
    directory is up. *)
Definition demo_os (l : list oscall) (c : oscall) : res val :=
  match c with
  | ReadPid _ => Ok (VStr "42")
  | Kill p sg => if existsb (λ c, match c with Kill q sg' => (p =? q) && (sg' =? SIGTERM) | _ => false end) l
                 then Raise (Exc EProcessLookupError "") else Ok VNone
  | WaitDirsvc _ => Ok (VBool true)
  | RegisterService _ =>
      Ok (VList [VDict [("service_id", VStr "id"); ("runtime_id", VStr "rt"); ("generation", VInt 1)]])
  | _ => Ok VNone
  end.

Definition demo_me : own := Own "exp" "node1" "10.0.0.1" 8090 "/opt/defw" "/tmp/defw".

(** Only the service [a] ever connects. *)
Definition demo_peers : peer_table :=
  PeerTable [(KStr "c1", PeerRecord (VStr "c1") (VStr "rt")
    [("node_name", VStr "a"); ("listen_port", VInt 8100)] (VStr "") (VStr "INBOUND") false (VInt 1)
    (VInt EN_DEFW_SERVICE) true (VStr ""))] [].

Definition demo_run (ops : list app_op) : app :=
  fold_left (run_op demo_me [] (λ _, "0a1b2c3d") (λ p, p) (λ _, true) demo_os 3
               (λ _, [demo_peers]) 5) ops init_app.

Definition demo_spec (m a : string) : val := VDict [("module", VStr m); ("agent_name", VStr a)].

(** [a] is spawned and stays; [b] starts but never connects and is stopped. *)
Example demo_spawn :
  let s := demo_run [OpSpawn (VList [demo_spec "svc_a" "a"; demo_spec "svc_b" "b"])] in
  spawned s = [0%nat] ∧
  map (λ h, (h_agent h, h_pid h, h_listen h, h_telnet h, h_open h)) (handles s) =
  [(VStr "a", 42, 8100, 8101, true); (VStr "b", 0, 8102, 8103, false)].
Proof. vm_compute. split; reflexivity. Qed.

Lemma demo_benign : benign demo_os.
Proof. split; [|done]. intros l p sg e. simpl. case_match; [|done]. by intros [= <-]. Qed.


Lemma shutdown_protocol_witness :
  let s := demo_run [OpSpawn (demo_spec "svc_a" "a")] in
  ∃ h s' cs, handles s !! 0%nat = Some h ∧ h_pid h = 42 ∧
    shutdown demo_os 5 0 s = (s', Ok tt) ∧ calls s' = calls s ++ cs ∧
    handles s' = alter stop 0%nat (handles s) ∧
    kill_protocol 5 42 (kills cs).
Proof.
  intros s. destruct (handles s !! 0%nat) as [h|] eqn:Hh; [|by vm_compute in Hh].
  assert (h_pid h = 42 ∧ is_Some (h_rc h)) as [Hp Hrc]
    by (vm_compute in Hh; injection Hh as <-; split; [done | by eexists]).
  destruct (shutdown_protocol demo_os 5 0 h s demo_benign Hh Hrc)
    as (s' & cs & H1 & H2 & H3 & _ & _ & H4).
  exists h, s', cs. rewrite Hp in H4. split_and!; try done.
Defined.
