(* ===== verification/Hosts.v ===== *)
(** * Host lists ([split_on_commas], [expand_host_list] of
    [python/infra/defw_util.py])

    A host expression is a comma-separated list of names and of groups such as
    [node[01-04,7]].  Texts are lists of characters; [find] and the slices
    follow Python, with -1 for "not found" and negative indices counted from
    the end.  The two loops get fuel; [split_on_commas_total] shows that it
    always suffices. *)

From S2P Require Import Prelude PyDict PyVal.
From Stdlib Require Import Ascii.

Local Open Scope Z_scope.
Local Open Scope list_scope.
Import PyNotations.
Local Open Scope py_scope.

Abbreviation text := (list ascii).

Definition len (s : text) : Z := Z.of_nat (length s).

(** [s.find(c)] and [s.find(c, start)] *)
Fixpoint find_from (c : ascii) (i : Z) (s : text) : Z :=
  match s with
  | [] => -1
  | x :: s' => if Ascii.eqb x c then i else find_from c (i + 1) s'
  end.

Definition index (s : text) (j : Z) : Z := if j <? 0 then Z.max 0 (len s + j) else j.

Definition find_start (c : ascii) (start : Z) (s : text) : Z :=
  let k := index s start in find_from c k (drop (Z.to_nat k) s).
Definition find (c : ascii) (s : text) : Z := find_from c 0 s.

(** [s[:j]] and [s[j:]] *)
Definition slice_to (s : text) (j : Z) : text := take (Z.to_nat (index s j)) s.
Definition slice_from (s : text) (j : Z) : text := drop (Z.to_nat (index s j)) s.

(** [s.split(c)] *)
Fixpoint split (c : ascii) (s : text) : list text :=
  match s with
  | [] => [[]]
  | x :: s' =>
      match split c s' with
      | [] => [[x]]
      | w :: ws => if Ascii.eqb x c then [] :: w :: ws else (x :: w) :: ws
      end
  end.

(** [while c > o and c < b: c = s.find(',', c+1)] *)
Fixpoint skip_inner (fuel : nat) (s : text) (o b c : Z) : option Z :=
  match fuel with
  | O => None
  | S n => if (o <? c) && (c <? b) then skip_inner n s o b (find_start "," (c + 1) s) else Some c
  end.

(** The outer loop; [l] is the list so far, whose last element is [s]. *)
Fixpoint split_loop (fuel : nat) (l : list text) (s : text) (c o : Z) : option (list text) :=
  match fuel with
  | O => None
  | S n =>
      if negb (c =? -1) && negb (o =? -1) then
        let o := find "[" s in
        let b := find "]" s in
        match skip_inner (S (length s)) s o b (find "," s) with
        | None => None
        | Some c =>
            let l := removelast l in
            if (c <? o) || (b <? c) then
              let k := find_start "," c s in
              let s' := slice_from s (k + 1) in
              split_loop n (l ++ [slice_to s k; s']) s' c o
            else Some (l ++ split "," s)
        end
      else Some l
  end.

(** [split_on_commas] *)
Definition split_on_commas (expr : text) : option (list text) :=
  map strip_l <$> split_loop (S (S (length expr))) [] expr 0 0.

(** Decimal digits, and ["{:0wd}".format(n)] *)
Definition digit (d : Z) : ascii := ascii_of_nat (Z.to_nat (48 + d)).

Fixpoint fixed (w : nat) (n : Z) : text :=
  match w with O => [] | S w' => fixed w' (n / 10) ++ [digit (n mod 10)] end.

Fixpoint ndigits_loop (fuel : nat) (n : Z) : nat :=
  match fuel with
  | O => 1
  | S f => if n <? 10 then 1 else S (ndigits_loop f (n / 10))
  end.
Definition ndigits (n : Z) : nat := ndigits_loop (Z.to_nat n) n.

Definition pad (w : nat) (n : Z) : text :=
  if n <? 0 then "-"%char :: fixed (Nat.max (w - 1) (ndigits (- n))) (- n)
  else fixed (Nat.max w (ndigits n)) n.

Definition int_text (s : text) : res Z := py_int (VStr (String.string_of_list_ascii s)).

(** One range of a group; more than one dash is ignored. *)
Definition expand_range (node : text) (r : text) : res (list text) :=
  match split "-" r with
  | [a; b] =>
      let? x := int_text a in
      let? y := int_text b in
      Ok (map (λ i, node ++ pad (length a) i) (zrange x (Z.to_nat (y + 1 - x))))
  | [a] => let? x := int_text a in Ok [node ++ pad (length a) x]
  | _ => Ok []
  end.

(** [expand_host_list_sub] *)
Definition expand_host_list_sub (expr : text) : res (list text) :=
  let open_br := find "[" expr in
  let close_br := find_start "]" open_br expr in
  if (open_br =? -1) && (close_br =? -1) then Ok (split "," expr)
  else if (open_br =? -1) || (close_br =? -1) then Ok []
  else
    let rangestr := take (Z.to_nat (close_br - (open_br + 1))) (slice_from expr (open_br + 1)) in
    let node := slice_to expr open_br in
    res_map (@List.concat text) (rmapM (expand_range node) (split "," rangestr)).

(** [expand_host_list]; the fuel of [split_on_commas] never runs out. *)
Definition expand_host_list (expr : text) : res (list text) :=
  match split_on_commas expr with
  | Some l => res_map (@List.concat text) (rmapM expand_host_list_sub l)
  | None => Raise (Exc ERuntimeError "out of fuel")
  end.

Definition t (s : string) : text := String.list_ascii_of_string s.

Example expand_mixed :
  expand_host_list (t "login, node[08-10,7],gpu[1],x,y") =
  Ok (map t ["login"; "node08"; "node09"; "node10"; "node7"; "gpu1"; "x"; "y"]%string).
Proof. reflexivity. Qed.

(** ** Searching *)

Lemma find_from_absent c i s : c ∉ s → find_from c i s = -1.
Proof.
  revert i. induction s as [|x s IH]; intros i Hc; [done|]. simpl.
  apply not_elem_of_cons in Hc as [Hne Hc]. destruct (Ascii.eqb_spec x c) as [->|]; [done|]. auto.
Qed.

Lemma find_from_app c i pre post :
  c ∉ pre → find_from c i (pre ++ c :: post) = i + len pre.
Proof.
  revert i. induction pre as [|x pre IH]; intros i Hc; simpl.
  { rewrite Ascii.eqb_refl. unfold len. simpl. lia. }
  apply not_elem_of_cons in Hc as [Hne Hc]. destruct (Ascii.eqb_spec x c) as [->|]; [done|].
  rewrite IH by done. unfold len. simpl. lia.
Qed.

(** Either the character does not occur, or [find] gives its first place. *)
Lemma find_from_cases c i s :
  (c ∉ s ∧ find_from c i s = -1) ∨
  ∃ pre post, s = pre ++ c :: post ∧ c ∉ pre ∧ find_from c i s = i + len pre.
Proof.
  destruct (decide (c ∈ s)) as [Hin|Hin]; [right | left; split; [done | by apply find_from_absent]].
  apply list_elem_of_split_l in Hin as (pre & post & -> & Hpre).
  exists pre, post. split_and!; [done..|]. by apply find_from_app.
Qed.

(** A place [find] can give. *)
Definition found (c : ascii) (s : text) (j : Z) : Prop :=
  j = -1 ∨ (0 <= j ∧ s !! Z.to_nat j = Some c).

Lemma lookup_mid (pre : text) c post : (pre ++ c :: post) !! length pre = Some c.
Proof. by apply list_lookup_middle. Qed.

Lemma find_found c s : found c s (find c s).
Proof.
  unfold find. destruct (find_from_cases c 0 s) as [[_ ->]|(pre & post & -> & _ & ->)]; [by left|].
  right. unfold len. split; [lia|]. rewrite Z.add_0_l, Nat2Z.id. apply lookup_mid.
Qed.

Lemma find_start_found c k s :
  0 <= k → found c s (find_start c k s) ∧ (find_start c k s = -1 ∨ k <= find_start c k s).
Proof.
  intros Hk. unfold find_start, index. rewrite (proj2 (Z.ltb_ge _ _) Hk).
  destruct (find_from_cases c k (drop (Z.to_nat k) s)) as [[_ ->]|(pre & post & Hs & _ & ->)].
  { split; by left. }
  assert (drop (Z.to_nat k) s !! length pre = Some c) as Hl by (rewrite Hs; apply lookup_mid).
  rewrite lookup_drop in Hl. unfold len. split; [right|right; lia]. split; [lia|].
  by replace (Z.to_nat (k + Z.of_nat (length pre))) with (Z.to_nat k + length pre)%nat by lia.
Qed.

(** Looking again from a place where the character is finds it there. *)
Lemma find_start_at c k s : 0 <= k → s !! Z.to_nat k = Some c → find_start c k s = k.
Proof.
  intros Hk Hs. unfold find_start, index. rewrite (proj2 (Z.ltb_ge _ _) Hk).
  rewrite (drop_S s c _ Hs). simpl. by rewrite Ascii.eqb_refl.
Qed.

Lemma found_bound c s j : found c s j → j < len s.
Proof.
  unfold len. intros [-> | [Hj Hl%lookup_lt_Some]]; lia.
Qed.

Lemma find_ge c s : -1 <= find c s.
Proof. destruct (find_found c s) as [-> | [? _]]; lia. Qed.

(** ** Termination *)

Lemma skip_inner_total fuel s o b c :
  -1 <= o → found "," s c → (0 <= c → b - c < Z.of_nat fuel) → (0 < fuel)%nat →
  ∃ c', skip_inner fuel s o b c = Some c' ∧ found "," s c'.
Proof.
  intros Ho. revert c. induction fuel as [|n IH]; intros c Hc Hf Hn; [lia|]. simpl.
  destruct ((o <? c) && (c <? b)) eqn:E; [|by exists c].
  apply andb_true_iff in E as [E1%Z.ltb_lt E2%Z.ltb_lt].
  destruct (find_start_found "," (c + 1) s) as [Hf' Hge]; [lia|].
  apply IH; [done | lia | lia].
Qed.

Lemma slice_from_shrinks s k : 0 <= k → k < len s → (length (slice_from s (k + 1)) < length s)%nat.
Proof.
  intros H1 H2. unfold slice_from, index, len in *.
  rewrite (proj2 (Z.ltb_ge (k + 1) 0) ltac:(lia)), length_drop. lia.
Qed.

Lemma split_loop_total fuel l s c o :
  (length s + 1 < fuel)%nat ∨ ((length s < fuel)%nat ∧ c = -1) → is_Some (split_loop fuel l s c o).
Proof.
  revert l s c o. induction fuel as [|n IH]; intros l s c o Hf; [lia|]. cbn [split_loop].
  destruct (negb (c =? -1) && negb (o =? -1)) eqn:Econd; [|by eexists].
  destruct Hf as [Hf|[_ ->]]; [|done].
  pose proof (find_found "," s) as Hc0. pose proof (found_bound _ _ _ (find_found "]" s)) as Hb.
  destruct (skip_inner_total (S (length s)) s (find "[" s) (find "]" s) (find "," s))
    as (c' & -> & Hc'); [apply find_ge | done | unfold len in Hb; lia | lia |].
  destruct ((c' <? find "[" s) || (find "]" s <? c')); [|by eexists].
  apply IH. destruct Hc' as [-> | [Hpos Hl]].
  - right. split; [|done]. unfold slice_from. rewrite length_drop. lia.
  - left. rewrite find_start_at by done.
    pose proof (slice_from_shrinks s c' Hpos (found_bound "," s c' (or_intror (conj Hpos Hl)))). lia.
Qed.

(** [split_on_commas] terminates on every text: both loops finish within
    as many rounds as the text has characters. *)
Theorem split_on_commas_total (expr : text) : is_Some (split_on_commas expr).
Proof.
  unfold split_on_commas. apply fmap_is_Some. apply split_loop_total. left. lia.
Qed.

(** ** Host expressions

    What a well-formed expression means: names, and groups of numbered hosts
    with the width of their numbers. *)

Inductive range :=
  | Single (w : nat) (a : Z)
  | Span (w : nat) (a b : Z).

Inductive item :=
  | Plain (name : text)
  | Group (node : text) (rs : list range).

Fixpoint join (sep : ascii) (l : list text) : text :=
  match l with
  | [] => []
  | [x] => x
  | x :: l' => x ++ sep :: join sep l'
  end.

Definition render_range (r : range) : text :=
  match r with Single w a => pad w a | Span w a b => pad w a ++ "-"%char :: pad w b end.

Definition render (i : item) : text :=
  match i with
  | Plain n => n
  | Group n rs => n ++ "["%char :: join "," (map render_range rs) ++ ["]"%char]
  end.

Definition range_hosts (r : range) : list text :=
  match r with
  | Single w a => [pad w a]
  | Span w a b => map (pad w) (zrange a (Z.to_nat (b + 1 - a)))
  end.

Definition hosts (i : item) : list text :=
  match i with
  | Plain n => [n]
  | Group n rs => map (app n) (flat_map range_hosts rs)
  end.

(** A character of a host name. *)
Definition name_char (c : ascii) : Prop :=
  is_space c = false ∧ c ≠ ","%char ∧ c ≠ "["%char ∧ c ≠ "]"%char.

Definition range_ok (r : range) : Prop :=
  match r with
  | Single w a => (1 ≤ w)%nat ∧ 0 <= a < 10 ^ Z.of_nat w
  | Span w a b => (1 ≤ w)%nat ∧ 0 <= a < 10 ^ Z.of_nat w ∧ 0 <= b
  end.

Definition item_ok (i : item) : Prop :=
  match i with
  | Plain n => Forall name_char n
  | Group n rs => Forall name_char n ∧ rs ≠ [] ∧ Forall range_ok rs
  end.

(** *** Numbers *)

Definition is_digit (c : ascii) : Prop := ∃ d, 0 <= d < 10 ∧ c = digit d.

Lemma digit_cases (P : Z → Prop) d :
  0 <= d < 10 → P 0 → P 1 → P 2 → P 3 → P 4 → P 5 → P 6 → P 7 → P 8 → P 9 → P d.
Proof.
  intros Hd. intros. assert (d = 0 ∨ d = 1 ∨ d = 2 ∨ d = 3 ∨ d = 4 ∨ d = 5 ∨ d = 6 ∨ d = 7 ∨ d = 8 ∨
    d = 9) as Hc by lia. repeat destruct Hc as [-> | Hc]; by subst.
Qed.

Lemma digit_of_digit d :
  0 <= d < 10 →
  digit_of (digit d) = Some d ∧ Ascii.eqb (digit d) "_" = false ∧ name_char (digit d) ∧
  digit d ≠ "-"%char ∧ digit d ≠ "+"%char.
Proof. intros Hd. pattern d. apply digit_cases; [done|..]; vm_compute; split_and!; done. Qed.

Lemma fixed_digits w n : Forall is_digit (fixed w n).
Proof.
  revert n. induction w as [|w IH]; intros n; simpl; [constructor|].
  apply Forall_app. split; [apply IH|]. constructor; [|constructor].
  exists (n mod 10). split; [apply Z.mod_pos_bound; lia | done].
Qed.

Lemma fixed_length w n : length (fixed w n) = w.
Proof. revert n. induction w as [|w IH]; intros n; simpl; [done|]. rewrite length_app, IH. simpl. lia. Qed.

Lemma digits_val_fixed w n acc b rest :
  0 <= n < 10 ^ Z.of_nat w →
  digits_val acc b (fixed w n ++ rest) =
  digits_val (acc * 10 ^ Z.of_nat w + n) (b || (0 <? Z.of_nat w)) rest.
Proof.
  revert n rest. induction w as [|w IH]; intros n rest Hn.
  { simpl in *. rewrite orb_false_r. f_equal. lia. }
  rewrite Nat2Z.inj_succ, Z.pow_succ_r in * by lia. cbn [fixed]. rewrite <- app_assoc.
  pose proof (Z.mod_pos_bound n 10 ltac:(lia)) as Hm.
  rewrite IH by (split; [apply Z.div_pos; lia | apply Z.div_lt_upper_bound; lia]).
  destruct (digit_of_digit (n mod 10) Hm) as (Hd & Hu & _). cbn [app digits_val].
  rewrite Hu, Hd. rewrite (proj2 (Z.ltb_lt _ _)) by lia. rewrite orb_true_r. f_equal.
  pose proof (Z.div_mod n 10 ltac:(lia)). lia.
Qed.

Lemma strip_l_id l : Forall (λ c, is_space c = false) l → strip_l l = l.
Proof.
  assert (∀ l, Forall (λ c, is_space c = false) l → lstrip_l l = l) as Hl.
  { intros k Hk. destruct Hk as [|c k Hc Hk]; [done|]. simpl. by rewrite Hc. }
  intros H. unfold strip_l. rewrite (Hl l H), Hl; [apply rev_involutive|].
  apply Forall_rev in H. exact H.
Qed.

Lemma is_digit_name c : is_digit c → name_char c.
Proof. intros (d & Hd & ->). by apply digit_of_digit. Qed.

Lemma name_not_space l : Forall name_char l → Forall (λ c, is_space c = false) l.
Proof. intros H. eapply Forall_impl; [exact H|]. by intros c []. Qed.

Lemma int_text_fixed w n :
  (1 ≤ w)%nat → 0 <= n < 10 ^ Z.of_nat w → int_text (fixed w n) = Ok n.
Proof.
  intros Hw Hn. unfold int_text, py_int, int_of_string.
  rewrite String.list_ascii_of_string_of_list_ascii.
  assert (Forall is_digit (fixed w n)) as Hd by apply fixed_digits.
  rewrite strip_l_id
    by (apply name_not_space; eapply Forall_impl; [exact Hd|]; apply is_digit_name).
  pose proof (digits_val_fixed w n 0 false [] Hn) as Hv. rewrite app_nil_r, Z.mul_0_l, Z.add_0_l in Hv.
  rewrite (proj2 (Z.ltb_lt _ _)) in Hv by lia. simpl in Hv.
  pose proof (fixed_length w n) as Hlen.
  destruct (fixed w n) as [|c l]; [simpl in Hlen; lia|].
  apply Forall_cons in Hd as [(d & Hd & Hc) _].
  destruct (digit_of_digit d Hd) as (_ & _ & _ & Hm & Hp). rewrite <- Hc in Hm, Hp.
  assert (match c :: l with
          | "-"%char :: l => Z.opp <$> digits_val 0 false l
          | "+"%char :: l => digits_val 0 false l
          | l => digits_val 0 false l
          end = Some n) as ->; [|done].
  rewrite <- Hv. clear -Hm Hp. by destruct c as [[] [] [] [] [] [] [] []].
Qed.

Lemma ndigits_loop_spec f n :
  0 <= n → (Z.to_nat n ≤ f)%nat → n < 10 ^ Z.of_nat (ndigits_loop f n).
Proof.
  revert n. induction f as [|f IH]; intros n Hn Hf; simpl.
  { lia. }
  destruct (Z.ltb_spec n 10); [lia|].
  assert (n / 10 < n) by (apply Z.div_lt; lia).
  specialize (IH (n / 10) ltac:(apply Z.div_pos; lia) ltac:(lia)).
  rewrite Nat2Z.inj_succ, Z.pow_succ_r by lia.
  pose proof (Z.div_mod n 10 ltac:(lia)). pose proof (Z.mod_pos_bound n 10 ltac:(lia)). lia.
Qed.

Lemma ndigits_loop_le f n w :
  0 <= n < 10 ^ Z.of_nat w → (1 ≤ w)%nat → (ndigits_loop f n ≤ w)%nat.
Proof.
  revert n w. induction f as [|f IH]; intros n w Hn Hw; simpl; [lia|].
  destruct (Z.ltb_spec n 10); [lia|]. destruct w as [|[|w]]; [lia | simpl in Hn; lia|].
  apply le_n_S, IH; [|lia]. rewrite Nat2Z.inj_succ, Z.pow_succ_r in Hn by lia.
  split; [apply Z.div_pos; lia | apply Z.div_lt_upper_bound; lia].
Qed.

Lemma pad_fixed w n :
  0 <= n → (1 ≤ w)%nat →
  ∃ w', pad w n = fixed w' n ∧ (1 ≤ w')%nat ∧ n < 10 ^ Z.of_nat w' ∧
        (n < 10 ^ Z.of_nat w → w' = w).
Proof.
  intros Hn Hw. unfold pad. rewrite (proj2 (Z.ltb_ge _ _) Hn).
  exists (Nat.max w (ndigits n)). split_and!; [done | lia | |].
  - eapply Z.lt_le_trans; [apply (ndigits_loop_spec (Z.to_nat n)); [done | lia]|].
    apply Z.pow_le_mono_r; unfold ndigits; lia.
  - intros H. pose proof (ndigits_loop_le (Z.to_nat n) n w (conj Hn H) Hw).
    unfold ndigits. lia.
Qed.

Lemma pad_text w n :
  0 <= n → (1 ≤ w)%nat →
  int_text (pad w n) = Ok n ∧ Forall is_digit (pad w n) ∧
  (n < 10 ^ Z.of_nat w → length (pad w n) = w).
Proof.
  intros Hn Hw. destruct (pad_fixed w n Hn Hw) as (w' & -> & Hw' & Hlt & Heq).
  split_and!; [by apply int_text_fixed | apply fixed_digits|].
  intros H. rewrite fixed_length. by apply Heq.
Qed.

(** *** Splitting and single pieces *)

Lemma split_absent c s : c ∉ s → split c s = [s].
Proof.
  induction s as [|x s IH]; intros Hc; [done|]. apply not_elem_of_cons in Hc as [Hne Hc].
  simpl. rewrite IH by done. destruct (Ascii.eqb_spec x c) as [->|]; done.
Qed.

Lemma split_app c s r : c ∉ s → split c (s ++ c :: r) = s :: split c r.
Proof.
  assert (split c r ≠ []) as Hne.
  { destruct r as [|x r]; [done|]. simpl. destruct (split c r); [done|]. by case_match. }
  induction s as [|x s IH]; intros Hc; simpl.
  - destruct (split c r) eqn:E; [done|]. by rewrite Ascii.eqb_refl.
  - apply not_elem_of_cons in Hc as [Hx Hc]. rewrite IH by done.
    destruct (Ascii.eqb_spec x c) as [->|]; done.
Qed.

Lemma split_join c l : l ≠ [] → Forall (λ x, c ∉ x) l → split c (join c l) = l.
Proof.
  intros Hne Hl. induction Hl as [|x l Hx Hl IH]; [done|].
  destruct l as [|y l]; [by apply split_absent|]. cbn [join].
  rewrite split_app by done. f_equal. by apply IH.
Qed.

(** A list of name characters has none of the special ones. *)
Lemma name_no_special s : Forall name_char s → ","%char ∉ s ∧ "["%char ∉ s ∧ "]"%char ∉ s.
Proof.
  rewrite Forall_forall. intros H. split_and!; intros Hin%H; by destruct Hin as (_ & ? & ? & ?).
Qed.

Lemma digits_no s c : Forall is_digit s → (∀ d, 0 <= d < 10 → digit d ≠ c) → c ∉ s.
Proof.
  rewrite Forall_forall. intros H Hc Hin. destruct (H c Hin) as (d & Hd & ->). by apply (Hc d).
Qed.

Lemma digits_no_dash s : Forall is_digit s → "-"%char ∉ s.
Proof. intros H. apply digits_no; [done|]. intros d Hd. by apply digit_of_digit. Qed.

Lemma expand_range_spec node r :
  range_ok r → expand_range node (render_range r) = Ok (map (app node) (range_hosts r)).
Proof.
  destruct r as [w a|w a b]; simpl.
  - intros (Hw & Ha & Hlt). destruct (pad_text w a Ha Hw) as (Hi & Hd & Hlen).
    unfold expand_range. rewrite split_absent by by apply digits_no_dash.
    by rewrite Hi, Hlen.
  - intros (Hw & (Ha & Hlt) & Hb). destruct (pad_text w a Ha Hw) as (Hi & Hd & Hlen).
    destruct (pad_text w b Hb Hw) as (Hi' & Hd' & _). unfold expand_range.
    rewrite split_app, split_absent by by apply digits_no_dash.
    rewrite Hi, Hi', Hlen by done. simpl. by rewrite map_map.
Qed.

(** The text between the brackets of a group. *)
Definition inside (rs : list range) : text := join "," (map render_range rs).

Definition inner_char (c : ascii) : Prop :=
  is_space c = false ∧ c ≠ "["%char ∧ c ≠ "]"%char.

Lemma render_range_chars r :
  range_ok r → Forall inner_char (render_range r) ∧ ","%char ∉ render_range r.
Proof.
  assert (∀ s, Forall is_digit s → Forall inner_char s ∧ ","%char ∉ s) as Hdig.
  { intros s Hs. split.
    - eapply Forall_impl; [exact Hs|]. intros c (? & ? & ? & ?)%is_digit_name. by split_and!.
    - apply name_no_special. eapply Forall_impl; [exact Hs|]. apply is_digit_name. }
  destruct r as [w a|w a b]; simpl.
  - intros (Hw & Ha & _). apply Hdig. by apply pad_text.
  - intros (Hw & (Ha & _) & Hb). destruct (Hdig (pad w a)) as [H1 H2]; [by apply pad_text|].
    destruct (Hdig (pad w b)) as [H3 H4]; [by apply pad_text|]. split.
    + apply Forall_app. split; [done|]. by constructor.
    + rewrite not_elem_of_app, not_elem_of_cons. by split_and!.
Qed.

Lemma inside_chars rs : Forall range_ok rs → Forall inner_char (inside rs).
Proof.
  unfold inside. induction 1 as [|r rs Hr Hrs IH]; [constructor|].
  destruct (render_range_chars r Hr) as [H _].
  destruct rs as [|r' rs]; [done|]. cbn [map join] in *. apply Forall_app. split; [done|].
  by constructor.
Qed.

Lemma inside_no_bracket rs :
  Forall range_ok rs → "["%char ∉ inside rs ∧ "]"%char ∉ inside rs.
Proof.
  intros H%inside_chars. rewrite Forall_forall in H.
  split; intros Hin%H; by destruct Hin as (_ & ? & ?).
Qed.

(** Expanding the text of one group gives its hosts. *)
Lemma expand_group n rs :
  item_ok (Group n rs) → expand_host_list_sub (render (Group n rs)) = Ok (hosts (Group n rs)).
Proof.
  intros (Hn & Hne & Hrs). destruct (name_no_special n Hn) as (_ & Hno & Hnc).
  destruct (inside_no_bracket rs Hrs) as [_ Hrc]. unfold expand_host_list_sub. cbn [render].
  fold (inside rs). set (s := n ++ "["%char :: inside rs ++ ["]"%char]).
  assert (find "[" s = len n) as -> by (unfold find, s; by rewrite find_from_app).
  assert (find_start "]" (len n) s = len n + 1 + len (inside rs)) as ->.
  { unfold find_start, index, len. rewrite (proj2 (Z.ltb_ge _ _)) by lia. rewrite Nat2Z.id.
    unfold s. rewrite drop_app_length. rewrite (find_from_app "]" _ ("["%char :: inside rs) []).
    - unfold len. simpl. lia.
    - by rewrite not_elem_of_cons. }
  rewrite !(proj2 (Z.eqb_neq _ _)) by (unfold len; lia). cbn [andb orb].
  unfold slice_from, slice_to, index.
  rewrite !(proj2 (Z.ltb_ge _ _)) by (unfold len; lia).
  assert (take (Z.to_nat (len n)) s = n) as -> by (unfold len, s; by rewrite Nat2Z.id, take_app_length).
  assert (drop (Z.to_nat (len n + 1)) s = inside rs ++ ["]"%char]) as ->.
  { unfold len. replace (Z.to_nat (Z.of_nat (length n) + 1)) with (length (n ++ ["["%char]))
      by (rewrite length_app; simpl; lia).
    unfold s. change ("["%char :: inside rs ++ ["]"%char]) with (["["%char] ++ inside rs ++ ["]"%char]).
    by rewrite app_assoc, drop_app_length. }
  replace (Z.to_nat (len n + 1 + len (inside rs) - (len n + 1))) with (length (inside rs))
    by (unfold len; lia).
  rewrite take_app_length. unfold inside. rewrite split_join.
  - erewrite (rmapM_ok _ (λ x, default [] (match expand_range n x with Ok l => Some l | _ => None end))).
    + simpl. f_equal. rewrite map_map. clear Hne s. induction Hrs as [|r rs Hr Hrs IH]; [done|].
      simpl. rewrite expand_range_spec by done. simpl. rewrite map_app. f_equal. apply IH.
      by apply inside_no_bracket.
    + intros x (r & Hin & ->)%list_map_In. rewrite Forall_forall in Hrs.
      by rewrite expand_range_spec by auto.
  - by destruct rs.
  - apply Forall_fmap. eapply Forall_impl; [exact Hrs|]. intros r Hr. by apply render_range_chars.
Qed.

Lemma drop_In (k : nat) (s : text) c : c ∈ drop k s → c ∈ s.
Proof. intros H. rewrite <- (take_drop k s). apply elem_of_app. by right. Qed.

(** The same text without its closing bracket gives nothing. *)
Lemma expand_cut n rs :
  item_ok (Group n rs) → expand_host_list_sub (n ++ "["%char :: inside rs) = Ok [].
Proof.
  intros (Hn & _ & Hrs). destruct (name_no_special n Hn) as (_ & Hno & Hnc).
  destruct (inside_no_bracket rs Hrs) as [_ Hrc]. unfold expand_host_list_sub.
  set (s := n ++ "["%char :: inside rs).
  assert (find "[" s = len n) as -> by (unfold find, s; by rewrite find_from_app).
  assert (find_start "]" (len n) s = -1) as ->.
  { unfold find_start. apply find_from_absent. intros Hin.
    assert ("]"%char ∈ s) as Hs by by eapply drop_In.
    unfold s in Hs. rewrite elem_of_app, elem_of_cons in Hs. by destruct Hs as [|[|]]. }
  rewrite (proj2 (Z.eqb_neq (len n) (-1))) by (unfold len; lia). done.
Qed.

Lemma expand_names s :
  "["%char ∉ s → "]"%char ∉ s → expand_host_list_sub s = Ok (split "," s).
Proof.
  intros H1 H2. unfold expand_host_list_sub, find. rewrite find_from_absent by done.
  unfold find_start. rewrite find_from_absent; [done|].
  intros Hin. apply H2. by eapply drop_In.
Qed.

(** *** The comma loop *)

Definition rendered (items : list item) : text := join "," (map render items).

(** [ps] are pieces whose expansion is [hs]. *)
Definition expands (ps : list text) (hs : list text) : Prop :=
  ∃ hss, rmapM expand_host_list_sub (map strip_l ps) = Ok hss ∧ concat hss = hs.

Lemma expands_nil : expands [] [].
Proof. by exists []. Qed.

Lemma expands_cons p ps h hs :
  Forall (λ c, is_space c = false) p → expand_host_list_sub p = Ok h → expands ps hs →
  expands (p :: ps) (h ++ hs).
Proof.
  intros Hsp Hp (hss & Hps & <-). exists (h :: hss). split; [|done]. simpl.
  by rewrite strip_l_id, Hp, Hps.
Qed.

Lemma find_from_skip c i q r : c ∉ q → find_from c i (q ++ r) = find_from c (i + len q) r.
Proof.
  revert i. induction q as [|x q IH]; intros i Hc; simpl.
  { f_equal. unfold len. simpl. lia. }
  apply not_elem_of_cons in Hc as [Hx Hc]. destruct (Ascii.eqb_spec x c) as [->|]; [done|].
  rewrite IH by done. f_equal. unfold len. simpl. lia.
Qed.

(** After a group comes the end or a comma. *)
Definition tail_ok (rest : text) : Prop := rest = [] ∨ ∃ s', rest = ","%char :: s'.

Definition next_comma (b : Z) (rest : text) : Z := match rest with [] => -1 | _ => b + 1 end.

(** Looking for a comma from a place inside a bracketed text: one inside, or
    the one after it. *)
Lemma comma_after q k rest :
  tail_ok rest →
  (k <= find_from "," k (q ++ "]"%char :: rest) < k + len q) ∨
  find_from "," k (q ++ "]"%char :: rest) = next_comma (k + len q) rest.
Proof.
  intros Ht. destruct (decide (","%char ∈ q)) as [Hin|Hin].
  - left. apply list_elem_of_split_l in Hin as (pre & post & -> & Hpre).
    rewrite <- app_assoc. simpl. rewrite find_from_app by done. unfold len.
    rewrite length_app. simpl. lia.
  - right. rewrite find_from_skip by done. simpl. by destruct Ht as [-> | [s' ->]].
Qed.

Section Group.
Context (n : text) (rs : list range) (rest : text).
Hypothesis Hok : item_ok (Group n rs).
Hypothesis Hrest : tail_ok rest.
Let body : text := n ++ "["%char :: inside rs.
Let s : text := body ++ "]"%char :: rest.

Lemma group_open : find "[" s = len n.
Proof.
  unfold s, body, find. rewrite <- app_assoc. simpl. apply find_from_app.
  by apply name_no_special, Hok.
Qed.

Lemma group_close : find "]" s = len body.
Proof.
  unfold s, find. apply find_from_app. unfold body.
  destruct Hok as (Hn & _ & Hrs). destruct (name_no_special n Hn) as (_ & _ & ?).
  destruct (inside_no_bracket rs Hrs). rewrite not_elem_of_app, not_elem_of_cons. by split_and!.
Qed.

(** A comma inside the text is after the opening bracket. *)
Lemma comma_inside c : found "," s c → 0 <= c < len body → len n < c.
Proof.
  intros [-> | [_ Hl]] [Hc0 Hc]; [lia|]. destruct (Z.lt_ge_cases (len n) c) as [|Hle]; [done|].
  exfalso. destruct Hok as (Hn & _). destruct (name_no_special n Hn) as (Hcomma & _).
  unfold s, body, len in *. rewrite lookup_app_l in Hl by lia.
  destruct (Z.eq_dec c (Z.of_nat (length n))) as [->|Hne].
  - rewrite Nat2Z.id, lookup_mid in Hl. done.
  - rewrite lookup_app_l in Hl by lia. by apply Hcomma, (list_elem_of_lookup_2 _ (Z.to_nat c)).
Qed.

Lemma comma_from k :
  0 <= k <= len body →
  (k <= find_start "," k s < len body) ∨ find_start "," k s = next_comma (len body) rest.
Proof.
  intros Hk. unfold find_start, index. rewrite (proj2 (Z.ltb_ge k 0)) by lia.
  unfold s. rewrite drop_app_le by (unfold len in Hk; lia).
  destruct (comma_after (drop (Z.to_nat k) body) k rest Hrest) as [H|H];
    replace (k + len (drop (Z.to_nat k) body)) with (len body) in H
      by (unfold len in *; rewrite length_drop; lia); auto.
Qed.

Lemma next_comma_stops fuel :
  (0 < fuel)%nat →
  skip_inner fuel s (len n) (len body) (next_comma (len body) rest) =
  Some (next_comma (len body) rest).
Proof.
  destruct fuel as [|f]; [lia|]. intros _. cbn [skip_inner]. unfold next_comma.
  destruct rest; [rewrite (proj2 (Z.ltb_ge _ (-1))) by (unfold len; lia); done|].
  rewrite (proj2 (Z.ltb_ge _ (len body))) by lia. by rewrite andb_false_r.
Qed.

(** The inner loop skips the commas of the group. *)
Lemma skip_group fuel c :
  found "," s c → 0 <= c < len body → len body - c < Z.of_nat fuel →
  skip_inner fuel s (len n) (len body) c = Some (next_comma (len body) rest).
Proof.
  revert c. induction fuel as [|f IH]; intros c Hf Hc Hfuel; [lia|].
  pose proof (comma_inside c Hf Hc) as Hgt. cbn [skip_inner].
  rewrite (proj2 (Z.ltb_lt _ _) Hgt), (proj2 (Z.ltb_lt c (len body))) by lia. cbn [andb].
  destruct (comma_from (c + 1)) as [Hin|Heq]; [lia| |].
  - apply IH; [by apply find_start_found; lia | lia | lia].
  - rewrite Heq. apply next_comma_stops. lia.
Qed.

Lemma skip_group_start :
  skip_inner (S (length s)) s (len n) (len body) (find "," s) =
  Some (next_comma (len body) rest).
Proof.
  assert (find "," s = find_start "," 0 s) as E by done.
  destruct (comma_from 0) as [Hin|Heq]; [unfold len; lia| |].
  - rewrite <- E in Hin. apply skip_group; [apply find_found | done|].
    pose proof (found_bound "]" s (len body)) as Hb. rewrite <- group_close in Hb at 1.
    specialize (Hb (find_found _ _)). unfold len in *. lia.
  - rewrite E, Heq. apply next_comma_stops. lia.
Qed.
End Group.

(** *** Whole expressions *)

Lemma rendered_cons i items :
  items ≠ [] → rendered (i :: items) = render i ++ ","%char :: rendered items.
Proof. by destruct items. Qed.

Lemma render_no_space i : item_ok i → Forall (λ c, is_space c = false) (render i).
Proof.
  destruct i as [n|n rs]; [apply name_not_space|]. intros (Hn & _ & Hrs).
  apply Forall_app. split; [by apply name_not_space|]. constructor; [done|].
  apply Forall_app. split; [|by constructor].
  eapply Forall_impl; [by apply (inside_chars rs)|]. by intros c [].
Qed.

Lemma rendered_no_space items :
  Forall item_ok items → Forall (λ c, is_space c = false) (rendered items).
Proof.
  induction 1 as [|i items Hi Hitems IH]; [constructor|].
  destruct items as [|j items]; [by apply render_no_space|].
  rewrite rendered_cons by done. apply Forall_app. split; [by apply render_no_space|].
  by constructor.
Qed.

Lemma rendered_mono items c i : i ∈ items → c ∈ render i → c ∈ rendered items.
Proof.
  intros Hi Hc. induction items as [|j items IH]; [by apply not_elem_of_nil in Hi|].
  apply elem_of_cons in Hi as [<-|Hi].
  - destruct items; [done|]. rewrite rendered_cons by done. apply elem_of_app. by left.
  - destruct items as [|k items]; [by apply not_elem_of_nil in Hi|].
    rewrite rendered_cons by done. apply elem_of_app. right. right. by apply IH.
Qed.

(** Without a bracket in the text, all items are names. *)
Lemma all_names items :
  Forall item_ok items → items ≠ [] → "["%char ∉ rendered items →
  "]"%char ∉ rendered items ∧
  expand_host_list_sub (rendered items) = Ok (flat_map hosts items).
Proof.
  intros Hok Hne Hno.
  assert (∃ ns, items = map Plain ns ∧ Forall (Forall name_char) ns) as (ns & -> & Hns).
  { assert (∀ i, i ∈ items → "["%char ∉ render i) as Hno' by (intros i Hi Hc; by eapply Hno, rendered_mono).
    clear Hno Hne. induction Hok as [|i items Hi Hok IH]; [by exists []|].
    destruct IH as (ns & -> & Hns); [intros j Hj; apply Hno'; by right|].
    destruct i as [n|n rs]; [exists (n :: ns); split; [done | by constructor]|].
    exfalso. apply (Hno' (Group n rs)); [by left|]. apply elem_of_app. right. by left. }
  assert (Forall (λ x, ","%char ∉ x) ns) as Hc
    by (eapply Forall_impl; [exact Hns|]; intros x Hx; by apply name_no_special).
  assert ("]"%char ∉ rendered (map Plain ns)) as Hcl.
  { clear Hne Hno Hok Hc. induction Hns as [|x ns Hx Hns IH]; [by apply not_elem_of_nil|].
    destruct (name_no_special x Hx) as (_ & _ & ?).
    destruct ns as [|y ns]; [done|]. cbn [map] in *. rewrite rendered_cons by done.
    rewrite not_elem_of_app, not_elem_of_cons. by split_and!. }
  split; [done|]. rewrite expand_names by done. unfold rendered.
  rewrite map_map, map_id, split_join; [| by destruct ns | done]. f_equal.
  clear -ns. induction ns as [|x ns IH]; simpl; [done|]. by rewrite <- IH.
Qed.

Lemma removelast_two (l : list text) a b : removelast (l ++ [a; b]) = l ++ [a].
Proof. by rewrite removelast_app. Qed.

Lemma slices_at p c s' :
  slice_to (p ++ c :: s') (len p) = p ∧ slice_from (p ++ c :: s') (len p + 1) = s'.
Proof.
  unfold slice_to, slice_from, index. rewrite !(proj2 (Z.ltb_ge _ _)) by (unfold len; lia).
  unfold len. rewrite Nat2Z.id, take_app_length. split; [done|].
  replace (Z.to_nat (Z.of_nat (length p) + 1)) with (length (p ++ [c]))
    by (rewrite length_app; simpl; lia).
  change (c :: s') with ([c] ++ s'). by rewrite app_assoc, drop_app_length.
Qed.

(** One round that cuts at the comma after [p]. *)
Lemma round_cut fuel l p s' c o :
  c ≠ -1 → o ≠ -1 →
  let s := p ++ ","%char :: s' in
  skip_inner (S (length s)) s (find "[" s) (find "]" s) (find "," s) = Some (len p) →
  len p < find "[" s ∨ find "]" s < len p →
  split_loop (S fuel) l s c o =
  split_loop fuel (removelast l ++ [p; s']) s' (len p) (find "[" s).
Proof.
  intros Hc Ho s Hskip Hcut. cbn [split_loop].
  rewrite (proj2 (Z.eqb_neq _ _) Hc), (proj2 (Z.eqb_neq _ _) Ho). cbn [negb andb].
  rewrite Hskip.
  assert ((len p <? find "[" s) || (find "]" s <? len p) = true) as ->
    by (apply orb_true_iff; rewrite !Z.ltb_lt; done).
  rewrite find_start_at; [| unfold len; lia | unfold len, s; rewrite Nat2Z.id; apply lookup_mid].
  destruct (slices_at p "," s') as [H1 H2]. fold s in H1, H2. by rewrite H1, H2.
Qed.

Lemma skip_inner_stop fuel s o b c :
  (0 < fuel)%nat → c <= o ∨ b <= c → skip_inner fuel s o b c = Some c.
Proof.
  intros Hf Hc. destruct fuel as [|f]; [lia|]. cbn [skip_inner].
  assert ((o <? c) && (c <? b) = false) as ->; [|done].
  apply andb_false_iff. rewrite !Z.ltb_ge. lia.
Qed.

Lemma loop_last_name fuel l p c o r :
  item_ok (Plain p) → c ≠ -1 → o ≠ -1 → split_loop fuel l p c o = Some r →
  r = removelast l ++ [p].
Proof.
  intros Hp Hc Ho. destruct fuel as [|f]; [done|]. cbn [split_loop].
  rewrite (proj2 (Z.eqb_neq _ _) Hc), (proj2 (Z.eqb_neq _ _) Ho). cbn [negb andb].
  destruct (name_no_special p Hp) as (H1 & H2 & H3). unfold find.
  rewrite !find_from_absent by done. rewrite skip_inner_stop by lia. simpl.
  rewrite split_absent by done. by intros [= <-].
Qed.

Lemma loop_last_group fuel l n rs c o r :
  item_ok (Group n rs) → c ≠ -1 → o ≠ -1 →
  split_loop fuel l (render (Group n rs)) c o = Some r →
  r = removelast l ++ [n ++ "["%char :: inside rs; render (Group n rs)].
Proof.
  intros Hok Hc Ho. set (body := n ++ "["%char :: inside rs).
  assert (render (Group n rs) = body ++ "]"%char :: []) as ->
    by (unfold body; simpl; by rewrite <- app_assoc).
  destruct fuel as [|f]; [done|]. cbn [split_loop].
  rewrite (proj2 (Z.eqb_neq _ _) Hc), (proj2 (Z.eqb_neq _ _) Ho). cbn [negb andb].
  unfold body. rewrite (group_open n rs [] Hok), (group_close n rs [] Hok).
  rewrite (skip_group_start n rs [] Hok) by by left. fold body.
  cbn [next_comma]. rewrite (proj2 (Z.ltb_lt (-1) (len n))) by (unfold len; lia). cbn [orb].
  assert (index (body ++ ["]"%char]) (-1) = len body) as Hidx.
  { unfold index, len. simpl. rewrite length_app. simpl. lia. }
  assert (find_start "," (-1) (body ++ ["]"%char]) = -1) as ->.
  { unfold find_start. rewrite Hidx. unfold len. by rewrite Nat2Z.id, drop_app_length. }
  assert (slice_to (body ++ ["]"%char]) (-1) = body) as ->.
  { unfold slice_to. rewrite Hidx. unfold len. by rewrite Nat2Z.id, take_app_length. }
  destruct f as [|f]; [done|]. cbn [split_loop]. simpl. by intros [= <-].
Qed.

(** A round on an expression of several items cuts off the first one. *)
Definition cuts_first (i : item) (items : list item) : Prop :=
  let s := render i ++ ","%char :: rendered items in
  skip_inner (S (length s)) s (find "[" s) (find "]" s) (find "," s) = Some (len (render i)) ∧
  (len (render i) < find "[" s ∨ find "]" s < len (render i)) ∧
  (find "[" s = -1 → "["%char ∉ rendered items).

Lemma cuts_first_name p items : item_ok (Plain p) → Forall item_ok items → items ≠ [] →
  cuts_first (Plain p) items.
Proof.
  intros Hp Hok Hne. destruct (name_no_special p Hp) as (H1 & H2 & H3). unfold cuts_first.
  cbn [render]. set (s := p ++ ","%char :: rendered items).
  assert (find "," s = len p) as Hfc by (unfold find, s; by rewrite find_from_app).
  destruct (decide ("["%char ∈ rendered items)) as [Hin|Hno].
  - assert (len p < find "[" s) as Hlt.
    { unfold find, s. apply list_elem_of_split_l in Hin as (pre & post & -> & Hpre).
      change (","%char :: pre ++ "["%char :: post) with ((","%char :: pre) ++ "["%char :: post).
      rewrite app_assoc, find_from_app by (rewrite not_elem_of_app, not_elem_of_cons; done).
      unfold len. rewrite length_app. simpl. lia. }
    rewrite Hfc. split_and!; [apply skip_inner_stop; lia | by left | unfold len in Hlt; lia].
  - destruct (all_names items Hok Hne Hno) as [Hnc _].
    assert (find "]" s = -1) as Hb
      by (apply find_from_absent; unfold s; rewrite not_elem_of_app, not_elem_of_cons; done).
    rewrite Hfc, Hb. unfold len. split_and!; [apply skip_inner_stop; lia | lia | done].
Qed.

Lemma cuts_first_group n rs items : item_ok (Group n rs) → cuts_first (Group n rs) items.
Proof.
  intros Hok. unfold cuts_first.
  assert (render (Group n rs) ++ ","%char :: rendered items =
          (n ++ "["%char :: inside rs) ++ "]"%char :: ","%char :: rendered items) as ->
    by (simpl; fold (inside rs); by rewrite <- !app_assoc; simpl; rewrite <- !app_assoc).
  assert (tail_ok (","%char :: rendered items)) as Ht by (right; by eexists).
  rewrite (group_open n rs _ Hok), (group_close n rs _ Hok), (skip_group_start n rs _ Hok Ht).
  assert (len (render (Group n rs)) = len (n ++ "["%char :: inside rs) + 1) as ->
    by (unfold len; simpl; fold (inside rs); rewrite !length_app; simpl; rewrite length_app; simpl; lia).
  split_and!; [done | lia | unfold len; lia].
Qed.

(** The pieces of a one-item expression. *)
Lemma last_item fuel l i c o r :
  item_ok i → c ≠ -1 → o ≠ -1 → split_loop fuel l (render i) c o = Some r →
  ∃ ps, r = removelast l ++ ps ∧ expands ps (hosts i).
Proof.
  intros Hi Hc Ho Hr. pose proof (render_no_space i Hi) as Hsp. destruct i as [p|n rs].
  - apply loop_last_name in Hr; [|done..]. exists [p]. split; [done|].
    rewrite <- (app_nil_r (hosts (Plain p))). apply expands_cons; [done | | apply expands_nil].
    destruct (name_no_special p Hi) as (? & ? & ?). by rewrite expand_names, split_absent.
  - apply loop_last_group in Hr; [|done..]. eexists. split; [exact Hr|].
    change (hosts (Group n rs)) with ([] ++ hosts (Group n rs)).
    apply expands_cons; [| by apply expand_cut|].
    + revert Hsp. simpl. fold (inside rs). rewrite !Forall_app, !Forall_cons, Forall_app. tauto.
    + rewrite <- (app_nil_r (hosts (Group n rs))).
      apply expands_cons; [done | by apply expand_group | apply expands_nil].
Qed.

Lemma expand_item i : item_ok i → expand_host_list_sub (render i) = Ok (hosts i).
Proof.
  destruct i as [p|n rs]; [|apply expand_group]. intros Hp.
  destruct (name_no_special p Hp) as (? & ? & ?). by rewrite expand_names, split_absent.
Qed.

(** The pieces the loop produces expand to the hosts. *)
Lemma split_loop_items items fuel l c o r :
  Forall item_ok items → items ≠ [] → c ≠ -1 → o ≠ -1 →
  split_loop fuel l (rendered items) c o = Some r →
  ∃ ps, r = removelast l ++ ps ∧ expands ps (flat_map hosts items).
Proof.
  revert fuel l c o r. induction items as [|i items IH]; intros fuel l c o r Hok Hne Hc Ho Hr; [done|].
  apply Forall_cons in Hok as [Hi Hok].
  destruct (decide (items = [])) as [->|Hitems].
  { simpl. rewrite app_nil_r. apply (last_item fuel l i c o r); done. }
  rewrite rendered_cons in Hr by done. cbn [flat_map]. destruct fuel as [|f]; [done|].
  assert (cuts_first i items) as (Hskip & Hcut & Hnone)
    by (destruct i; [by apply cuts_first_name | by apply cuts_first_group]).
  rewrite round_cut in Hr; [|done..].
  pose proof (render_no_space i Hi) as Hsp. pose proof (expand_item i Hi) as Hexp.
  destruct (decide (find "[" (render i ++ ","%char :: rendered items) = -1)) as [E|E].
  - destruct (all_names items Hok Hitems (Hnone E)) as [_ Hnames].
    destruct f as [|f]; [done|]. rewrite E in Hr. cbn [split_loop] in Hr.
    rewrite andb_false_r in Hr. injection Hr as <-.
    exists [render i; rendered items]. split; [done|]. apply expands_cons; [done | done|].
    rewrite <- (app_nil_r (flat_map hosts items)).
    apply expands_cons; [by apply rendered_no_space | done | apply expands_nil].
  - apply IH in Hr as (ps & -> & Hps); [|done|done|unfold len; lia|done].
    exists (render i :: ps). rewrite removelast_two, <- app_assoc. split; [done|].
    by apply expands_cons.
Qed.

(** C24. Host expressions mean what they say: expanding the text of any
    well-formed list of names and groups gives exactly their hosts, in order,
    with the numbers of a group padded to the width they are written with. *)
Theorem expand_host_list_correct (items : list item) :
  items ≠ [] → Forall item_ok items →
  expand_host_list (join "," (map render items)) = Ok (flat_map hosts items).
Proof.
  intros Hne Hok. fold (rendered items). unfold expand_host_list, split_on_commas.
  destruct (split_loop_total (S (S (length (rendered items)))) [] (rendered items) 0 0) as [r Hr];
    [left; lia|].
  rewrite Hr. cbn. apply split_loop_items in Hr as (ps & -> & hss & Hps & Hcat); try done.
  simpl. by rewrite Hps; simpl; rewrite Hcat.
Qed.

Lemma expand_host_list_correct_witness :
  expand_host_list (t "login,node[08-10,7],x") =
  Ok (map t ["login"; "node08"; "node09"; "node10"; "node7"; "x"]%string).
Proof.
  apply (expand_host_list_correct
           [Plain (t "login"); Group (t "node") [Span 2 8 10; Single 1 7]; Plain (t "x")]).
  - done.
  - repeat constructor; vm_compute; done.
Defined.
