(* ===== verification/Cursor.v ===== *)
(** * Iterating over shared collections, and the updater thread
    ([python/infra/defw.py])

    [Suites], [Collection], [YamlResults] and [YamlGlobalTestResults] are their
    own iterators: the place of a loop is an attribute of the collection, which
    all loops over it share.  A loop is here a sequence of steps, one call of
    [__iter__] and then calls of [__next__], so that the loops of several
    threads can be interleaved: the service packages are one such collection,
    and every query request loops over them in a thread of its own. *)

From S2P Require Import Prelude PyDict PyVal.

Local Open Scope string_scope.
Local Open Scope Z_scope.
Local Open Scope list_scope.

Section Cursor.
Context {A : Type}.

(** The entries in the order of their dict, and the shared place; [max] is the
    number of entries. *)
Record collection := Coll { entries : list A; place : nat }.

Definition coll_max (c : collection) : nat := length (entries c).

(** [__iter__] *)
Definition coll_iter (c : collection) : collection := Coll (entries c) 0.

(** [__next__]; none is StopIteration. *)
Definition coll_next (c : collection) : collection * option A :=
  if Nat.ltb (place c) (coll_max c)
  then (Coll (entries c) (S (place c)), entries c !! place c)
  else (c, None).

(** One loop: not begun, running with what it has seen, ended. *)
Inductive loop := Fresh | Running (seen : list A) | Ended (seen : list A).

Definition loop_step (c : collection) (l : loop) : collection * loop :=
  match l with
  | Fresh => (coll_iter c, Running [])
  | Running seen => match coll_next c with
                    | (c', Some x) => (c', Running (seen ++ [x]))
                    | (c', None) => (c', Ended seen)
                    end
  | Ended _ => (c, l)
  end.

(** Several loops over one collection; the schedule says whose step it is. *)
Fixpoint run_loops (schedule : list nat) (c : collection) (ls : list loop) : collection * list loop :=
  match schedule with
  | [] => (c, ls)
  | i :: schedule' =>
      match ls !! i with
      | Some l => let '(c', l') := loop_step c l in run_loops schedule' c' (<[i := l']> ls)
      | None => run_loops schedule' c ls
      end
  end.

(** A loop that is alone sees every entry once, in order, and ends. *)
Lemma loop_alone (c : collection) (n : nat) :
  (coll_max c + 2 ≤ n)%nat → run_loops (replicate n 0%nat) c [Fresh] = (Coll (entries c) (coll_max c), [Ended (entries c)]).
Proof.
  assert (∀ k seen rest c, entries c = seen ++ rest → place c = length seen → (length rest < k)%nat →
            run_loops (replicate k 0%nat) c [Running seen] = (Coll (entries c) (coll_max c), [Ended (entries c)])) as H.
  { intros k. induction k as [|k IH]; intros seen rest c' He Hp Hk; [lia|]. simpl. unfold coll_next, coll_max.
    destruct rest as [|x rest].
    - rewrite He, length_app, Hp. simpl. rewrite (proj2 (Nat.ltb_ge _ _)) by lia. clear IH.
      rewrite app_nil_r. destruct c' as [es p]. simpl in *. subst. rewrite Nat.add_0_r.
      rewrite app_nil_r. clear. induction k; [done | by simpl].
    - rewrite (proj2 (Nat.ltb_lt _ _)) by (rewrite He, length_app; simpl; lia).
      rewrite Hp, He, lookup_app_r, Nat.sub_diag by done. simpl.
      rewrite <- He. rewrite (IH _ rest); [by simpl| | simpl; rewrite length_app; simpl; lia | simpl in Hk; lia].
      simpl. by rewrite He, <- app_assoc. }
  intros Hn. destruct n as [|n]; [lia|]. simpl. rewrite (H n [] (entries c)); [done | done | done|].
  unfold coll_max in Hn. simpl. lia.
Qed.
End Cursor.
Arguments collection : clear implicits.
Arguments loop : clear implicits.

(** Two queries at once over two packages: the one that was interrupted ends
    without having seen the second package; and a second loop that begins
    while the first is at its end makes it begin again. *)
Theorem loops_interfere :
  (run_loops [0; 0; 1; 1; 1; 1; 0]%nat (Coll ["a"; "b"] 0) [Fresh; Fresh]).2 =
    [Ended ["a"]; Ended ["a"; "b"]] ∧
  (run_loops [0; 0; 0; 1; 0; 0; 0]%nat (Coll ["a"; "b"] 0) [Fresh; Fresh]).2 =
    [Ended ["a"; "b"; "a"; "b"]; Running []].
Proof. done. Qed.

(** ** [YamlResults]

    Its [__next__] indexes a [DEFwYaml], which has no such operation. *)
Definition yaml_results_next (c : collection pydict) : collection pydict * res (option (string * pydict)) :=
  match coll_next c with
  | (c', Some _) => (c', Raise (Exc ETypeError "'DEFwYaml' object is not subscriptable"))
  | (c', None) => (c', Ok None)
  end.

(** ** [DEFwYaml]: a value that is a dict, a list or nothing *)

Definition new_defw_yaml (y : val) : res val :=
  match y with
  | VNone | VDict _ | VList _ => Ok y
  | _ => Raise (Exc EDEFwError "This class takes dictionaries or lists only")
  end.

(** [load] into an instance that holds [y] *)
Definition yaml_load (y : val) (loaded : res val) : res val :=
  if truthy y then Raise (Exc EDEFwError "There exists a YAML instance") else loaded.

(** ** The updater thread *)

(** What a look at the queue gives: nothing within a second, or an event. *)
Fixpoint updater_loop (looks : list (option pydict)) : res (list (option pydict)) :=
  match looks with
  | [] => Ok []
  | None :: looks' => updater_loop looks'
  | Some event :: looks' =>
      rbind (vindex event "type") (λ t, if py_eqb t (VStr "shutdown") then Ok looks' else updater_loop looks')
  end.

(** The thread ends at the first shutdown event, and leaves what comes after
    it, as long as the events before it have a type. *)
Theorem updater_stops_at_shutdown before after d :
  Forall (λ l, match l with
               | Some e => ∃ t, dget e "type" = Some t ∧ py_eqb t (VStr "shutdown") = false
               | None => True
               end) before →
  dget d "type" = Some (VStr "shutdown") → updater_loop (before ++ Some d :: after) = Ok after.
Proof.
  intros Hb Hd. induction Hb as [|[e|] before Hx Hb IH]; simpl.
  - unfold vindex. by rewrite Hd.
  - destruct Hx as (t & Ht & He). unfold vindex. rewrite Ht. simpl. by rewrite He.
  - exact IH.
Qed.
