(* ===== verification/Stubs.v ===== *)
(** * The service API stubs ([python/service-apis])

    A client calls a service through a class whose methods are empty: the proxy
    forwards the arguments as they are, and the service's own method binds
    them.  The stub is what a programmer reads, so that it should describe the
    service: a call that is right for the stub must be right for the service
    and mean the same.  A method is here its signature, and binding a call is
    Python's rule for positional and keyword arguments. *)

From S2P Require Import Prelude PyDict.

Local Open Scope string_scope.
Local Open Scope list_scope.

(** The parameters after [self], each with whether it has a default, and
    whether there is a parameter for other keywords *)
Record signature := Sig { sig_params : list (string * bool); sig_kwargs : bool }.

Definition names (s : signature) : list string := map fst (sig_params s).

(** A call: what is given by position, and the keywords with theirs *)
Record call {V : Type} := Call { positional : list V; keywords : list (string * V) }.
Arguments call : clear implicits.
Arguments Call {V}.

(** What parameter number [i] is bound to: its position, its keyword, or its
    default *)
Inductive bound (V : Type) := Given (v : V) | Default | Missing | Twice.
Arguments Given {V} v.
Arguments Default {V}.
Arguments Missing {V}.
Arguments Twice {V}.

Definition bind_param {V} (c : call V) (i : nat) (p : string * bool) : bound V :=
  match positional c !! i, dget (keywords c) p.1 with
  | Some _, Some _ => Twice
  | Some v, None => Given v
  | None, Some v => Given v
  | None, None => if p.2 then Default else Missing
  end.

Definition is_bound {V} (b : bound V) : bool := match b with Given _ | Default => true | _ => false end.

(** Whether Python accepts the call, and the arguments of the parameters *)
Definition accepts {V} (s : signature) (c : call V) : bool :=
  Nat.leb (length (positional c)) (length (sig_params s))
  && forallb is_bound (imap (bind_param c) (sig_params s))
  && (sig_kwargs s || forallb (λ k, bool_decide (k.1 ∈ names s)) (keywords c)).

(** ** The stubs and the services they stand for *)

Local Abbreviation req n := (n, false).
Local Abbreviation opt n := (n, true).
Local Abbreviation args l := (Sig l false).

Definition api_dirsvc : odict string signature :=
  [("register_service", args [req "service_ep"; opt "context"]);
   ("deregister", args [req "agent_ep"]);
   ("resolve_services", Sig [] true);
   ("deregister_service", args [req "service_id"; req "runtime_id"; req "generation"]);
   ("get_service_generation", args [req "service_id"]);
   ("register_event_notification", args [req "endpoint"; req "event_type"; req "class_id"; opt "filters"]);
   ("unregister_event_notification", args [req "registration_id"])].
Definition svc_dirsvc : odict string signature :=
  [("register_service", args [req "service_ep"; opt "context"]);
   ("deregister", args [req "ep"]);
   ("resolve_services", Sig [] true);
   ("deregister_service", args [req "service_id"; req "runtime_id"; req "generation"]);
   ("get_service_generation", args [req "service_id"]);
   ("register_event_notification", args [req "endpoint"; req "event_type"; req "class_id"; opt "filters"]);
   ("unregister_event_notification", args [req "registration_id"]); ("query", args [])].

Definition api_launcher : odict string signature :=
  [("launch", args [req "proc"; opt "path"]); ("kill", args [req "pid"]); ("terminate", args [req "pid"]);
   ("status", args [req "pid"]); ("shutdown", args []); ("test", args [])].
Definition svc_launcher : odict string signature :=
  [("launch", args [req "cmd"; opt "env"; opt "path"; opt "wait"; opt "target"; opt "muse"; opt "modules";
                    opt "python_env"]);
   ("kill", args [req "pid"]); ("terminate", args [req "pid"]); ("status", args [req "pid"]);
   ("shutdown", args [opt "keep"]); ("query", args []); ("test", args [])].

Definition api_events : odict string signature := [("put", args [req "event"])].
Definition svc_events : odict string signature :=
  [("class_id", args []); ("put", args [req "event"]); ("get", args [opt "criteria"; opt "equalto"; opt "recordtime"]);
   ("fileno", args []); ("register_external", args []); ("unregister_external", args [])].

Definition api_test_counter : odict string signature :=
  [("get_instance_id", args []); ("increment", args []); ("get_count", args []); ("shutdown", args [])].
Definition svc_test_counter : odict string signature :=
  [("query", args []); ("get_instance_id", args []); ("increment", args []); ("get_count", args []);
   ("shutdown", args [])].

Definition api_test_echo : odict string signature :=
  [("get_instance_id", args []); ("echo", args [req "value"]); ("raise_error", args []); ("shutdown", args [])].
Definition svc_test_echo : odict string signature :=
  [("query", args []); ("get_instance_id", args []); ("echo", args [req "value"]); ("raise_error", args []);
   ("shutdown", args [])].

(** Every stub beside its service *)
Definition stubs : list (odict string signature * odict string signature) :=
  [(api_dirsvc, svc_dirsvc); (api_launcher, svc_launcher); (api_events, svc_events);
   (api_test_counter, svc_test_counter); (api_test_echo, svc_test_echo)].

(** ** Conformance *)

(** The parameters of [s] are the first ones of [t], no default is lost, and
    what [t] adds has defaults. *)
Fixpoint conforms_params (s t : list (string * bool)) : bool :=
  match s, t with
  | [], _ => forallb snd t
  | p :: s', q :: t' => String.eqb p.1 q.1 && implb p.2 q.2 && conforms_params s' t'
  | _ :: _, [] => false
  end.
Definition conforms (s t : signature) : bool :=
  conforms_params (sig_params s) (sig_params t) && implb (sig_kwargs s) (sig_kwargs t).

Section Conformance.
Context {V : Type}.
Implicit Types (c : call V).

Lemma conforms_lookup s t i p :
  conforms_params s t = true → s !! i = Some p → ∃ q, t !! i = Some q ∧ p.1 = q.1 ∧ implb p.2 q.2 = true.
Proof.
  revert t i. induction s as [|p' s IH]; intros t i; [done|]. destruct t as [|q' t]; [done|]. simpl.
  intros H. split_hyps. destruct i as [|i]; simpl; [|by apply IH].
  intros [= <-]. exists q'. split_and!; [done | by apply String.eqb_eq | done].
Qed.

Lemma conforms_extra s t i q :
  conforms_params s t = true → s !! i = None → t !! i = Some q → q.2 = true.
Proof.
  revert t i. induction s as [|p' s IH]; intros t i; simpl.
  - rewrite forallb_forall. intros H _ Hq. apply H, list_elem_of_In. by eapply list_elem_of_lookup_2.
  - destruct t as [|q' t]; [done|]. intros H. split_hyps. destruct i as [|i]; [done|]. simpl. by apply IH.
Qed.

Lemma conforms_longer s t : conforms_params s t = true → (length s ≤ length t)%nat.
Proof.
  revert t. induction s as [|p s IH]; intros [|q t]; simpl; [lia | lia | done|]. intros H. split_hyps.
  by apply le_n_S, IH.
Qed.

Lemma accepted_param s c i p : accepts s c = true → sig_params s !! i = Some p → is_bound (bind_param c i p) = true.
Proof.
  unfold accepts. intros H Hi. split_hyps. rewrite forallb_forall in *.
  match goal with H : ∀ x, In x (imap _ _) → _ |- _ => apply H end. apply list_elem_of_In.
  apply (list_elem_of_lookup_2 _ i). by rewrite list_lookup_imap, Hi.
Qed.

(** A call the stub accepts is accepted by the method it conforms to, and its
    parameters get the same arguments there. *)
Lemma conforming_call s t c :
  conforms s t = true → accepts s c = true →
  accepts t c = true ∧
  ∀ i p, sig_params s !! i = Some p →
    ∃ q, sig_params t !! i = Some q ∧ q.1 = p.1 ∧ bind_param c i q = bind_param c i p.
Proof.
  unfold conforms. intros [Hp Hk]%andb_true_iff Ha.
  assert (∀ i p, sig_params s !! i = Some p →
    ∃ q, sig_params t !! i = Some q ∧ q.1 = p.1 ∧ bind_param c i q = bind_param c i p) as Hsame.
  { intros i p Hi. destruct (conforms_lookup _ _ _ _ Hp Hi) as (q & Hq & Hn & Hd). exists q. split_and!; [done..|].
    pose proof (accepted_param s c i p Ha Hi) as Hb. unfold bind_param in *. rewrite <- Hn.
    destruct (positional c !! i), (dget (keywords c) p.1); try done. destruct p as [? []]; [|done]. by destruct q as [? []]. }
  split; [|exact Hsame]. pose proof (conforms_longer _ _ Hp) as Hlen. pose proof Ha as Ha'.
  unfold accepts in Ha' |- *. split_hyps. rewrite !andb_true_iff. split_and!.
  - apply Nat.leb_le. match goal with H : Nat.leb _ _ = true |- _ => apply Nat.leb_le in H end. lia.
  - apply forallb_forall. intros b (i & Hb)%list_elem_of_In%list_elem_of_lookup_1. rewrite list_lookup_imap in Hb.
    destruct (sig_params t !! i) as [q|] eqn:Hq; [|done]. injection Hb as <-.
    destruct (sig_params s !! i) as [p|] eqn:Hi.
    + destruct (Hsame i p Hi) as (q' & Hq' & _ & Hbind). simplify_eq. rewrite Hbind. by eapply accepted_param.
    + pose proof (conforms_extra _ _ _ _ Hp Hi Hq) as Hd. unfold bind_param. rewrite Hd.
      assert (positional c !! i = None) as ->.
      { apply lookup_ge_None_2. apply lookup_ge_None_1 in Hi.
        match goal with H : Nat.leb _ _ = true |- _ => apply Nat.leb_le in H end. lia. }
      by destruct (dget (keywords c) q.1).
  - match goal with H : _ || _ = true |- _ => apply orb_true_iff in H as [Hkw|Hkw] end.
    { rewrite Hkw in Hk. simpl in Hk. by rewrite Hk. }
    apply orb_true_iff. right. rewrite forallb_forall in *. intros k Hkin. specialize (Hkw k Hkin).
    apply bool_decide_eq_true in Hkw. apply bool_decide_eq_true. unfold names in *.
    apply list_map_In in Hkw as (p & (i & Hi)%list_elem_of_lookup_1 & ->).
    destruct (Hsame i p Hi) as (q & Hq & <- & _). apply list_map_In. exists q. split; [|done].
    by eapply list_elem_of_lookup_2.
Qed.
End Conformance.

(** The two methods whose stubs differ from the services *)
Definition diverging : list string := ["launch"; "deregister"].

Definition check_stub (p : odict string signature * odict string signature) : bool :=
  forallb (λ ms, bool_decide (ms.1 ∈ diverging) ||
             match dget p.2 ms.1 with Some t => conforms ms.2 t | None => false end) p.1.

(** Every method a stub offers exists in the service, and, but for two of
    them, every call that is right for the stub is right for the service and
    gives its parameters the same arguments. *)
Theorem stubs_describe_services {V} api svc m s (c : call V) :
  (api, svc) ∈ stubs → (m, s) ∈ api → m ∉ diverging → accepts s c = true →
  ∃ t, dget svc m = Some t ∧ accepts t c = true ∧
    ∀ i p, sig_params s !! i = Some p →
      ∃ q, sig_params t !! i = Some q ∧ q.1 = p.1 ∧ bind_param c i q = bind_param c i p.
Proof.
  intros Hst Hm Hd Ha. assert (forallb check_stub stubs = true) as H by reflexivity.
  rewrite forallb_forall in H. specialize (H _ (proj1 (list_elem_of_In _ _) Hst)). unfold check_stub in H.
  rewrite forallb_forall in H. specialize (H _ (proj1 (list_elem_of_In _ _) Hm)). simpl in H.
  rewrite bool_decide_false in H by done. simpl in H. destruct (dget svc m) as [t|]; [|done].
  exists t. split; [done|]. by apply conforming_call.
Qed.

(** The path a client gives to [launch], by position as the stub has it, is
    taken for the environment. *)
Theorem launch_takes_path_for_env {V} (cmd path : V) s t :
  dget api_launcher "launch" = Some s → dget svc_launcher "launch" = Some t →
  accepts s (Call [cmd; path] []) = true ∧ accepts t (Call [cmd; path] []) = true ∧
  names s !! 1%nat = Some "path" ∧ names t !! 1%nat = Some "env".
Proof. by intros [= <-] [= <-]. Qed.
