(* ===== verification/Swig.v ===== *)
(** * The builder of SWIG extensions
    ([cmake/scripts/defw_external_swig.py])

    The script reads a YAML list of C libraries and for each one writes a SWIG
    interface file, runs SWIG on it and compiles the wrapper.  An entry is the
    YAML value as it was loaded; the script's work is the state [build]: the
    directories made, the files written, the commands run and the lines
    printed.  The file system, the compiler, pkg-config, YAML and Python's own
    configuration are arguments. *)

From S2P Require Import Prelude PyDict PyVal Glob Exceptions.
From Stdlib Require Import Ascii.

Local Open Scope string_scope.
Local Open Scope Z_scope.
Local Open Scope list_scope.
Import PyNotations.
Local Open Scope py_scope.

Definition SWIG_FLAGS : list string :=
  ["-threads"; "-python"; "-includeall"; "-D__x86_64__"; "-D__arch_lib__"; "-D_LARGEFILE64_SOURCE=1"].

Definition nl : string := String newline EmptyString.
Definition dq : string := String dquote EmptyString.
Definition in_quotes (s : string) : string := dq +:+ s +:+ dq.

(** ** Paths *)

(** [str(Path(s))]: no empty or single-dot components, and the root kept. *)
Definition components (s : string) : list string :=
  List.filter (λ c, negb (String.eqb c "") && negb (String.eqb c ".")) (split_on "/" "" s).
Definition path_root (s : string) : string :=
  if String.prefix "//" s && negb (String.prefix "///" s) then "//"
  else if String.prefix "/" s then "/" else "".
Definition pure_path (s : string) : string :=
  let p := path_root s +:+ String.concat "/" (components s) in
  if String.eqb p "" then "." else p.

(** [Path(v)] *)
Definition Path (v : val) : res string :=
  match v with
  | VStr s => Ok (pure_path s)
  | _ => Raise (Exc ETypeError "argument should be a str or an os.PathLike object")
  end.

(** [p / q] *)
Definition path_div (p q : string) : string := pure_path (path_join p q).

Definition is_absolute (p : string) : bool := String.prefix "/" p.

(** [Path(s).stem]: the last component without its last suffix *)
Definition path_name (s : string) : string := List.last (components s) "".
Definition path_stem (s : string) : string :=
  let parts := split_on "." "" (path_name s) in
  match rev parts with
  | ext :: (_ :: _) as init =>
      if String.eqb ext "" || String.eqb (String.concat "." (rev init)) "" then path_name s
      else String.concat "." (rev init)
  | _ => path_name s
  end.

(** ** Texts *)

Definition ends_nl (s : string) : bool :=
  match rev (String.list_ascii_of_string s) with c :: _ => Ascii.eqb c newline | [] => false end.

(** [shlex.quote] *)
Definition safe_char (c : ascii) : bool :=
  let n := nat_of_ascii c in
  (Nat.leb 48 n && Nat.leb n 57) || (Nat.leb 65 n && Nat.leb n 90) || (Nat.leb 97 n && Nat.leb n 122)
  || existsb (Ascii.eqb c) ["_"; "@"; "%"; "+"; "="; ":"; ","; "."; "/"; "-"]%char.
Definition squote : ascii := ascii_of_nat 39.
Definition quote_body (c : ascii) : list ascii :=
  if Ascii.eqb c squote then [squote; dquote; squote; dquote; squote] else [c].
Definition shlex_quote (s : string) : string :=
  let l := String.list_ascii_of_string s in
  match l with
  | [] => String.string_of_list_ascii [squote; squote]
  | _ => if forallb safe_char l then s
         else String.string_of_list_ascii ([squote] ++ flat_map quote_body l ++ [squote])
  end.

(** ** The script *)

Record build := Build {
  made : list string;
  written : odict string string;
  ran : list (list string);
  printed : list string
}.

Record arguments := Args {
  config : string; binary_dir : string; source_dir : string; swig : string; cc : string
}.

Section Swig.
(** The file system *)
Context (path_exists : string → bool) (read_file : val → res string) (dir_names : string → list string).
Context (mkdir : string → res unit) (open_w : string → res unit) (load_yaml : string → res val).
(** The tools: what the compiler prints about its search path, pkg-config's
    exit code, output and errors, and whether a command succeeds. *)
Context (cc_stderr : string → res string) (pkg_config : val → res (Z * string * string)).
Context (execute : list string → res unit).
(** [sysconfig] *)
Context (LIBDIR LDLIBRARY INCLUDEPY : option string).

Definition run (cmd : list string) : M build unit :=
  modify (λ b, Build (made b) (written b) (ran b) (printed b ++ [String.concat " " (map shlex_quote cmd)])) ;;;
  modify (λ b, Build (made b) (written b) (ran b ++ [cmd]) (printed b)) ;;;
  lift_res (execute cmd).

(** The loop over the compiler's lines *)
Fixpoint include_lines (collect : bool) (lines : list string) : list string :=
  match lines with
  | [] => []
  | line :: lines' =>
      if str_contains "#include <...> search starts here:" line then include_lines true lines'
      else if str_contains "End of search list." line then []
      else
        let path := strip line in
        if collect && negb (String.eqb path "") && path_exists (pure_path path)
        then path :: include_lines collect lines' else include_lines collect lines'
  end.

Definition compiler_include_dirs (cc : string) : res (list string) :=
  let? err := cc_stderr cc in Ok (include_lines false (map String.string_of_list_ascii (splitlines err))).

(** [v[k]] with a text key *)
Definition subscript (v : val) (k : string) : res val :=
  match v with
  | VDict d => vindex d k
  | _ => Raise (Exc ETypeError "object is not subscriptable with a string")
  end.

Definition load_entries (config : string) : res (list val) :=
  let? data := load_yaml config in
  match data with
  | VDict _ =>
      match (let? d := subscript data "defw" in subscript d "swigify") with
      | Ok (VList entries) => Ok entries
      | Ok _ => Raise (Exc EValueError (config +:+ " defw.swigify must be a list"))
      | Raise e => if bool_decide (exc_type e = EKeyError)
                   then Raise (Exc EValueError (config +:+ " is missing defw.swigify")) else Raise e
      end
  | _ => Raise (Exc EValueError (config +:+ " does not contain a YAML mapping"))
  end.

Definition entry_file (root : string) (file_name : val) : res string :=
  let? file_path := Path file_name in
  Ok (if negb (is_absolute file_path) then path_div root file_path else file_path).

Definition entry_files (entry : val) : res (list string) :=
  let? p := subscript entry "path" in
  let? root := Path p in
  let? has_files := py_contains (VStr "files") entry in
  if has_files : bool then
    let? fs := subscript entry "files" in
    let? names := py_iter fs in
    rmapM (entry_file root) names
  else Ok (sorted (map (path_div root) (List.filter (λ n, fnmatch n "*.h") (dir_names root)))).

Definition read_text_files (paths : val) : res (list string) :=
  let? ps := py_iter paths in rmapM read_file ps.

(** [entry.get(key, default)] *)
Definition entry_get (entry : val) (key : string) (dflt : val) : res val :=
  let? d := as_dict entry in Ok (vget_or d key dflt).

Definition list_paths (entry : val) (key : string) : res (list string) :=
  let? v := entry_get entry key (VList []) in
  let? l := py_iter v in
  rmapM Path l.

Definition pkg_config_paths (entry : val) : res (list string * list string) :=
  let? flag := entry_get entry "pkg_config" (VBool true) in
  match flag with
  | VBool false => Ok ([], [])
  | _ =>
      let? incs := entry_get entry "include_dirs" VNone in
      let? libs := (if truthy incs then Ok incs else entry_get entry "library_dirs" VNone) in
      if truthy libs then Ok ([], [])
      else
        let? name := subscript entry "name" in
        let? (rc, stdout, stderr) := pkg_config name in
        if negb (rc =? 0) then
          let msg := if String.eqb (strip stderr) "" then strip stdout else strip stderr in
          Raise (Exc ERuntimeError ("pkg-config could not find " +:+ py_fmt name +:+
                   "; add include_dirs and library_dirs to the SWIG config. " +:+ msg))
        else
          let prefix := pure_path (strip stdout) in
          Ok ([path_div prefix "include"], [path_div prefix "lib"])
  end.

(** ["c" + entry["name"]] *)
Definition module_name (entry : val) : res string :=
  let? name := subscript entry "name" in
  match name with
  | VStr s => Ok ("c" +:+ s)
  | _ => Raise (Exc ETypeError "can only concatenate str (not other types) to str")
  end.

(** [intf.write(text)] *)
Definition intf_write (path text : string) : M build unit :=
  modify (λ b, Build (made b) (dset (written b) path (dget_or (written b) path "" +:+ text)) (ran b) (printed b)).

Definition write_chunk (path chunk : string) : M build unit :=
  intf_write path chunk ;;;
  if negb (ends_nl chunk) then intf_write path nl else ret tt.

Definition TYPEDEFS : list string :=
  ["typedef long long ssize_t;"; "typedef unsigned long long uint64_t;"; "typedef unsigned int uint32_t;";
   "typedef unsigned short uint16_t;"; "typedef unsigned char uint8_t;"].

Definition HEADER (module : string) : list string :=
  ["%module " +:+ module; "%include " +:+ in_quotes "cwstring.i";
   "%rename(" +:+ in_quotes "%(strip:[__])s" +:+ ", regexmatch$name=" +:+ in_quotes "__.*" +:+ ") " +:+ in_quotes ""
     +:+ ";"; "%{"].

Definition write_interface (entry : val) (files : list string) (output_dir : string) : M build string :=
  let! module := lift_res (module_name entry) in
  let path := path_div output_dir (module +:+ ".i") in
  let! ignore := lift_res (entry_get entry "ignore" (VList [])) in
  let! addendums := lift_res (let? v := entry_get entry "addendums" (VList []) in read_text_files v) in
  let! typemaps := lift_res (let? v := entry_get entry "typemaps" (VList []) in read_text_files v) in
  lift_res (open_w path) ;;;
  modify (λ b, Build (made b) (dset (written b) path "") (ran b) (printed b)) ;;;
  for_each (λ l, intf_write path (l +:+ nl)) (HEADER module) ;;;
  for_each (write_chunk path) addendums ;;;
  for_each (λ h, intf_write path ("#include " +:+ in_quotes h +:+ nl)) files ;;;
  intf_write path ("%}" +:+ nl) ;;;
  for_each (write_chunk path) typemaps ;;;
  for_each (λ l, intf_write path (l +:+ nl)) TYPEDEFS ;;;
  let! symbols := lift_res (py_iter ignore) in
  for_each (λ s, intf_write path ("%ignore " +:+ py_fmt s +:+ ";" +:+ nl)) symbols ;;;
  for_each (λ h, intf_write path ("%include " +:+ in_quotes h +:+ nl)) files ;;;
  ret path.

Definition library_dir_flags (v : val) : res (list string) :=
  let? d := Path v in
  Ok (("-L" +:+ d) :: map (λ origin, "-Wl,-rpath," +:+ origin) ["$ORIGIN"; d]).

Definition lib_flag (v : val) : res string :=
  match v with
  | VStr s => Ok ("-l" +:+ s)
  | _ => Raise (Exc ETypeError "can only concatenate str (not other types) to str")
  end.

Definition library_flags (entry : val) : res (list string) :=
  let? dirs := entry_get entry "library_dirs" (VList []) in
  let? dirs := py_iter dirs in
  let? dflags := rmapM library_dir_flags dirs in
  let? libs := entry_get entry "libs" (VList []) in
  let? libs := py_iter libs in
  let? lflags := rmapM lib_flag libs in
  Ok (concat dflags ++ lflags).

Definition nonempty (v : option string) : bool :=
  match v with Some s => negb (String.eqb s "") | None => false end.

Definition python_library_flags : list string :=
  (if nonempty LIBDIR then ["-L" +:+ default "" LIBDIR] else []) ++
  (if nonempty LDLIBRARY && String.prefix "lib" (default "" LDLIBRARY)
   then ["-l" +:+ (let s := path_stem (default "" LDLIBRARY) in String.substring 3 (String.length s - 3) s)]
   else []).

Definition swig_cmd (args : arguments) (include_dirs system_includes : list string)
    (output_dir wrapper_c interface_path : string) : list string :=
  [swig args] ++ SWIG_FLAGS ++ map (String.append "-I") include_dirs ++ map (String.append "-I") system_includes
  ++ ["-outdir"; output_dir; "-o"; wrapper_c; interface_path].

Definition cc_cmd (args : arguments) (include_dirs : list string) (wrapper_c extension : string)
    (lflags : list string) : list string :=
  [cc args; "-g"; "-Wall"; "-fPIC"; "-shared"] ++ map (String.append "-I") include_dirs
  ++ (if nonempty INCLUDEPY then ["-I" +:+ default "" INCLUDEPY] else [])
  ++ [wrapper_c; "-o"; extension] ++ lflags ++ python_library_flags.

Definition build_entry (args : arguments) (entry : val) (system_includes : list string) : M build unit :=
  let output_dir := pure_path (binary_dir args) in
  let source_dir := pure_path (source_dir args) in
  lift_res (mkdir output_dir) ;;;
  modify (λ b, Build (made b ++ [output_dir]) (written b) (ran b) (printed b)) ;;;
  let! files := lift_res (entry_files entry) in
  if bool_decide (files = [])
  then throw EValueError ("no headers found for external SWIG entry " +:+ py_fmt entry)
  else
    let! (pkg_includes, pkg_libs) := lift_res (pkg_config_paths entry) in
    let! incs := lift_res (list_paths entry "include_dirs") in
    let include_dirs :=
      [path_div source_dir "src"; path_div (path_div source_dir "swig") "typemaps"] ++ incs ++ pkg_includes in
    let! libs := lift_res (list_paths entry "library_dirs") in
    let library_dirs := libs ++ pkg_libs in
    let! entry := lift_res (if bool_decide (pkg_libs = []) then Ok entry
                            else let? d := py_dict entry in
                                 Ok (VDict (dset d "library_dirs" (VList (map VStr library_dirs))))) in
    let! interface_path := write_interface entry files output_dir in
    let! module := lift_res (module_name entry) in
    let wrapper_c := path_div output_dir (module +:+ "_wrap.c") in
    run (swig_cmd args include_dirs system_includes output_dir wrapper_c interface_path) ;;;
    let extension := path_div output_dir ("_" +:+ module +:+ ".so") in
    let! lflags := lift_res (library_flags entry) in
    run (cc_cmd args include_dirs wrapper_c extension lflags).

Definition main (args : arguments) : M build unit :=
  let! system_includes := lift_res (compiler_include_dirs (cc args)) in
  let! entries := lift_res (load_entries (config args)) in
  for_each (λ entry, build_entry args entry system_includes) entries.

(** The script: its exit code and what it prints when it fails *)
Definition script (args : arguments) (b : build) : build * Z * list string :=
  match main args b with
  | (b', Ok _) => (b', 0, [])
  | (b', Raise e) => (b', 1, ["external SWIG generation failed: " +:+ exc_msg e])
  end.
End Swig.
