(* ===== verification/SwigFacts.v ===== *)
(** * Properties of the builder of SWIG extensions

    Well-typed configurations never fail for a reason of types, and an entry
    that is built gets exactly its interface file and its two commands. *)

From S2P Require Import Prelude PyDict PyVal Glob Swig.

Local Open Scope string_scope.
Local Open Scope Z_scope.
Local Open Scope list_scope.
Import PyNotations.
Local Open Scope py_scope.

(** ** Types of a configuration *)

Definition is_str (v : val) : bool := match v with VStr _ => true | _ => false end.
Definition is_str_list (v : val) : bool := match v with VList l => forallb is_str l | _ => false end.
Definition is_list (v : val) : bool := match v with VList _ => true | _ => false end.

(** A field that may be missing *)
Definition optional (ty : val → bool) (d : pydict) (k : string) : bool :=
  match dget d k with Some v => ty v | None => true end.
Definition required (ty : val → bool) (d : pydict) (k : string) : bool :=
  match dget d k with Some v => ty v | None => false end.

Definition entry_typed (v : val) : bool :=
  match v with
  | VDict d =>
      required is_str d "name" && required is_str d "path" && optional is_list d "ignore"
      && forallb (optional is_str_list d)
           ["files"; "include_dirs"; "library_dirs"; "libs"; "addendums"; "typemaps"]
  | _ => false
  end.

Definition config_typed (v : val) : bool :=
  match v with
  | VDict d =>
      required (λ w, match w with
                     | VDict e => required (λ l, match l with VList es => forallb entry_typed es | _ => false end) e
                                    "swigify"
                     | _ => false
                     end) d "defw"
  | _ => false
  end.

(** The errors of an operation on a value of the wrong type *)
Definition type_error (e : pyexc) : bool :=
  bool_decide (exc_type e ∈ [ETypeError; EKeyError; EAttributeError; EIndexError]).

(** A result, or a computation, that is no such error *)
Definition typed_res {A} (r : res A) : Prop := ∀ e, r = Raise e → type_error e = false.
Definition typed_m {S A} (m : M S A) : Prop := ∀ s, typed_res (m s).2.

Create HintDb typed discriminated.

Lemma typed_ok {A} (a : A) : typed_res (Ok a).
Proof. by intros e. Qed.
Lemma typed_raise {A} e : type_error e = false → typed_res (Raise (A := A) e).
Proof. by intros H e' [= <-]. Qed.
Lemma typed_rbind {A B} (r : res A) (k : A → res B) :
  typed_res r → (∀ a, r = Ok a → typed_res (k a)) → typed_res (rbind r k).
Proof. intros Hr Hk. destruct r as [a|e]; simpl; [by apply Hk|]. intros e' [= <-]. by apply Hr. Qed.
Lemma typed_rmapM {A B} (f : A → res B) l : (∀ x, x ∈ l → typed_res (f x)) → typed_res (rmapM f l).
Proof.
  induction l as [|x l IH]; intros Hf; simpl; [apply typed_ok|].
  apply typed_rbind; [apply Hf; by left|]. intros y _.
  apply typed_rbind; [apply IH; intros z Hz; apply Hf; by right | intros ys _; apply typed_ok].
Qed.
Lemma typed_lift {S A} (r : res A) : typed_res r → typed_m (lift_res (S := S) r).
Proof. intros Hr s. apply Hr. Qed.
Lemma typed_ret {S A} (a : A) : typed_m (ret (S := S) a).
Proof. intros s. apply typed_ok. Qed.
Lemma typed_modify {S} (f : S → S) : typed_m (modify f).
Proof. intros s. apply typed_ok. Qed.
Lemma typed_bind {S A B} (m : M S A) (k : A → M S B) :
  typed_m m → (∀ a s, (m s).2 = Ok a → typed_m (k a)) → typed_m (bind m k).
Proof.
  intros Hm Hk s. unfold bind. specialize (Hm s). destruct (m s) as [s' [a|e]] eqn:E.
  - apply (Hk a s). by rewrite E.
  - intros e' [= <-]. by apply Hm.
Qed.
Lemma typed_for {S A} (f : A → M S unit) l : (∀ x, typed_m (f x)) → typed_m (for_each f l).
Proof. intros Hf. induction l as [|x l IH]; simpl; [apply typed_ret | by apply typed_bind]. Qed.

#[export] Hint Resolve typed_ok typed_lift typed_ret typed_modify : typed.

Lemma str_list_cases v : is_str_list v = true → ∃ l, v = VList (map VStr l).
Proof.
  destruct v as [| | | |l| |]; try done. simpl. intros H. exists (map (λ v, match v with VStr s => s | _ => "" end) l).
  f_equal. induction l as [|[] l IH]; try done. simpl in *. f_equal. by apply IH.
Qed.

Lemma optional_list d k :
  optional is_str_list d k = true → ∃ l, vget_or d k (VList []) = VList (map VStr l).
Proof. intros H. apply str_list_cases. unfold optional, vget_or in *. by destruct (dget d k). Qed.

Section SwigFacts.
Context (path_exists : string → bool) (read_file : val → res string) (dir_names : string → list string).
Context (mkdir : string → res unit) (open_w : string → res unit) (load_yaml : string → res val).
Context (cc_stderr : string → res string) (pkg_config : val → res (Z * string * string)).
Context (execute : list string → res unit).
Context (LIBDIR LDLIBRARY INCLUDEPY : option string).

Local Abbreviation main :=
  (main path_exists read_file dir_names mkdir open_w load_yaml cc_stderr pkg_config execute LIBDIR LDLIBRARY INCLUDEPY).
Local Abbreviation build_entry :=
  (build_entry read_file dir_names mkdir open_w pkg_config execute LIBDIR LDLIBRARY INCLUDEPY).

(** The file system and the tools fail for reasons of their own. *)
Definition tools_typed : Prop :=
  (∀ p, typed_res (read_file (VStr p))) ∧ (∀ p, typed_res (mkdir p)) ∧ (∀ p, typed_res (open_w p)) ∧
  (∀ p, typed_res (load_yaml p)) ∧ (∀ c, typed_res (cc_stderr c)) ∧ (∀ n, typed_res (pkg_config (VStr n))) ∧
  (∀ c, typed_res (execute c)).

Lemma typed_paths l : typed_res (rmapM Path (map VStr l)).
Proof. apply typed_rmapM. intros v (s & _ & ->)%list_map_In. apply typed_ok. Qed.

Lemma typed_list_paths d k : optional is_str_list d k = true → typed_res (list_paths (VDict d) k).
Proof.
  intros H. unfold list_paths. simpl. destruct (optional_list d k) as [l ->]; [done|].
  apply typed_paths.
Qed.

Lemma typed_texts d k :
  (∀ p, typed_res (read_file (VStr p))) → optional is_str_list d k = true →
  typed_res (let? v := entry_get (VDict d) k (VList []) in read_text_files read_file v).
Proof.
  intros Hr H. simpl. destruct (optional_list d k) as [l ->]; [done|].
  unfold read_text_files. simpl. apply typed_rmapM. intros v (s & _ & ->)%list_map_In. apply Hr.
Qed.

(** The fields of a well-typed entry *)
Lemma entry_fields v :
  entry_typed v = true →
  ∃ d name path, v = VDict d ∧ dget d "name" = Some (VStr name) ∧ dget d "path" = Some (VStr path) ∧
    optional is_list d "ignore" = true ∧ optional is_str_list d "files" = true ∧
    optional is_str_list d "include_dirs" = true ∧ optional is_str_list d "library_dirs" = true ∧
    optional is_str_list d "libs" = true ∧ optional is_str_list d "addendums" = true ∧
    optional is_str_list d "typemaps" = true.
Proof.
  destruct v as [| | | | |d|]; try done. unfold entry_typed, required. cbn [forallb]. intros H. split_hyps.
  destruct (dget d "name") as [[]|] eqn:En; try done. destruct (dget d "path") as [[]|] eqn:Ep; try done.
  eexists _, _, _. split_and!; done.
Qed.

Lemma typed_entry_files v : entry_typed v = true → typed_res (entry_files dir_names v).
Proof.
  intros (d & name & path & -> & Hn & Hp & _ & Hf & _)%entry_fields.
  unfold entry_files, subscript, vindex. rewrite Hp. simpl. unfold dmem, optional in *.
  destruct (dget d "files") as [fs|]; [|apply typed_ok]. apply str_list_cases in Hf as [l ->]. simpl.
  apply typed_rmapM. intros x (s & _ & ->)%list_map_In. apply typed_ok.
Qed.

Lemma typed_pkg_config v :
  (∀ n, typed_res (pkg_config (VStr n))) → entry_typed v = true → typed_res (pkg_config_paths pkg_config v).
Proof.
  intros Hpkg (d & name & path & -> & Hn & _)%entry_fields. unfold pkg_config_paths. simpl.
  assert (typed_res (let? libs := (if truthy (vget_or d "include_dirs" VNone) then Ok (vget_or d "include_dirs" VNone)
                                   else Ok (vget_or d "library_dirs" VNone)) in
    if truthy libs then Ok ([], [])
    else let? name := vindex d "name" in
         let? (rc, stdout, stderr) := pkg_config name in
         if negb (rc =? 0) then
           Raise (Exc ERuntimeError ("pkg-config could not find " +:+ py_fmt name +:+
                   "; add include_dirs and library_dirs to the SWIG config. " +:+
                   (if String.eqb (strip stderr) "" then strip stdout else strip stderr)))
         else Ok ([path_div (pure_path (strip stdout)) "include"], [path_div (pure_path (strip stdout)) "lib"])))
    as H.
  { apply typed_rbind; [by destruct (truthy _); apply typed_ok|]. intros libs _.
    destruct (truthy libs); [apply typed_ok|]. unfold vindex. rewrite Hn. simpl.
    apply typed_rbind; [apply Hpkg|]. intros [[rc out] err] _. destruct (negb _); [by apply typed_raise | apply typed_ok]. }
  destruct (vget_or d "pkg_config" (VBool true)) as [|[]| | | | |]; first [apply typed_ok | exact H].
Qed.

Lemma typed_library_flags d :
  optional is_str_list d "library_dirs" = true → optional is_str_list d "libs" = true →
  typed_res (library_flags (VDict d)).
Proof.
  intros H1 H2. unfold library_flags. simpl.
  destruct (optional_list d "library_dirs") as [l1 ->]; [done|].
  destruct (optional_list d "libs") as [l2 ->]; [done|]. simpl.
  apply typed_rbind; [|intros fs _; apply typed_rbind; [|intros; apply typed_ok]];
    apply typed_rmapM; intros x (s & _ & ->)%list_map_In; apply typed_ok.
Qed.

Lemma typed_write_interface d name files dir :
  (∀ p, typed_res (read_file (VStr p))) → (∀ p, typed_res (open_w p)) → dget d "name" = Some (VStr name) →
  optional is_list d "ignore" = true → optional is_str_list d "addendums" = true →
  optional is_str_list d "typemaps" = true → typed_m (write_interface read_file open_w (VDict d) files dir).
Proof.
  intros Hr Ho Hn Hi Ha Ht.
  assert (∀ p t, typed_m (intf_write p t)) as Hw by (intros; apply typed_modify).
  assert (∀ p c, typed_m (write_chunk p c)) as Hc.
  { intros p c. apply typed_bind; [apply Hw|]. intros. destruct (negb _); [apply Hw | apply typed_ret]. }
  assert (typed_res (py_iter (vget_or d "ignore" (VList [])))) as Hig.
  { unfold optional, vget_or in *. destruct (dget d "ignore") as [[]|]; done. }
  unfold write_interface, module_name, subscript, vindex. rewrite Hn.
  apply typed_bind; [apply typed_lift, typed_ok|]. intros module _ _.
  apply typed_bind; [apply typed_lift, typed_ok|]. intros ignore s' Hs'. simpl in Hs'. injection Hs' as <-.
  apply typed_bind; [by apply typed_lift, typed_texts|]. intros adds _ _.
  apply typed_bind; [by apply typed_lift, typed_texts|]. intros tms _ _.
  apply typed_bind; [apply typed_lift, Ho|]. intros _ _ _.
  repeat (apply typed_bind; [first [apply typed_modify | apply Hw | apply typed_for; intros; first [apply Hw | apply Hc]
                                    | by apply typed_lift]|intros _ _ _]).
  apply typed_bind; [by apply typed_lift|]. intros syms _ _.
  repeat (apply typed_bind; [apply typed_for; intros; apply Hw|intros _ _ _]). apply typed_ret.
Qed.

Lemma typed_run cmd : (∀ c, typed_res (execute c)) → typed_m (run execute cmd).
Proof. intros He. repeat (apply typed_bind; [apply typed_modify | intros _ _ _]). apply typed_lift, He. Qed.

Lemma typed_build_entry args v sys : tools_typed → entry_typed v = true → typed_m (build_entry args v sys).
Proof.
  intros (Hr & Hmk & Hop & _ & _ & Hpkg & Hex) Hv. pose proof Hv as Hv'.
  apply entry_fields in Hv' as (d & name & path & -> & Hn & Hp & Hi & Hf & Hinc & Hlib & Hls & Ha & Ht).
  unfold Swig.build_entry. apply typed_bind; [apply typed_lift, Hmk|]. intros _ _ _.
  apply typed_bind; [apply typed_modify|]. intros _ _ _.
  apply typed_bind; [by apply typed_lift, typed_entry_files|]. intros files _ _.
  destruct (bool_decide (files = [])); [intros s; by apply typed_raise|].
  apply typed_bind; [by apply typed_lift, typed_pkg_config|]. intros [pi pl] _ _.
  apply typed_bind; [by apply typed_lift, typed_list_paths|]. intros incs _ _.
  apply typed_bind; [by apply typed_lift, typed_list_paths|]. intros libs _ _.
  apply typed_bind; [apply typed_lift; destruct (bool_decide _); apply typed_ok|]. intros entry s' He.
  assert (∃ d', entry = VDict d' ∧ (∀ k, k ≠ "library_dirs" → dget d' k = dget d k) ∧
            optional is_str_list d' "library_dirs" = true) as (d' & -> & Hd' & Hlib').
  { simpl in He. destruct (bool_decide _); simpl in He; injection He as <-; eexists; split_and!; try done.
    - intros k Hk. by rewrite dget_dset_ne by done.
    - unfold optional. rewrite dget_dset_eq. simpl. clear. by induction (libs ++ pl). }
  unfold optional in *. rewrite <- (Hd' "name") in Hn by done. rewrite <- (Hd' "ignore") in Hi by done.
  rewrite <- (Hd' "addendums") in Ha by done. rewrite <- (Hd' "typemaps") in Ht by done.
  rewrite <- (Hd' "libs") in Hls by done.
  apply typed_bind; [by eapply typed_write_interface|]. intros ip _ _.
  unfold module_name, subscript, vindex. rewrite Hn.
  apply typed_bind; [apply typed_lift, typed_ok|]. intros module _ _.
  apply typed_bind; [by apply typed_run|]. intros _ _ _.
  apply typed_bind; [by apply typed_lift, typed_library_flags|]. intros lf _ _. by apply typed_run.
Qed.

(** C34. A configuration whose values have the documented types never makes the
    script fail for a reason of types: whatever the file system and the tools
    answer, no operation is applied to a value of the wrong type and no
    required field is missed; what can go wrong is what a tool reports, a
    library pkg-config does not know and an entry without headers. *)
Theorem typed_config_no_type_errors (args : arguments) (b : build) :
  tools_typed → (∀ v, load_yaml (config args) = Ok v → config_typed v = true) →
  typed_res (main args b).2.
Proof.
  intros Ht Hc. pose proof Ht as (_ & _ & _ & Hy & Hcc & _). revert b.
  apply typed_bind.
  { apply typed_lift, typed_rbind; [apply Hcc | intros; apply typed_ok]. }
  intros sys _ _. unfold load_entries. specialize (Hy (config args)).
  destruct (load_yaml (config args)) as [v|e]; [|intros s e' [= <-]; by apply Hy].
  specialize (Hc v eq_refl). destruct v as [| | | | |d|]; try done.
  simpl in Hc. unfold required in Hc. simpl. unfold vindex at 1.
  destruct (dget d "defw") as [[| | | | |e|]|]; try done. simpl. unfold vindex.
  destruct (dget e "swigify") as [[| | | |es| |]|]; try done.
  apply typed_bind; [apply typed_lift, typed_ok|]. intros es' s' H. injection H as <-.
  clear s'. induction es as [|v es IH]; [apply typed_ret|]. simpl in Hc. apply andb_true_iff in Hc as [Hv Hes].
  apply typed_bind; [by apply typed_build_entry|]. intros _ _ _. by apply IH.
Qed.

(** ** What is built *)

Definition cat (l : list string) : string := fold_right String.append "" l.

Lemma cat_app l k : cat (l ++ k) = cat l +:+ cat k.
Proof. induction l as [|x l IH]; [done|]. cbn. fold (cat (l ++ k)). rewrite IH. apply append_assoc. Qed.

(** A file of the given text, written *)
Definition put (path text : string) (b : build) : build :=
  Build (made b) (dset (written b) path text) (ran b) (printed b).

Lemma intf_write_put path l x b :
  intf_write path x (put path (cat l) b) = (put path (cat (l ++ [x])) b, Ok tt).
Proof.
  unfold intf_write, modify, put, dget_or. simpl. rewrite dget_dset_eq, dset_dset, cat_app. simpl.
  by rewrite append_nil_r.
Qed.

Lemma intf_lines_put {A} path (g : A → string) l k b :
  for_each (λ x, intf_write path (g x)) k (put path (cat l) b) = (put path (cat (l ++ map g k)) b, Ok tt).
Proof.
  revert l. induction k as [|x k IH]; intros l; simpl; [by rewrite app_nil_r|].
  unfold bind. rewrite intf_write_put, IH. by rewrite <- app_assoc.
Qed.

(** A chunk of a file, its last line ended *)
Definition ended (c : string) : string := if ends_nl c then c else c +:+ nl.

Lemma chunk_put path l x b :
  write_chunk path x (put path (cat l) b) = (put path (cat (l ++ [ended x])) b, Ok tt).
Proof.
  unfold write_chunk, bind, ended. rewrite intf_write_put. destruct (ends_nl x); [done|]. simpl.
  rewrite intf_write_put. do 2 f_equal. rewrite !cat_app. simpl. by rewrite !append_nil_r, append_assoc.
Qed.

Lemma chunks_put path l k b :
  for_each (write_chunk path) k (put path (cat l) b) = (put path (cat (l ++ map ended k)) b, Ok tt).
Proof.
  revert l. induction k as [|x k IH]; intros l; simpl; [by rewrite app_nil_r|].
  unfold bind. rewrite chunk_put, IH. by rewrite <- app_assoc.
Qed.

(** The interface file: module, C part with the addenda and the headers, type
    maps, type names, ignored symbols, and the headers again *)
Definition interface_text (module : string) (adds files tms : list string) (symbols : list val) : string :=
  cat (map (λ l, l +:+ nl) (HEADER module) ++ map ended adds ++
       map (λ h, "#include " +:+ in_quotes h +:+ nl) files ++ ["%}" +:+ nl] ++ map ended tms ++
       map (λ l, l +:+ nl) TYPEDEFS ++ map (λ s, "%ignore " +:+ py_fmt s +:+ ";" +:+ nl) symbols ++
       map (λ h, "%include " +:+ in_quotes h +:+ nl) files).

Lemma write_interface_ok entry files dir b b' path :
  write_interface read_file open_w entry files dir b = (b', Ok path) →
  ∃ module adds tms ignore symbols,
    module_name entry = Ok module ∧ path = path_div dir (module +:+ ".i") ∧
    (let? v := entry_get entry "addendums" (VList []) in read_text_files read_file v) = Ok adds ∧
    (let? v := entry_get entry "typemaps" (VList []) in read_text_files read_file v) = Ok tms ∧
    entry_get entry "ignore" (VList []) = Ok ignore ∧ py_iter ignore = Ok symbols ∧
    b' = put path (interface_text module adds files tms symbols) b.
Proof.
  unfold write_interface, bind at 1, lift_res at 1. destruct (module_name entry) as [module|]; [|done].
  unfold bind at 1, lift_res at 1. destruct (entry_get entry "ignore" (VList [])) as [ignore|]; [|done].
  unfold bind at 1, lift_res at 1. destruct (rbind (entry_get entry "addendums" _) _) as [adds|]; [|done].
  unfold bind at 1, lift_res at 1. destruct (rbind (entry_get entry "typemaps" _) _) as [tms|]; [|done].
  set (p := path_div dir (module +:+ ".i")).
  unfold bind at 1, lift_res at 1. destruct (open_w p); [|done].
  unfold bind at 1, modify. fold (put p "" b). change "" with (cat []).
  unfold bind at 1. rewrite intf_lines_put. unfold bind at 1. rewrite chunks_put.
  unfold bind at 1. rewrite intf_lines_put. unfold bind at 1. rewrite intf_write_put.
  unfold bind at 1. rewrite chunks_put. unfold bind at 1. rewrite intf_lines_put.
  unfold bind at 1, lift_res at 1. destruct (py_iter ignore) as [symbols|] eqn:Ei; [|done].
  unfold bind at 1. rewrite intf_lines_put. unfold bind at 1. rewrite intf_lines_put.
  intros [= <- <-]. exists module, adds, tms, ignore, symbols. split_and!; try done.
  unfold interface_text. by rewrite <- !app_assoc.
Qed.

Lemma run_ok cmd b b' :
  run execute cmd b = (b', Ok tt) →
  b' = Build (made b) (written b) (ran b ++ [cmd]) (printed b ++ [String.concat " " (map shlex_quote cmd)]).
Proof. unfold run, bind, modify, lift_res. simpl. destruct (execute cmd) as [[]|]; [by intros [= <-] | done]. Qed.

(** The entry that is built: pkg-config's library directory joins the others. *)
Definition effective_entry (entry : val) (libs pkg_libs : list string) : res val :=
  if bool_decide (pkg_libs = []) then Ok entry
  else let? d := py_dict entry in Ok (VDict (dset d "library_dirs" (VList (map VStr (libs ++ pkg_libs))))).

(** The include directories of an entry, the repository's own first *)
Definition entry_includes (args : arguments) (incs pkg_incs : list string) : list string :=
  let src := pure_path (source_dir args) in
  [path_div src "src"; path_div (path_div src "swig") "typemaps"] ++ incs ++ pkg_incs.

(** An entry that is built leaves exactly this behind: the output
    directory, one interface file that declares the module, includes every
    header of the entry twice (for C and for SWIG), every addendum and type map
    with its last line ended, and every ignored symbol; and two commands, first
    SWIG on that file with the repository's, the entry's, pkg-config's and the
    compiler's include directories in this order, then the compiler on what
    SWIG wrote, with the entry's libraries; each was printed before it ran. *)
Theorem entry_built_exactly (args : arguments) (entry : val) (sys : list string) (b b' : build) :
  build_entry args entry sys b = (b', Ok tt) →
  ∃ files pi pl incs libs entry' module adds tms ignore symbols lflags,
    entry_files dir_names entry = Ok files ∧ files ≠ [] ∧ pkg_config_paths pkg_config entry = Ok (pi, pl) ∧
    list_paths entry "include_dirs" = Ok incs ∧ list_paths entry "library_dirs" = Ok libs ∧
    effective_entry entry libs pl = Ok entry' ∧ module_name entry' = Ok module ∧
    (let? v := entry_get entry' "addendums" (VList []) in read_text_files read_file v) = Ok adds ∧
    (let? v := entry_get entry' "typemaps" (VList []) in read_text_files read_file v) = Ok tms ∧
    entry_get entry' "ignore" (VList []) = Ok ignore ∧ py_iter ignore = Ok symbols ∧
    library_flags entry' = Ok lflags ∧
    let out := pure_path (binary_dir args) in
    let dirs := entry_includes args incs pi in
    let wrapper := path_div out (module +:+ "_wrap.c") in
    let interface := path_div out (module +:+ ".i") in
    let cmds := [swig_cmd args dirs sys out wrapper interface;
                 cc_cmd LIBDIR LDLIBRARY INCLUDEPY args dirs wrapper (path_div out ("_" +:+ module +:+ ".so")) lflags] in
    b' = Build (made b ++ [out]) (dset (written b) interface (interface_text module adds files tms symbols))
           (ran b ++ cmds) (printed b ++ map (λ c, String.concat " " (map shlex_quote c)) cmds).
Proof.
  unfold Swig.build_entry, bind at 1, lift_res at 1. destruct (mkdir _); [|done].
  unfold bind at 1, modify at 1. unfold bind at 1, lift_res at 1.
  destruct (entry_files dir_names entry) as [files|] eqn:Ef; [|done].
  case_bool_decide as Hne; [done|]. unfold bind at 1, lift_res at 1.
  destruct (pkg_config_paths pkg_config entry) as [[pi pl]|] eqn:Epk; [|done].
  unfold bind at 1, lift_res at 1. destruct (list_paths entry "include_dirs") as [incs|] eqn:Ei; [|done].
  unfold bind at 1, lift_res at 1. destruct (list_paths entry "library_dirs") as [libs|] eqn:El; [|done].
  unfold bind at 1, lift_res at 1. fold (effective_entry entry libs pl).
  destruct (effective_entry entry libs pl) as [entry'|] eqn:Ee; [|done].
  unfold bind at 1.
  destruct (write_interface read_file open_w entry' files _ _) as [b1 [path|e]] eqn:Ew; [|done].
  apply write_interface_ok in Ew as (module & adds & tms & ignore & symbols & Hm & -> & Ha & Ht & Hig & Hsy & ->).
  unfold bind at 1, lift_res at 1. rewrite Hm. unfold bind at 1.
  destruct (run execute _ _) as [b2 [[]|e]] eqn:E2; [|done]. apply run_ok in E2. subst b2.
  unfold bind at 1, lift_res at 1. destruct (library_flags entry') as [lflags|] eqn:Elf; [|done].
  intros ->%run_ok. exists files, pi, pl, incs, libs, entry', module, adds, tms, ignore, symbols, lflags.
  split_and!; try done. unfold put, entry_includes. simpl. by rewrite <- !app_assoc.
Qed.
End SwigFacts.

(** ** A configuration *)

Module SwigDemo.
Definition entry : val :=
  VDict [("name", VStr "foo"); ("path", VStr "/opt//foo/"); ("files", VList [VStr "foo.h"; VStr "/usr/bar.h"]);
         ("pkg_config", VBool false); ("libs", VList [VStr "foo"]); ("library_dirs", VList [VStr "/opt/lib"]);
         ("ignore", VList [VStr "foo_hidden"])].
Definition yaml (p : string) : res val := Ok (VDict [("defw", VDict [("swigify", VList [entry])])]).
Definition demo_args : arguments := Args "swig.yaml" "build/" "/src/defw" "swig" "gcc".
Definition stderr (c : string) : res string :=
  Ok (String.concat nl ["#include <...> search starts here:"; " /usr/include"; "End of search list."; ""]).

Local Abbreviation demo_main :=
  (main (λ _, true) (λ _, Ok "") (λ _, []) (λ _, Ok tt) (λ _, Ok tt) yaml stderr (λ _, Ok (0, "/usr", ""))
     (λ _, Ok tt) None (Some "libpython3.so") None demo_args).

Example demo_commands :
  ran (demo_main (Build [] [] [] [])).1 =
  [["swig"; "-threads"; "-python"; "-includeall"; "-D__x86_64__"; "-D__arch_lib__"; "-D_LARGEFILE64_SOURCE=1";
    "-I/src/defw/src"; "-I/src/defw/swig/typemaps"; "-I/usr/include"; "-outdir"; "build"; "-o"; "build/cfoo_wrap.c";
    "build/cfoo.i"];
   ["gcc"; "-g"; "-Wall"; "-fPIC"; "-shared"; "-I/src/defw/src"; "-I/src/defw/swig/typemaps"; "build/cfoo_wrap.c";
    "-o"; "build/_cfoo.so"; "-L/opt/lib"; "-Wl,-rpath,$ORIGIN"; "-Wl,-rpath,/opt/lib"; "-lfoo"; "-lpython3"]].
Proof. reflexivity. Qed.

Lemma typed_config_no_type_errors_witness : typed_res (demo_main (Build [] [] [] [])).2.
Proof.
  apply (typed_config_no_type_errors (λ _, true) (λ _, Ok "") (λ _, []) (λ _, Ok tt) (λ _, Ok tt) yaml stderr
           (λ _, Ok (0, "/usr", "")) (λ _, Ok tt) None (Some "libpython3.so") None demo_args (Build [] [] [] [])).
  - unfold tools_typed, typed_res. split_and!; by intros.
  - intros v [= <-]. reflexivity.
Defined.

Lemma entry_built_exactly_witness :
  ∃ files, entry_files (λ _, []) entry = Ok files ∧ files = ["/opt/foo/foo.h"; "/usr/bar.h"].
Proof.
  destruct (build_entry (λ _, Ok "") (λ _, []) (λ _, Ok tt) (λ _, Ok tt) (λ _, Ok (0, "/usr", "")) (λ _, Ok tt) None
              (Some "libpython3.so") None demo_args entry [] (Build [] [] [] [])) as [b' o] eqn:E.
  assert (o = Ok tt) as -> by (vm_compute in E; by injection E as _ <-).
  destruct (entry_built_exactly (λ _, Ok "") (λ _, []) (λ _, Ok tt) (λ _, Ok tt) (λ _, Ok (0, "/usr", "")) (λ _, Ok tt)
              None (Some "libpython3.so") None demo_args entry [] (Build [] [] [] []) b' E)
    as (files & _ & _ & _ & _ & _ & _ & _ & _ & _ & _ & _ & Hf & _).
  exists files. split; [exact Hf|]. vm_compute in Hf. by injection Hf as <-.
Defined.
End SwigDemo.
