(* ===== verification/Telnet.v ===== *)
(** * The telnet console: wire, options, input cooker
    ([python/infra/defw_telnetservlib.py])

    A session has two threads: the input cooker turns what the client sends
    into keys and answers its option commands; the handler reads lines and runs
    commands.  This file models the session's state, the output functions, the
    option engine and the cooker; [TelnetShell] models the line editor and the
    commands.

    Characters are code points, so that a text is a [list Z]; a key is a
    character or one of the key codes of curses.  A step of a thread ends in one
    of three ways: it returns, it raises, or it waits for ever unless the other
    thread or the client does something ([Waits]).  The socket, curses and the
    time at which bytes arrive are arguments. *)

From S2P Require Import Prelude PyDict.
From Stdlib Require Import Ascii.

Local Open Scope Z_scope.
Local Open Scope list_scope.

Abbreviation text := (list Z).
Abbreviation bytes := (list Z).

(** ** Texts *)

Definition txt (s : string) : text :=
  map (λ a, Z.of_nat (nat_of_ascii a)) (String.list_ascii_of_string s).

(** [text.replace(c, r)] with a pattern of one character *)
Definition replace_char (c : Z) (r : text) (t : text) : text :=
  flat_map (λ x, if x =? c then r else [x]) t.

(** [str.encode] to UTF-8 of one character; surrogates have no encoding. *)
Definition utf8_char (c : Z) : option bytes :=
  if c <? 0 then None
  else if c <? 128 then Some [c]
  else if c <? 2048 then Some [192 + c / 64; 128 + c mod 64]
  else if c <? 65536 then
    if (55296 <=? c) && (c <? 57344) then None
    else Some [224 + c / 4096; 128 + c / 64 mod 64; 128 + c mod 64]
  else if c <? 1114112 then
    Some [240 + c / 262144; 128 + c / 4096 mod 64; 128 + c / 64 mod 64; 128 + c mod 64]
  else None.

Fixpoint utf8_encode (t : text) : option bytes :=
  match t with
  | [] => Some []
  | c :: t' => match utf8_char c, utf8_encode t' with
               | Some b, Some bs => Some (b ++ bs)
               | _, _ => None
               end
  end.

Definition cont (b : Z) : bool := (128 <=? b) && (b <? 192).

(** [bytes.decode('utf-8')]: strict, so that overlong forms, surrogates and
    truncated characters are errors. *)
Fixpoint utf8_decode (b : bytes) : option text :=
  match b with
  | [] => Some []
  | b0 :: t0 =>
      if b0 <? 128 then cons b0 <$> utf8_decode t0
      else match t0 with
           | [] => None
           | b1 :: t1 =>
               if b0 <? 224 then
                 if (194 <=? b0) && cont b1
                 then cons ((b0 - 192) * 64 + (b1 - 128)) <$> utf8_decode t1 else None
               else match t1 with
                    | [] => None
                    | b2 :: t2 =>
                        if b0 <? 240 then
                          let c := (b0 - 224) * 4096 + (b1 - 128) * 64 + (b2 - 128) in
                          if cont b1 && cont b2 && (2048 <=? c) && negb ((55296 <=? c) && (c <? 57344))
                          then cons c <$> utf8_decode t2 else None
                        else match t2 with
                             | [] => None
                             | b3 :: t3 =>
                                 let c := (b0 - 240) * 262144 + (b1 - 128) * 4096 + (b2 - 128) * 64 + (b3 - 128) in
                                 if cont b1 && cont b2 && cont b3 && (65536 <=? c) && (c <? 1114112)
                                 then cons c <$> utf8_decode t3 else None
                             end
                    end
           end
  end.

(** ** Telnet characters *)

Definition IAC : Z := 255.
Definition DONT : Z := 254.
Definition DO : Z := 253.
Definition WONT : Z := 252.
Definition WILL : Z := 251.
Definition theNULL : Z := 0.
Definition SE : Z := 240.
Definition NOP : Z := 241.
Definition SB : Z := 250.
Definition ECHO : Z := 1.
Definition SGA : Z := 3.
Definition TTYPE : Z := 24.
Definition NAWS : Z := 31.
Definition LINEMODE : Z := 34.
Definition NEW_ENVIRON : Z := 39.
Definition NOOPT : Z := 0.
Definition IS : Z := 0.
Definition SEND : Z := 1.
Definition CR : Z := 13.
Definition LF : Z := 10.

Definition DOACK : odict Z Z := [(ECHO, WILL); (SGA, WILL); (NEW_ENVIRON, WONT)].
Definition WILLACK : odict Z Z :=
  [(ECHO, DONT); (SGA, DO); (NAWS, DONT); (TTYPE, DO); (LINEMODE, DONT); (NEW_ENVIRON, DO)].

(** The key codes of curses the session asks the terminal for. *)
Inductive keycode := KEY_UP | KEY_DOWN | KEY_LEFT | KEY_RIGHT | KEY_DC | KEY_BACKSPACE.

#[export] Instance keycode_eq_dec : EqDecision keycode.
Proof. solve_decision. Defined.

Definition KEYS : list (keycode * string) :=
  [(KEY_UP, "Up"); (KEY_DOWN, "Down"); (KEY_LEFT, "Left"); (KEY_RIGHT, "Right");
   (KEY_DC, "Delete"); (KEY_BACKSPACE, "Backspace")]%string.

Inductive key := KChar (c : Z) | KKey (k : keycode).

#[export] Instance key_eq_dec : EqDecision key.
Proof. solve_decision. Defined.

(** An output code: the empty text of the class, or what [tigetstr] gave,
    which is bytes or None. *)
Inductive code := CodeStr (t : text) | CodeBytes (b : bytes) | CodeNone.

(** A terminal type as curses knows it: its key sequences and capabilities. *)
Record terminal := Terminal {
  key_sequence : keycode → option bytes;
  capability : string → option bytes
}.

(** What arrives from the client: the bytes one [recv(20)] returns, none at
    the end of the stream, and whether a poll finds them there. *)
Record packet := Packet { ready : bool; data : bytes }.

(** ** The session's state *)

Record options := Options {
  DOECHO : bool;
  DOOPTS : odict Z (option bool);
  WILLOPTS : odict Z (option bool);
  TERM : text;
  ESCSEQ : odict bytes keycode
}.

Record input := Input {
  rawq : text;
  cookedq : list key;
  sbdataq : text;
  eof : bool;
  iacseq : text;
  sb : bool;
  net : list packet
}.

(** The texts sent so far, in order, and the lock around the socket. *)
Record output := Output { OQUEUELOCK : bool; sent : list text }.

(** The handler's own attributes; those of the interactive mode are
    [interact], [more], [console] and [old_stdout]. *)
Record handler (C : Type) := Handler {
  history : list text;
  RUNSHELL : bool;
  PROMPT : text;
  interact : bool;
  more : bool;
  console : option C;
  old_stdout : option nat
}.
Arguments Handler {C}.
Arguments history {C}.
Arguments RUNSHELL {C}.
Arguments PROMPT {C}.
Arguments interact {C}.
Arguments more {C}.
Arguments console {C}.
Arguments old_stdout {C}.

(** What the sessions of a process share: [sys.stdout], whether the console
    server is serving, and the output codes, an attribute of the class. *)
Record process := Process { sys_stdout : nat; serving : bool; CODES : odict string code }.

Record tn (C : Type) := Tn {
  opts : options;
  inp : input;
  outp : output;
  hdl : handler C;
  prc : process;
  sock_open : bool
}.
Arguments Tn {C}.
Arguments opts {C}.
Arguments inp {C}.
Arguments outp {C}.
Arguments hdl {C}.
Arguments prc {C}.
Arguments sock_open {C}.

Definition set_opts {C} (o : options) (s : tn C) : tn C :=
  Tn o (inp s) (outp s) (hdl s) (prc s) (sock_open s).
Definition set_inp {C} (i : input) (s : tn C) : tn C :=
  Tn (opts s) i (outp s) (hdl s) (prc s) (sock_open s).
Definition set_outp {C} (o : output) (s : tn C) : tn C :=
  Tn (opts s) (inp s) o (hdl s) (prc s) (sock_open s).
Definition set_hdl {C} (h : handler C) (s : tn C) : tn C :=
  Tn (opts s) (inp s) (outp s) h (prc s) (sock_open s).
Definition set_prc {C} (p : process) (s : tn C) : tn C :=
  Tn (opts s) (inp s) (outp s) (hdl s) p (sock_open s).

Definition set_DOECHO (b : bool) (o : options) : options :=
  Options b (DOOPTS o) (WILLOPTS o) (TERM o) (ESCSEQ o).
Definition set_DOOPTS (d : odict Z (option bool)) (o : options) : options :=
  Options (DOECHO o) d (WILLOPTS o) (TERM o) (ESCSEQ o).
Definition set_WILLOPTS (d : odict Z (option bool)) (o : options) : options :=
  Options (DOECHO o) (DOOPTS o) d (TERM o) (ESCSEQ o).

Definition set_raw (r : text) (i : input) : input :=
  Input r (cookedq i) (sbdataq i) (eof i) (iacseq i) (sb i) (net i).
Definition set_cookedq (q : list key) (i : input) : input :=
  Input (rawq i) q (sbdataq i) (eof i) (iacseq i) (sb i) (net i).
Definition set_sbdataq (q : text) (i : input) : input :=
  Input (rawq i) (cookedq i) q (eof i) (iacseq i) (sb i) (net i).
Definition set_iacseq (q : text) (i : input) : input :=
  Input (rawq i) (cookedq i) (sbdataq i) (eof i) q (sb i) (net i).
Definition set_sb (b : bool) (i : input) : input :=
  Input (rawq i) (cookedq i) (sbdataq i) (eof i) (iacseq i) b (net i).
Definition set_recv (r : text) (e : bool) (n : list packet) (i : input) : input :=
  Input r (cookedq i) (sbdataq i) e (iacseq i) (sb i) n.

(** ** Steps of a thread *)

Inductive out (A : Type) :=
  | Done (a : A)
  | Fails (e : pyexc)
  | Waits.
Arguments Done {A} a.
Arguments Fails {A} e.
Arguments Waits {A}.

Definition T (S A : Type) : Type := S → S * out A.
Definition tret {S A} (a : A) : T S A := λ s, (s, Done a).
Definition traise {S A} (c : exc_class) (msg : string) : T S A := λ s, (s, Fails (Exc c msg)).
Definition treraise {S A} (e : pyexc) : T S A := λ s, (s, Fails e).
Definition twait {S A} : T S A := λ s, (s, Waits).
Definition tget {S} : T S S := λ s, (s, Done s).
Definition tset {S} (f : S → S) : T S unit := λ s, (f s, Done tt).
Definition tbind {S A B} (m : T S A) (k : A → T S B) : T S B :=
  λ s, match m s with
       | (s', Done a) => k a s'
       | (s', Fails e) => (s', Fails e)
       | (s', Waits) => (s', Waits)
       end.
(** [try: m except: h] *)
Definition ttry {S A} (m : T S A) (h : pyexc → T S A) : T S A :=
  λ s, match m s with
       | (s', Fails e) => h e s'
       | r => r
       end.
Fixpoint tfor {S A} (f : A → T S unit) (l : list A) : T S unit :=
  match l with
  | [] => tret tt
  | x :: l' => tbind (f x) (λ _, tfor f l')
  end.

Module TelnetNotations.
Declare Scope telnet_scope.
Delimit Scope telnet_scope with telnet.
Notation "'do!' x := m 'in' k" := (tbind m (λ x, k))
  (at level 10, x pattern, m at level 100, k at level 200,
   format "'do!'  x  :=  m  'in' '//' k") : telnet_scope.
Notation "m ';;' k" := (tbind m (λ _, k))
  (at level 100, k at level 200, right associativity) : telnet_scope.
End TelnetNotations.
Import TelnetNotations.
Local Open Scope telnet_scope.

Section Wire.
Context {C : Type}.
Local Abbreviation St := (tn C).
(** Whether the socket takes the next send, after those already made. *)
Context (sock_takes : list text → bool).
(** curses: the terminal types it knows. *)
Context (terminfo : text → option terminal).

(** ** Output functions *)

(** [writecooked]: the lock is released only when the send succeeded. *)
Definition writecooked (t : text) : T St unit :=
  do! s := tget in
  if OQUEUELOCK (outp s) then twait
  else
    tset (set_outp (Output true (sent (outp s)))) ;;
    match utf8_encode t with
    | None => traise EUnicodeError "surrogates not allowed"
    | Some _ =>
        if sock_takes (sent (outp s))
        then tset (set_outp (Output false (sent (outp s) ++ [t])))
        else traise EOSError "Broken pipe"
    end.

Definition cook_output (t : text) : text := replace_char LF [CR; LF] (replace_char IAC [IAC; IAC] t).

Definition write (t : text) : T St unit := writecooked (cook_output t).

Definition writeline (t : text) : T St unit := write (t ++ [LF]).

(** [self.write(code)]: only the initial codes are texts. *)
Definition write_code (c : code) : T St unit :=
  match c with
  | CodeStr t => write t
  | CodeBytes _ => traise ETypeError "a bytes-like object is required, not 'str'"
  | CodeNone => traise EAttributeError "'NoneType' object has no attribute 'replace'"
  end.

(** ** The options engine *)

Definition on_opts (f : options → options) : T St unit := tset (λ s, set_opts (f (opts s)) s).

Definition pack_codes (t : terminal) : odict string code :=
  map (λ p, (p.1, match capability t p.2 with Some b => CodeBytes b | None => CodeNone end))
    [("DEOL", "el"); ("DEL", "dch1"); ("INS", "ich1"); ("CSRLEFT", "cub1"); ("CSRRIGHT", "cuf1")]%string.

Definition setterm (term : text) : T St unit :=
  match terminfo term with
  | None => traise ERuntimeError "setupterm: could not find terminal"
  | Some t =>
      on_opts (λ o, Options (DOECHO o) (DOOPTS o) (WILLOPTS o) term
        (fold_left (λ d k, match key_sequence t k.1 with
                           | Some (b :: bs) => dset d (b :: bs) k.1
                           | _ => d
                           end) KEYS [])) ;;
      tset (λ s, set_prc (Process (sys_stdout (prc s)) (serving (prc s)) (pack_codes t)) s)
  end.

(** [sendcommand]: a verb is sent only when it changes what was sent last. *)
Definition sendcommand (cmd : Z) (opt : Z) : T St unit :=
  if bool_decide (cmd = DO ∨ cmd = DONT) then
    on_opts (λ o, set_DOOPTS (dsetdefault (DOOPTS o) opt None) o) ;;
    do! s := tget in
    if bool_decide (dget (DOOPTS (opts s)) opt ≠ Some (Some (cmd =? DO))) then
      on_opts (λ o, set_DOOPTS (dset (DOOPTS o) opt (Some (cmd =? DO))) o) ;;
      writecooked [IAC; cmd; opt]
    else tret tt
  else if bool_decide (cmd = WILL ∨ cmd = WONT) then
    on_opts (λ o, set_WILLOPTS (dsetdefault (WILLOPTS o) opt None) o) ;;
    do! s := tget in
    if bool_decide (dget (WILLOPTS (opts s)) opt ≠ Some (Some (cmd =? WILL))) then
      on_opts (λ o, set_WILLOPTS (dset (WILLOPTS o) opt (Some (cmd =? WILL))) o) ;;
      writecooked [IAC; cmd; opt]
    else tret tt
  else writecooked [IAC; cmd].

Definition on_inp (f : input → input) : T St unit := tset (λ s, set_inp (f (inp s)) s).

Definition read_sb_data : T St text :=
  do! s := tget in
  on_inp (set_sbdataq []) ;;
  tret (sbdataq (inp s)).

Definition options_handler (cmd opt : Z) : T St unit :=
  if cmd =? NOP then sendcommand NOP NOOPT
  else if (cmd =? WILL) || (cmd =? WONT) then
    sendcommand (default DONT (dget WILLACK opt)) opt ;;
    if (cmd =? WILL) && (opt =? TTYPE)
    then writecooked [IAC; SB; TTYPE; SEND; IAC; SE] else tret tt
  else if (cmd =? DO) || (cmd =? DONT) then
    sendcommand (default WONT (dget DOACK opt)) opt ;;
    if opt =? ECHO then on_opts (set_DOECHO (cmd =? DO)) else tret tt
  else if cmd =? SE then
    do! subreq := read_sb_data in
    match subreq with
    | [] => traise EIndexError "string index out of range"
    | x :: rest =>
        if negb (x =? TTYPE) then tret tt
        else match rest with
             | [] => traise EIndexError "string index out of range"
             | y :: term => if y =? IS then ttry (setterm term) (λ _, tret tt) else tret tt
             end
    end
  else tret tt.

(** [setup], up to the start of the input cooker *)
Definition setup : T St unit :=
  do! s := tget in
  setterm (TERM (opts s)) ;;
  tfor (λ p, sendcommand p.2 p.1) DOACK ;;
  tfor (λ p, sendcommand p.2 p.1) WILLACK.

(** ** The input cooker *)

(** [_inputcooker_getc] on the raw queue and what is still to be received:
    the queues it leaves, and the character, or none when it does not block
    and nothing is there. *)
Fixpoint raw_getc (block : bool) (raw : text) (e : bool) (n : list packet) :
    text * bool * list packet * out (option Z) :=
  match raw with
  | c :: raw' => (raw', e, n, Done (Some c))
  | [] =>
      match n with
      | [] => (raw, e, n, if block then Waits else Done None)
      | p :: n' =>
          if negb block && negb (ready p) then (raw, e, n, Done None)
          else
            match data p with
            | [] => (raw, true, n', Fails (Exc EEOFError ""))
            | b :: bs =>
                if b =? 255 then (raw, false, n', Fails (Exc EEOFError ""))
                else match utf8_decode (b :: bs) with
                     | None => (raw, false, n', Fails (Exc EUnicodeError "invalid start byte"))
                     | Some t => raw_getc block (raw ++ t) false n'
                     end
            end
      end
  end.

Definition inputcooker_getc (block : bool) : T St (option Z) :=
  λ s, let '(raw, e, n, o) := raw_getc block (rawq (inp s)) (eof (inp s)) (net (inp s)) in
       (set_inp (set_recv raw e n (inp s)) s, o).

Definition inputcooker_ungetc (t : text) : T St unit := on_inp (λ i, set_raw (t ++ rawq i) i).

Definition inputcooker_store (c : Z) : T St unit :=
  on_inp (λ i, if sb i then set_sbdataq (sbdataq i ++ [c]) i else set_cookedq (cookedq i ++ [KChar c]) i).

(** [c in [x[0] for x in self.ESCSEQ.keys()]]: the sequences are bytes, whose
    elements are integers, and a text equals no integer. *)
Definition char_is_byte (c b : Z) : bool := false.
Definition starts_key_sequence (c : Z) (o : options) : bool :=
  existsb (λ p, match p.1 with b :: _ => char_is_byte c b | [] => false end) (ESCSEQ o).

(** The loop over the sequences compares texts with bytes, so that no
    sequence matches and the character is put back together unchanged. *)
Definition match_key_sequence (c : Z) : T St Z :=
  do! s := tget in
  tfor (λ _, inputcooker_ungetc []) (ESCSEQ (opts s)) ;;
  tret c.

(** A character outside a command *)
Definition cook_char (c : Z) : T St unit :=
  do! s := tget in
  if c =? IAC then on_inp (λ i, set_iacseq (iacseq i ++ [c]) i)
  else
    do! c' := (if (c =? CR) && negb (sb (inp s)) then
                 do! c2 := inputcooker_getc false in
                 match c2 with
                 | None => tret LF
                 | Some x => if x =? theNULL then tret LF
                             else if x =? LF then tret x
                             else inputcooker_ungetc [x] ;; tret LF
                 end
               else if starts_key_sequence c (opts s) then match_key_sequence c
               else tret c) in
    inputcooker_store c'.

Definition is_verb (c : Z) : bool := (c =? DO) || (c =? DONT) || (c =? WILL) || (c =? WONT).

(** The character after IAC *)
Definition cook_command (c : Z) : T St unit :=
  if is_verb c then on_inp (λ i, set_iacseq (iacseq i ++ [c]) i)
  else
    on_inp (set_iacseq []) ;;
    if c =? IAC then inputcooker_store c
    else
      (if c =? SB then on_inp (λ i, set_sbdataq [] (set_sb true i))
       else if c =? SE then on_inp (set_sb false)
       else tret tt) ;;
      options_handler c NOOPT.

(** One turn of the loop of [inputcooker] *)
Definition cook_step : T St unit :=
  do! c := inputcooker_getc true in
  match c with
  | None => tret tt
  | Some c =>
      do! s := tget in
      match iacseq (inp s) with
      | [] => cook_char c
      | [_] => cook_command c
      | [_; cmd] => on_inp (set_iacseq []) ;; if is_verb cmd then options_handler cmd c else tret tt
      | _ => tret tt
      end
  end.

Fixpoint inputcooker_loop (fuel : nat) : T St unit :=
  match fuel with
  | O => tret tt
  | S n => cook_step ;; inputcooker_loop n
  end.

(** The end of the stream ends the cooker, any other exception its thread. *)
Definition inputcooker (fuel : nat) : T St unit :=
  λ s, match inputcooker_loop fuel s with
       | (s', Fails e) => if bool_decide (exc_type e = EEOFError) then (s', Done tt) else (s', Fails e)
       | r => r
       end.
End Wire.
