(* ===== verification/Cmd.v ===== *)
(** * Running commands ([python/infra/defw_cmd.py], [defw_venv.py], part of
    [defw_util.py])

    A command line is split as a POSIX shell would split it and run, here, in a
    thread with a time limit, or on another host.  What the started process
    answers is an argument, as is the SSH client. *)

From S2P Require Import Prelude PyDict PyVal Exceptions Swig Telnet.
From stdpp Require Import pretty.
From Stdlib Require Import Ascii.

Local Open Scope string_scope.
Local Open Scope Z_scope.
Local Open Scope list_scope.
Import PyNotations.
Local Open Scope py_scope.

(** ** [shlex.split] *)

Definition backslash : ascii := "\"%char.
Definition shell_space (c : ascii) : bool :=
  existsb (Ascii.eqb c) [" "; "009"; "013"; "010"]%char.
Definition is_quote (c : ascii) : bool := Ascii.eqb c squote || Ascii.eqb c dquote.

(** Between words, in a word, in quotes, after a backslash in a word or in
    double quotes *)
Inductive shell_state := Between | InWord | InQuote (q : ascii) | Escaped (q : option ascii).

(** A token, unless it is empty and was not quoted *)
Definition emit (tok : list ascii) (was_quoted : bool) (rest : list string) : list string :=
  match tok with
  | [] => if was_quoted then EmptyString :: rest else rest
  | _ => String.string_of_list_ascii tok :: rest
  end.

Fixpoint shell_words (st : shell_state) (tok : list ascii) (qd : bool) (l : list ascii) : res (list string) :=
  match l with
  | [] =>
      match st with
      | Between | InWord => Ok (emit tok qd [])
      | InQuote _ => Raise (Exc EValueError "No closing quotation")
      | Escaped _ => Raise (Exc EValueError "No escaped character")
      end
  | c :: l' =>
      match st with
      | Between =>
          if shell_space c then shell_words Between [] false l'
          else if Ascii.eqb c backslash then shell_words (Escaped None) [] false l'
          else if is_quote c then shell_words (InQuote c) [] true l'
          else shell_words InWord [c] false l'
      | InWord =>
          if shell_space c then res_map (emit tok qd) (shell_words Between [] false l')
          else if is_quote c then shell_words (InQuote c) tok true l'
          else if Ascii.eqb c backslash then shell_words (Escaped None) tok qd l'
          else shell_words InWord (tok ++ [c]) qd l'
      | InQuote q =>
          if Ascii.eqb c q then shell_words InWord tok qd l'
          else if Ascii.eqb c backslash && Ascii.eqb q dquote then shell_words (Escaped (Some q)) tok qd l'
          else shell_words (InQuote q) (tok ++ [c]) qd l'
      | Escaped None => shell_words InWord (tok ++ [c]) qd l'
      | Escaped (Some q) =>
          shell_words (InQuote q)
            (tok ++ (if negb (Ascii.eqb c backslash) && negb (Ascii.eqb c q) then [backslash; c] else [c])) qd l'
      end
  end.

Definition shlex_split (s : string) : res (list string) :=
  shell_words Between [] false (String.list_ascii_of_string s).

(** ** Commands *)

(** Whether bytes decode as UTF-8 *)
Definition decodes (out : string) : bool :=
  match utf8_decode (txt out) with Some _ => true | None => false end.

Section Cmd.
(** A process that could be started: its output and return code *)
Context (popen : list string → option (string * Z)).

Definition exec_cmd (cmd : string) (exception : bool) : res (option string * Z) :=
  let? args := shlex_split cmd in
  match popen args with
  | None => Ok (None, -1)
  | Some (out, rc) =>
      if negb (rc =? 0) && exception then
        if decodes out
        then Raise (Exc EDEFwError (cmd +:+ nl +:+ "rc = " +:+ pretty rc +:+ nl +:+ out))
        else Raise (Exc EUnicodeError "invalid start byte")
      else Ok (Some out, rc)
  end.

(** [defw_exec_local_cmd]: a time limit starts a thread that runs the command
    ([started] logs it); the method that would ask whether it still runs does
    not exist. *)
Definition defw_exec_local_cmd (cmd : string) (expire : val) (exception : bool) :
    M (list string) (option string * Z) :=
  match expire with
  | VInt n =>
      if n <=? 0 then lift_res (exec_cmd cmd exception)
      else
        modify (λ started, started ++ [cmd]) ;;;
        throw EAttributeError "'DEFwCmd' object has no attribute 'isAlive'"
  | VBool _ => lift_res (exec_cmd cmd exception)
  | _ => throw ETypeError "'<=' not supported between instances"
  end.

(** ['\n'.join(stream.read().decode('utf-8').splitlines())] *)
Definition read_from_stream (b : string) : res string :=
  if decodes b then Ok (String.concat nl (map String.string_of_list_ascii (splitlines b)))
  else Raise (Exc EUnicodeError "invalid start byte").

(** paramiko: whether the host can be reached as the user, and what the
    command's two streams hold when they are looked at, if anything *)
Context (ssh_connect : string → string → res unit) (getuser : string).
Context (ssh_exec : string → string → res (option string * option string)).

Definition defw_exec_remote_cmd (cmd host username : string) (deamonize : bool) : res (string * string) :=
  let cmd := if deamonize then cmd +:+ " &" else cmd in
  let username := if String.eqb username "" then getuser else username in
  let? _ := ssh_connect host username in
  let? (out, err) := ssh_exec host cmd in
  let? o := (match out with Some b => read_from_stream b | None => Ok "" end) in
  let? e := (match err with Some b => read_from_stream b | None => Ok "" end) in
  Ok (o, e).
End Cmd.

(** ** The virtual environment *)

Section Venv.
(** Whether a directory holds [pyvenv.cfg]; directories are lists of names,
    the innermost first. *)
Context (has_cfg : list string → bool).

(** The loop from [exe.parent] up to, and without, the root *)
Fixpoint venv_search (cur : list string) : option (list string) :=
  match cur with
  | [] => None
  | _ :: parent => if has_cfg cur then Some cur else venv_search parent
  end.

Definition find_venv_sitepackages (exe : list string) (version : string) : list string :=
  let root := default (tail (tail exe)) (venv_search (tail exe)) in
  "site-packages" :: ("python" +:+ version) :: "lib" :: root.
End Venv.

(** ** Rounding *)

(** [round_half_up] of the number n/d *)
Definition round_half_up (n d : Z) : Z :=
  let whole := n / d in
  if d <=? 2 * (n - d * whole) then whole + 1 else whole.

(** ** Properties *)

Definition word_char (c : ascii) : bool := negb (shell_space c) && negb (is_quote c) && negb (Ascii.eqb c backslash).

Lemma safe_char_word c : safe_char c = true → word_char c = true.
Proof. by destruct c as [[] [] [] [] [] [] [] []]. Qed.

Lemma shell_word_chars l tok qd r :
  forallb word_char l = true → shell_words InWord tok qd (l ++ r) = shell_words InWord (tok ++ l) qd r.
Proof.
  revert tok. induction l as [|c l IH]; intros tok; simpl; [by rewrite app_nil_r|].
  intros [Hc Hl]%andb_true_iff. unfold word_char in Hc. split_hyps.
  repeat match goal with H : _ c = false |- _ => rewrite H; clear H | H : Ascii.eqb c _ = false |- _ => rewrite H; clear H end.
  rewrite IH by done. by rewrite <- app_assoc.
Qed.

Lemma shell_single_quote tok r :
  shell_words (InQuote squote) tok true ([squote; dquote; squote; dquote; squote] ++ r) =
  shell_words (InQuote squote) (tok ++ [squote]) true r.
Proof. reflexivity. Qed.

(** The body of a quoted word, from inside its single quotes *)
Lemma shell_quote_body l tok r :
  shell_words (InQuote squote) tok true (flat_map quote_body l ++ squote :: r) =
  shell_words InWord (tok ++ l) true r.
Proof.
  revert tok. induction l as [|c l IH]; intros tok; cbn [flat_map app].
  - cbn [shell_words]. rewrite Ascii.eqb_refl. by rewrite app_nil_r.
  - unfold quote_body at 1. destruct (Ascii.eqb_spec c squote) as [->|Hc].
    + rewrite <- (app_assoc [squote; dquote; squote; dquote; squote]), shell_single_quote, IH.
      by rewrite <- app_assoc.
    + cbn [app shell_words]. destruct (Ascii.eqb_spec c squote); [done|].
      change (Ascii.eqb squote dquote) with false. rewrite andb_false_r, IH. by rewrite <- app_assoc.
Qed.

(** A quoted argument followed by the end or by a space *)
Lemma shell_quoted a r :
  ∃ qd, shell_words Between [] false (String.list_ascii_of_string (shlex_quote a) ++ r) =
        shell_words InWord (String.list_ascii_of_string a) qd r ∧
        ∀ ws, emit (String.list_ascii_of_string a) qd ws = a :: ws.
Proof.
  unfold shlex_quote. destruct (String.list_ascii_of_string a) as [|c l] eqn:Ea.
  { exists true. split; [done|]. intros ws. destruct a; done. }
  destruct (forallb safe_char (c :: l)) eqn:Es.
  - exists false. split.
    + rewrite Ea. cbn [forallb] in Es. apply andb_true_iff in Es as [Hc%safe_char_word Hl].
      cbn [app shell_words]. unfold word_char in Hc. split_hyps.
      repeat match goal with H : _ c = false |- _ => rewrite H; clear H | H : Ascii.eqb c _ = false |- _ => rewrite H; clear H end.
      apply (shell_word_chars l [c]). rewrite forallb_forall in *. intros x Hx. by apply safe_char_word, Hl.
    + intros ws. unfold emit. by rewrite <- Ea, String.string_of_list_ascii_of_string.
  - exists true. split.
    + rewrite String.list_ascii_of_string_of_list_ascii. cbn [app shell_words].
      change (shell_space squote) with false. change (Ascii.eqb squote backslash) with false.
      change (is_quote squote) with true. rewrite <- app_assoc. apply (shell_quote_body (c :: l) [] r).
    + intros ws. unfold emit. by rewrite <- Ea, String.string_of_list_ascii_of_string.
Qed.

Lemma split_quoted args : shlex_split (String.concat " " (map shlex_quote args)) = Ok args.
Proof.
  unfold shlex_split. induction args as [|a args IH]; [done|]. destruct args as [|b args].
  - cbn [map String.concat]. rewrite <- (app_nil_r (String.list_ascii_of_string _)).
    destruct (shell_quoted a []) as (qd & -> & He). simpl. by rewrite He.
  - change (String.concat " " (map shlex_quote (a :: b :: args))) with
      (shlex_quote a +:+ (" " +:+ String.concat " " (map shlex_quote (b :: args)))).
    rewrite !list_ascii_app. set (rest := String.list_ascii_of_string (String.concat _ _)) in *.
    destruct (shell_quoted a (String.list_ascii_of_string " " ++ rest)) as (qd & -> & He).
    cbn [String.list_ascii_of_string app shell_words]. change (shell_space " ") with true. cbn iota.
    rewrite IH. simpl. by rewrite He.
Qed.

(** A command line made by quoting a list of arguments, as the build script
    prints it, is run as exactly those arguments, whatever characters they
    hold: the result is the output and return code of that process, the error
    with both when it failed and the caller asked for it, and the code -1 when
    it could not be started. *)
Theorem quoted_command_runs (popen : list string → option (string * Z)) (args : list string) (exception : bool) :
  let cmd := String.concat " " (map shlex_quote args) in
  exec_cmd popen cmd exception =
  match popen args with
  | None => Ok (None, -1)
  | Some (out, rc) =>
      if negb (rc =? 0) && exception then
        Raise (if decodes out then Exc EDEFwError (cmd +:+ nl +:+ "rc = " +:+ pretty rc +:+ nl +:+ out)
               else Exc EUnicodeError "invalid start byte")
      else Ok (Some out, rc)
  end.
Proof.
  intros cmd. unfold exec_cmd. unfold cmd at 1. rewrite split_quoted. simpl.
  destruct (popen args) as [[out rc]|]; [|done]. destruct (negb _ && _); [|done]. by destruct (decodes out).
Qed.

(** A time limit never runs out: the call raises as soon as it looks. *)
Theorem time_limit_raises popen cmd n exception started :
  0 < n →
  (defw_exec_local_cmd popen cmd (VInt n) exception started).2 =
  Raise (Exc EAttributeError "'DEFwCmd' object has no attribute 'isAlive'").
Proof. intros Hn. unfold defw_exec_local_cmd. by rewrite (proj2 (Z.leb_gt _ _)) by lia. Qed.

(** The virtual environment is the innermost directory above the interpreter
    that has the configuration file. *)
Lemma venv_search_nearest has_cfg cur :
  match venv_search has_cfg cur with
  | Some d => ∃ inner, cur = inner ++ d ∧ d ≠ [] ∧ has_cfg d = true ∧
                ∀ i o, inner = i ++ o → o ≠ [] → has_cfg (o ++ d) = false
  | None => ∀ i d, cur = i ++ d → d ≠ [] → has_cfg d = false
  end.
Proof.
  induction cur as [|c cur IH]; simpl.
  - intros i d H Hd. symmetry in H. by apply app_eq_nil in H as [_ ->].
  - destruct (has_cfg (c :: cur)) eqn:E.
    + exists []. split_and!; [done..|]. intros i o H Ho. symmetry in H. by apply app_eq_nil in H as [_ ->].
    + destruct (venv_search has_cfg cur) as [d|].
      * destruct IH as (inner & -> & Hd & Hc & Hin). exists (c :: inner). split_and!; [done..|].
        intros [|x i] o Hio Ho; [simpl in Hio; subst o; exact E|]. injection Hio as -> Hio. by eapply Hin.
      * intros [|x i] d Hid Hd; [simpl in Hid; subst d; exact E|]. injection Hid as -> Hid. by eapply IH.
Qed.

(** Rounding is to the nearest integer, halves upwards. *)
Lemma round_half_up_nearest n d :
  0 < d → let r := round_half_up n d in d * (2 * r - 1) ≤ 2 * n < d * (2 * r + 1).
Proof.
  intros Hd. unfold round_half_up. pose proof (Z.div_mod n d). pose proof (Z.mod_pos_bound n d Hd).
  destruct (Z.leb_spec d (2 * (n - d * (n / d)))); simpl; nia.
Qed.
