(* ===== verification/TelnetShell.v ===== *)
(** * The telnet console: line editor and commands
    ([python/infra/defw_telnetservlib.py], [defw_telnet_sr.py])

    [readline] edits a line with the keys of the cooked queue; [handle] reads
    command lines, or, in interactive mode, lines for a Python console, and
    runs them until the shell is left.  [TelnetHandler] is the library's class,
    [TNH] the one DEFw serves, which adds three commands and the interactive
    mode.  The Python console itself, the text of an exception, the
    authentication function and the upper case of characters outside ASCII are
    arguments. *)

From S2P Require Import Prelude PyDict Telnet.
From stdpp Require Import pretty sorting.
From Stdlib Require Import Ascii.

Local Open Scope Z_scope.
Local Open Scope list_scope.
Import TelnetNotations.
Local Open Scope telnet_scope.

(** ** Texts *)

(** [str.isspace] of a character *)
Definition space (c : Z) : bool :=
  ((9 <=? c) && (c <=? 13)) || ((28 <=? c) && (c <=? 32)) || (c =? 133) || (c =? 160) || (c =? 5760)
  || ((8192 <=? c) && (c <=? 8202)) || (c =? 8232) || (c =? 8233) || (c =? 8239) || (c =? 8287)
  || (c =? 12288).

(** [str.split()]: the words; [cur] is the word being read. *)
Fixpoint words_from (cur : text) (t : text) : list text :=
  match t with
  | [] => match cur with [] => [] | _ => [cur] end
  | c :: t' => if space c then match cur with [] => words_from [] t' | _ => cur :: words_from [] t' end
               else words_from (cur ++ [c]) t'
  end.
Definition words (t : text) : list text := words_from [] t.

Fixpoint lstrip (t : text) : text :=
  match t with
  | [] => []
  | c :: t' => if space c then lstrip t' else t
  end.
Definition tstrip (t : text) : text := rev (lstrip (rev (lstrip t))).

(** [str.split(sep)] and [sep.join] with one character *)
Fixpoint split_char (sep : Z) (cur t : text) : list text :=
  match t with
  | [] => [cur]
  | c :: t' => if c =? sep then cur :: split_char sep [] t' else split_char sep (cur ++ [c]) t'
  end.
Fixpoint join_char (sep : Z) (l : list text) : text :=
  match l with
  | [] => []
  | [t] => t
  | t :: l' => t ++ [sep] ++ join_char sep l'
  end.

(** [t.replace(pat, rep)]; [skip] characters belong to a match already made. *)
Fixpoint replace_all (pat rep : text) (skip : nat) (t : text) : text :=
  match t with
  | [] => []
  | c :: t' =>
      match skip with
      | S k => replace_all pat rep k t'
      | O => if bool_decide (take (length pat) t = pat)
             then rep ++ replace_all pat rep (length pat - 1) t'
             else c :: replace_all pat rep 0 t'
      end
  end.

(** Texts in the order of [list.sort] *)
Fixpoint text_leb (a b : text) : bool :=
  match a, b with
  | [], _ => true
  | _ :: _, [] => false
  | x :: a', y :: b' => (x <? y) || ((x =? y) && text_leb a' b')
  end.
Definition text_le (a b : text) : Prop := text_leb a b = true.

#[export] Instance text_le_dec : RelDecision text_le.
Proof. intros a b. unfold text_le. apply _. Defined.

(** ['%-5d' % n] *)
Definition padded (w : nat) (t : text) : text := t ++ repeat 32 (w - length t).

(** [curses.ascii.unctrl] of a control character *)
Definition unctrl (c : Z) : text := [94; c + 64].

(** ** Commands *)

Inductive command := CmdDEBUG | CmdECHO | CmdEXIT | CmdHELP | CmdHISTORY | CmdINTERACT | CmdSHUTDOWN.

#[export] Instance command_eq_dec : EqDecision command.
Proof. solve_decision. Defined.

Definition tab : Z := 9.
Definition doc_lines (l : list string) : text := join_char LF (map txt l).
Definition indent (s : string) : string := String (ascii_of_nat 9) (String (ascii_of_nat 9) s).

(** The docstrings, with the indentation of the source *)
Definition doc (c : command) : text :=
  doc_lines (match c with
    | CmdDEBUG => [""; indent "Display some debugging data"; indent ""]
    | CmdECHO => [" [<arg> ...]"; indent "Echo parameters";
                  indent "Echo command line parameters back to user, one per line."; indent ""]
    | CmdEXIT => [""; indent "Exit the command shell"; indent ""]
    | CmdHELP => ["[<command>]"; indent "Display help";
                  indent "Display either brief help on all commands, or detailed";
                  indent "help on a single command passed as a parameter."; indent ""]
    | CmdHISTORY => [""; indent "Display the command history"; indent ""]
    | CmdINTERACT => [""; indent "Enter python interactive mode";
                      indent "The main DEFw program should've set the globals properly"; indent ""]
    | CmdSHUTDOWN => [""; indent "Shutdown the DEFw Daemon"; indent ""]
    end)%string.

(** The methods of a handler whose names start with [cmd], in the order of
    [dir], and their aliases *)
Definition TelnetHandler_methods : list (string * command) :=
  [("DEBUG", CmdDEBUG); ("EXIT", CmdEXIT); ("HELP", CmdHELP); ("HISTORY", CmdHISTORY)]%string.
Definition TNH_methods : list (string * command) :=
  [("DEBUG", CmdDEBUG); ("ECHO", CmdECHO); ("EXIT", CmdEXIT); ("HELP", CmdHELP); ("HISTORY", CmdHISTORY);
   ("INTERACT", CmdINTERACT); ("SHUTDOWN", CmdSHUTDOWN)]%string.
Definition aliases (c : command) : list string :=
  match c with CmdHELP => ["?"] | CmdEXIT => ["QUIT"; "BYE"; "LOGOUT"] | _ => [] end%string.

(** The loop of [__init__] that fills [COMMANDS] *)
Definition COMMANDS_of (methods : list (string * command)) : odict text command :=
  fold_left (λ d m, fold_left (λ d a, dset d (txt a) m.2) (aliases m.2) (dset d (txt m.1) m.2)) methods [].

(** What running one line in the Python console did. *)
Inductive pushed := Pushed (more : bool) | Interrupted | PushFails (e : pyexc).

Section Shell.
Context {C : Type}.
Local Abbreviation St := (tn C).
Context (sock_takes : list text → bool) (terminfo : text → option terminal).
Context (upper_wide : Z → text) (format_exception : pyexc → text).
(** [code.InteractiveConsole]: a new one, a line pushed to it, its buffer
    dropped; the texts are what the console writes. *)
Context (new_console : C) (console_push : text → C → C * list text * pushed) (resetbuffer : C → C).
(** The session's own name, for [sys.stdout]. *)
Context (me : nat).
(** [COMMANDS] and the class attributes of the authentication *)
Context (COMMANDS : odict text command).
Context (authCallback : option (option text → option text → bool)) (authNeedUser authNeedPass : bool).

Local Abbreviation write := (write (C := C) sock_takes).
Local Abbreviation writeline := (writeline (C := C) sock_takes).
Local Abbreviation write_code := (write_code (C := C) sock_takes).

Definition upper_text (t : text) : text :=
  flat_map (λ c, if c <? 128 then [if (97 <=? c) && (c <=? 122) then c - 32 else c] else upper_wide c) t.

(** ** Input functions *)

(** [getc(block=True)] *)
Definition getc : T St key :=
  do! s := tget in
  match cookedq (inp s) with
  | [] => twait
  | k :: q => on_inp (set_cookedq q) ;; tret k
  end.

Definition echoing (echo : option bool) (s : St) : bool :=
  match echo with Some b => b | None => DOECHO (opts s) end.

Definition readline_echo (t : text) (echo : option bool) : T St unit :=
  do! s := tget in
  if echoing echo s then write t else tret tt.

Definition readline_echo_code (c : code) (echo : option bool) : T St unit :=
  do! s := tget in
  if echoing echo s then write_code c else tret tt.

Definition the_code (name : string) : T St code :=
  do! s := tget in
  tret (default (CodeStr []) (dget (CODES (prc s)) name)).

(** [self.CODES[a] + self.CODES[b]] *)
Definition code_add (a b : code) : T St code :=
  match a, b with
  | CodeStr x, CodeStr y => tret (CodeStr (x ++ y))
  | CodeBytes x, CodeBytes y => tret (CodeBytes (x ++ y))
  | _, _ => traise ETypeError "unsupported operand type(s) for +"
  end.

(** The line being edited *)
Record editor := Editor { line : text; insptr : nat; histptr : nat }.

Inductive edited := Next (e : editor) | Line (t : text).

Definition BELL : text := [7].

(** Move through the history to [ptr]. *)
Definition recall (echo : option bool) (e : editor) (ptr : nat) : T St edited :=
  do! s := tget in
  let l := default [] (history (hdl s) !! ptr) in
  do! csr := the_code "CSRLEFT" in
  tfor (λ _, readline_echo_code csr echo) (seq 0 (insptr e)) ;;
  do! deol := the_code "DEOL" in
  readline_echo_code deol echo ;;
  readline_echo l echo ;;
  tret (Next (Editor l (length l) ptr)).

(** [del line[i]] *)
Definition del_at (i : nat) (l : text) : text := take i l ++ drop (S i) l.

Definition edit_key (echo : option bool) (k : keycode) (e : editor) : T St edited :=
  do! s := tget in
  match k with
  | KEY_LEFT =>
      if Nat.ltb 0 (insptr e) then
        do! c := the_code "CSRLEFT" in
        readline_echo_code c echo ;; tret (Next (Editor (line e) (insptr e - 1) (histptr e)))
      else readline_echo BELL echo ;; tret (Next e)
  | KEY_RIGHT =>
      if Nat.ltb (insptr e) (length (line e)) then
        do! c := the_code "CSRRIGHT" in
        readline_echo_code c echo ;; tret (Next (Editor (line e) (insptr e + 1) (histptr e)))
      else readline_echo BELL echo ;; tret (Next e)
  | KEY_UP =>
      if Nat.ltb 0 (histptr e) then recall echo e (histptr e - 1)
      else readline_echo BELL echo ;; tret (Next e)
  | KEY_DOWN =>
      if Nat.ltb (histptr e) (length (history (hdl s))) then recall echo e (histptr e + 1)
      else readline_echo BELL echo ;; tret (Next e)
  | KEY_BACKSPACE =>
      if Nat.ltb 0 (insptr e) then
        do! l := the_code "CSRLEFT" in
        do! d := the_code "DEL" in
        do! ld := code_add l d in
        readline_echo_code ld echo ;;
        tret (Next (Editor (del_at (insptr e - 1) (line e)) (insptr e - 1) (histptr e)))
      else readline_echo BELL echo ;; tret (Next e)
  | KEY_DC =>
      if Nat.ltb (insptr e) (length (line e)) then
        do! d := the_code "DEL" in
        readline_echo_code d echo ;;
        tret (Next (Editor (del_at (insptr e) (line e)) (insptr e) (histptr e)))
      else readline_echo BELL echo ;; tret (Next e)
  end.

(** One turn of the loop of [readline] *)
Definition edit (echo : option bool) (k : key) (e : editor) : T St edited :=
  match k with
  | KKey k => edit_key echo k e
  | KChar c =>
      if c =? theNULL then tret (Next e)
      else if c =? 3 then
        readline_echo ([LF] ++ unctrl c ++ txt " ABORT" ++ [LF]) echo ;; tret (Line [])
      else if c =? 4 then
        match line e with
        | _ :: _ =>
            readline_echo ([LF] ++ unctrl c ++ txt " ABORT (QUIT)" ++ [LF]) echo ;; tret (Line [])
        | [] => readline_echo ([LF] ++ unctrl c ++ txt " QUIT" ++ [LF]) echo ;; tret (Line (txt "QUIT"))
        end
      else if c =? LF then
        readline_echo [c] echo ;;
        do! s := tget in
        (if echoing echo s then
           tset (λ s, set_hdl (let h := hdl s in
             Handler (history h ++ [line e]) (RUNSHELL h) (PROMPT h) (interact h) (more h) (console h)
               (old_stdout h)) s)
         else tret tt) ;;
        tret (Line (line e))
      else if (c =? 127) || (c =? 8) then edit_key echo KEY_BACKSPACE e
      else
        let t := if c <? 32 then unctrl c else [c] in
        readline_echo t echo ;;
        tret (Next (Editor (take (insptr e) (line e) ++ t ++ drop (insptr e) (line e))
                      (insptr e + length t) (histptr e)))
  end.

Fixpoint readline_loop (echo : option bool) (fuel : nat) (e : editor) : T St text :=
  match fuel with
  | O => twait
  | S n =>
      do! k := getc in
      do! r := edit echo k e in
      match r with
      | Line t => tret t
      | Next e' => readline_loop echo n e'
      end
  end.

(** Every turn takes a key off the queue and the queue being empty waits, so
    that one turn more than there are keys is never reached. *)
Definition readline (echo : option bool) : T St text :=
  do! s := tget in
  readline_loop echo (S (length (cookedq (inp s)))) (Editor [] 0 (length (history (hdl s)))).

(** ** Basic commands *)

Definition on_hdl (f : handler C → handler C) : T St unit := tset (λ s, set_hdl (f (hdl s)) s).

Definition stop_shell : T St unit :=
  on_hdl (λ h, Handler (history h) false (PROMPT h) (interact h) (more h) (console h) (old_stdout h)).

Definition doc_line (n : nat) (c : command) : text := tstrip (nth n (split_char LF [] (doc c)) []).

(** Long help: the lines from the third on, or the short text. *)
Definition doc_long (c : command) : text :=
  let docl := tstrip (replace_all [tab] [] 0
                (replace_all [LF; tab; tab] [32] 0 (join_char LF (drop 2 (split_char LF [] (doc c)))))) in
  if Nat.ltb (length docl) 4 then doc_line 1 c else docl.

Definition help_line (p : text * command) : text :=
  let docp := doc_line 0 p.2 in
  let docs := doc_line 1 p.2 in
  p.1 ++ [32] ++ (if Nat.ltb 0 (length docp) then docp ++ txt " - " ++ docs else txt "- " ++ docs).

Definition sorted_commands : list (text * command) :=
  omap (λ k, (λ c, (k, c)) <$> dget COMMANDS k) (merge_sort text_le (dkeys COMMANDS)).

Definition help_all : T St unit := tfor (λ p, writeline (help_line p)) sorted_commands.

Definition cmdHELP (params : list text) : T St unit :=
  match params with
  | p :: _ =>
      let cmd := upper_text p in
      match dget COMMANDS cmd with
      | Some c => writeline (cmd ++ [32] ++ doc_line 0 c ++ [LF; LF] ++ doc_long c)
      | None => writeline (txt "Command '" ++ cmd ++ txt "' not known") ;; help_all
      end
  | [] => writeline (txt "Help on built in commands" ++ [LF]) ;; help_all
  end.

Definition cmdEXIT : T St unit := stop_shell ;; writeline (txt "Goodbye").

(** [ord] of an element of a key sequence: the elements are integers. *)
Definition cmdDEBUG : T St unit :=
  do! s := tget in
  tfor (λ p, match p.1 with
             | [] => writeline (padded 10 (txt (default "" (dget KEYS p.2))) ++ txt " : ")
             | _ :: _ => traise ETypeError "ord() expected string of length 1, but int found"
             end) (ESCSEQ (opts s)).

Fixpoint history_lines (cnt : nat) (l : list text) : T St unit :=
  match l with
  | [] => tret tt
  | t :: l' => writeline (padded 5 (txt (pretty (S cnt))) ++ txt " : " ++ t) ;; history_lines (S cnt) l'
  end.

Definition cmdHISTORY : T St unit :=
  writeline (txt "Command history" ++ [LF]) ;;
  do! s := tget in
  history_lines 0 (history (hdl s)).

(** ** The commands of [TNH] *)

Definition cmdECHO (params : list text) : T St unit :=
  writeline (txt "Parameters:") ;;
  tfor (λ item, writeline (tab :: item)) params.

Definition cmdINTERACT : T St unit :=
  do! s := tget in
  on_hdl (λ h, Handler (history h) (RUNSHELL h) (txt "defw>>> ") true (more h) (Some new_console)
                 (Some (sys_stdout (prc s)))) ;;
  tset (λ s, set_prc (Process me (serving (prc s)) (CODES (prc s))) s).

(** [g_tns.stop()] *)
Definition server_stop : T St unit :=
  tset (λ s, set_prc (Process (sys_stdout (prc s)) false (CODES (prc s))) s).

Definition cmdSHUTDOWN : T St unit := server_stop ;; stop_shell ;; writeline (txt "Goodbye").

Definition run_command (c : command) (params : list text) : T St unit :=
  match c with
  | CmdDEBUG => cmdDEBUG
  | CmdECHO => cmdECHO params
  | CmdEXIT => cmdEXIT
  | CmdHELP => cmdHELP params
  | CmdHISTORY => cmdHISTORY
  | CmdINTERACT => cmdINTERACT
  | CmdSHUTDOWN => cmdSHUTDOWN
  end.

(** ** The command line processor *)

Definition quoted (t : text) : bool :=
  match t with c :: _ => (c =? 39) || (c =? 34) | [] => false end.

(** [t[0] == t[-1]] and [t[1:-1]] *)
Definition closed_quote (t : text) : bool := hd 0 t =? List.last t 0.
Definition inner (t : text) : text := removelast (tail t).

(** The loop that puts the words of a quoted parameter together *)
Fixpoint join_quotes (fuel idx : nat) (l : list text) : list text :=
  match fuel with
  | O => l
  | S n =>
      if Nat.ltb idx (length l - 1) then
        let item := nth idx l [] in
        if quoted item then
          let item' := item ++ [32] ++ nth (S idx) l [] in
          let l' := take idx l ++ item' :: drop (S (S idx)) l in
          if negb (closed_quote item') then join_quotes n idx l'
          else join_quotes n (S idx) (take idx l ++ inner item' :: drop (S (S idx)) l)
        else join_quotes n (S idx) l
      else l
  end.

(** [[item.strip() for item in line.split()]] and the loop *)
Definition parse_line (t : text) : list text :=
  let l := map tstrip (words t) in join_quotes (length l) 0 l.

Definition handleException (e : pyexc) : T St bool :=
  writeline (format_exception e) ;; tret true.

(** The command line [t] is run; whether the loop of [handle] is left. *)
Definition run_line (t : text) : T St bool :=
  match parse_line t with
  | [] => tret false
  | c :: params =>
      let cmd := upper_text c in
      match dget COMMANDS cmd with
      | Some k => ttry (run_command k params ;; tret false) handleException
      | None => write (txt "Unknown command '" ++ cmd ++ txt "'" ++ [LF]) ;; tret false
      end
  end.

(** The log-in dialogue; whether the session goes on. *)
Definition authenticate : T St bool :=
  match authCallback with
  | None => tret true
  | Some f =>
      do! username := (if authNeedUser then
                         do! s := tget in
                         (if DOECHO (opts s) then write (txt "Username: ") else tret tt) ;;
                         do! t := readline (Some false) in tret (Some t)
                       else tret None) in
      do! password := (if authNeedPass then
                         do! s := tget in
                         (if DOECHO (opts s) then write (txt "Password: ") else tret tt) ;;
                         do! t := readline (Some false) in
                         do! s := tget in
                         (if DOECHO (opts s) then write [LF] else tret tt) ;;
                         tret (Some t)
                       else tret None) in
      tret (f username password)
  end.

Definition prompt : T St unit :=
  do! s := tget in
  if DOECHO (opts s) then write (PROMPT (hdl s)) else tret tt.

(** One turn of [TelnetHandler.handle]; whether the loop is left. *)
Definition base_turn : T St bool :=
  prompt ;;
  do! t := readline (Some false) in
  run_line t.

(** [raw_input] of [TNH] *)
Definition raw_input : T St text := readline (Some false).

(** A line in interactive mode *)
Definition interactive_line (t : text) : T St bool :=
  do! s := tget in
  if negb (more (hdl s)) && bool_decide (t = txt "logout" ∨ t = txt "quit" ∨ t = txt "exit") then
    on_hdl (λ h, Handler (history h) (RUNSHELL h) (txt "defw### ") false (more h) (console h)
                   (old_stdout h)) ;;
    tset (λ s, set_prc (Process (default (sys_stdout (prc s)) (old_stdout (hdl s))) (serving (prc s))
                          (CODES (prc s))) s) ;;
    tret false
  else
    match console (hdl s) with
    | None => traise EAttributeError "'NoneType' object has no attribute 'push'"
    | Some c =>
        let '(c', texts, r) := console_push t c in
        on_hdl (λ h, Handler (history h) (RUNSHELL h) (PROMPT h) (interact h) (more h) (Some c')
                       (old_stdout h)) ;;
        tfor write texts ;;
        match r with
        | Pushed m =>
            on_hdl (λ h, Handler (history h) (RUNSHELL h) (txt (if m then "defw... " else "defw>>> "))
                           (interact h) m (console h) (old_stdout h)) ;;
            tret false
        | Interrupted =>
            write ([LF] ++ txt "KeyboardInterrupt" ++ [LF]) ;;
            on_hdl (λ h, Handler (history h) (RUNSHELL h) (PROMPT h) (interact h) false
                           (resetbuffer <$> console h) (old_stdout h)) ;;
            tret false
        | PushFails e => treraise e
        end
    end.

(** One turn of [TNH.handle] *)
Definition turn : T St bool :=
  prompt ;;
  do! s := tget in
  if negb (interact (hdl s)) then
    do! t := readline (Some false) in run_line t
  else
    do! t := raw_input in interactive_line t.

(** [while self.RUNSHELL]; out of fuel it waits, which [handle] never is. *)
Fixpoint shell_loop (one_turn : T St bool) (fuel : nat) : T St unit :=
  do! s := tget in
  if RUNSHELL (hdl s) then
    match fuel with
    | O => twait
    | S n => do! leave := one_turn in
             if leave : bool then tret tt else shell_loop one_turn n
    end
  else tret tt.

Definition handle_with (one_turn : T St bool) : T St unit :=
  do! go := authenticate in
  if go : bool then
    do! s := tget in
    shell_loop one_turn (S (length (cookedq (inp s))))
  else tret tt.

Definition base_handle : T St unit := handle_with base_turn.
Definition handle : T St unit := handle_with turn.

Definition finish : T St unit := λ s, (Tn (opts s) (inp s) (outp s) (hdl s) (prc s) false, Done tt).

(** [BaseRequestHandler.__init__] once the input has been cooked *)
Definition serve : T St unit :=
  λ s, match handle s with
       | (s', Waits) => (s', Waits)
       | (s', r) => ((finish s').1, r)
       end.

(** The state [TNH.__init__] leaves before the session is set up: the
    attribute DOECHO it clears is set again by [TelnetHandler.__init__]. *)
Definition new_handler (p : process) (n : list packet) : St :=
  Tn (Options true [] [] (txt "ansi") []) (Input [] [] [] false [] false n) (Output false [])
    (Handler [] true (txt "defw### ") false false None None) p true.
End Shell.
