(* ===== verification/TelnetFacts.v ===== *)
(** * Properties of the telnet console's wire

    UTF-8 round trips and never yields the byte of a telnet command; the cooker
    reads back what [write] wrote; every option is negotiated at most once. *)

From S2P Require Import Prelude PyDict Telnet.

Local Open Scope Z_scope.
Local Open Scope list_scope.
Import TelnetNotations.
Local Open Scope telnet_scope.

(** ** UTF-8 *)

Local Ltac Zify.zify_post_hook ::= Z.to_euclidean_division_equations.

(** Decide the comparisons of a goal with the arithmetic of its context. *)
Ltac decide_ltb :=
  repeat match goal with
         | |- context [?a <? ?b] =>
             first [replace (a <? b) with true by (symmetry; apply Z.ltb_lt; lia)
                   | replace (a <? b) with false by (symmetry; apply Z.ltb_ge; lia)]
         | |- context [?a <=? ?b] =>
             first [replace (a <=? b) with true by (symmetry; apply Z.leb_le; lia)
                   | replace (a <=? b) with false by (symmetry; apply Z.leb_gt; lia)]
         end.

Lemma utf8_char_cases c b :
  utf8_char c = Some b →
  (0 ≤ c < 128 ∧ b = [c]) ∨
  (128 ≤ c < 2048 ∧ b = [192 + c / 64; 128 + c mod 64]) ∨
  (2048 ≤ c < 65536 ∧ ¬ (55296 ≤ c < 57344) ∧
     b = [224 + c / 4096; 128 + c / 64 mod 64; 128 + c mod 64]) ∨
  (65536 ≤ c < 1114112 ∧
     b = [240 + c / 262144; 128 + c / 4096 mod 64; 128 + c / 64 mod 64; 128 + c mod 64]).
Proof.
  unfold utf8_char.
  destruct (Z.ltb_spec c 0); [done|]. destruct (Z.ltb_spec c 128); [intros [= <-]; left; done|].
  destruct (Z.ltb_spec c 2048); [intros [= <-]; right; left; done|].
  destruct (Z.ltb_spec c 65536).
  - destruct (Z.leb_spec 55296 c), (Z.ltb_spec c 57344); simpl; try done; intros [= <-]; right; right; left;
      (split_and!; [lia | lia | lia | done]).
  - destruct (Z.ltb_spec c 1114112); [|done]. intros [= <-]. right; right; right. done.
Qed.

Lemma utf8_char_decode c b rest :
  utf8_char c = Some b → utf8_decode (b ++ rest) = cons c <$> utf8_decode rest.
Proof.
  intros [[Hc ->]|[[Hc ->]|[(Hc & Hs & ->)|[Hc ->]]]]%utf8_char_cases; cbn [app utf8_decode]; unfold cont.
  - by decide_ltb.
  - decide_ltb. cbn [andb]. do 2 f_equal. lia.
  - decide_ltb. cbn [andb]. 
    replace ((224 + c / 4096 - 224) * 4096 + (128 + c / 64 mod 64 - 128) * 64 + (128 + c mod 64 - 128)) with c by lia.
    destruct (Z.leb_spec 2048 c); [|lia].
    destruct (Z.leb_spec 55296 c), (Z.ltb_spec c 57344); done || lia.
  - decide_ltb. cbn [andb].
    replace ((240 + c / 262144 - 240) * 262144 + (128 + c / 4096 mod 64 - 128) * 4096 +
             (128 + c / 64 mod 64 - 128) * 64 + (128 + c mod 64 - 128)) with c by lia.
    by decide_ltb.
Qed.

Lemma utf8_roundtrip t b : utf8_encode t = Some b → utf8_decode b = Some t.
Proof.
  revert b; induction t as [|c t IH]; intros b; simpl; [by intros [= <-]|].
  destruct (utf8_char c) as [bc|] eqn:Ec; [|done]. destruct (utf8_encode t) as [bt|]; [|done].
  intros [= <-]. by rewrite (utf8_char_decode c), IH.
Qed.

Lemma utf8_char_bytes c b : utf8_char c = Some b → Forall (λ x, 0 ≤ x < 245) b ∧ b ≠ [].
Proof.
  intros [[Hc ->]|[[Hc ->]|[(Hc & Hs & ->)|[Hc ->]]]]%utf8_char_cases; (split; [|done]);
    repeat constructor; lia.
Qed.

Lemma utf8_bytes t b : utf8_encode t = Some b → Forall (λ x, 0 ≤ x < 245) b.
Proof.
  revert b; induction t as [|c t IH]; intros b; simpl; [intros [= <-]; constructor|].
  destruct (utf8_char c) as [bc|] eqn:Ec; [|done]. destruct (utf8_encode t) as [bt|]; [|done].
  intros [= <-]. apply Forall_app; split; [by eapply utf8_char_bytes | by apply IH].
Qed.

Lemma utf8_nonempty t b : utf8_encode t = Some b → t ≠ [] → b ≠ [].
Proof.
  destruct t as [|c t]; simpl; [done|]. destruct (utf8_char c) as [bc|] eqn:Ec; [|done].
  destruct (utf8_encode t); [|done]. intros [= <-] _. apply utf8_char_bytes in Ec as [_ Hne]. by destruct bc.
Qed.

(** ** What the client sends *)

(** The packets [n] carry the text [t], cut between characters, each packet
    there when the cooker looks for it. *)
Inductive delivers : list packet → text → Prop :=
  | delivers_nil : delivers [] []
  | delivers_cons t b n t' :
      utf8_encode t = Some b → t ≠ [] → delivers n t' → delivers (Packet true b :: n) (t ++ t').

(** What the cooker has still to read. *)
Definition feeds (i : input) (t : text) : Prop := ∃ t', delivers (net i) t' ∧ rawq i ++ t' = t.

(** Outside commands and subnegotiations *)
Definition idle (i : input) : Prop := iacseq i = [] ∧ sb i = false.

Lemma raw_getc_delivers block raw e n t c u :
  delivers n t → raw ++ t = c :: u →
  ∃ raw' e' n' t', raw_getc block raw e n = (raw', e', n', Done (Some c)) ∧ delivers n' t' ∧ raw' ++ t' = u.
Proof.
  intros Hd Ht. destruct raw as [|c' raw'].
  - destruct Hd as [|t1 b n t' Hb Hne Hd]; [done|]. destruct n; 
      cbn [raw_getc]; rewrite andb_false_r; pose proof (utf8_nonempty _ _ Hb Hne);
      (destruct b as [|b0 bs]; [done|]); cbn [data];
      pose proof (utf8_bytes _ _ Hb) as [Hb0 _]%Forall_cons;
      (destruct (Z.eqb_spec b0 255); [lia|]);
      rewrite (utf8_roundtrip _ _ Hb);
      (destruct t1 as [|c1 t1]; [done|]); injection Ht as <- <-;
      eexists _, _, _, _; split_and!; done.
  - injection Ht as <- <-. destruct n; simpl; eexists _, _, _, _; done.
Qed.

Lemma delivers_nothing n : delivers n [] → n = [].
Proof.
  remember [] as u eqn:Hu. destruct 1 as [|t b n t' Hb Hne Hd]; [done|]. by apply app_eq_nil in Hu as [? _].
Qed.

Section Cooker.
Context {C : Type}.
Local Abbreviation St := (tn C).
Context (sock_takes : list text → bool) (terminfo : text → option terminal).
Local Abbreviation cook_step := (cook_step (C := C) sock_takes terminfo).
Local Abbreviation inputcooker_loop := (inputcooker_loop (C := C) sock_takes terminfo).

Lemma getc_feeds block (s : St) c u :
  feeds (inp s) (c :: u) →
  ∃ i', inputcooker_getc block s = (set_inp i' s, Done (Some c)) ∧ feeds i' u ∧
    cookedq i' = cookedq (inp s) ∧ sbdataq i' = sbdataq (inp s) ∧ iacseq i' = iacseq (inp s) ∧ sb i' = sb (inp s).
Proof.
  intros (t & Hd & Ht). unfold inputcooker_getc.
  destruct (raw_getc_delivers block (rawq (inp s)) (eof (inp s)) (net (inp s)) t c u Hd Ht)
    as (raw' & e' & n' & t' & -> & Hd' & Hu).
  eexists. split; [reflexivity|]. split; [by exists t' | done].
Qed.

Lemma getc_exhausted (s : St) :
  feeds (inp s) [] → ∃ i', inputcooker_getc true s = (set_inp i' s, Waits) ∧ feeds i' [] ∧
    cookedq i' = cookedq (inp s) ∧ iacseq i' = iacseq (inp s) ∧ sb i' = sb (inp s).
Proof.
  intros (t & Hd & [Hr ->]%app_eq_nil). unfold inputcooker_getc. rewrite Hr.
  rewrite (delivers_nothing _ Hd). simpl. eexists. split; [reflexivity|]. split_and!; try done.
  exists []. split; [constructor | done].
Qed.

Lemma no_key_sequence c o : starts_key_sequence c o = false.
Proof. unfold starts_key_sequence. induction (ESCSEQ o) as [|[[|b bs] k] l IH]; done. Qed.

(** What reading one character of a written text does. *)
Definition cooked_as (s : St) (u : text) (ks : list key) (fuel : nat) : Prop :=
  ∃ i', (∀ n, inputcooker_loop (fuel + n) s = inputcooker_loop n (set_inp i' s)) ∧
    feeds i' u ∧ idle i' ∧ cookedq i' = cookedq (inp s) ++ ks.

Lemma loop_step n (s s' : St) :
  cook_step s = (s', Done tt) → inputcooker_loop (S n) s = inputcooker_loop n s'.
Proof. intros E. simpl. unfold tbind. by rewrite E. Qed.

Lemma cook_plain (s : St) c u :
  idle (inp s) → feeds (inp s) (c :: u) → c ≠ IAC → c ≠ CR → cooked_as s u [KChar c] 1.
Proof.
  intros [Hi Hsb] Hf Hc1 Hc2. destruct (getc_feeds true s c u Hf) as (i1 & E & Hf1 & Hq & Hd & Hi1 & Hs1).
  rewrite Hi in Hi1. rewrite Hsb in Hs1.
  exists (set_cookedq (cookedq i1 ++ [KChar c]) i1). split_and!; [|done | done | simpl; by rewrite Hq].
  intros n. apply loop_step. unfold Telnet.cook_step, tbind. rewrite E. unfold tget. simpl.
  rewrite Hi1. unfold cook_char, tbind, tget. simpl.
  destruct (Z.eqb_spec c IAC); [done|]. destruct (Z.eqb_spec c CR); [done|]. simpl.
  rewrite no_key_sequence. simpl. unfold inputcooker_store, on_inp, tset. simpl. by rewrite Hs1.
Qed.

Lemma cook_crlf (s : St) u :
  idle (inp s) → feeds (inp s) (CR :: LF :: u) → cooked_as s u [KChar LF] 1.
Proof.
  intros [Hi Hsb] Hf. destruct (getc_feeds true s CR (LF :: u) Hf) as (i1 & E & Hf1 & Hq & Hd & Hi1 & Hs1).
  destruct (getc_feeds false (set_inp i1 s) LF u Hf1) as (i2 & E2 & Hf2 & Hq2 & Hd2 & Hi2 & Hs2).
  simpl in Hq2, Hi2, Hs2. rewrite Hi in Hi1. rewrite Hsb in Hs1.
  exists (set_cookedq (cookedq i2 ++ [KChar LF]) i2).
  split_and!; [|done | by split; simpl; congruence | simpl; by rewrite Hq2, Hq].
  intros n. apply loop_step. unfold Telnet.cook_step, tbind. rewrite E. unfold tget. simpl.
  rewrite Hi1. unfold cook_char, tbind, tget. simpl. rewrite Hs1. simpl. rewrite E2. simpl.
  unfold inputcooker_store, on_inp, tset. simpl. by rewrite Hs2, Hs1.
Qed.

Lemma cook_iac (s : St) u :
  idle (inp s) → feeds (inp s) (IAC :: IAC :: u) → cooked_as s u [KChar IAC] 2.
Proof.
  intros [Hi Hsb] Hf. destruct (getc_feeds true s IAC (IAC :: u) Hf) as (i1 & E & Hf1 & Hq & Hd & Hi1 & Hs1).
  set (j := set_iacseq (iacseq i1 ++ [IAC]) i1).
  destruct (getc_feeds true (set_inp j s) IAC u Hf1) as (i2 & E2 & Hf2 & Hq2 & Hd2 & Hi2 & Hs2).
  simpl in Hq2, Hi2, Hs2. rewrite Hi in Hi1. rewrite Hsb in Hs1. rewrite Hi1 in Hi2.
  exists (set_cookedq (cookedq i2 ++ [KChar IAC]) (set_iacseq [] i2)).
  split_and!; [|done | by split; simpl; congruence | simpl; by rewrite Hq2, Hq].
  assert (cook_step s = (set_inp j s, Done tt)) as E3.
  { unfold Telnet.cook_step, tbind. rewrite E. unfold tget. simpl. rewrite Hi1. done. }
  intros n. change (2 + n)%nat with (S (S n)). rewrite (loop_step _ _ _ E3). apply loop_step.
  unfold Telnet.cook_step, tbind. rewrite E2. unfold tget. simpl.
  rewrite Hi2. simpl. unfold cook_command, tbind, on_inp, tset. simpl.
  unfold inputcooker_store, on_inp, tset. simpl. by rewrite Hs2, Hs1.
Qed.

Lemma cook_output_cons c t :
  cook_output (c :: t) =
  (if c =? IAC then [IAC; IAC] else if c =? LF then [CR; LF] else [c]) ++ cook_output t.
Proof.
  unfold cook_output, replace_char. simpl. rewrite flat_map_app. f_equal.
  destruct (Z.eqb_spec c IAC) as [->|]; [done|]. simpl. by destruct (c =? LF).
Qed.

(** A written text is read back, and the cooker waits for more. *)
Lemma cook_written (t : text) (s : St) n :
  idle (inp s) → feeds (inp s) (cook_output t) → CR ∉ t → (length (cook_output t) < n)%nat →
  ∃ i', inputcooker_loop n s = (set_inp i' s, Waits) ∧ idle i' ∧
        cookedq i' = cookedq (inp s) ++ map KChar t.
Proof.
  revert s n. induction t as [|c t IH]; intros s n Hi Hf Hcr Hn.
  - destruct n as [|n]; [simpl in Hn; lia|]. destruct (getc_exhausted s Hf) as (i' & E & _ & Hq & Hi' & Hs').
    exists i'. split_and!; [|by destruct Hi; split; congruence | simpl; by rewrite app_nil_r].
    simpl. unfold tbind, Telnet.cook_step, tbind. by rewrite E.
  - apply not_elem_of_cons in Hcr as [Hc Hcr]. rewrite cook_output_cons in Hf, Hn.
    rewrite length_app in Hn.
    assert (∃ fuel, (fuel <= length (if c =? IAC then [IAC; IAC] else if c =? LF then [CR; LF] else [c])%Z)%nat ∧
              cooked_as s (cook_output t) [KChar c] fuel) as (fuel & Hfuel & i1 & E & Hf1 & Hi1 & Hq1).
    { destruct (Z.eqb_spec c IAC) as [->|]; [exists 2%nat; split; [done | by apply cook_iac]|].
      destruct (Z.eqb_spec c LF) as [->|]; [exists 1%nat; split; [simpl; lia | by apply cook_crlf]|].
      exists 1%nat; split; [done | by apply cook_plain]. }
    destruct (IH (set_inp i1 s) (n - fuel)%nat Hi1 Hf1 Hcr) as (i2 & E2 & Hi2 & Hq2); [lia|].
    exists i2. split_and!; [|done | rewrite Hq2; simpl; by rewrite Hq1, <- app_assoc].
    replace n with (fuel + (n - fuel))%nat by lia. by rewrite E, E2.
Qed.

(** [write] that returns has sent the cooked text. *)
Lemma write_sent (s s' : St) t :
  write sock_takes t s = (s', Done tt) →
  s' = set_outp (Output false (sent (outp s) ++ [cook_output t])) s.
Proof.
  unfold write, writecooked, tbind, tget. destruct (OQUEUELOCK (outp s)); [done|]. simpl.
  destruct (utf8_encode (cook_output t)); [|done]. destruct (sock_takes _); [|done]. by intros [= <-].
Qed.

(** A text that one side writes is the text the other side reads: the
    characters [write] sent, cut into packets between any two characters, are
    cooked to exactly the keys of the text, telnet's escape character and line
    ends included, after which the cooker waits for more without having sent
    or changed anything else. *)
Theorem written_text_is_read (s s' c : St) (t : text) (fuel : nat) :
  write sock_takes t s = (s', Done tt) → delivers (net (inp c)) (List.last (sent (outp s')) []) →
  rawq (inp c) = [] → idle (inp c) → CR ∉ t → (2 * length t < fuel)%nat →
  ∃ i', inputcooker sock_takes terminfo fuel c = (set_inp i' c, Waits) ∧ idle i' ∧
        cookedq i' = cookedq (inp c) ++ map KChar t.
Proof.
  intros ->%write_sent Hd Hraw Hi Hcr Hfuel. simpl in Hd. rewrite List.last_last in Hd.
  assert (length (cook_output t) ≤ 2 * length t)%nat.
  { clear. induction t as [|c t IH]; [done|]. rewrite cook_output_cons, length_app. simpl length at 3.
    destruct (c =? IAC), (c =? LF); simpl; lia. }
  destruct (cook_written t c fuel Hi) as (i' & E & Hi' & Hq); [|done | lia|].
  { exists (cook_output t). by rewrite Hraw. }
  exists i'. split_and!; [|done | done]. unfold inputcooker. by rewrite E.
Qed.
End Cooker.

(** ** Computations that keep a property of the state *)

Definition keeps {S A} (P : S → Prop) (m : T S A) : Prop := ∀ s, P s → P (m s).1.

Create HintDb keeps discriminated.

Section Keeps.
Context {S : Type} (P : S → Prop).

Lemma tkeeps_ret {A} (a : A) : keeps P (tret a).
Proof. by intros s. Qed.
Lemma tkeeps_raise {A} c msg : keeps P (traise (A := A) c msg).
Proof. by intros s. Qed.
Lemma tkeeps_reraise {A} e : keeps P (treraise (A := A) e).
Proof. by intros s. Qed.
Lemma tkeeps_wait {A} : keeps P (twait (A := A)).
Proof. by intros s. Qed.
Lemma tkeeps_get : keeps P tget.
Proof. by intros s. Qed.
Lemma tkeeps_bind {A B} (m : T S A) (k : A → T S B) :
  keeps P m → (∀ a, keeps P (k a)) → keeps P (tbind m k).
Proof.
  intros Hm Hk s Hs. unfold tbind. specialize (Hm s Hs).
  destruct (m s) as [s' [a|e|]]; [by apply Hk | done | done].
Qed.
Lemma tkeeps_try {A} (m : T S A) h : keeps P m → (∀ e, keeps P (h e)) → keeps P (ttry m h).
Proof.
  intros Hm Hh s Hs. unfold ttry. specialize (Hm s Hs).
  destruct (m s) as [s' [a|e|]]; [done | by apply Hh | done].
Qed.
Lemma tkeeps_for {A} (f : A → T S unit) l : (∀ x, x ∈ l → keeps P (f x)) → keeps P (tfor f l).
Proof.
  induction l as [|x l IH]; intros Hf; simpl; [apply tkeeps_ret|].
  apply tkeeps_bind; [apply Hf; by left|]. intros _. apply IH. intros y Hy. apply Hf. by right.
Qed.
End Keeps.

#[export] Hint Resolve tkeeps_ret tkeeps_raise tkeeps_reraise tkeeps_wait tkeeps_get tkeeps_try : keeps.

(** Case analysis down to the leaves of a computation. *)
Ltac keeps_step :=
  match goal with
  | |- keeps _ (tbind _ _) => apply tkeeps_bind; [|intros ?]
  | |- keeps _ (ttry _ _) => apply tkeeps_try; [|intros ?]
  | |- keeps _ (tfor _ _) => apply tkeeps_for; intros ? ?
  | |- keeps _ (match ?x with _ => _ end) => destruct x
  | |- keeps _ (let '(_, _) := ?x in _) => destruct x
  end.
Ltac keeps_tac := repeat (auto with keeps nocore; keeps_step); auto with keeps nocore.

(** ** Option negotiation *)

(** The option commands among the texts sent *)
Definition command_of (t : text) : option (Z * Z) :=
  match t with
  | [i; v; o] => if (i =? IAC) && is_verb v then Some (v, o) else None
  | _ => None
  end.
Definition commands (l : list text) : list (Z * Z) := omap command_of l.

(** DO and DONT ask the client, WILL and WONT tell it. *)
Definition asks (v : Z) : bool := (v =? DO) || (v =? DONT).
(** The answer the tables give for an option *)
Definition answer (ask : bool) (o : Z) : Z :=
  if ask then default DONT (dget WILLACK o) else default WONT (dget DOACK o).

Lemma command_of_cooked t : command_of (cook_output t) = None.
Proof.
  destruct t as [|c t]; [done|]. rewrite cook_output_cons.
  destruct (Z.eqb_spec c IAC) as [->|Hc].
  - simpl. destruct (cook_output t) as [|x [|]]; done.
  - destruct (Z.eqb_spec c LF) as [->|]; simpl.
    + destruct (cook_output t) as [|x [|]]; done.
    + destruct (cook_output t) as [|x [|y [|]]]; try done. by destruct (Z.eqb_spec c IAC).
Qed.

Lemma answer_cases ask o :
  answer ask o = (if ask then DO else WILL) ∨ answer ask o = (if ask then DONT else WONT).
Proof.
  unfold answer, DOACK, WILLACK. simpl. destruct ask; repeat case_decide; by (left + right).
Qed.

Lemma answer_verb ask o : is_verb (answer ask o) = true ∧ asks (answer ask o) = ask.
Proof. by destruct (answer_cases ask o) as [-> | ->], ask. Qed.

Section Negotiation.
Context {C : Type}.
Local Abbreviation St := (tn C).
Context (sock_takes : list text → bool) (terminfo : text → option terminal).

(** The commands sent so far are the tables' answers, each sent once, and the
    session remembers them. *)
Definition negotiated (s : St) : Prop :=
  NoDup (commands (sent (outp s))) ∧
  ∀ v o, (v, o) ∈ commands (sent (outp s)) →
    v = answer (asks v) o ∧
    dget (if asks v then DOOPTS (opts s) else WILLOPTS (opts s)) o =
      Some (Some (if asks v then v =? DO else v =? WILL)).

Lemma writecooked_cases t (s : St) :
  (writecooked sock_takes t s).1 = s ∨ (writecooked sock_takes t s).1 = set_outp (Output true (sent (outp s))) s ∨
  (writecooked sock_takes t s).1 = set_outp (Output false (sent (outp s) ++ [t])) s.
Proof.
  unfold writecooked, tbind, tget. destruct (OQUEUELOCK (outp s)); [by left|]. simpl.
  destruct (utf8_encode t); [|by right; left]. destruct (sock_takes _); right; by (left + right).
Qed.

Lemma commands_app l t : commands (l ++ [t]) = commands l ++ option_list (command_of t).
Proof. unfold commands. rewrite omap_app. simpl. by destruct (command_of t). Qed.

Lemma keeps_writecooked t : command_of t = None → keeps negotiated (writecooked sock_takes t).
Proof.
  intros Ht s Hs. destruct (writecooked_cases t s) as [-> | [-> | ->]]; [done | done|].
  unfold negotiated. simpl. rewrite commands_app, Ht. simpl. by rewrite app_nil_r.
Qed.

Lemma keeps_write t : keeps negotiated (write sock_takes t).
Proof. apply keeps_writecooked, command_of_cooked. Qed.
Lemma keeps_writeline t : keeps negotiated (writeline sock_takes t).
Proof. apply keeps_write. Qed.

(** A change that leaves options and output alone. *)
Lemma keeps_set f : (∀ s, opts (f s) = opts s ∧ outp (f s) = outp s) → keeps negotiated (tset f).
Proof. intros Hf s. unfold negotiated. simpl. by destruct (Hf s) as [-> ->]. Qed.
Lemma keeps_on_inp f : keeps negotiated (on_inp f).
Proof. by apply keeps_set. Qed.

(** The options of one direction *)
Definition side (ask : bool) (o : options) : odict Z (option bool) := if ask then DOOPTS o else WILLOPTS o.
Definition set_side (ask : bool) (d : odict Z (option bool)) : options → options :=
  if ask then set_DOOPTS d else set_WILLOPTS d.
Definition positive (ask : bool) (v : Z) : bool := if ask then v =? DO else v =? WILL.

Lemma side_set ask ask' d o : side ask' (set_side ask d o) = if Bool.eqb ask ask' then d else side ask' o.
Proof. by destruct ask, ask'. Qed.

Lemma sendcommand_answer ask o :
  sendcommand (C := C) sock_takes (answer ask o) o =
  (on_opts (λ q, set_side ask (dsetdefault (side ask q) o None) q) ;;
   do! s := tget in
   if bool_decide (dget (side ask (opts s)) o ≠ Some (Some (positive ask (answer ask o)))) then
     on_opts (λ q, set_side ask (dset (side ask q) o (Some (positive ask (answer ask o)))) q) ;;
     writecooked sock_takes [IAC; answer ask o; o]
   else tret tt).
Proof.
  by destruct (answer_cases ask o) as [-> | ->], ask.
Qed.

Lemma negotiated_side ask d (s : St) :
  negotiated s →
  (∀ v o, (v, o) ∈ commands (sent (outp s)) → asks v = ask → dget d o = Some (Some (positive ask v))) →
  negotiated (set_opts (set_side ask d (opts s)) s).
Proof.
  intros [Hnd Hin] Hd. split; [done|]. intros v o Hvo. destruct (Hin v o Hvo) as [Hv Hg]. split; [done|].
  fold (side (asks v) (opts (set_opts (set_side ask d (opts s)) s))). simpl. rewrite side_set.
  destruct (Bool.eqb_spec ask (asks v)) as [->|]; [by apply Hd | done].
Qed.

(** Sending the answer of the tables. *)
Lemma keeps_sendcommand ask o : keeps negotiated (sendcommand sock_takes (answer ask o) o).
Proof.
  destruct (answer_verb ask o) as [Hv Ha]. rewrite sendcommand_answer. set (v := answer ask o) in *.
  intros s Hs. unfold tbind at 1, on_opts at 1, tset.
  set (s1 := set_opts _ s).
  assert (negotiated s1 ∧ ((v, o) ∈ commands (sent (outp s)) →
            dget (side ask (opts s1)) o = Some (Some (positive ask v)))) as [Hs1 Hnew].
  { pose proof Hs as [_ Hin]. split.
    - apply negotiated_side; [done|]. intros v' o' Hvo <-. rewrite dget_dsetdefault. destruct (Hin _ _ Hvo) as [_ Hg].
      unfold side. case_decide as Ho; [subst o'|]; by rewrite Hg.
    - intros Hvo. simpl. rewrite side_set, Bool.eqb_reflx. rewrite dget_dsetdefault.
      destruct (Hin _ _ Hvo) as [_ Hg]. rewrite Ha in Hg. unfold side. case_decide; by rewrite Hg. }
  unfold tbind at 1, tget at 1. case_bool_decide as Hne; [|done].
  unfold tbind, on_opts, tset. set (s2 := set_opts _ s1).
  assert ((v, o) ∉ commands (sent (outp s2))) as Hnot by (intros Hvo; by apply Hne, Hnew).
  assert (negotiated s2 ∧ dget (side ask (opts s2)) o = Some (Some (positive ask v))) as [Hs2 Hg].
  { split.
    - apply negotiated_side; [done|]. intros v' o' Hvo Hask. destruct Hs1 as [_ Hin].
      destruct (Hin _ _ Hvo) as [Hv' Hg']. rewrite Hask in *. rewrite dget_dset. case_decide as Ho; [|done].
      subst o'. by rewrite Hv'.
    - simpl. rewrite side_set, Bool.eqb_reflx. apply dget_dset_eq. }
  clearbody s2. destruct (writecooked_cases [IAC; v; o] s2) as [-> | [-> | ->]]; [done | done|].
  destruct Hs2 as [Hnd Hin]. unfold negotiated. simpl. rewrite commands_app. simpl. rewrite Hv. simpl. split.
  - apply NoDup_app. split_and!; [done | | apply NoDup_singleton]. intros x Hx Hx'%list_elem_of_singleton. subst x. by apply Hnot.
  - intros v' o' [H|[= -> ->]%list_elem_of_singleton]%elem_of_app; [by apply Hin|]. by rewrite Ha.
Qed.

Lemma keeps_setterm t : keeps negotiated (setterm terminfo t).
Proof. unfold setterm. destruct (terminfo t); by intros s. Qed.

Lemma keeps_read_sb : keeps negotiated read_sb_data.
Proof. apply tkeeps_bind; [apply tkeeps_get | by intros s s']. Qed.

Lemma keeps_getc block : keeps negotiated (inputcooker_getc block).
Proof.
  intros s Hs. unfold inputcooker_getc. by destruct (raw_getc _ _ _ _) as [[[raw e] n] o].
Qed.

Lemma keeps_echo b : keeps negotiated (on_opts (set_DOECHO b)).
Proof. by intros s. Qed.

Local Hint Resolve keeps_writecooked keeps_write keeps_on_inp keeps_setterm keeps_read_sb keeps_getc
  keeps_echo : keeps.

Lemma keeps_options_handler cmd opt : keeps negotiated (options_handler sock_takes terminfo cmd opt).
Proof.
  pose proof (keeps_sendcommand true opt) as Ht. pose proof (keeps_sendcommand false opt) as Hf.
  pose proof (keeps_writecooked [IAC; NOP] eq_refl). pose proof (keeps_writecooked [IAC; SB; TTYPE; SEND; IAC; SE] eq_refl).
  unfold answer in Ht, Hf. unfold options_handler. change (sendcommand sock_takes NOP NOOPT) with
    (writecooked (C := C) sock_takes [IAC; NOP]). keeps_tac.
Qed.

Lemma keeps_cook_step : keeps negotiated (cook_step sock_takes terminfo).
Proof.
  pose proof keeps_options_handler. unfold cook_step, cook_char, cook_command, match_key_sequence, inputcooker_store,
    inputcooker_ungetc. keeps_tac.
Qed.

Lemma keeps_setup : keeps negotiated (setup sock_takes terminfo).
Proof.
  unfold setup. keeps_tac.
  - replace (x.2) with (answer false x.1); [apply keeps_sendcommand|]. set_unfold. naive_solver.
  - replace (x.2) with (answer true x.1); [apply keeps_sendcommand|]. set_unfold. naive_solver.
Qed.
End Negotiation.

(** ** On the wire *)

(** The bytes of the texts sent *)
Definition wire (l : list text) : bytes := concat (map (λ t, default [] (utf8_encode t)) l).

(** The escape character is sent as UTF-8, so that its byte, which starts
    every telnet command, never reaches the client: the negotiation is seen
    there as text. *)
Theorem no_command_on_wire l : 255 ∉ wire l.
Proof.
  unfold wire. intros (b & Hb & H)%concat_In. apply list_map_In in Hb as (t & _ & ->).
  destruct (utf8_encode t) as [b|] eqn:E; [|by apply elem_of_nil in H]. simpl in H.
  apply utf8_bytes in E. rewrite Forall_forall in E. specialize (E _ H). lia.
Qed.

(** A client that sends a command as the telnet protocol defines it, in a
    packet of its own, ends the cooker as if the stream had ended. *)
Theorem command_bytes_end_cooker {C} sock_takes terminfo n b (s : tn C) fuel :
  rawq (inp s) = [] → net (inp s) = Packet true (255 :: b) :: n →
  ∃ i', inputcooker sock_takes terminfo (S fuel) s = (set_inp i' s, Done tt) ∧ eof i' = false.
Proof.
  intros Hr Hn. unfold inputcooker. simpl. unfold cook_step, tbind, inputcooker_getc.
  rewrite Hr, Hn. simpl. eexists. split; [reflexivity | done].
Qed.
