(* ===== verification/TelnetShellFacts.v ===== *)
(** * Properties of the telnet console's shell

    The option invariant over whole sessions; the line editor refines a text
    with a cursor; quoted parameters are put together; a session's loop ends or
    waits for input; and what a user types is what runs. *)

From S2P Require Import Prelude PyDict Telnet TelnetShell TelnetFacts.

Local Open Scope Z_scope.
Local Open Scope list_scope.
Import TelnetNotations.
Local Open Scope telnet_scope.

Section ShellFacts.
Context {C : Type}.
Local Abbreviation St := (tn C).
Context (sock_takes : list text → bool) (terminfo : text → option terminal).
Context (upper_wide : Z → text) (format_exception : pyexc → text).
Context (new_console : C) (console_push : text → C → C * list text * pushed) (resetbuffer : C → C).
Context (me : nat) (COMMANDS : odict text command).
Context (authCallback : option (option text → option text → bool)) (authNeedUser authNeedPass : bool).

Local Abbreviation turn :=
  (turn sock_takes upper_wide format_exception new_console console_push resetbuffer me COMMANDS).
Local Abbreviation run_line := (run_line sock_takes upper_wide format_exception new_console me COMMANDS).
Local Abbreviation readline := (readline (C := C) sock_takes).

(** ** Negotiation over whole sessions *)

Section KeepsShell.
(** A property every output function keeps, and that does not look at the
    input, the handler or the process. *)
Context (P : St → Prop).
Context (Hwrite : ∀ t, keeps P (write sock_takes t)) (Hinp : ∀ f, keeps P (on_inp f)).
Context (Hhdl : ∀ f, keeps P (on_hdl f)) (Hprc : ∀ f, keeps P (tset (λ s, set_prc (f s) s))).

Lemma keeps_writeline_of t : keeps P (writeline sock_takes t).
Proof. apply Hwrite. Qed.

Lemma keeps_write_code c : keeps P (write_code sock_takes c).
Proof. destruct c; simpl; auto with keeps. Qed.

Local Hint Resolve Hwrite Hinp Hhdl Hprc keeps_writeline_of keeps_write_code : keeps.

Lemma keeps_getc_key : keeps P getc.
Proof. unfold getc. keeps_tac. Qed.

Lemma keeps_edit_key echo k e : keeps P (edit_key sock_takes echo k e).
Proof.
  unfold edit_key, recall, readline_echo, readline_echo_code, code_add, the_code. destruct k; keeps_tac.
Qed.

Lemma keeps_edit echo k e : keeps P (edit sock_takes echo k e).
Proof.
  pose proof keeps_edit_key. pose proof (λ f, Hhdl f) as H'. unfold on_hdl in H'.
  unfold edit, readline_echo. destruct k as [c|k]; [|auto]. keeps_tac.
  apply (H' (λ h, Handler (history h ++ [line e]) (RUNSHELL h) (PROMPT h) (interact h) (more h) (console h)
                    (old_stdout h))).
Qed.

Lemma keeps_readline echo : keeps P (readline echo).
Proof.
  pose proof keeps_getc_key. pose proof keeps_edit. unfold TelnetShell.readline.
  apply tkeeps_bind; [auto with keeps|]. intros s. generalize (S (length (cookedq (inp s)))).
  generalize (Editor [] 0 (length (history (hdl s)))). intros e n. revert e.
  induction n as [|n IH]; intros e; simpl; keeps_tac.
Qed.

Lemma keeps_run_command c ps :
  keeps P (run_command sock_takes upper_wide new_console me COMMANDS c ps).
Proof.
  assert (∀ n l, keeps P (history_lines sock_takes n l)).
  { intros n l. revert n. induction l; intros n; simpl; keeps_tac. }
  unfold run_command, cmdDEBUG, cmdECHO, cmdEXIT, cmdHELP, help_all, cmdHISTORY, cmdINTERACT, cmdSHUTDOWN,
    server_stop, stop_shell. destruct c; keeps_tac.
Qed.

Lemma keeps_run_line t : keeps P (run_line t).
Proof. pose proof keeps_run_command. unfold TelnetShell.run_line, handleException. keeps_tac. Qed.

Lemma keeps_interactive_line t : keeps P (interactive_line sock_takes console_push resetbuffer t).
Proof. unfold interactive_line. keeps_tac. Qed.

Lemma keeps_prompt : keeps P (prompt sock_takes).
Proof. unfold prompt. keeps_tac. Qed.

Lemma keeps_turn : keeps P turn.
Proof.
  pose proof keeps_readline. pose proof keeps_run_line. pose proof keeps_interactive_line. pose proof keeps_prompt.
  unfold TelnetShell.turn, raw_input. keeps_tac.
Qed.
End KeepsShell.

(** The two threads and the client, in any order: the cooker takes a turn, the
    handler writes something or takes a whole turn, a packet arrives. *)
Inductive session_step (s : St) : St → Prop :=
  | step_cook : session_step s (cook_step sock_takes terminfo s).1
  | step_write t : session_step s (write sock_takes t s).1
  | step_turn : session_step s (turn s).1
  | step_receive p : session_step s (on_inp (λ i, Input (rawq i) (cookedq i) (sbdataq i) (eof i) (iacseq i) (sb i)
                                                  (net i ++ [p])) s).1.

Inductive in_session : St → Prop :=
  | session_start p n : in_session (setup sock_takes terminfo (new_handler p n)).1
  | session_next s s' : in_session s → session_step s s' → in_session s'.

(** C31. However a session goes, whatever the client sends and in whatever
    order the threads run, each option is negotiated at most once in each
    direction, with the answer the tables give: no exchange of option commands
    can go on for ever. *)
Theorem options_negotiated_once (s : St) :
  in_session s →
  NoDup (commands (sent (outp s))) ∧
  (∀ v o, (v, o) ∈ commands (sent (outp s)) → v = answer (asks v) o).
Proof.
  intros Hs. assert (negotiated s) as [Hnd Hin]; [|by split; [|intros v o Hvo; apply Hin]].
  induction Hs as [p n|s s' _ IH Hstep].
  - apply keeps_setup. split; [constructor | by intros v o Hvo%elem_of_nil].
  - destruct Hstep; [by apply keeps_cook_step | by apply keeps_write | | by apply keeps_on_inp].
    apply keeps_turn; [intros t0; apply keeps_write | | | | done]; intros f; by apply keeps_set.
Qed.

(** ** The line editor *)

(** The abstract editor: the text before the cursor, last character first, the
    text after it, and the place in the history. *)
Inductive cursor := Cursor (before after : text) (ptr : nat) | Entered (t : text).

Definition recalled (hist : list text) (ptr : nat) : cursor := Cursor (rev (default [] (hist !! ptr))) [] ptr.

Definition erase (b a : text) (p : nat) : cursor := match b with _ :: b' => Cursor b' a p | [] => Cursor b a p end.

Definition press (hist : list text) (k : key) (b a : text) (p : nat) : cursor :=
  match k with
  | KKey KEY_LEFT => match b with c :: b' => Cursor b' (c :: a) p | [] => Cursor b a p end
  | KKey KEY_RIGHT => match a with c :: a' => Cursor (c :: b) a' p | [] => Cursor b a p end
  | KKey KEY_UP => match p with S p' => recalled hist p' | O => Cursor b a p end
  | KKey KEY_DOWN => if Nat.ltb p (length hist) then recalled hist (S p) else Cursor b a p
  | KKey KEY_BACKSPACE => erase b a p
  | KKey KEY_DC => match a with _ :: a' => Cursor b a' p | [] => Cursor b a p end
  | KChar c =>
      if c =? theNULL then Cursor b a p
      else if c =? 3 then Entered []
      else if c =? 4 then Entered (match b, a with [], [] => txt "QUIT" | _, _ => [] end)
      else if c =? LF then Entered (rev b ++ a)
      else if (c =? 127) || (c =? 8) then erase b a p
      else Cursor (rev (if c <? 32 then unctrl c else [c]) ++ b) a p
  end.

Fixpoint presses (hist : list text) (ks : list key) (b a : text) (p : nat) : option (text * list key) :=
  match ks with
  | [] => None
  | k :: ks' => match press hist k b a p with
                | Cursor b' a' p' => presses hist ks' b' a' p'
                | Entered t => Some (t, ks')
                end
  end.

(** The editor with a list and an index that stands for a cursor. *)
Definition concrete (b a : text) (p : nat) : editor := Editor (rev b ++ a) (length b) p.
Definition represents (c : cursor) : edited :=
  match c with Cursor b a p => Next (concrete b a p) | Entered t => Line t end.

(** The terminal has both codes that erase a character. *)
Definition can_erase (s : St) : Prop :=
  ∃ c, ∀ s' : St, CODES (prc s') = CODES (prc s) →
    (do! l := the_code "CSRLEFT" in do! d := the_code "DEL" in code_add l d) s' = (s', Done c).

Lemma del_at_app (b : text) c a : del_at (length b) (b ++ c :: a) = b ++ a.
Proof.
  unfold del_at. rewrite take_app_length. f_equal. rewrite (drop_app_ge b) by lia.
  by replace (S (length b) - length b)%nat with 1%nat by lia.
Qed.

Lemma erase_represented (s : St) b a p :
  can_erase s → edit_key sock_takes (Some false) KEY_BACKSPACE (concrete b a p) s = (s, Done (represents (erase b a p))).
Proof.
  intros [ld Hc]. specialize (Hc s eq_refl). destruct b as [|c b]; [done|].
  unfold edit_key. cbn [insptr concrete length Nat.ltb Nat.leb].
  unfold tbind at 1, tget at 1. revert Hc. unfold tbind, the_code, tget, tret, readline_echo_code. simpl.
  intros ->. unfold tbind, tget. simpl. rewrite Nat.sub_0_r, <- app_assoc. simpl. unfold tret, concrete.
  by rewrite <- (length_rev b), del_at_app.
Qed.

Lemma recall_silent (s : St) e ptr :
  recall sock_takes (Some false) e ptr s = (s, Done (represents (recalled (history (hdl s)) ptr))).
Proof.
  unfold recall, tbind, tget, the_code. simpl. unfold tbind, tget, tret.
  assert (∀ c l, tfor (λ _ : nat, readline_echo_code sock_takes c (Some false)) l s = (s, Done tt)) as ->.
  { intros c l. induction l as [|x l IH]; [done|]. simpl. unfold tbind, readline_echo_code at 1, tbind, tget. done. }
  simpl. unfold concrete. by rewrite rev_involutive, app_nil_r, length_rev.
Qed.

Lemma at_end (b a : text) : Nat.ltb (length b) (length (rev b ++ a)) = match a with [] => false | _ => true end.
Proof.
  rewrite length_app, length_rev. destruct a; simpl; [apply Nat.ltb_ge; lia | apply Nat.ltb_lt; lia].
Qed.

(** Every key does to the list and the index what it does to the cursor. *)
Lemma press_represented (s : St) k b a p :
  can_erase s →
  edit sock_takes (Some false) k (concrete b a p) s = (s, Done (represents (press (history (hdl s)) k b a p))).
Proof.
  intros Hc. destruct k as [c|[]]; unfold edit, press; cycle 1.
  - destruct p as [|p]; [done|]. unfold edit_key, tbind at 1, tget. simpl. rewrite recall_silent. by rewrite Nat.sub_0_r.
  - unfold edit_key, tbind at 1, tget. simpl. destruct (Nat.ltb p _); [|done]. by rewrite recall_silent, Nat.add_1_r.
  - destruct b as [|c b]; [done|]. unfold edit_key, tbind, tget. simpl. unfold tret, concrete. simpl.
    by rewrite Nat.sub_0_r, <- app_assoc.
  - unfold edit_key, tbind at 1, tget. simpl. rewrite at_end. destruct a as [|c a]; [done|].
    unfold tbind. simpl. unfold tret, concrete. simpl. by rewrite Nat.add_1_r, <- app_assoc.
  - unfold edit_key, tbind at 1, tget. simpl. rewrite at_end. destruct a as [|c a]; [done|].
    unfold tbind. simpl. unfold tret, concrete. simpl. by rewrite <- (length_rev b), del_at_app.
  - by apply erase_represented.
  - destruct (c =? theNULL); [done|]. destruct (c =? 3); [done|]. destruct (c =? 4).
    { destruct b as [|x b]; [by destruct a|]. simpl. by destruct (rev b). }
    destruct (c =? LF); [done|]. destruct (_ || _); [by apply erase_represented|].
    set (t := if c <? 32 then _ else _). unfold tbind, readline_echo, tbind, tget. simpl. unfold tret, concrete.
    simpl. rewrite <- (length_rev b), take_app_length, drop_app_length, rev_app_distr, rev_involutive, app_assoc.
    by rewrite length_app, !length_rev, Nat.add_comm.
Qed.

(** The keys of the queue, pressed one after the other. *)
Lemma presses_represented n b a p (s : St) :
  can_erase s → (length (cookedq (inp s)) < n)%nat →
  readline_loop sock_takes (Some false) n (concrete b a p) s =
  match presses (history (hdl s)) (cookedq (inp s)) b a p with
  | Some (t, q) => (set_inp (set_cookedq q (inp s)) s, Done t)
  | None => (set_inp (set_cookedq [] (inp s)) s, Waits)
  end.
Proof.
  revert b a p s. induction n as [|n IH]; intros b a p s Hc Hn; [lia|]. simpl.
  unfold tbind at 1, getc, tbind, tget. destruct (cookedq (inp s)) as [|k q] eqn:Hq.
  { destruct s as [o [] u v w x]. simpl in *. by subst. }
  simpl. rewrite press_represented by exact Hc. simpl.
  destruct (press (history (hdl s)) k b a p) as [b' a' p'|t]; [|done]. simpl.
  rewrite IH; [done | exact Hc | simpl in *; lia].
Qed.

Lemma readline_presses (s : St) :
  can_erase s →
  readline (Some false) s =
  match presses (history (hdl s)) (cookedq (inp s)) [] [] (length (history (hdl s))) with
  | Some (t, q) => (set_inp (set_cookedq q (inp s)) s, Done t)
  | None => (set_inp (set_cookedq [] (inp s)) s, Waits)
  end.
Proof.
  intros Hc. unfold TelnetShell.readline, tbind, tget. apply (presses_represented _ [] []); [done | lia].
Qed.

(** C32. Reading a line refines typing at a cursor: whatever keys are in the
    queue, [readline] returns the text that the abstract editor enters and
    leaves the keys typed after it, or takes all of them and waits; and every
    single key keeps the index a place in the line and does to the list and the
    index what it does to the cursor.  The terminal must have the two codes
    that erase a character. *)
Theorem readline_refines_cursor (s : St) :
  can_erase s →
  (readline (Some false) s =
   match presses (history (hdl s)) (cookedq (inp s)) [] [] (length (history (hdl s))) with
   | Some (t, q) => (set_inp (set_cookedq q (inp s)) s, Done t)
   | None => (set_inp (set_cookedq [] (inp s)) s, Waits)
   end) ∧
  (∀ k b a p, let e := concrete b a p in
     (insptr e ≤ length (line e))%nat ∧
     edit sock_takes (Some false) k e s = (s, Done (represents (press (history (hdl s)) k b a p)))).
Proof.
  intros Hc. split; [by apply readline_presses|]. intros k b a p. split; [|by apply press_represented].
  simpl. rewrite length_app, length_rev. lia.
Qed.

(** On a terminal without one of the codes, erasing a character raises, also
    when nothing is echoed, and ends the session. *)
Theorem erase_needs_codes (s : St) b c a p x :
  dget (CODES (prc s)) "CSRLEFT"%string = Some (CodeBytes x) → dget (CODES (prc s)) "DEL"%string = Some CodeNone →
  edit sock_takes (Some false) (KChar 127) (concrete (c :: b) a p) s =
  (s, Fails (Exc ETypeError "unsupported operand type(s) for +")).
Proof.
  intros H1 H2. unfold edit, edit_key. simpl. unfold tbind, tget, the_code. simpl. unfold tbind, tget. by rewrite H1, H2.
Qed.

(** ** The session's loop *)

(** What the handler can wait for: a key, or the lock of the socket. *)
Definition blocked (s : St) : Prop := cookedq (inp s) = [] ∨ OQUEUELOCK (outp s) = true.

Definition waits_blocked {A} (m : T St A) : Prop := ∀ s s', m s = (s', Waits) → blocked s'.

Lemma wb_bind {A B} (m : T St A) (k : A → T St B) :
  waits_blocked m → (∀ a, waits_blocked (k a)) → waits_blocked (tbind m k).
Proof.
  intros Hm Hk s s'. unfold tbind. specialize (Hm s). destruct (m s) as [s1 [a|e|]]; [apply Hk | done|].
  intros [= <-]. by apply Hm.
Qed.
Lemma wb_try {A} (m : T St A) h : waits_blocked m → (∀ e, waits_blocked (h e)) → waits_blocked (ttry m h).
Proof.
  intros Hm Hh s s'. unfold ttry. specialize (Hm s). destruct (m s) as [s1 [a|e|]]; [done | apply Hh|].
  intros [= <-]. by apply Hm.
Qed.
Lemma wb_for {A} (f : A → T St unit) l : (∀ x, waits_blocked (f x)) → waits_blocked (tfor f l).
Proof. intros Hf. induction l as [|x l IH]; simpl; [by intros s s'|]. by apply wb_bind. Qed.
Lemma wb_ret {A} (a : A) : waits_blocked (tret a).
Proof. by intros s s'. Qed.
Lemma wb_get : waits_blocked tget.
Proof. by intros s s'. Qed.
Lemma wb_set f : waits_blocked (tset f).
Proof. by intros s s'. Qed.
Lemma wb_raise {A} c msg : waits_blocked (traise (A := A) c msg).
Proof. by intros s s'. Qed.
Lemma wb_reraise {A} e : waits_blocked (treraise (A := A) e).
Proof. by intros s s'. Qed.
Lemma wb_write t : waits_blocked (write sock_takes t).
Proof.
  intros s s'. unfold write, writecooked, tbind, tget. destruct (OQUEUELOCK (outp s)) eqn:E; simpl.
  - intros [= <-]. by right.
  - destruct (utf8_encode _); [|done]. by destruct (sock_takes _).
Qed.
Lemma wb_getc : waits_blocked getc.
Proof.
  intros s s'. unfold getc, tbind, tget. destruct (cookedq (inp s)) eqn:E; [|done].
  intros [= <-]. by left.
Qed.

Create HintDb waits discriminated.
Local Hint Resolve wb_ret wb_get wb_set wb_raise wb_reraise wb_write wb_getc : waits.
Local Ltac waits_tac :=
  repeat (auto with waits nocore;
    match goal with
    | |- waits_blocked (tbind _ _) => apply wb_bind; [|intros ?]
    | |- waits_blocked (ttry _ _) => apply wb_try; [|intros ?]
    | |- waits_blocked (tfor _ _) => apply wb_for; intros ?
    | |- waits_blocked (match ?x with _ => _ end) => destruct x
    end); auto with waits nocore.

Lemma wb_writeline t : waits_blocked (writeline sock_takes t).
Proof. apply wb_write. Qed.
Lemma wb_write_code c : waits_blocked (write_code sock_takes c).
Proof. destruct c; simpl; waits_tac. Qed.
Local Hint Resolve wb_writeline wb_write_code : waits.

Lemma wb_edit echo k e : waits_blocked (edit sock_takes echo k e).
Proof.
  assert (∀ k, waits_blocked (edit_key sock_takes echo k e)).
  { intros []; unfold edit_key, recall, readline_echo, readline_echo_code, code_add, the_code; waits_tac. }
  unfold edit, readline_echo. destruct k as [c|k]; [|auto]. waits_tac.
Qed.

(** A turn of the line editor that goes on, and a line that was read, took
    keys off the queue. *)
Definition queue (s : St) : nat := length (cookedq (inp s)).

Lemma keeps_queue_write q t : keeps (λ s : St, queue s = q) (write sock_takes t).
Proof.
  intros s Hs. destruct (writecooked_cases sock_takes (cook_output t) s) as [E | [E | E]];
    unfold write; by rewrite E.
Qed.

Lemma edit_queue echo k e (s : St) : queue (edit sock_takes echo k e s).1 = queue s.
Proof. by apply (keeps_edit (λ s', queue s' = queue s)); [apply keeps_queue_write | intros f s' |]. Qed.

Lemma readline_loop_spec echo n e (s : St) :
  (queue s < n)%nat →
  match readline_loop sock_takes echo n e s with
  | (s', Done _) => (queue s' < queue s)%nat
  | (s', Waits) => blocked s'
  | _ => True
  end.
Proof.
  revert e s. induction n as [|n IH]; intros e s Hn; [lia|]. simpl. unfold tbind at 1.
  destruct (getc s) as [s1 [k|?|]] eqn:E1; [|done | by eapply wb_getc].
  assert (queue s = S (queue s1)) as Hq.
  { unfold getc, tbind, tget, queue in *. destruct (cookedq (inp s)); [done|]. by injection E1 as <- _. }
  unfold tbind at 1. pose proof (edit_queue echo k e s1) as He.
  destruct (edit sock_takes echo k e s1) as [s2 [[e'|t]|?|]] eqn:E2; simpl in He; [|simpl; lia | done | by eapply wb_edit].
  specialize (IH e' s2). destruct (readline_loop _ _ n e' s2) as [s3 [t|?|]]; [|done|]; (lia || apply IH); lia.
Qed.

Lemma readline_spec echo (s : St) :
  match readline echo s with
  | (s', Done _) => (queue s' < queue s)%nat
  | (s', Waits) => blocked s'
  | _ => True
  end.
Proof. apply readline_loop_spec. unfold queue. lia. Qed.

Lemma wb_run_line t : waits_blocked (run_line t).
Proof.
  assert (∀ n l, waits_blocked (history_lines sock_takes n l)).
  { intros n l. revert n. induction l; intros n; simpl; waits_tac. }
  unfold TelnetShell.run_line, handleException, run_command, cmdDEBUG, cmdECHO, cmdEXIT, cmdHELP, help_all, cmdHISTORY,
    cmdINTERACT, cmdSHUTDOWN, server_stop, stop_shell, on_hdl. waits_tac.
Qed.

Lemma wb_interactive_line t : waits_blocked (interactive_line sock_takes console_push resetbuffer t).
Proof. unfold interactive_line, on_hdl. waits_tac. Qed.

Lemma queue_run_line t (s : St) : queue (run_line t s).1 = queue s.
Proof. by apply (keeps_run_line (λ s', queue s' = queue s)); [apply keeps_queue_write | intros f s' | intros f s' |]. Qed.

Lemma queue_interactive_line t (s : St) :
  queue (interactive_line sock_takes console_push resetbuffer t s).1 = queue s.
Proof.
  by apply (keeps_interactive_line (λ s', queue s' = queue s)); [apply keeps_queue_write | intros f s' | intros f s' |].
Qed.

(** A turn that goes on took at least one key. *)
Lemma turn_spec (s : St) :
  match turn s with
  | (s', Done _) => (queue s' < queue s)%nat
  | (s', Waits) => blocked s'
  | _ => True
  end.
Proof.
  unfold TelnetShell.turn, tbind at 1.
  assert (queue (prompt sock_takes s).1 = queue s ∧ ∀ s', prompt sock_takes s = (s', Waits) → blocked s') as [Hq Hw].
  { split.
    - by apply (keeps_prompt (λ s', queue s' = queue s)); [apply keeps_queue_write |].
    - assert (waits_blocked (prompt (C := C) sock_takes)) as Hp by (unfold prompt; waits_tac). apply Hp. }
  destruct (prompt sock_takes s) as [s1 [[]|e|]]; [|done | by apply Hw]. simpl in Hq. rewrite <- Hq. clear Hq Hw.
  unfold tbind at 1, tget, raw_input.
  destruct (interact (hdl s1)); simpl; unfold tbind; pose proof (readline_spec (Some false) s1) as Hr;
    (destruct (readline (Some false) s1) as [s2 [t|e|]]; [|done | done]).
  - pose proof (queue_interactive_line t s2) as Hi. pose proof (wb_interactive_line t s2) as Hw.
    destruct (interactive_line _ _ _ t s2) as [s3 [b|e|]]; simpl in Hi; [lia | done | by apply Hw].
  - pose proof (queue_run_line t s2) as Hi. pose proof (wb_run_line t s2) as Hw.
    destruct (run_line t s2) as [s3 [b|e|]]; simpl in Hi; [lia | done | by apply Hw].
Qed.

(** The session's loop never runs for ever on the keys it has, nor stops
    before they are used up: with one turn more than there are keys it returns
    (the user left, or a command raised), raises, or waits, and then either
    there is no key left or the socket's lock is held; any larger number of
    turns gives the same. *)
Theorem session_waits_only_for_input (n : nat) (s : St) :
  (queue s < n)%nat →
  (∀ s', shell_loop turn n s = (s', Waits) → blocked s') ∧
  shell_loop turn n s = shell_loop turn (S (queue s)) s.
Proof.
  enough (∀ m, (queue s < n)%nat → (queue s < m)%nat →
            (∀ s', shell_loop turn n s = (s', Waits) → blocked s') ∧ shell_loop turn n s = shell_loop turn m s)
    as H by (intros Hn; apply H; [done | lia]).
  revert s. induction n as [|n IH]; intros s m Hn Hm; [lia|]. destruct m as [|m]; [lia|].
  simpl. unfold tbind at 1 3 5, tget. destruct (RUNSHELL (hdl s)); [|done].
  unfold tbind. pose proof (turn_spec s) as Ht. destruct (turn s) as [s1 [[]|e|]]; [done | | done | split; [by intros s' [= <-] | done]].
  apply IH; lia.
Qed.
End ShellFacts.

(** ** Command lines *)

(** The loop over an index, as recursion on the words still to be read. *)
Fixpoint join_words (item : text) (rest : list text) : list text :=
  match rest with
  | [] => [item]
  | x :: rest' =>
      if quoted item then
        let item' := item ++ [32] ++ x in
        if closed_quote item' then
          inner item' :: match rest' with [] => [] | y :: r => join_words y r end
        else join_words item' rest'
      else item :: join_words x rest'
  end.

Lemma nth_middle_app {A} (l : list A) x r d : nth (length l) (l ++ x :: r) d = x.
Proof. by rewrite app_nth2, Nat.sub_diag by lia. Qed.

Lemma join_quotes_end n l : join_quotes n (length l) l = l.
Proof. destruct n; [done|]. simpl. by rewrite (proj2 (Nat.ltb_ge _ _)) by lia. Qed.

Lemma join_quotes_words n (l : list text) item rest :
  (length rest ≤ n)%nat → join_quotes n (length l) (l ++ item :: rest) = l ++ join_words item rest.
Proof.
  revert l item rest. induction n as [|n IH]; intros l item rest Hn.
  { by destruct rest; [|simpl in Hn; lia]. }
  destruct rest as [|x rest]; cbn [join_quotes join_words].
  { rewrite length_app. simpl. by rewrite (proj2 (Nat.ltb_ge _ _)) by lia. }
  rewrite length_app. cbn [length]. rewrite (proj2 (Nat.ltb_lt _ _)) by (simpl; lia).
  rewrite nth_middle_app. replace (S (length l)) with (length (l ++ [item])) by (rewrite length_app; simpl; lia).
  replace (l ++ item :: x :: rest) with ((l ++ [item]) ++ x :: rest) by (by rewrite <- app_assoc).
  rewrite nth_middle_app. replace (S (length (l ++ [item]))) with (length ((l ++ [item]) ++ [x]))
    by (rewrite !length_app; simpl; lia).
  replace ((l ++ [item]) ++ x :: rest) with (((l ++ [item]) ++ [x]) ++ rest) by (by rewrite <- !app_assoc).
  rewrite drop_app_length, <- !app_assoc, take_app_length.
  destruct (quoted item); [|cbn [app]; replace (l ++ item :: x :: rest) with ((l ++ [item]) ++ x :: rest)
    by (by rewrite <- app_assoc); rewrite IH by (simpl in Hn; lia); by rewrite <- app_assoc].
  destruct (closed_quote (item ++ [32] ++ x)); cbn [negb]; [|apply IH; simpl in Hn; lia].
  destruct rest as [|y r].
  - replace (length (l ++ [item])) with (length (l ++ [inner (item ++ [32] ++ x)])) by (by rewrite !length_app).
    by rewrite join_quotes_end.
  - replace (length (l ++ [item])) with (length (l ++ [inner (item ++ [32] ++ x)])) by (by rewrite !length_app).
    replace (l ++ inner (item ++ [32] ++ x) :: y :: r) with ((l ++ [inner (item ++ [32] ++ x)]) ++ y :: r)
      by (by rewrite <- app_assoc).
    rewrite IH by (simpl in Hn; lia). by rewrite <- app_assoc.
Qed.

(** A parameter as a user types it: a word, or a phrase of two or more words
    between quotes. *)
Inductive param := Word (w : text) | Phrase (w : text) (ws : list text) (l : text).

Definition param_text (p : param) : text :=
  match p with Word w => w | Phrase w ws l => join_char 32 (w :: ws ++ [l]) end.
Definition typed (p : param) : list text :=
  match p with Word w => [w] | Phrase w ws l => (34 :: w) :: ws ++ [l ++ [34]] end.

Definition plain_word (w : text) : Prop := w ≠ [] ∧ Forall (λ c, space c = false) w ∧ 34 ∉ w.
Definition param_ok (p : param) : Prop :=
  match p with
  | Word w => plain_word w ∧ quoted w = false
  | Phrase w ws l => plain_word w ∧ Forall plain_word ws ∧ plain_word l
  end.

Definition command_line (ps : list param) : text := join_char 32 (concat (map typed ps)).

Definition spaceless (w : text) : Prop := w ≠ [] ∧ Forall (λ c, space c = false) w.

Lemma words_from_app w t cur :
  Forall (λ c, space c = false) w → words_from cur (w ++ t) = words_from (cur ++ w) t.
Proof.
  intros Hw. revert cur. induction Hw as [|c w Hc Hw IH]; intros cur; simpl; [by rewrite app_nil_r|].
  rewrite Hc, IH. by rewrite <- app_assoc.
Qed.

Lemma words_join ws : Forall spaceless ws → words (join_char 32 ws) = ws.
Proof.
  induction 1 as [|w ws [Hne Hw] Hws IH]; [done|]. unfold words in *.
  destruct ws as [|w' ws].
  - simpl. rewrite <- (app_nil_r w) at 1. rewrite words_from_app by done. simpl. by destruct w.
  - change (join_char 32 (w :: w' :: ws)) with (w ++ [32] ++ join_char 32 (w' :: ws)).
    rewrite words_from_app by done. destruct w as [|c w]; [done|]. cbn [app words_from].
    change (space 32) with true. by rewrite IH.
Qed.

Lemma lstrip_spaceless w : Forall (λ c, space c = false) w → lstrip w = w.
Proof. destruct 1 as [|c w Hc Hw]; simpl; [done | by rewrite Hc]. Qed.

Lemma tstrip_spaceless w : Forall (λ c, space c = false) w → tstrip w = w.
Proof.
  intros Hw. unfold tstrip. rewrite (lstrip_spaceless w), lstrip_spaceless, rev_involutive; [done| |done].
  by apply Forall_rev.
Qed.

Definition joined (l : list text) : list text := match l with [] => [] | y :: r => join_words y r end.

Lemma parse_joined ws : Forall spaceless ws → parse_line (join_char 32 ws) = joined ws.
Proof.
  intros Hws. unfold parse_line. rewrite words_join by done.
  assert (map tstrip ws = ws) as ->.
  { induction Hws as [|w ws [_ Hw] Hws IH]; [done|]. simpl. by rewrite tstrip_spaceless, IH. }
  destruct ws as [|w ws]; [done|]. apply (join_quotes_words _ []). simpl. lia.
Qed.

Lemma last_app_ne (t w : text) : w ≠ [] → List.last (t ++ w) 0 = List.last w 0.
Proof.
  intros Hw. induction t as [|c t IH]; [done|]. simpl. destruct (t ++ w) eqn:E; [|done].
  by apply app_eq_nil in E as [_ ->].
Qed.

Lemma last_not_quote w : plain_word w → List.last w 0 ≠ 34.
Proof.
  intros (Hne & _ & Hq) H. apply Hq. rewrite <- H, list_elem_of_In. destruct (exists_last Hne) as (w' & c & ->).
  rewrite List.last_last. apply in_or_app. right. by left.
Qed.

(** A quoted phrase is put together up to its closing quote. *)
Lemma join_phrase acc ws l rest :
  Forall plain_word ws → plain_word l →
  join_words (34 :: acc) (ws ++ (l ++ [34]) :: rest) = (acc ++ [32] ++ join_char 32 (ws ++ [l])) :: joined rest.
Proof.
  intros Hws Hl. revert acc. induction Hws as [|x ws Hx Hws IH]; intros acc; cbn [app join_words quoted].
  - change (34 =? 39) with false. change (34 =? 34) with true. cbn [orb].
    replace (acc ++ 32 :: l ++ [34]) with ((acc ++ 32 :: l) ++ [34]) by (by rewrite <- app_assoc).
    unfold closed_quote, inner. cbn [hd tail].
    rewrite app_comm_cons, List.last_last, Z.eqb_refl. cbn [join_char]. by rewrite removelast_last.
  - change (34 =? 39) with false. change (34 =? 34) with true. cbn [orb].
    unfold closed_quote. cbn [hd].
    assert (List.last (34 :: acc ++ 32 :: x) 0 = List.last x 0) as ->.
    { change (34 :: acc ++ 32 :: x) with ((34 :: acc) ++ [32] ++ x). destruct Hx as [Hne _].
      by rewrite !last_app_ne by (done || by destruct x). }
    destruct (Z.eqb_spec 34 (List.last x 0)) as [H|_]; [by destruct (last_not_quote x Hx)|].
    rewrite IH. f_equal. rewrite <- app_assoc. f_equal. cbn [app join_char]. by destruct ws.
Qed.

Lemma joined_typed ps : Forall param_ok ps → joined (concat (map typed ps)) = map param_text ps.
Proof.
  induction 1 as [|[w|w ws l] ps Hp Hps IH]; [done| |]; cbn [map concat typed].
  - destruct Hp as [_ Hq]. cbn [app joined]. destruct (concat (map typed ps)) as [|y r]; cbn [join_words].
    + by rewrite <- IH.
    + rewrite Hq. by rewrite <- IH.
  - destruct Hp as (Hw & Hws & Hl). cbn [app joined]. rewrite <- app_assoc. cbn [app].
    rewrite join_phrase by done. rewrite IH. cbn [param_text]. f_equal. cbn [join_char]. by destruct (ws ++ [l]) eqn:E; [destruct ws|].
Qed.

Lemma typed_spaceless ps : Forall param_ok ps → Forall spaceless (concat (map typed ps)).
Proof.
  assert (∀ w, plain_word w → spaceless w) as Hplain by (by intros w (? & ? & _)).
  induction 1 as [|[w|w ws l] ps Hp Hps IH]; cbn [map concat typed]; [constructor| |].
  - constructor; [by apply Hplain, Hp | done].
  - destruct Hp as (Hw & Hws & (Hl & Hsl & _)). apply Forall_app. split; [|done]. repeat constructor; [done | apply Hw |].
    apply Forall_app. split; [by eapply Forall_impl|]. repeat constructor; [by destruct l|].
    apply Forall_app. split; [done | by repeat constructor].
Qed.

Lemma parse_command_line ps : Forall param_ok ps → parse_line (command_line ps) = map param_text ps.
Proof. intros H. unfold command_line. rewrite parse_joined by (by apply typed_spaceless). by apply joined_typed. Qed.

(** ** What is typed is what runs *)

(** A character that stands for itself in the editor *)
Definition typable (c : Z) : Prop := 32 ≤ c ∧ c ≠ 127.

Lemma presses_text hist t q b p :
  Forall typable t → presses hist (map KChar t ++ KChar LF :: q) b [] p = Some (rev b ++ t, q).
Proof.
  intros Ht. revert b. induction Ht as [|c t [Hc Hd] Ht IH]; intros b; simpl; [done|].
  unfold press. unfold theNULL, LF in *.
  destruct (Z.eqb_spec c 0); [lia|]. destruct (Z.eqb_spec c 3); [lia|]. destruct (Z.eqb_spec c 4); [lia|].
  destruct (Z.eqb_spec c 10); [lia|]. destruct (Z.eqb_spec c 127); [done|]. destruct (Z.eqb_spec c 8); [lia|].
  destruct (Z.ltb_spec c 32); [lia|]. simpl. rewrite IH. simpl. by rewrite <- app_assoc.
Qed.

Section Typed.
Context {C : Type}.
Local Abbreviation St := (tn C).
Context (sock_takes : list text → bool) (terminfo : text → option terminal).
Context (upper_wide : Z → text) (format_exception : pyexc → text).
Context (new_console : C) (console_push : text → C → C * list text * pushed) (resetbuffer : C → C).
Context (me : nat) (COMMANDS : odict text command).

Lemma prompt_set_inp i (s : St) :
  prompt sock_takes (set_inp i s) = (set_inp i (prompt sock_takes s).1, (prompt sock_takes s).2).
Proof.
  unfold prompt, tbind, tget. simpl. destruct (DOECHO (opts s)); [|done].
  unfold write, writecooked, tbind, tget. simpl. destruct (OQUEUELOCK (outp s)); [done|]. simpl.
  destruct (utf8_encode _); [|done]. by destruct (sock_takes _).
Qed.

Lemma prompt_same (s : St) :
  let s' := (prompt sock_takes s).1 in
  hdl s' = hdl s ∧ prc s' = prc s ∧ inp s' = inp s ∧ opts s' = opts s.
Proof.
  unfold prompt, tbind, tget. destruct (DOECHO (opts s)); [|done]. unfold write.
  destruct (writecooked_cases sock_takes (cook_output (PROMPT (hdl s))) s) as [-> | [-> | ->]]; done.
Qed.

(** C30. A command typed by the user is the command that runs: when the
    packets carry a command line of words and quoted phrases and its line end,
    cut anywhere between characters, then after the cooker has read them the
    handler's turn prompts and runs the command of that name with exactly the
    typed parameters, quotes removed, and has used up the line. *)
Theorem typed_command_runs (s : St) (p : param) (ps : list param) (k : command) (fuel : nat) :
  idle (inp s) → rawq (inp s) = [] → cookedq (inp s) = [] → interact (hdl s) = false → can_erase s →
  (prompt sock_takes s).2 = Done tt →
  Forall param_ok (p :: ps) → Forall typable (command_line (p :: ps)) →
  delivers (net (inp s)) (cook_output (command_line (p :: ps) ++ [LF])) →
  dget COMMANDS (upper_text upper_wide (param_text p)) = Some k →
  (length (cook_output (command_line (p :: ps) ++ [LF])) < fuel)%nat →
  ∃ i' i'', inputcooker sock_takes terminfo fuel s = (set_inp i' s, Waits) ∧ cookedq i'' = [] ∧
    turn sock_takes upper_wide format_exception new_console console_push resetbuffer me COMMANDS (set_inp i' s) =
    (prompt sock_takes ;;
     ttry (run_command sock_takes upper_wide new_console me COMMANDS k (map param_text ps) ;; tret false)
       (handleException sock_takes format_exception)) (set_inp i'' s).
Proof.
  intros Hi Hr Hq Hint Hc Hpr Hps Hty Hd Hk Hfuel. set (t := command_line (p :: ps)) in *.
  destruct (cook_written sock_takes terminfo (t ++ [LF]) s fuel Hi) as (i' & E & Hi' & Hq'); [|intros Hin|done|].
  { exists (cook_output (t ++ [LF])). by rewrite Hr. }
  { rewrite Forall_forall in Hty. apply elem_of_app in Hin as [Hin|Hin%list_elem_of_singleton]; [|done].
    destruct (Hty _ Hin). unfold CR in *. lia. }
  exists i', (set_cookedq [] i'). split_and!; [unfold inputcooker; by rewrite E | done|].
  rewrite Hq, map_app in Hq'. simpl in Hq'.
  pose proof (prompt_same s) as (Hh & Hp & _ & _). set (s1 := (prompt sock_takes s).1) in *.
  assert (∀ A (f : unit → T St A) i, tbind (prompt sock_takes) f (set_inp i s) = f tt (set_inp i s1)) as Hprompt.
  { intros A f i. unfold tbind. by rewrite prompt_set_inp, Hpr. }
  unfold turn. rewrite !Hprompt. unfold tbind at 1, tget. simpl. rewrite Hh, Hint. simpl. unfold tbind at 1.
  rewrite (readline_presses sock_takes (set_inp i' s1)).
  2: { destruct Hc as [c Hc]. exists c. intros s' Hs'. apply Hc. rewrite Hs'. simpl. by rewrite Hp. }
  simpl. rewrite Hq', presses_text by done. simpl.
  unfold run_line, t. rewrite parse_command_line by done. cbn [map]. by rewrite Hk.
Qed.
End Typed.

(** ** A session *)

Module TelnetDemo.
Definition takes (l : list text) : bool := true.
Definition ansi (t : text) : option terminal :=
  if bool_decide (t = txt "ansi") then Some (Terminal (λ _, Some [27; 91]) (λ _, Some [27])) else None.
Definition wide (c : Z) : text := [c].
Definition show_exc (e : pyexc) : text := txt (exc_msg e).
Definition push (t : text) (c : nat) : nat * list text * pushed := (S c, [t], Pushed false).

(** A session that has been set up; the client's packets are [n]. *)
Definition start (n : list packet) : tn nat := (setup takes ansi (new_handler (Process 0 true []) n)).1.
Definition packed (t : text) : packet := Packet true (default [] (utf8_encode t)).

Local Abbreviation demo_turn := (turn takes wide show_exc 0%nat push S 1 (COMMANDS_of TNH_methods)).

Lemma start_can_erase n : can_erase (start n).
Proof. exists (CodeBytes [27; 27]). intros s' H. unfold tbind, the_code, tbind, tget, tret. rewrite !H. reflexivity. Qed.

(** "é" and telnet's escape character, over two packets *)
Lemma written_text_is_read_witness :
  let t := [233; 255; 10] in
  ∃ i', inputcooker takes ansi 9 (start [packed [233; 255]; packed [255; 13; 10]]) =
          (set_inp i' (start [packed [233; 255]; packed [255; 13; 10]]), Waits) ∧
        idle i' ∧ cookedq i' = map KChar t.
Proof.
  destruct (write takes [233; 255; 10] (start [])) as [s' o] eqn:E.
  assert (o = Done tt) as -> by (vm_compute in E; by injection E as _ <-).
  apply (written_text_is_read takes ansi (start []) s' (start [packed [233; 255]; packed [255; 13; 10]])
           [233; 255; 10] 9 E); [|done | by split | | simpl; lia].
  - vm_compute in E. injection E as <-. change (delivers _ _) with
      (delivers [packed [233; 255]; packed [255; 13; 10]] ([233; 255] ++ [255; 13; 10] ++ [])).
    repeat constructor; done.
  - apply (bool_decide_unpack (CR ∉ [233; 255; 10])). vm_compute. exact I.
Defined.

Lemma options_negotiated_once_witness :
  NoDup (commands (sent (outp (start [])))) ∧ (DO, TTYPE) ∈ commands (sent (outp (start []))).
Proof.
  destruct (options_negotiated_once takes ansi wide show_exc 0%nat push S 1 (COMMANDS_of TNH_methods) (start [])
              (session_start _ _ _ _ _ _ _ _ _ _ _)) as [H _].
  split; [exact H | vm_compute; set_solver].
Defined.

(** "abX", the cursor moved left, "c", a backspace *)
Definition keys : list key := [KChar 97; KChar 98; KKey KEY_LEFT; KChar 99; KChar 127; KKey KEY_DC; KChar 10; KChar 120].
Definition with_keys : tn nat := set_inp (set_cookedq keys (inp (start []))) (start []).

Lemma readline_refines_cursor_witness :
  readline takes (Some false) with_keys = (set_inp (set_cookedq [KChar 120] (inp with_keys)) with_keys, Done (txt "a")).
Proof.
  destruct (readline_refines_cursor takes with_keys) as [H _]; [apply (start_can_erase [])|].
  rewrite H. reflexivity.
Defined.

Lemma session_waits_only_for_input_witness :
  shell_loop demo_turn 20 with_keys = shell_loop demo_turn (S (queue with_keys)) with_keys.
Proof.
  apply (session_waits_only_for_input takes wide show_exc 0%nat push S 1 (COMMANDS_of TNH_methods) 20 with_keys).
  vm_compute. lia.
Defined.

(** [echo hello "two words"] *)
Definition params : list param := [Word (txt "hello"); Phrase (txt "two") [] (txt "words")].
Definition typed_line : text := command_line (Word (txt "echo") :: params) ++ [LF].

Lemma typed_command_runs_witness :
  ∃ i' i'', inputcooker takes ansi 40 (start [packed (cook_output typed_line)]) =
              (set_inp i' (start [packed (cook_output typed_line)]), Waits) ∧ cookedq i'' = [] ∧
    demo_turn (set_inp i' (start [packed (cook_output typed_line)])) =
    (prompt takes ;; ttry (run_command takes wide 0%nat 1 (COMMANDS_of TNH_methods) CmdECHO
                              [txt "hello"; txt "two words"] ;; tret false) (handleException takes show_exc))
      (set_inp i'' (start [packed (cook_output typed_line)])).
Proof.
  apply (typed_command_runs takes ansi wide show_exc 0%nat push S 1 (COMMANDS_of TNH_methods) _ (Word (txt "echo")) params);
    [by split | done | done | done | apply start_can_erase | done | | | | done | vm_compute; lia].
  - assert (∀ w, bool_decide (w ≠ [] ∧ Forall (λ c, space c = false) w ∧ 34 ∉ w) = true → plain_word w) as Hw
      by (intros w; apply bool_decide_eq_true_1).
    apply Forall_cons; split; [by split; [apply Hw|]|]. apply Forall_cons; split; [by split; [apply Hw|]|].
    apply Forall_singleton. split_and!; [by apply Hw | constructor | by apply Hw].
  - by repeat constructor.
  - assert (delivers [packed (cook_output typed_line)] (cook_output typed_line ++ [])) as H
      by (apply delivers_cons; [vm_compute; reflexivity | discriminate | constructor]).
    rewrite app_nil_r in H. exact H.
Defined.
End TelnetDemo.
