(* ===== verification/Sessions.v ===== *)
(** * Several telnet sessions of one process ([python/infra/defw_telnet_sr.py])

    The console server has a thread for each session, and the sessions share
    the process: its [sys.stdout] above all, which a session that enters the
    interactive mode takes for itself and puts back when it leaves the mode.
    A host is the process with its sessions, each in the state of [Telnet] and
    [TelnetShell]; the sessions take their turns, and their cookers and clients
    their steps, in any order.  The process's own standard output has the
    number 0 and session [i] the number [S i]. *)

From S2P Require Import Prelude PyDict Telnet TelnetShell TelnetFacts TelnetShellFacts.

Local Open Scope list_scope.
Import TelnetNotations.
Local Open Scope telnet_scope.

Section Sessions.
Context {C : Type}.
Local Abbreviation St := (tn C).
Context (sock_takes : list text → bool) (terminfo : text → option terminal).
Context (upper_wide : Z → text) (format_exception : pyexc → text).
Context (new_console : C) (console_push : text → C → C * list text * pushed) (resetbuffer : C → C).
Context (COMMANDS : odict text command).

Local Abbreviation turn_of me :=
  (turn sock_takes upper_wide format_exception new_console console_push resetbuffer me COMMANDS).

(** ** The host *)

Record host := Host { host_process : process; sessions : list St }.

(** What session [i] does, on the process as it is now *)
Definition in_host {A} (i : nat) (m : T St A) (w : host) : host :=
  match sessions w !! i with
  | Some s => let s' := (m (set_prc (host_process w) s)).1 in Host (prc s') (<[i := s']> (sessions w))
  | None => w
  end.

(** [TNS]: a connection gets a handler of its own. *)
Definition connected (n : list packet) (w : host) : host :=
  let s := (setup sock_takes terminfo (new_handler (host_process w) n)).1 in
  Host (prc s) (sessions w ++ [s]).

(** ** The interactive mode *)

(** Whether the session is in it, what it saved, and where output goes *)
Definition mode (s : St) : bool * option nat * nat :=
  (interact (hdl s), old_stdout (hdl s), sys_stdout (prc s)).

Section Modes.
Context (m : bool * option nat * nat).
Local Abbreviation same := (λ s : St, mode s = m).

Lemma mode_set f : (∀ s, mode (f s) = mode s) → keeps same (tset f).
Proof. intros Hf s Hs. simpl. by rewrite Hf. Qed.

Lemma mode_on_inp f : keeps same (on_inp f).
Proof. by apply mode_set. Qed.

Lemma mode_on_opts f : keeps same (on_opts f).
Proof. by apply mode_set. Qed.

Lemma mode_writecooked t : keeps same (writecooked sock_takes t).
Proof. intros s Hs. by destruct (writecooked_cases sock_takes t s) as [-> | [-> | ->]]. Qed.

Lemma mode_write t : keeps same (write sock_takes t).
Proof. apply mode_writecooked. Qed.

Lemma mode_writeline t : keeps same (writeline sock_takes t).
Proof. apply mode_writecooked. Qed.

Lemma mode_write_code c : keeps same (write_code sock_takes c).
Proof. destruct c; [apply mode_writecooked | by intros s..]. Qed.

Lemma mode_inputcooker_getc block : keeps same (inputcooker_getc block).
Proof. intros s Hs. unfold inputcooker_getc. by destruct (raw_getc _ _ _ _) as [[[raw e] n] o]. Qed.

Lemma mode_setterm t : keeps same (setterm terminfo t).
Proof. unfold setterm. destruct (terminfo t); by intros s. Qed.

Lemma mode_getc : keeps same getc.
Proof. intros s Hs. unfold getc, tbind, tget. by destruct (cookedq _). Qed.

Local Hint Resolve mode_on_inp mode_on_opts mode_writecooked mode_write mode_writeline mode_write_code
  mode_inputcooker_getc mode_setterm mode_getc : keeps.

(** The cooker does not touch it. *)
Lemma mode_sendcommand c o : keeps same (sendcommand sock_takes c o).
Proof. unfold sendcommand. keeps_tac. Qed.
Local Hint Resolve mode_sendcommand : keeps.

Lemma mode_cook_step : keeps same (cook_step sock_takes terminfo).
Proof.
  unfold cook_step, cook_char, cook_command, match_key_sequence, inputcooker_store, inputcooker_ungetc,
    options_handler, read_sb_data. keeps_tac.
Qed.

Lemma mode_setup : keeps same (setup sock_takes terminfo).
Proof. unfold setup. keeps_tac. Qed.

(** Nor does editing a line *)
Lemma mode_edit echo k e : keeps same (edit sock_takes echo k e).
Proof.
  unfold edit, edit_key, recall, readline_echo, readline_echo_code, code_add, the_code. keeps_tac. by apply mode_set.
Qed.

Lemma mode_readline echo : keeps same (readline sock_takes echo).
Proof.
  pose proof mode_edit. unfold readline. apply tkeeps_bind; [auto with keeps|]. intros s.
  generalize (S (length (cookedq (inp s)))). generalize (Editor [] 0 (length (history (hdl s)))). intros e n. revert e.
  induction n as [|n IH]; intros e; simpl; keeps_tac.
Qed.

Lemma mode_prompt : keeps same (prompt sock_takes).
Proof. unfold prompt. keeps_tac. Qed.

(** Nor any command but INTERACT *)
Lemma mode_run_command me c ps :
  c ≠ CmdINTERACT → keeps same (run_command sock_takes upper_wide new_console me COMMANDS c ps).
Proof.
  assert (∀ n l, keeps same (history_lines sock_takes n l)).
  { intros n l. revert n. induction l; intros n; simpl; keeps_tac. }
  intros Hc. unfold run_command, cmdDEBUG, cmdECHO, cmdEXIT, cmdHELP, help_all, cmdHISTORY, cmdSHUTDOWN, server_stop,
    stop_shell, on_hdl. destruct c; try done; keeps_tac; by apply mode_set.
Qed.

Lemma mode_handleException e : keeps same (handleException sock_takes format_exception e).
Proof. unfold handleException. keeps_tac. Qed.
End Modes.

Inductive moved (me : nat) : bool * option nat * nat → bool * option nat * nat → Prop :=
  | moved_not m : moved me m m
  | moved_in o out : moved me (false, o, out) (true, Some out, me)
  | moved_out o out : moved me (true, o, out) (false, o, default out o).

Lemma moved_cases me i o out i' o' out' :
  moved me (i, o, out) (i', o', out') →
  (i' = i ∧ o' = o ∧ out' = out) ∨ (i = false ∧ i' = true ∧ o' = Some out ∧ out' = me) ∨
  (i = true ∧ i' = false ∧ o' = o ∧ out' = default out o).
Proof. inversion 1; subst; naive_solver. Qed.

Lemma kept_moved {A} me (m : T St A) s : keeps (λ s', mode s' = mode s) m → moved me (mode s) (mode (m s).1).
Proof. intros Hm. rewrite (Hm s eq_refl). constructor. Qed.

Lemma run_line_moves me t s :
  interact (hdl s) = false →
  moved me (mode s) (mode (run_line sock_takes upper_wide format_exception new_console me COMMANDS t s).1).
Proof.
  intros Hi. unfold run_line. destruct (parse_line t) as [|c ps]; [constructor|].
  destruct (dget COMMANDS _) as [k|] eqn:Hk.
  - destruct (decide (k = CmdINTERACT)) as [->|Hne].
    + replace (mode s) with (false, old_stdout (hdl s), sys_stdout (prc s)) by (unfold mode; by rewrite Hi). apply moved_in.
    + apply kept_moved, tkeeps_try; [|intros e; apply mode_handleException].
      apply tkeeps_bind; [by apply mode_run_command | intros _; apply tkeeps_ret].
  - apply kept_moved, tkeeps_bind; [apply mode_write | intros _; apply tkeeps_ret].
Qed.

Lemma interactive_line_moves me t s :
  interact (hdl s) = true →
  moved me (mode s) (mode (interactive_line sock_takes console_push resetbuffer t s).1).
Proof.
  intros Hi. unfold interactive_line, tbind at 1, tget at 1. destruct (_ && _)%bool.
  - simpl. unfold mode. simpl. rewrite Hi. apply moved_out.
  - apply kept_moved. destruct (console (hdl s)) as [c|]; [|apply tkeeps_raise].
    destruct (console_push t c) as [[c' texts] r]. unfold on_hdl.
    pose proof (mode_write (mode s)). destruct r; keeps_tac; by apply mode_set.
Qed.

(** A turn of a session stays in its mode, enters, or leaves. *)
Lemma turn_moves me s : moved me (mode s) (mode (turn_of me s).1).
Proof.
  unfold turn, tbind at 1. pose proof (mode_prompt (mode s) s eq_refl) as Hp.
  destruct (prompt sock_takes s) as [s1 [[]|e|]]; simpl in Hp; [|simpl; rewrite Hp; constructor..].
  unfold tbind at 1, tget. rewrite <- Hp. unfold raw_input.
  pose proof (mode_readline (mode s1) (Some false) s1 eq_refl) as Hr.
  destruct (interact (hdl s1)) eqn:Hi; simpl; unfold tbind;
    destruct (readline sock_takes (Some false) s1) as [s2 [t|e|]]; simpl in Hr; try (simpl; rewrite Hr; constructor);
    rewrite <- Hr.
  - apply interactive_line_moves. by injection Hr as ->.
  - apply run_line_moves. by injection Hr as ->.
Qed.

(** ** Runs of the host *)

Inductive host_step (w : host) : host → Prop :=
  | host_connect n : host_step w (connected n w)
  | host_receive i p :
      host_step w (in_host i (on_inp (λ j, Input (rawq j) (cookedq j) (sbdataq j) (eof j) (iacseq j) (sb j)
                                          (net j ++ [p]))) w)
  | host_cook i : host_step w (in_host i (cook_step sock_takes terminfo) w)
  | host_turn i : host_step w (in_host i (turn_of (S i)) w).

Definition interactive (w : host) (i : nat) : Prop :=
  ∃ s, sessions w !! i = Some s ∧ interact (hdl s) = true.

(** A step in which no session leaves the mode while another one has the
    output *)
Definition orderly (w w' : host) : Prop :=
  ∀ i, interactive w i → ¬ interactive w' i → sys_stdout (host_process w) = S i.

Inductive orderly_run (w : host) : host → Prop :=
  | run_none : orderly_run w w
  | run_step w1 w2 : orderly_run w w1 → host_step w1 w2 → orderly w1 w2 → orderly_run w w2.

(** The sessions in the mode, the last one to enter first: each has saved
    where the output went before it. *)
Inductive stacked (ss : list St) : nat → list nat → Prop :=
  | stacked_nil : stacked ss 0 []
  | stacked_cons i s o l :
      ss !! i = Some s → interact (hdl s) = true → old_stdout (hdl s) = Some o → stacked ss o l →
      stacked ss (S i) (i :: l).

Definition in_order (w : host) : Prop :=
  ∃ l, stacked (sessions w) (sys_stdout (host_process w)) l ∧ NoDup l ∧ ∀ i, interactive w i → i ∈ l.

Lemma stacked_frame ss ss' o l :
  stacked ss o l → (∀ i s, i ∈ l → ss !! i = Some s → ∃ s', ss' !! i = Some s' ∧
    interact (hdl s') = interact (hdl s) ∧ old_stdout (hdl s') = old_stdout (hdl s)) → stacked ss' o l.
Proof.
  induction 1 as [|i s o l Hs Hi Ho _ IH]; intros Hf; [constructor|].
  destruct (Hf i s (list_elem_of_here _ _) Hs) as (s' & Hs' & Hi' & Ho').
  econstructor; [done | congruence | by rewrite Ho'|]. apply IH. intros j t Hj. apply Hf. by right.
Qed.

Lemma stacked_interactive ss o l i : stacked ss o l → i ∈ l → ∃ s, ss !! i = Some s ∧ interact (hdl s) = true.
Proof.
  induction 1 as [|j s o l Hs Hi Ho _ IH]; [by intros ?%elem_of_nil|]. intros [->|Hl]%elem_of_cons; [by exists s | by apply IH].
Qed.

Lemma connected_in_order n w : in_order w → in_order (connected n w).
Proof.
  intros (l & Hst & Hnd & Hin). unfold connected.
  pose proof (mode_setup _ (new_handler (host_process w) n) eq_refl) as Hm.
  set (s := (setup sock_takes terminfo _).1) in *. unfold mode in Hm. simpl in Hm. injection Hm as Hmi _ Hmo.
  exists l. unfold interactive. simpl. rewrite Hmo. split_and!; [|done|].
  - eapply stacked_frame; [exact Hst|]. intros i t _ Ht. exists t. split; [by apply lookup_app_l_Some | done].
  - intros i (t & Ht & Hti). apply lookup_app_Some in Ht as [Ht|[_ Ht]]; [apply Hin; by exists t|].
    apply list_lookup_singleton_Some in Ht as [_ <-]. congruence.
Qed.

Lemma insert_frame (ss : list St) i s' o l : stacked ss o l → i ∉ l → stacked (<[i:=s']> ss) o l.
Proof.
  intros H Hi. eapply stacked_frame; [exact H|]. intros j t Hj Ht. exists t. split; [|done].
  rewrite list_lookup_insert_ne; [done|]. by intros ->.
Qed.

(** One session's own step *)
Lemma moved_in_order {A} i (m : T St A) w :
  (∀ s, moved (S i) (mode s) (mode (m s).1)) → orderly w (in_host i m w) → in_order w → in_order (in_host i m w).
Proof.
  intros Hm Hord Hok. unfold in_host in *. destruct (sessions w !! i) as [s|] eqn:Hs; [|done].
  specialize (Hm (set_prc (host_process w) s)). set (s' := (m _).1) in *. clearbody s'.
  pose proof (lookup_lt_Some _ _ _ Hs) as Hlt.
  assert (∀ j, interactive (Host (prc s') (<[i:=s']> (sessions w))) j ↔
             if decide (i = j) then interact (hdl s') = true else interactive w j) as Hint.
  { intros j. unfold interactive. simpl. case_decide as Hj.
    - subst j. rewrite list_lookup_insert_eq by done. naive_solver.
    - by rewrite list_lookup_insert_ne. }
  destruct Hok as (l & Hst & Hnd & Hin).
  apply moved_cases in Hm as [(Hi & Ho & Hout)|[(Hi & Hi' & Ho & Hout)|(Hi & Hi' & Ho & Hout)]]; simpl in *.
  - exists l. simpl. rewrite Hout. split_and!; [|done|].
    + eapply stacked_frame; [exact Hst|]. intros j t Hj Ht. destruct (decide (i = j)) as [<-|Hne].
      * exists s'. rewrite list_lookup_insert_eq by done. by simplify_eq.
      * exists t. by rewrite list_lookup_insert_ne.
    + intros j Hj%Hint. apply Hin. case_decide; [|done]. subst j. exists s. split; congruence.
  - assert (i ∉ l) as Hnl by (intros Hl; destruct (stacked_interactive _ _ _ _ Hst Hl) as (t & Ht & Hti); congruence).
    exists (i :: l). simpl. rewrite Hout. split_and!.
    + econstructor; [by apply list_lookup_insert_eq | done | exact Ho | by apply insert_frame].
    + by constructor.
    + intros j Hj%Hint. case_decide as Hij; [subst j; by left | right; by apply Hin].
  - assert (sys_stdout (host_process w) = S i) as Hme.
    { apply (Hord i); [by exists s|]. rewrite Hint, decide_True by done. by rewrite Hi'. }
    rewrite Hme in Hst, Hout. inversion Hst as [|j t o l' Ht Hti Hto Hst' E1 E2]; subst.
    assert (t = s) as -> by congruence. rewrite Hto in Hout. simpl in Hout. apply NoDup_cons in Hnd as [Hnl Hnd].
    exists l'. simpl. rewrite Hout. split_and!; [by apply insert_frame | done|].
    intros j Hj%Hint. case_decide as Hij; [congruence|]. apply Hin in Hj. apply elem_of_cons in Hj as [->|]; done.
Qed.

Lemma step_in_order w w' : host_step w w' → orderly w w' → in_order w → in_order w'.
Proof.
  intros [n|i p|i|i] Hord Hok; [by apply connected_in_order | apply moved_in_order; try done..].
  - intros s. apply kept_moved, mode_on_inp.
  - intros s. apply kept_moved, mode_cook_step.
  - apply turn_moves.
Qed.

(** A step is orderly when a look at the sessions says so; one that keeps every
    mode is. *)
Definition is_interactive (w : host) (i : nat) : bool :=
  match sessions w !! i with Some s => interact (hdl s) | None => false end.

Lemma is_interactive_spec w i : is_interactive w i = true ↔ interactive w i.
Proof using.
  unfold is_interactive, interactive. destruct (sessions w !! i) as [s|]; split; [|intros (s' & [= <-] & Hs)|done|by intros (s' & ? & _)].
  - intros Hs. by exists s.
  - done.
Qed.

Definition check_orderly (w w' : host) : bool :=
  forallb (λ i, implb (is_interactive w i && negb (is_interactive w' i)) (Nat.eqb (sys_stdout (host_process w)) (S i)))
    (seq 0 (length (sessions w))).

Lemma check_orderly_sound w w' : check_orderly w w' = true → orderly w w'.
Proof using.
  unfold check_orderly. rewrite forallb_forall. intros Hall i Hi Hn. specialize (Hall i).
  apply is_interactive_spec in Hi as Hb. rewrite <- is_interactive_spec, not_true_iff_false in Hn.
  rewrite Hb, Hn in Hall. apply Nat.eqb_eq, Hall, in_seq. destruct Hi as (s & Hs & _).
  apply lookup_lt_Some in Hs. lia.
Qed.

Lemma kept_orderly {A} i (m : T St A) w : (∀ s, keeps (λ s', mode s' = mode s) m) → orderly w (in_host i m w).
Proof using.
  intros Hm j (s & Hs & Hj) Hn. exfalso. apply Hn. unfold in_host. destruct (sessions w !! i) as [t|] eqn:Ht; [|by exists s].
  destruct (decide (i = j)) as [<-|Hne]; unfold interactive; simpl.
  - rewrite list_lookup_insert_eq by (by eapply lookup_lt_Some). eexists. split; [done|].
    pose proof (Hm _ (set_prc (host_process w) t) eq_refl) as H. injection H as -> _ _. simpl. congruence.
  - rewrite list_lookup_insert_ne by done. by exists s.
Qed.

Lemma cook_orderly_run w i k w1 :
  orderly_run w w1 → orderly_run w (Nat.iter k (in_host i (cook_step sock_takes terminfo)) w1).
Proof.
  intros Hr. induction k as [|k IH]; simpl; [done|]. eapply run_step; [exact IH | apply host_cook|].
  apply kept_orderly. intros s. apply mode_cook_step.
Qed.

(** C33. Interactive consoles give the output back.  However many sessions are
    connected and whatever is typed, received and sent, in whatever order: as
    long as a session leaves the interactive mode only while it has the
    output, [sys.stdout] is always the process's own or that of a session in
    the mode, and it is the process's own again whenever no session is. *)
Theorem consoles_restore_stdout (p : process) (w : host) :
  sys_stdout p = 0 → orderly_run (Host p []) w →
  (sys_stdout (host_process w) = 0 ∨ ∃ i, sys_stdout (host_process w) = S i ∧ interactive w i) ∧
  ((∀ i, ¬ interactive w i) → sys_stdout (host_process w) = 0).
Proof.
  intros Hp Hrun. assert (in_order w) as (l & Hst & _ & Hin).
  { induction Hrun as [|w1 w2 _ IH Hs Ho]; [|by eapply step_in_order].
    exists []. simpl. rewrite Hp. split_and!; [constructor | constructor|].
    intros i (s & Hs & _). simpl in Hs. by rewrite lookup_nil in Hs. }
  inversion Hst as [|i s o l' Hs Hi]; subst; [by split; [left|]|]. split.
  - right. exists i. split; [done|]. by exists s.
  - intros Hno. destruct (Hno i). by exists s.
Qed.
End Sessions.

(** ** Two users at the console *)
Module SessionsDemo.
(** The console takes every line but [exit()], where it lets an exception
    through. *)
Definition push_with (e : pyexc) (t : text) (c : nat) : nat * list text * pushed :=
  if bool_decide (t = txt "exit()") then (c, [], PushFails e) else (S c, [], Pushed false).
Definition push : text → nat → nat * list text * pushed := push_with (Exc ERuntimeError "").

Local Abbreviation commands := (COMMANDS_of TNH_methods).
Local Abbreviation connect := (connected (C := nat) TelnetDemo.takes TelnetDemo.ansi).
Local Abbreviation a_turn me :=
  (turn TelnetDemo.takes TelnetDemo.wide TelnetDemo.show_exc 0%nat push (λ c, c) me commands).
Local Abbreviation orderly_run' := (orderly_run TelnetDemo.takes TelnetDemo.ansi TelnetDemo.wide TelnetDemo.show_exc 0 push
                              (λ c, c) commands).

Definition received (i : nat) (t : text) (w : host (C := nat)) : host :=
  in_host i (on_inp (λ j, Input (rawq j) (cookedq j) (sbdataq j) (eof j) (iacseq j) (sb j)
                       (net j ++ [TelnetDemo.packed (t ++ [LF])]))) w.

(** Session [i] is sent a line and takes its turn: the cooker needs a step for
    each character. *)
Definition typed (i : nat) (t : text) (w : host (C := nat)) : host :=
  in_host i (a_turn (S i))
    (Nat.iter (S (length t)) (in_host i (cook_step TelnetDemo.takes TelnetDemo.ansi)) (received i t w)).

Definition empty_host : host (C := nat) := Host (Process 0 true []) [].
Definition two : host (C := nat) := connect [] (connect [] empty_host).
Definition interact_ : text := txt "interact".
Definition quit : text := txt "quit".
Definition stdout (w : host (C := nat)) : nat := sys_stdout (host_process w).

(** Typing a line is an orderly run when its turn is orderly. *)
Lemma typed_line_run w i t :
  let before := Nat.iter (S (length t)) (in_host i (cook_step TelnetDemo.takes TelnetDemo.ansi)) (received i t w) in
  orderly_run' empty_host w → check_orderly before (typed i t w) = true → orderly_run' empty_host (typed i t w).
Proof.
  intros before Hr Hc. eapply run_step; [|apply (host_turn _ _ _ _ _ _ _ _ _ i)|by apply check_orderly_sound].
  apply cook_orderly_run. eapply run_step; [exact Hr | apply host_receive|]. apply kept_orderly. intros s. apply mode_on_inp.
Qed.

Lemma two_run : orderly_run' empty_host two.
Proof.
  apply run_step with (connect [] empty_host); [apply run_step with empty_host; [apply run_none| |] | |];
    try apply host_connect; apply check_orderly_sound; vm_compute; reflexivity.
Qed.

Definition nested : host := typed 0 quit (typed 1 quit (typed 1 interact_ (typed 0 interact_ two))).

Lemma consoles_restore_stdout_witness :
  stdout (typed 1 interact_ (typed 0 interact_ two)) = 2 ∧ stdout nested = 0.
Proof.
  split; [vm_compute; reflexivity|].
  destruct (consoles_restore_stdout TelnetDemo.takes TelnetDemo.ansi TelnetDemo.wide TelnetDemo.show_exc 0%nat push
              (λ c, c) commands (Process 0 true []) nested) as [_ H].
  - reflexivity.
  - unfold nested. apply typed_line_run; [|vm_compute; reflexivity]. apply typed_line_run; [|vm_compute; reflexivity].
    apply typed_line_run; [|vm_compute; reflexivity]. apply typed_line_run; [|vm_compute; reflexivity].
    apply two_run.
  - apply H. intros i Hi%is_interactive_spec.
    destruct i as [|[|i]]; vm_compute in Hi; discriminate.
Defined.

Example stdout_moves :
  stdout (typed 0 interact_ two) = 1 ∧ stdout (typed 1 interact_ (typed 0 interact_ two)) = 2 ∧
  stdout (typed 1 quit (typed 1 interact_ (typed 0 interact_ two))) = 1.
Proof. vm_compute. repeat split. Qed.

(** The sessions leave in the order they entered: the first to leave takes the
    output from the other one, which then gives it to a session that has left. *)
Example overlapping_consoles :
  let w := typed 1 quit (typed 0 quit (typed 1 interact_ (typed 0 interact_ two))) in
  map (λ s, interact (hdl s)) (sessions w) = [false; false] ∧ stdout w = 1.
Proof. vm_compute. repeat split. Qed.

(** A session that ends inside the mode keeps the output: the exception that
    [exit()] raises, whatever it is, leaves the handler without restoring it. *)
Lemma exit_keeps_stdout e :
  let w := typed 0 interact_ two in
  let s := set_inp (set_cookedq (map KChar (txt "exit()" ++ [LF])) (inp (default (new_handler (host_process w) [])
             (sessions w !! 0)))) (default (new_handler (host_process w) []) (sessions w !! 0)) in
  let '(s', r) := serve TelnetDemo.takes TelnetDemo.wide TelnetDemo.show_exc 0 (push_with e) (λ c, c) 1 commands None false false s in
  sock_open s' = false ∧ r = Fails e ∧ sys_stdout (prc s') = 1.
Proof. vm_compute. repeat split. Qed.
End SessionsDemo.
